(** * xmilib: the XMIT / virtual tape decoder of xmission

    A shallow embedding of the parser pipeline of [xmilib.py] (class
    [XMIT]): the helper functions, the XMIT control-record walk, the
    IEBCOPY records, the PDS directory and the inspection functions, with
    the properties of the specification stated over them.

    Conventions.
    - a Python [int] is a [Z]; [bytes] is a [list byte]; a [str] is the
      list of its Unicode code points;
    - slicing and indexing follow Python: a slice is clipped to the
      sequence, a negative index counts from the end, an index outside the
      sequence raises [IndexError];
    - a method that can raise returns a [res]: [Ok], [Raise] with the
      exception, or [Loops] where the Python loop never ends;
    - a Python [dict] is an association list in insertion order, updated in
      place. *)

From Stdlib Require Import ZArith List String Ascii Bool Lia.
From Stdlib Require Import Strings.Byte.
Import ListNotations.

Open Scope Z_scope.

Set Implicit Arguments.

(** ** Python values *)

Definition bytes := list byte.
Definition str := list Z.

(** The code points of a literal. *)
Definition lit (s : string) : str :=
  map (fun a => Z.of_N (N_of_ascii a)) (list_ascii_of_string s).

Definition bv (b : byte) : Z := Z.of_N (Byte.to_N b).

Inductive exn : Type :=
| KeyError
| IndexError
| TypeError
| ValueError
| StructError
| NameError
| Exception (msg : string).

Inductive res (A : Type) : Type :=
| Ok (a : A)
| Raise (e : exn)
| Loops
| NoFuel.

Arguments Ok {A} a.
Arguments Raise {A} e.
Arguments Loops {A}.
Arguments NoFuel {A}.

Definition bind {A B} (r : res A) (k : A -> res B) : res B :=
  match r with
  | Ok a => k a
  | Raise e => Raise e
  | Loops => Loops
  | NoFuel => NoFuel
  end.

Notation "'let*' x ':=' r 'in' k" := (bind r (fun x => k))
  (at level 10, x pattern, r at level 100, k at level 200).

(** A value held in the untyped dictionaries of the parsed model. *)
Inductive value : Type :=
| VStr (s : str)
| VInt (z : Z)
| VBytes (b : bytes).

(** ** Sequences *)

Definition len {A} (l : list A) : Z := Z.of_nat (List.length l).

(** The position a slice bound denotes in a sequence of length [n]. *)
Definition norm_idx (n i : Z) : Z :=
  if i <? 0 then Z.max (i + n) 0 else Z.min i n.

(** [l[a:b]] *)
Definition slice {A} (l : list A) (a b : Z) : list A :=
  let n := len l in
  let a' := norm_idx n a in
  let b' := norm_idx n b in
  firstn (Z.to_nat (b' - a')) (skipn (Z.to_nat a') l).

(** [l[a:]] *)
Definition slice_from {A} (l : list A) (a : Z) : list A :=
  skipn (Z.to_nat (norm_idx (len l) a)) l.

(** [l[:b]] *)
Definition slice_to {A} (l : list A) (b : Z) : list A :=
  firstn (Z.to_nat (norm_idx (len l) b)) l.

(** [l[i]] *)
Definition index {A} (l : list A) (i : Z) : res A :=
  let j := if i <? 0 then i + len l else i in
  if j <? 0 then Raise IndexError
  else match nth_error l (Z.to_nat j) with
       | Some x => Ok x
       | None => Raise IndexError
       end.

(** [b'\x..' * n] *)
Definition repeat_byte (b : byte) (n : nat) : bytes := repeat b n.

Definition bytes_eqb (x y : bytes) : bool :=
  if list_eq_dec Byte.byte_eq_dec x y then true else false.

Definition str_eqb (x y : str) : bool :=
  if list_eq_dec Z.eq_dec x y then true else false.

(** [int.from_bytes(b, 'big')], the [get_int] of the class. *)
Definition get_int (b : bytes) : Z :=
  fold_left (fun acc x => acc * 256 + bv x) b 0.

(** [struct.unpack('>H', b)[0]] and [struct.unpack('>L', b)[0]]: the buffer
    must have exactly the size of the format. *)
Definition unpack_H (b : bytes) : res Z :=
  if len b =? 2 then Ok (get_int b) else Raise StructError.

Definition unpack_L (b : bytes) : res Z :=
  if len b =? 4 then Ok (get_int b) else Raise StructError.

(** ** Dictionaries in insertion order *)

Section Dict.
Variables K V : Type.
Variable eqb : K -> K -> bool.

Definition dict := list (K * V).

Fixpoint dget (d : dict) (k : K) : option V :=
  match d with
  | [] => None
  | (k', v) :: d' => if eqb k k' then Some v else dget d' k
  end.

Definition dmem (d : dict) (k : K) : bool :=
  match dget d k with Some _ => true | None => false end.

(** [d[k] = v]: a present key keeps its place. *)
Fixpoint dset (d : dict) (k : K) (v : V) : dict :=
  match d with
  | [] => [(k, v)]
  | (k', v') :: d' =>
      if eqb k k' then (k', v) :: d' else (k', v') :: dset d' k v
  end.

(** [d[k]] *)
Definition dfind (d : dict) (k : K) : res V :=
  match dget d k with Some v => Ok v | None => Raise KeyError end.

Definition dkeys (d : dict) : list K := map fst d.
End Dict.

Arguments dget {K V} eqb d k.
Arguments dmem {K V} eqb d k.
Arguments dset {K V} eqb d k v.
Arguments dfind {K V} eqb d k.
Arguments dkeys {K V} d.

(** ** Characters

    The character classes of CPython 3.11 (Unicode 14.0), as tables of
    closed code point ranges. *)

Definition in_ranges (rs : list (Z * Z)) (c : Z) : bool :=
  existsb (fun r => (fst r <=? c) && (c <=? snd r)) rs.

(** The characters [str.isspace] accepts, which are the ones [str.strip],
    [str.rstrip] and [int] drop. *)
Definition space_ranges : list (Z * Z) :=
  [
   (9, 13); (28, 32); (133, 133); (160, 160); (5760, 5760); (8192, 8202);
   (8232, 8233); (8239, 8239); (8287, 8287); (12288, 12288)].

(** The characters of category Nd: [str.isdecimal], the [\d] of [re] and
    the digits [int] reads.  Every range starts at a digit zero and runs
    over whole decades. *)
Definition decimal_ranges : list (Z * Z) :=
  [
   (48, 57); (1632, 1641); (1776, 1785); (1984, 1993); (2406, 2415); (2534, 2543);
   (2662, 2671); (2790, 2799); (2918, 2927); (3046, 3055); (3174, 3183); (3302, 3311);
   (3430, 3439); (3558, 3567); (3664, 3673); (3792, 3801); (3872, 3881); (4160, 4169);
   (4240, 4249); (6112, 6121); (6160, 6169); (6470, 6479); (6608, 6617); (6784, 6793);
   (6800, 6809); (6992, 7001); (7088, 7097); (7232, 7241); (7248, 7257); (42528, 42537);
   (43216, 43225); (43264, 43273); (43472, 43481); (43504, 43513); (43600, 43609); (44016, 44025);
   (65296, 65305); (66720, 66729); (68912, 68921); (69734, 69743); (69872, 69881); (69942, 69951);
   (70096, 70105); (70384, 70393); (70736, 70745); (70864, 70873); (71248, 71257); (71360, 71369);
   (71472, 71481); (71904, 71913); (72016, 72025); (72784, 72793); (73040, 73049); (73120, 73129);
   (92768, 92777); (92864, 92873); (93008, 93017); (120782, 120831); (123200, 123209); (123632, 123641);
   (125264, 125273); (130032, 130041)].

(** The characters with a numeric value: [str.isnumeric] holds of a string
    when it is not empty and all its characters are among these. *)
Definition numeric_ranges : list (Z * Z) :=
  [
   (48, 57); (178, 179); (185, 185); (188, 190); (1632, 1641); (1776, 1785);
   (1984, 1993); (2406, 2415); (2534, 2543); (2548, 2553); (2662, 2671); (2790, 2799);
   (2918, 2927); (2930, 2935); (3046, 3058); (3174, 3183); (3192, 3198); (3302, 3311);
   (3416, 3422); (3430, 3448); (3558, 3567); (3664, 3673); (3792, 3801); (3872, 3891);
   (4160, 4169); (4240, 4249); (4969, 4988); (5870, 5872); (6112, 6121); (6128, 6137);
   (6160, 6169); (6470, 6479); (6608, 6618); (6784, 6793); (6800, 6809); (6992, 7001);
   (7088, 7097); (7232, 7241); (7248, 7257); (8304, 8304); (8308, 8313); (8320, 8329);
   (8528, 8578); (8581, 8585); (9312, 9371); (9450, 9471); (10102, 10131); (11517, 11517);
   (12295, 12295); (12321, 12329); (12344, 12346); (12690, 12693); (12832, 12841); (12872, 12879);
   (12881, 12895); (12928, 12937); (12977, 12991); (13317, 13317); (13443, 13443); (14378, 14378);
   (15181, 15181); (19968, 19968); (19971, 19971); (19975, 19975); (19977, 19977); (20061, 20061);
   (20108, 20108); (20116, 20116); (20118, 20118); (20159, 20160); (20191, 20191); (20200, 20200);
   (20237, 20237); (20336, 20336); (20740, 20740); (20806, 20806); (20841, 20841); (20843, 20843);
   (20845, 20845); (21313, 21313); (21315, 21317); (21324, 21324); (21441, 21444); (22235, 22235);
   (22769, 22769); (22777, 22777); (24186, 24186); (24318, 24319); (24332, 24334); (24336, 24336);
   (25342, 25342); (25420, 25420); (26578, 26578); (28422, 28422); (29590, 29590); (30334, 30334);
   (32902, 32902); (33836, 33836); (36014, 36014); (36019, 36019); (36144, 36144); (38433, 38433);
   (38470, 38470); (38476, 38476); (38520, 38520); (38646, 38646); (42528, 42537); (42726, 42735);
   (43056, 43061); (43216, 43225); (43264, 43273); (43472, 43481); (43504, 43513); (43600, 43609);
   (44016, 44025); (63851, 63851); (63859, 63859); (63864, 63864); (63922, 63922); (63953, 63953);
   (63955, 63955); (63997, 63997); (65296, 65305); (65799, 65843); (65856, 65912); (65930, 65931);
   (66273, 66299); (66336, 66339); (66369, 66369); (66378, 66378); (66513, 66517); (66720, 66729);
   (67672, 67679); (67705, 67711); (67751, 67759); (67835, 67839); (67862, 67867); (68028, 68029);
   (68032, 68047); (68050, 68095); (68160, 68168); (68221, 68222); (68253, 68255); (68331, 68335);
   (68440, 68447); (68472, 68479); (68521, 68527); (68858, 68863); (68912, 68921); (69216, 69246);
   (69405, 69414); (69457, 69460); (69573, 69579); (69714, 69743); (69872, 69881); (69942, 69951);
   (70096, 70105); (70113, 70132); (70384, 70393); (70736, 70745); (70864, 70873); (71248, 71257);
   (71360, 71369); (71472, 71483); (71904, 71922); (72016, 72025); (72784, 72812); (73040, 73049);
   (73120, 73129); (73664, 73684); (74752, 74862); (92768, 92777); (92864, 92873); (93008, 93017);
   (93019, 93025); (93824, 93846); (119520, 119539); (119648, 119672); (120782, 120831); (123200, 123209);
   (123632, 123641); (125127, 125135); (125264, 125273); (126065, 126123); (126125, 126127); (126129, 126132);
   (126209, 126253); (126255, 126269); (127232, 127244); (130032, 130041); (131073, 131073); (131172, 131172);
   (131298, 131298); (131361, 131361); (133418, 133418); (133507, 133507); (133516, 133516); (133532, 133532);
   (133866, 133866); (133885, 133885); (133913, 133913); (140176, 140176); (141720, 141720); (146203, 146203);
   (156269, 156269); (194704, 194704)].

Definition isspace_char : Z -> bool := in_ranges space_ranges.
Definition isdecimal_char : Z -> bool := in_ranges decimal_ranges.
Definition isnumeric_char : Z -> bool := in_ranges numeric_ranges.

(** The value of a decimal digit, [unicodedata.decimal]. *)
Definition decimal_value (c : Z) : option Z :=
  match find (fun r => (fst r <=? c) && (c <=? snd r)) decimal_ranges with
  | Some r => Some ((c - fst r) mod 10)
  | None => None
  end.

(** [s.isnumeric()] *)
Definition isnumeric (s : str) : bool :=
  match s with
  | [] => false
  | _ => forallb isnumeric_char s
  end.

(** [s.rstrip()] *)
Fixpoint rstrip (s : str) : str :=
  match s with
  | [] => []
  | c :: s' =>
      match rstrip s' with
      | [] => if isspace_char c then [] else [c]
      | r => c :: r
      end
  end.

(** [s.lstrip()] and [s.strip()] *)
Fixpoint lstrip (s : str) : str :=
  match s with
  | [] => []
  | c :: s' => if isspace_char c then lstrip s' else s
  end.

Definition strip (s : str) : str := rstrip (lstrip s).

(** [sep.join(l)] *)
Fixpoint join (sep : str) (l : list str) : str :=
  match l with
  | [] => []
  | [x] => x
  | x :: l' => x ++ sep ++ join sep l'
  end.

(** ** Numbers as text *)

(** The digits of [n >= 0] in base [base], most significant first. *)
Fixpoint digits_fuel (fuel : nat) (base n : Z) : list Z :=
  match fuel with
  | O => []
  | S f =>
      if n <? base then [n]
      else digits_fuel f base (n / base) ++ [n mod base]
  end.

Definition digits (base n : Z) : list Z :=
  digits_fuel (S (Z.to_nat (Z.log2 n))) base n.

Definition digit_char (d : Z) : Z :=
  if d <? 10 then 48 + d else 87 + d.

(** Left padding with ['0'] up to [width] characters. *)
Definition zfill (width : nat) (s : str) : str :=
  repeat 48 (width - List.length s) ++ s.

(** [str(n)], and ['{:0<width>d}'.format(n)], for [n >= 0]. *)
Definition fmt_d (width : nat) (n : Z) : str :=
  zfill width (map digit_char (digits 10 n)).

Definition str_of_int (n : Z) : str := fmt_d 0 n.

(** [format(n, '02x')] for [n >= 0]. *)
Definition fmt_02x (n : Z) : str :=
  zfill 2 (map digit_char (digits 16 n)).

(** [int(s)]: optional surrounding white space, an optional sign, then
    decimal digits, where single underscores may separate digits. *)
Fixpoint int_body (acc : Z) (after_digit : bool) (s : str) : option Z :=
  match s with
  | [] => if after_digit then Some acc else None
  | c :: s' =>
      if c =? 95 then
        if after_digit then int_body acc false s' else None
      else
        match decimal_value c with
        | Some d => int_body (acc * 10 + d) true s'
        | None => None
        end
  end.

Definition int_of_str (s : str) : res Z :=
  let parsed :=
    match strip s with
    | 43 :: t => int_body 0 false t
    | 45 :: t => option_map Z.opp (int_body 0 false t)
    | t => int_body 0 false t
    end in
  match parsed with
  | Some z => Ok z
  | None => Raise ValueError
  end.

(** ** The EBCDIC codec

    [self.ebcdic] names a character-map codec: decoding maps every byte to
    one character.  [cp1140] is the default of the class. *)

Definition codec := byte -> Z.

Definition decode (cp : codec) (b : bytes) : str := map cp b.

Definition cp1140_table : list Z :=
  [
   0; 1; 2; 3; 156; 9; 134; 127; 151; 141; 142; 11; 12; 13; 14; 15;
   16; 17; 18; 19; 157; 133; 8; 135; 24; 25; 146; 143; 28; 29; 30; 31;
   128; 129; 130; 131; 132; 10; 23; 27; 136; 137; 138; 139; 140; 5; 6; 7;
   144; 145; 22; 147; 148; 149; 150; 4; 152; 153; 154; 155; 20; 21; 158; 26;
   32; 160; 226; 228; 224; 225; 227; 229; 231; 241; 162; 46; 60; 40; 43; 124;
   38; 233; 234; 235; 232; 237; 238; 239; 236; 223; 33; 36; 42; 41; 59; 172;
   45; 47; 194; 196; 192; 193; 195; 197; 199; 209; 166; 44; 37; 95; 62; 63;
   248; 201; 202; 203; 200; 205; 206; 207; 204; 96; 58; 35; 64; 39; 61; 34;
   216; 97; 98; 99; 100; 101; 102; 103; 104; 105; 171; 187; 240; 253; 254; 177;
   176; 106; 107; 108; 109; 110; 111; 112; 113; 114; 170; 186; 230; 184; 198; 8364;
   181; 126; 115; 116; 117; 118; 119; 120; 121; 122; 161; 191; 208; 221; 222; 174;
   94; 163; 165; 183; 169; 167; 182; 188; 189; 190; 91; 93; 175; 168; 180; 215;
   123; 65; 66; 67; 68; 69; 70; 71; 72; 73; 173; 244; 246; 242; 243; 245;
   125; 74; 75; 76; 77; 78; 79; 80; 81; 82; 185; 251; 252; 249; 250; 255;
   92; 247; 83; 84; 85; 86; 87; 88; 89; 90; 178; 212; 214; 210; 211; 213;
   48; 49; 50; 51; 52; 53; 54; 55; 56; 57; 179; 219; 220; 217; 218; 159].

Definition cp1140 : codec :=
  fun b => nth (N.to_nat (Byte.to_N b)) cp1140_table 0.

(** ** Dates: [datetime.datetime.strptime] and [isoformat]

    [strptime] compiles the format to a regular expression, one group of
    ordered alternatives for each directive, and takes the first match the
    backtracking search finds; the match must end where the string ends.
    The tables are those of CPython's [_strptime.TimeRE]. *)

Inductive cclass : Type :=
| AnyDigit                 (* \d *)
| Range (lo hi : Z)        (* [lo-hi] *).

Definition cclass_match (k : cclass) (c : Z) : bool :=
  match k with
  | AnyDigit => isdecimal_char c
  | Range lo hi => (lo <=? c) && (c <=? hi)
  end.

Definition alternative := list cclass.

Inductive directive : Type := DY | Dj | Dm | Dd | DH | DM | DS | Df.

Definition d09 := Range 48 57.
Definition one (c : Z) := Range c c.

Definition directive_re (d : directive) : list alternative :=
  match d with
  | DY => [[AnyDigit; AnyDigit; AnyDigit; AnyDigit]]
  | Dj => [[one 51; one 54; Range 48 54];
           [one 51; Range 48 53; AnyDigit];
           [Range 49 50; AnyDigit; AnyDigit];
           [one 48; Range 49 57; AnyDigit];
           [one 48; one 48; Range 49 57];
           [Range 49 57; AnyDigit];
           [one 48; Range 49 57];
           [Range 49 57]]
  | Dm => [[one 49; Range 48 50]; [one 48; Range 49 57]; [Range 49 57]]
  | Dd => [[one 51; Range 48 49]; [Range 49 50; AnyDigit];
           [one 48; Range 49 57]; [Range 49 57]; [one 32; Range 49 57]]
  | DH => [[one 50; Range 48 51]; [Range 48 49; AnyDigit]; [AnyDigit]]
  | DM => [[Range 48 53; AnyDigit]; [AnyDigit]]
  | DS => [[one 54; Range 48 49]; [Range 48 53; AnyDigit]; [AnyDigit]]
  | Df => [[d09; d09; d09; d09; d09; d09]; [d09; d09; d09; d09; d09];
           [d09; d09; d09; d09]; [d09; d09; d09]; [d09; d09]; [d09]]
  end.

(** One alternative against the front of [s]: the text it takes and the
    rest. *)
Fixpoint match_alt (a : alternative) (s : str) : option (str * str) :=
  match a with
  | [] => Some ([], s)
  | k :: a' =>
      match s with
      | [] => None
      | c :: s' =>
          if cclass_match k c then
            match match_alt a' s' with
            | Some (t, r) => Some (c :: t, r)
            | None => None
            end
          else None
      end
  end.

(** The first match of the groups in sequence, with the text of each
    group and what is left of the string. *)
Fixpoint match_groups (gs : list (list alternative)) (s : str)
  : option (list str * str) :=
  match gs with
  | [] => Some ([], s)
  | g :: gs' =>
      (fix try (alts : list alternative) : option (list str * str) :=
         match alts with
         | [] => None
         | a :: alts' =>
             match match_alt a s with
             | Some (t, r) =>
                 match match_groups gs' r with
                 | Some (ts, r') => Some (t :: ts, r')
                 | None => try alts'
                 end
             | None => try alts'
             end
         end) g
  end.

Record fields : Type := {
  f_year : Z; f_month : Z; f_day : Z;
  f_hour : Z; f_minute : Z; f_second : Z; f_fraction : Z;
  f_julian : option Z }.

Definition fields0 : fields :=
  {| f_year := 1900; f_month := 1; f_day := 1;
     f_hour := 0; f_minute := 0; f_second := 0; f_fraction := 0;
     f_julian := None |}.

(** [int(t)] on the text of a group, which is made of digits. *)
Definition group_int (t : str) : Z :=
  match int_of_str t with Ok z => z | _ => 0 end.

Definition set_field (d : directive) (t : str) (f : fields) : fields :=
  let v := group_int t in
  match d with
  | DY => {| f_year := v; f_month := f_month f; f_day := f_day f;
             f_hour := f_hour f; f_minute := f_minute f;
             f_second := f_second f; f_fraction := f_fraction f;
             f_julian := f_julian f |}
  | Dj => {| f_year := f_year f; f_month := f_month f; f_day := f_day f;
             f_hour := f_hour f; f_minute := f_minute f;
             f_second := f_second f; f_fraction := f_fraction f;
             f_julian := Some v |}
  | Dm => {| f_year := f_year f; f_month := v; f_day := f_day f;
             f_hour := f_hour f; f_minute := f_minute f;
             f_second := f_second f; f_fraction := f_fraction f;
             f_julian := f_julian f |}
  | Dd => {| f_year := f_year f; f_month := f_month f; f_day := v;
             f_hour := f_hour f; f_minute := f_minute f;
             f_second := f_second f; f_fraction := f_fraction f;
             f_julian := f_julian f |}
  | DH => {| f_year := f_year f; f_month := f_month f; f_day := f_day f;
             f_hour := v; f_minute := f_minute f;
             f_second := f_second f; f_fraction := f_fraction f;
             f_julian := f_julian f |}
  | DM => {| f_year := f_year f; f_month := f_month f; f_day := f_day f;
             f_hour := f_hour f; f_minute := v;
             f_second := f_second f; f_fraction := f_fraction f;
             f_julian := f_julian f |}
  | DS => {| f_year := f_year f; f_month := f_month f; f_day := f_day f;
             f_hour := f_hour f; f_minute := f_minute f;
             f_second := v; f_fraction := f_fraction f;
             f_julian := f_julian f |}
  | Df => {| f_year := f_year f; f_month := f_month f; f_day := f_day f;
             f_hour := f_hour f; f_minute := f_minute f;
             f_second := f_second f;
             f_fraction :=
               group_int (t ++ repeat 48 (6 - List.length t));
             f_julian := f_julian f |}
  end.

Fixpoint set_fields (ds : list directive) (ts : list str) (f : fields)
  : fields :=
  match ds, ts with
  | d :: ds', t :: ts' => set_fields ds' ts' (set_field d t f)
  | _, _ => f
  end.

(** The calendar of [datetime.date]: years 1 to 9999. *)
Definition is_leap (y : Z) : bool :=
  (y mod 4 =? 0) && (negb (y mod 100 =? 0) || (y mod 400 =? 0)).

Definition days_in_month (y m : Z) : Z :=
  if m =? 2 then (if is_leap y then 29 else 28)
  else if (m =? 4) || (m =? 6) || (m =? 9) || (m =? 11) then 30
  else 31.

Definition days_in_year (y : Z) : Z := if is_leap y then 366 else 365.

(** Month and day of the [j]-th day of year [y], for [j] within the
    year. *)
Fixpoint month_day (fuel : nat) (y m j : Z) : Z * Z :=
  match fuel with
  | O => (m, j)
  | S fuel' =>
      if j <=? days_in_month y m then (m, j)
      else month_day fuel' y (m + 1) (j - days_in_month y m)
  end.

(** [date.fromordinal(julian - 1 + date(year, 1, 1).toordinal())] for a
    day of the year from 1 to 366: day 366 of a common year is the first
    of January of the next one. *)
Definition date_of_julian (y j : Z) : res (Z * Z * Z) :=
  if (y <? 1) || (9999 <? y) then Raise ValueError
  else if j <=? days_in_year y then
    let md := month_day 11 y 1 j in Ok (y, fst md, snd md)
  else if 9999 <? y + 1 then Raise ValueError
  else
    let md := month_day 11 (y + 1) 1 (j - days_in_year y) in
    Ok (y + 1, fst md, snd md).

Record datetime : Type := {
  year : Z; month : Z; day : Z;
  hour : Z; minute : Z; second : Z; microsecond : Z }.

(** The constructor [datetime(year, month, day, hour, minute, second,
    microsecond)] with its range checks. *)
Definition mk_datetime (y mo d h mi s us : Z) : res datetime :=
  if (1 <=? y) && (y <=? 9999) && (1 <=? mo) && (mo <=? 12)
     && (1 <=? d) && (d <=? days_in_month y mo)
     && (0 <=? h) && (h <=? 23) && (0 <=? mi) && (mi <=? 59)
     && (0 <=? s) && (s <=? 59) && (0 <=? us) && (us <=? 999999)
  then Ok {| year := y; month := mo; day := d;
             hour := h; minute := mi; second := s; microsecond := us |}
  else Raise ValueError.

(** [datetime.datetime.strptime(s, format)] for a format that is a
    sequence of the directives above. *)
Definition strptime (s : str) (format : list directive) : res datetime :=
  match match_groups (map directive_re format) s with
  | None => Raise ValueError
  | Some (ts, r) =>
      match r with
      | _ :: _ => Raise ValueError
      | [] =>
          let f := set_fields format ts fields0 in
          let* ymd :=
            match f_julian f with
            | None =>
                if (1 <=? f_year f) && (f_year f <=? 9999)
                   && (1 <=? f_day f)
                   && (f_day f <=? days_in_month (f_year f) (f_month f))
                then Ok (f_year f, f_month f, f_day f)
                else Raise ValueError
            | Some j => date_of_julian (f_year f) j
            end in
          let '(y, mo, d) := ymd in
          mk_datetime y mo d (f_hour f) (f_minute f) (f_second f)
                      (f_fraction f)
      end
  end.

(** [d.isoformat(timespec='microseconds')] *)
Definition isoformat (d : datetime) : str :=
  fmt_d 4 (year d) ++ [45] ++ fmt_d 2 (month d) ++ [45] ++ fmt_d 2 (day d)
  ++ [84] ++ fmt_d 2 (hour d) ++ [58] ++ fmt_d 2 (minute d) ++ [58]
  ++ fmt_d 2 (second d) ++ [46] ++ fmt_d 6 (microsecond d).

(** A complete date and time [YYYY-MM-DDTHH:MM:SS.ffffff]. *)
Definition iso_pattern : list (option Z) :=
  [None; None; None; None; Some 45; None; None; Some 45; None; None;
   Some 84; None; None; Some 58; None; None; Some 58; None; None;
   Some 46; None; None; None; None; None; None].

Definition is_ascii_digit (c : Z) : bool := (48 <=? c) && (c <=? 57).

Fixpoint shape_match (p : list (option Z)) (s : str) : bool :=
  match p, s with
  | [], [] => true
  | None :: p', c :: s' => is_ascii_digit c && shape_match p' s'
  | Some k :: p', c :: s' => (c =? k) && shape_match p' s'
  | _, _ => false
  end.

Definition is_iso_micro (s : str) : bool := shape_match iso_pattern s.

(** ** The settings of an [XMIT] object *)

Record config : Type := {
  ebcdic : codec;
  unnum : bool;
  force : bool;
  binary : bool;
  manual_recordlength : Z }.

(** The defaults of [XMIT.__init__]. *)
Definition default_config : config :=
  {| ebcdic := cp1140; unnum := true; force := false; binary := false;
     manual_recordlength := 80 |}.

(** [x == (x & v)] *)
Definition has_bits (x v : Z) : bool := x =? Z.land x v.

(** ** Helper functions *)

(** [range(start, stop, step)] for a positive step. *)
Fixpoint range_fuel (fuel : nat) (start stop step : Z) : list Z :=
  match fuel with
  | O => []
  | S f =>
      if start <? stop then start :: range_fuel f (start + step) stop step
      else []
  end.

Definition range (start stop step : Z) : list Z :=
  range_fuel (Z.to_nat (stop - start)) start stop step.

(** [convert_text_file] *)
Definition convert_text_file (cfg : config) (ebcdic_text : bytes) (recl : Z)
  : str :=
  let asciifile := decode (ebcdic cfg) ebcdic_text in
  if recl <? 1 then asciifile ++ [10]
  else
    let seq_file :=
      map (fun i =>
             if isnumeric (slice asciifile (i + recl - 8) (i + recl))
                && unnum cfg
             then rstrip (slice asciifile i (i + recl - 8))
             else rstrip (slice asciifile i (i + recl)))
          (range 0 (len asciifile) recl) in
    join [10] seq_file ++ [10].

(** [get_dsorg]: the argument is [bytes] from a text unit or already an
    [int]; [int.from_bytes] raises [TypeError] on anything but bytes, and
    so does [&] on a string. *)
Definition get_dsorg (dsorg : value) : res str :=
  let* file_dsorg :=
    match dsorg with
    | VBytes b => Ok (get_int b)
    | VInt z => Ok z
    | VStr _ => Raise TypeError
    end in
  let org := [] in
  let org := if has_bits 0x8000 file_dsorg then lit "ISAM" else org in
  let org := if has_bits 0x4000 file_dsorg then lit "PS" else org in
  let org := if has_bits 0x2000 file_dsorg then lit "DA" else org in
  let org := if has_bits 0x1000 file_dsorg then lit "BTAM" else org in
  let org := if has_bits 0x0200 file_dsorg then lit "PO" else org in
  let org := match org with [] => lit "?" | _ => org end in
  let org := if has_bits 0x0001 file_dsorg then org ++ lit "U" else org in
  Ok org.

(** [get_recfm]: [recfm[0]] is an [int] only when [recfm] is [bytes]. *)
Definition get_recfm (recfm : value) : res str :=
  let* flag :=
    match recfm with
    | VBytes b => let* x := index b 0 in Ok (bv x)
    | VStr s => let* _ := index s 0 in Raise TypeError
    | VInt _ => Raise TypeError
    end in
  let rfm :=
    if Z.land flag 0xC0 =? 0x40 then lit "V"
    else if Z.land flag 0xC0 =? 0x80 then lit "F"
    else if Z.land flag 0xC0 =? 0xC0 then lit "U"
    else lit "?" in
  let rfm := if has_bits 0x10 flag then rfm ++ lit "B" else rfm in
  let rfm := if has_bits 0x04 flag then rfm ++ lit "A" else rfm in
  let rfm := if has_bits 0x02 flag then rfm ++ lit "M" else rfm in
  let rfm := if has_bits 0x08 flag then rfm ++ lit "S" else rfm in
  Ok rfm.

(** [ispf_date]: the date string is parsed under [try], and whatever is
    raised there gives the empty string. *)
Definition ispf_date (ispfdate : bytes) (seconds : Z) : res str :=
  let* b0 := index ispfdate 0 in
  let century := 19 + bv b0 in
  let* b1 := index ispfdate 1 in
  let year := fmt_02x (bv b1) in
  let* b2 := index ispfdate 2 in
  let* b3 := index ispfdate 3 in
  let* d3 := index (fmt_02x (bv b3)) 0 in
  let day := fmt_02x (bv b2) ++ [d3] in
  let day := if str_eqb day (lit "000") then lit "001" else day in
  let* hm :=
    if 4 <? len ispfdate then
      let* b4 := index ispfdate 4 in
      let* b5 := index ispfdate 5 in
      Ok (fmt_02x (bv b4), fmt_02x (bv b5))
    else Ok (lit "00", lit "00") in
  let '(hours, minutes) := hm in
  let seconds := if negb (seconds =? 0) then fmt_02x seconds else lit "00" in
  let date := str_of_int century ++ year ++ day ++ hours ++ minutes ++ seconds in
  match strptime date [DY; Dj; DH; DM; DS] with
  | Ok d => Ok (isoformat d)
  | _ => Ok []
  end.

(** [get_tape_date]: nothing is caught here. *)
Definition get_tape_date (tape_date : str) : res str :=
  let* c := index tape_date 0 in
  let* tape_date :=
    if c =? 32 then Ok (lit "19" ++ slice_from tape_date 1)
    else
      let* n := int_of_str [c] in
      Ok (str_of_int (20 + n) ++ slice_from tape_date 1) in
  let* l := index tape_date (-1) in
  let tape_date :=
    if l =? 48 then slice_to tape_date (-1) ++ lit "1" else tape_date in
  let* d := strptime tape_date [DY; Dj] in
  Ok (isoformat d).

(** ** XMIT text units *)

Inductive ttype : Type := character | decimal | hex.

(** The table [text_keys]: name and type of each key. *)
Definition text_keys (key : Z) : option (string * ttype) :=
  match key with
  | 0x0001 => Some ("INMDDNAM"%string, character)
  | 0x0002 => Some ("INMDSNAM"%string, character)
  | 0x0003 => Some ("INMMEMBR"%string, character)
  | 0x000B => Some ("INMSECND"%string, decimal)
  | 0x000C => Some ("INMDIR"%string, decimal)
  | 0x0022 => Some ("INMEXPDT"%string, character)
  | 0x0028 => Some ("INMTERM"%string, character)
  | 0x0030 => Some ("INMBLKSZ"%string, decimal)
  | 0x003C => Some ("INMDSORG"%string, hex)
  | 0x0042 => Some ("INMLRECL"%string, decimal)
  | 0x0049 => Some ("INMRECFM"%string, hex)
  | 0x1001 => Some ("INMTNODE"%string, character)
  | 0x1002 => Some ("INMTUID"%string, character)
  | 0x1011 => Some ("INMFNODE"%string, character)
  | 0x1012 => Some ("INMFUID"%string, character)
  | 0x1020 => Some ("INMLREF"%string, character)
  | 0x1021 => Some ("INMLCHG"%string, character)
  | 0x1022 => Some ("INMCREAT"%string, character)
  | 0x1023 => Some ("INMFVERS"%string, character)
  | 0x1024 => Some ("INMFTIME"%string, character)
  | 0x1025 => Some ("INMTTIME"%string, character)
  | 0x1026 => Some ("INMFACK"%string, character)
  | 0x1027 => Some ("INMERRCD"%string, character)
  | 0x1028 => Some ("INMUTILN"%string, character)
  | 0x1029 => Some ("INMUSERP"%string, character)
  | 0x102A => Some ("INMRECCT"%string, character)
  | 0x102C => Some ("INMSIZE"%string, decimal)
  | 0x102F => Some ("INMNUMF"%string, decimal)
  | 0x8012 => Some ("INMTYPE"%string, hex)
  | _ => None
  end.

(** The dictionary a text-unit stream decodes to. *)
Definition tudict := dict string value.

(** The variables of [text_units]: the position, the dictionary built so
    far, the dataset name accumulated so far with a dot after each part,
    and [self.msg]. *)
Record tu_state : Type := {
  tu_loc : Z;
  tu : tudict;
  INMDSNAM : str;
  tu_msg : bool }.

(** The value of one item of a known key, and the dataset name after it:
    the body of [if key in text_keys] up to the assignment to [tu]. *)
Definition item_value (cfg : config) (name : string) (ty : ttype)
  (item : bytes) (dsnam : str) : value * str :=
  let '(value, dsnam) :=
    match ty with
    | character =>
        (VStr (decode (ebcdic cfg) item),
         if String.eqb name "INMDSNAM"
         then dsnam ++ decode (ebcdic cfg) item ++ lit "."
         else dsnam)
    | decimal => (VInt (get_int item), dsnam)
    | hex =>
        (if String.eqb name "INMTYPE" then
           let v := get_int item in
           if v =? 0x80 then VStr (lit "Data Library")
           else if v =? 0x40 then VStr (lit "Program Library")
           else VStr (lit "None")
         else VBytes item,
         dsnam)
    end in
  match dsnam with
  | [] => (value, dsnam)
  | _ => (VStr (slice_to dsnam (-1)), dsnam)
  end.

(** One turn of [for i in range(0, num)]. *)
Definition text_unit_item (cfg : config) (text_records : bytes) (key : Z)
  (first : bool) (st : tu_state) : tu_state :=
  let loc := tu_loc st in
  let tlen :=
    if first then get_int (slice text_records (loc + 4) (loc + 6))
    else get_int (slice text_records loc (loc + 2)) in
  let item :=
    if first then slice text_records (loc + 6) (loc + 6 + tlen)
    else slice text_records (loc + 2) (loc + 2 + tlen) in
  let '(tu', dsnam') :=
    match text_keys key with
    | Some (name, ty) =>
        let '(v, d) := item_value cfg name ty item (INMDSNAM st) in
        (dset String.eqb (tu st) name v, d)
    | None => (tu st, INMDSNAM st)
    end in
  {| tu_loc := if first then loc + 6 + tlen else loc + 2 + tlen;
     tu := tu'; INMDSNAM := dsnam'; tu_msg := tu_msg st |}.

Fixpoint text_unit_items (cfg : config) (text_records : bytes) (key : Z)
  (first : bool) (num : nat) (st : tu_state) : tu_state :=
  match num with
  | O => st
  | S n =>
      text_unit_items cfg text_records key false n
        (text_unit_item cfg text_records key first st)
  end.

(** One turn of [while loc < len(text_records)]. *)
Definition text_units_step (cfg : config) (text_records : bytes)
  (st : tu_state) : res tu_state :=
  let loc := tu_loc st in
  let* key := unpack_H (slice text_records loc (loc + 2)) in
  let* num := unpack_H (slice text_records (loc + 2) (loc + 4)) in
  let loc := if (key =? 0x1026) && (num =? 0) then loc + 4 else loc in
  let '(loc, msg) :=
    if (key =? 0x0028) && (num =? 0) then (loc + 4, true)
    else (loc, tu_msg st) in
  Ok (text_unit_items cfg text_records key true (Z.to_nat num)
        {| tu_loc := loc; tu := tu st; INMDSNAM := INMDSNAM st;
           tu_msg := msg |}).

(** The loop of [text_units].  A turn that leaves [loc] where it was (a
    unit without items whose key is neither [0x1026] nor [0x0028]) leaves
    all the variables as they were: the loop never ends. *)
Fixpoint text_units_loop (fuel : nat) (cfg : config) (text_records : bytes)
  (st : tu_state) : res tu_state :=
  if tu_loc st <? len text_records then
    match fuel with
    | O => NoFuel
    | S fuel' =>
        let* st' := text_units_step cfg text_records st in
        if tu_loc st' =? tu_loc st then Loops
        else text_units_loop fuel' cfg text_records st'
    end
  else Ok st.

(** [text_units]: the dictionary, and [self.msg] afterwards. *)
Definition text_units (cfg : config) (msg : bool) (text_records : bytes)
  : res (tudict * bool) :=
  let* st :=
    text_units_loop (List.length text_records) cfg text_records
      {| tu_loc := 0; tu := []; INMDSNAM := []; tu_msg := msg |} in
  Ok (tu st, tu_msg st).

(** ** The parsed model of an XMIT file *)

Definition value_eqb (x y : value) : bool :=
  match x, y with
  | VStr a, VStr b => str_eqb a b
  | VInt a, VInt b => a =? b
  | VBytes a, VBytes b => bytes_eqb a b
  | _, _ => false
  end.

(** [self.xmit['message']] *)
Record message : Type := {
  m_file : bytes;
  m_lrecl : value;
  m_text : option str }.

(** The ISPF statistics of a member. *)
Record ispf_stats : Type := {
  version : str;
  flags : Z;
  createdate : str;
  modifydate : str;
  lines : Z;
  newlines : Z;
  modlines : Z;
  user : str }.

(** What the directory says of a member. *)
Record dir_entry : Type := {
  ttr : Z;
  halfwords : Z;
  notes : Z;
  parms : bytes;
  ispf : option ispf_stats }.

(** An entry of [members]: the keys of the directory, which a [DELETED]
    member lacks, the alias flag, and what [process_blocks] adds. *)
Record member : Type := {
  entry : option dir_entry;
  alias : bool;
  mimetype : option str;
  datatype : option str;
  extension : option str;
  text : option str;
  data : option bytes }.

Definition members_dict := dict str member.

(** An entry of [self.xmit['file']]: the list of the records of the file
    and, for a PDS, its members. *)
Record xfile : Type := {
  x_data : list bytes;
  x_members : option members_dict }.

Definition with_data (f : xfile) (d : list bytes) : xfile :=
  {| x_data := d; x_members := x_members f |}.

(** [self.xmit]: each key is absent until it is first assigned. *)
Record xmit_dict : Type := {
  x_INMR01 : option tudict;
  x_INMR02 : option (dict Z tudict);
  x_INMR03 : option (dict Z tudict);
  x_message : option message;
  x_file : option (dict value xfile) }.

(** The attributes of the object the parser reads and writes. *)
Record xmit_obj : Type := {
  xmit : xmit_dict;
  msg : bool;
  INMR02_count : Z;
  INMR03_count : Z;
  filelocation : Z }.

Definition empty_xmit : xmit_dict :=
  {| x_INMR01 := None; x_INMR02 := None; x_INMR03 := None;
     x_message := None; x_file := None |}.

(** The object as [__init__] leaves it. *)
Definition new_XMIT : xmit_obj :=
  {| xmit := empty_xmit; msg := false; INMR02_count := 0;
     INMR03_count := 0; filelocation := 1 |}.

(** [d[k]] for a key of [self.xmit]. *)
Definition key {A} (o : option A) : res A :=
  match o with Some a => Ok a | None => Raise KeyError end.

Definition set_xmit (o : xmit_obj) (x : xmit_dict) : xmit_obj :=
  {| xmit := x; msg := msg o; INMR02_count := INMR02_count o;
     INMR03_count := INMR03_count o; filelocation := filelocation o |}.

(** [parse_INMR01] *)
Definition parse_INMR01 (cfg : config) (o : xmit_obj) (inmr01_record : bytes)
  : res xmit_obj :=
  let* r := text_units cfg (msg o) inmr01_record in
  let '(t, m) := r in
  let* t :=
    match dget String.eqb t "INMFTIME"%string with
    | Some v =>
        let* s := match v with VStr s => Ok s | _ => Raise TypeError end in
        let s := s ++ repeat 48 (20 - List.length s) in
        let* d := strptime s [DY; Dm; Dd; DH; DM; DS; Df] in
        Ok (dset String.eqb t "INMFTIME"%string (VStr (isoformat d)))
    | None => Ok t
    end in
  Ok {| xmit :=
          {| x_INMR01 := Some t; x_INMR02 := x_INMR02 (xmit o);
             x_INMR03 := x_INMR03 (xmit o);
             x_message := x_message (xmit o); x_file := x_file (xmit o) |};
        msg := m; INMR02_count := INMR02_count o;
        INMR03_count := INMR03_count o; filelocation := filelocation o |}.

(** The two translations both [parse_INMR02] and [parse_INMR03] make. *)
Definition translate_dsorg_recfm (t : tudict) : res tudict :=
  let* dsorg := dfind String.eqb t "INMDSORG"%string in
  let* org := get_dsorg dsorg in
  let t := dset String.eqb t "INMDSORG"%string (VStr org) in
  let* recfm := dfind String.eqb t "INMRECFM"%string in
  let* rfm := get_recfm recfm in
  Ok (dset String.eqb t "INMRECFM"%string (VStr rfm)).

(** [parse_INMR02] *)
Definition parse_INMR02 (cfg : config) (o : xmit_obj) (inmr02_record : bytes)
  : res xmit_obj :=
  let count := INMR02_count o + 1 in
  let* numfiles := unpack_L (slice inmr02_record 0 4) in
  let* r := text_units cfg (msg o) (slice_from inmr02_record 4) in
  let '(t, m) := r in
  let* t := translate_dsorg_recfm t in
  let t := dset String.eqb t "numfile"%string (VInt numfiles) in
  let d := match x_INMR02 (xmit o) with Some d => d | None => [] end in
  Ok {| xmit :=
          {| x_INMR01 := x_INMR01 (xmit o);
             x_INMR02 := Some (dset Z.eqb d count t);
             x_INMR03 := x_INMR03 (xmit o);
             x_message := x_message (xmit o); x_file := x_file (xmit o) |};
        msg := m; INMR02_count := count;
        INMR03_count := INMR03_count o; filelocation := filelocation o |}.

(** [parse_INMR03] *)
Definition parse_INMR03 (cfg : config) (o : xmit_obj) (inmr03_record : bytes)
  : res xmit_obj :=
  let count := INMR03_count o + 1 in
  let* r := text_units cfg (msg o) inmr03_record in
  let '(t, m) := r in
  let* t := translate_dsorg_recfm t in
  let d := match x_INMR03 (xmit o) with Some d => d | None => [] end in
  Ok {| xmit :=
          {| x_INMR01 := x_INMR01 (xmit o);
             x_INMR02 := x_INMR02 (xmit o);
             x_INMR03 := Some (dset Z.eqb d count t);
             x_message := x_message (xmit o); x_file := x_file (xmit o) |};
        msg := m; INMR02_count := INMR02_count o;
        INMR03_count := count; filelocation := filelocation o |}.

(** [recl < 1] and the rest of [convert_text_file] need an [int]. *)
Definition int_value (v : value) : res Z :=
  match v with VInt z => Ok z | _ => Raise TypeError end.

(** [convert_message] *)
Definition convert_message (cfg : config) (o : xmit_obj) : res xmit_obj :=
  if negb (msg o) then Ok o
  else
    let* m := key (x_message (xmit o)) in
    let* recl := int_value (m_lrecl m) in
    let text := convert_text_file cfg (m_file m) recl in
    Ok (set_xmit o
          {| x_INMR01 := x_INMR01 (xmit o); x_INMR02 := x_INMR02 (xmit o);
             x_INMR03 := x_INMR03 (xmit o);
             x_message :=
               Some {| m_file := m_file m; m_lrecl := m_lrecl m;
                       m_text := Some text |};
             x_file := x_file (xmit o) |}).

(** The branch of [parse_xmi] for a segment that is not a control record:
    the bytes go to the message or to the current file. *)
Definition data_segment (o : xmit_obj) (record_data : bytes) (flag : Z)
  (payload : bytes) : res (xmit_obj * bytes) :=
  let x := xmit o in
  let* inmr02 := key (x_INMR02 x) in
  let* first := dfind Z.eqb inmr02 1 in
  let* is_message :=
    if negb (dmem String.eqb first "INMDSNAM"%string) && msg o then
      let* inmr03 := key (x_INMR03 x) in
      Ok (len inmr03 <? 2)
    else Ok false in
  if is_message then
    let* m :=
      match x_message x with
      | Some m => Ok m
      | None =>
          let* inmr03 := key (x_INMR03 x) in
          let* t := dfind Z.eqb inmr03 1 in
          let* lrecl := dfind String.eqb t "INMLRECL"%string in
          Ok {| m_file := []; m_lrecl := lrecl; m_text := None |}
      end in
    let m := {| m_file := m_file m ++ payload; m_lrecl := m_lrecl m;
                m_text := m_text m |} in
    Ok ({| xmit :=
             {| x_INMR01 := x_INMR01 x; x_INMR02 := x_INMR02 x;
                x_INMR03 := x_INMR03 x; x_message := Some m;
                x_file := x_file x |};
           msg := msg o; INMR02_count := INMR02_count o;
           INMR03_count := INMR03_count o; filelocation := 2 |},
        record_data)
  else
    let* t := dfind Z.eqb inmr02 (filelocation o) in
    let* dsn := dfind String.eqb t "INMDSNAM"%string in
    let files := match x_file x with Some f => f | None => [] end in
    let files :=
      if dmem value_eqb files dsn then files
      else dset value_eqb files dsn {| x_data := []; x_members := None |} in
    let record_data := record_data ++ payload in
    let* files_record :=
      if has_bits 0x40 flag then
        let* f := dfind value_eqb files dsn in
        Ok (dset value_eqb files dsn (with_data f (x_data f ++ [record_data])),
            [])
      else Ok (files, record_data) in
    let '(files, record_data) := files_record in
    Ok (set_xmit o
          {| x_INMR01 := x_INMR01 x; x_INMR02 := x_INMR02 x;
             x_INMR03 := x_INMR03 x; x_message := x_message x;
             x_file := Some files |},
        record_data).

(** What one turn of the loop of [parse_xmi] ends in. *)
Inductive turn : Type :=
| Next (o : xmit_obj) (record_data : bytes)
| Return (o : xmit_obj).

(** One turn of [while loc < len(self.xmit_object)], without the final
    [loc += section_length]. *)
Definition parse_xmi_step (cfg : config) (xmit_object : bytes) (loc : Z)
  (o : xmit_obj) (record_data : bytes) : res turn :=
  let section_length := get_int (slice xmit_object loc (loc + 1)) in
  let flag := get_int (slice xmit_object (loc + 1) (loc + 2)) in
  let* r :=
    if negb (has_bits 0x20 flag) then
      data_segment o record_data flag
        (slice xmit_object (loc + 2) (loc + section_length))
    else Ok (o, record_data) in
  let '(o, record_data) := r in
  if has_bits 0x20 flag then
    let record_type :=
      decode (ebcdic cfg) (slice xmit_object (loc + 2) (loc + 8)) in
    let body := slice xmit_object (loc + 8) (loc + section_length) in
    if str_eqb record_type (lit "INMR01") then
      let* o := parse_INMR01 cfg o body in Ok (Next o record_data)
    else if str_eqb record_type (lit "INMR02") then
      let* o := parse_INMR02 cfg o body in Ok (Next o record_data)
    else if str_eqb record_type (lit "INMR03") then
      let* o := parse_INMR03 cfg o body in Ok (Next o record_data)
    else if str_eqb record_type (lit "INMR06") then Ok (Return o)
    else Ok (Next o record_data)
  else Ok (Next o record_data).

(** The loop of [parse_xmi]: the object, and the position of the [INMR06]
    record when one ended the walk.  A segment of length zero that neither
    raises nor returns is read again for ever. *)
Fixpoint parse_xmi_loop (fuel : nat) (cfg : config) (xmit_object : bytes)
  (loc : Z) (o : xmit_obj) (record_data : bytes)
  : res (xmit_obj * option Z) :=
  if loc <? len xmit_object then
    match fuel with
    | O => NoFuel
    | S fuel' =>
        let* t := parse_xmi_step cfg xmit_object loc o record_data in
        match t with
        | Return o' => Ok (o', Some loc)
        | Next o' record_data' =>
            let section_length := get_int (slice xmit_object loc (loc + 1)) in
            if section_length =? 0 then Loops
            else parse_xmi_loop fuel' cfg xmit_object (loc + section_length)
                   o' record_data'
        end
    end
  else Ok (o, None).

(** The walk of [parse_xmi] from the start of the file. *)
Definition parse_xmi_walk (cfg : config) (o : xmit_obj) (xmit_object : bytes)
  : res (xmit_obj * option Z) :=
  let o := set_xmit o empty_xmit in
  let segment_name := decode (ebcdic cfg) (slice xmit_object 2 8) in
  if negb (str_eqb segment_name (lit "INMR01")) then
    Raise (Exception "No INMR01 record found in {}."%string)
  else parse_xmi_loop (List.length xmit_object) cfg xmit_object 0 o [].

(** [parse_xmi]: on [INMR06] the method returns at once, otherwise the
    message is converted after the loop. *)
Definition parse_xmi (cfg : config) (o : xmit_obj) (xmit_object : bytes)
  : res xmit_obj :=
  let* r := parse_xmi_walk cfg o xmit_object in
  match r with
  | (o', Some _) => Ok o'
  | (o', None) => convert_message cfg o'
  end.

(** ** IEBCOPY control records *)

Record COPYR1 : Type := {
  c_type : str;
  block_length : option Z;
  seg_length : option Z;
  DS1DSORG : Z;
  DS1BLKL : Z;
  DS1LRECL : Z;
  DS1RECFM : str;
  DS1KEYL : Z;
  DS1OPTCD : Z;
  DS1SMSFG : Z;
  file_tape_blocksize : Z;
  DVAOPTS : Z;
  DVACLASS : Z;
  DVAUNIT : Z;
  DVAMAXRC : Z;
  DVACYL : Z;
  DVATRK : Z;
  DVATRKLN : Z;
  DVAOVHD : Z;
  num_header_records : Z;
  DS1REFD : option str;
  DS1SCEXT : option bytes;
  DS1SCALO : option bytes;
  DS1LSTAR : option bytes;
  DS1TRBAL : option bytes }.

Definition eyecatcher : Z := 0xCA6D0F.

(** The messages of the two exceptions [iebcopy_record_1] raises itself
    (the format strings, without the length). *)
Definition no_eyecatcher : string :=
  "COPYR1 header eyecatcher 0xCA6D0F not found".
Definition too_long : string := "COPYR1 Length {} longer than 64 records".

(** The fields read when bytes follow the device fields. *)
Definition copyr1_tail (first_record : bytes)
  : res (option str * option bytes * option bytes * option bytes
         * option bytes) :=
  if negb (bytes_eqb (slice_from first_record 38) (repeat_byte x00 18)) then
    let* _ := index first_record 38 in
    let refd := slice first_record 39 42 in
    let* r0 := index refd 0 in
    Ok (Some (fmt_d 2 (bv r0 mod 100) ++ fmt_d 4 (get_int (slice_from refd 1))),
        Some (slice first_record 42 45), Some (slice first_record 45 49),
        Some (slice first_record 49 52), Some (slice first_record 52 54))
  else Ok (None, None, None, None, None).

(** [iebcopy_record_1] *)
Definition iebcopy_record_1 (first_record : bytes) : res COPYR1 :=
  if negb (get_int (slice first_record 1 4) =? eyecatcher)
     && negb (get_int (slice first_record 9 12) =? eyecatcher)
  then Raise (Exception no_eyecatcher)
  else if 64 <? len first_record then Raise (Exception too_long)
  else
    let '(bl, sl, first_record) :=
      if negb (get_int (slice first_record 1 4) =? eyecatcher) then
        (Some (get_int (slice first_record 0 2)),
         Some (get_int (slice first_record 4 6)),
         slice_from first_record 8)
      else (None, None, first_record) in
    let* b0 := index first_record 0 in
    let ty := if negb (Z.land (bv b0) 0x01 =? 0) then lit "PDSE" else lit "PDS" in
    let* recfm := get_recfm (VBytes (slice first_record 10 12)) in
    let* keyl := index first_record 11 in
    let* optcd := index first_record 12 in
    let* smsfg := index first_record 13 in
    let* dvaclass := index first_record 18 in
    let* dvaunit := index first_record 19 in
    let* t := copyr1_tail first_record in
    let '(refd, scext, scalo, lstar, trbal) := t in
    Ok {| c_type := ty; block_length := bl; seg_length := sl;
          DS1DSORG := get_int (slice first_record 4 6);
          DS1BLKL := get_int (slice first_record 6 8);
          DS1LRECL := get_int (slice first_record 8 10);
          DS1RECFM := recfm;
          DS1KEYL := bv keyl; DS1OPTCD := bv optcd; DS1SMSFG := bv smsfg;
          file_tape_blocksize := get_int (slice first_record 14 16);
          DVAOPTS := get_int (slice first_record 16 18);
          DVACLASS := bv dvaclass; DVAUNIT := bv dvaunit;
          DVAMAXRC := get_int (slice first_record 20 24);
          DVACYL := get_int (slice first_record 24 26);
          DVATRK := get_int (slice first_record 26 28);
          DVATRKLN := get_int (slice first_record 28 30);
          DVAOVHD := get_int (slice first_record 30 32);
          num_header_records := get_int (slice first_record 36 38);
          DS1REFD := refd; DS1SCEXT := scext; DS1SCALO := scalo;
          DS1LSTAR := lstar; DS1TRBAL := trbal |}.

Record COPYR2 : Type := {
  deb : bytes;
  extents : list bytes }.

(** [iebcopy_record_2]: the message of the exception for a long record
    names [first_record], which this method does not have, so that
    [NameError] is what is raised. *)
Definition iebcopy_record_2 (second_record : bytes) : res COPYR2 :=
  if 276 <? len second_record then Raise NameError
  else
    let deb := slice second_record 0 16 in
    let deb_extents :=
      map (fun i => slice second_record i (i + 16)) (range 0 256 16) in
    Ok {| deb := deb; extents := deb_extents |}.

(** ** The PDS directory *)

(** The entry of the member at [loc] in the member area of a directory
    block, with its alias flag: the [else] branch of the inner loop of
    [get_members_info]. *)
Definition member_entry (cfg : config) (directory_members_info : bytes)
  (loc : Z) : res member :=
  let* f := index directory_members_info (loc + 11) in
  let ttr := get_int (slice directory_members_info (loc + 8) (loc + 11)) in
  let alias := Z.land (bv f) 0x80 =? 0x80 in
  let halfwords := Z.land (bv f) 0x1F * 2 in
  let notes := Z.shiftr (Z.land (bv f) 0x60) 5 in
  let parms :=
    slice directory_members_info (loc + 12) (loc + 12 + halfwords) in
  let* stats :=
    if (30 <=? len parms) && (notes =? 0) then
      let member_parms := parms in
      let* p0 := index member_parms 0 in
      let* p1 := index member_parms 1 in
      let* p2 := index member_parms 2 in
      let* created := ispf_date (slice member_parms 4 8) 0 in
      let* p3 := index member_parms 3 in
      let* modified := ispf_date (slice member_parms 8 14) (bv p3) in
      let st :=
        {| version := fmt_d 2 (bv p0) ++ lit "." ++ fmt_d 2 (bv p1);
           flags := bv p2;
           createdate := created;
           modifydate := modified;
           lines := get_int (slice member_parms 14 16);
           newlines := get_int (slice member_parms 16 18);
           modlines := get_int (slice member_parms 18 20);
           user := rstrip (decode (ebcdic cfg) (slice member_parms 20 28)) |} in
      if has_bits 0x10 (flags st) then
        Ok (Some {| version := version st; flags := flags st;
                    createdate := createdate st;
                    modifydate := modifydate st;
                    lines := get_int (slice member_parms 28 32);
                    newlines := get_int (slice member_parms 32 36);
                    modlines := get_int (slice member_parms 36 40);
                    user := user st |})
      else Ok (Some st)
    else Ok None in
  Ok {| entry := Some {| ttr := ttr; halfwords := halfwords; notes := notes;
                         parms := parms; ispf := stats |};
        alias := alias; mimetype := None; datatype := None;
        extension := None; text := None; data := None |}.

(** The inner loop of [get_members_info], over one directory block: the
    members, and the value of [loc] after the loop. *)
Fixpoint directory_block (fuel : nat) (cfg : config) (directory : bytes)
  (directory_members_info : bytes) (directory_len : Z) (loc : Z)
  (members : members_dict) : res (members_dict * Z) :=
  if loc <? directory_len then
    match fuel with
    | O => NoFuel
    | S fuel' =>
        let name_bytes := slice directory_members_info loc (loc + 8) in
        let member_name := rstrip (decode (ebcdic cfg) name_bytes) in
        if bytes_eqb name_bytes (repeat_byte xff 8) then
          Ok (members, len directory)
        else
          let* m := member_entry cfg directory_members_info loc in
          let members := dset str_eqb members member_name m in
          let hw := match entry m with Some e => halfwords e | None => 0 end in
          directory_block fuel' cfg directory directory_members_info
            directory_len (loc + 8 + 3 + 1 + hw) members
    end
  else Ok (members, loc).

(** The outer loop of [get_members_info], over the blocks of 276 bytes. *)
Fixpoint directory_blocks (fuel : nat) (cfg : config) (directory : bytes)
  (block_loc : Z) (members : members_dict) : res members_dict :=
  if block_loc <? len directory then
    match fuel with
    | O => NoFuel
    | S fuel' =>
        let directory_len :=
          get_int (slice directory (block_loc + 20) (block_loc + 22)) - 2 in
        let directory_members_info :=
          slice directory (block_loc + 22) (block_loc + 22 + directory_len) in
        let* r :=
          directory_block (Z.to_nat directory_len) cfg directory
            directory_members_info directory_len 0 members in
        let '(members, loc) := r in
        let block_loc := block_loc + loc + 24 in
        let block_loc :=
          if 0 <? block_loc mod 276 then 276 * (block_loc / 276) + 276
          else block_loc in
        directory_blocks fuel' cfg directory block_loc members
    end
  else Ok members.

(** [get_members_info] *)
Definition get_members_info (cfg : config) (directory : bytes)
  : res members_dict :=
  directory_blocks (List.length directory) cfg directory 0 [].

(** ** The TTR table of [process_blocks]

    The part of [process_blocks] before the walk over the data blocks: the
    dictionary of TTRs to members, with the aliases that no member owns. *)

Definition with_alias (m : member) (a : bool) : member :=
  {| entry := entry m; alias := a; mimetype := mimetype m;
     datatype := datatype m; extension := extension m; text := text m;
     data := data m |}.

(** [dsn['members'][m]['ttr']] *)
Definition member_ttr (members : members_dict) (m : str) : res Z :=
  let* x := dfind str_eqb members m in
  match entry x with
  | Some e => Ok (ttr e)
  | None => Raise KeyError
  end.

(** [for m in dsn['members']]: aliases on one side, the others on the
    other, both keyed by TTR. *)
Fixpoint ttr_tables (members : members_dict) (names : list str)
  (ttrs aliases : dict Z str) : res (dict Z str * dict Z str) :=
  match names with
  | [] => Ok (ttrs, aliases)
  | m :: names' =>
      let* x := dfind str_eqb members m in
      let* t := member_ttr members m in
      if alias x then
        ttr_tables members names' ttrs (dset Z.eqb aliases t m)
      else
        ttr_tables members names' (dset Z.eqb ttrs t m) aliases
  end.

(** [for a in aliases]: an alias whose TTR no member owns becomes the
    owner. *)
Fixpoint promote_aliases (aliases : dict Z str) (keys : list Z)
  (ttrs : dict Z str) (members : members_dict)
  : res (dict Z str * members_dict) :=
  match keys with
  | [] => Ok (ttrs, members)
  | a :: keys' =>
      if negb (dmem Z.eqb ttrs a) then
        let* name := dfind Z.eqb aliases a in
        let* t := member_ttr members name in
        let* x := dfind str_eqb members name in
        promote_aliases aliases keys' (dset Z.eqb ttrs t name)
          (dset str_eqb members name (with_alias x false))
      else promote_aliases aliases keys' ttrs members
  end.

(** The TTR table and the members of [process_blocks] when the walk over
    the data blocks starts. *)
Definition process_blocks_ttrs (members : members_dict)
  : res (dict Z str * members_dict) :=
  let* r := ttr_tables members (dkeys members) [] [] in
  let '(ttrs, aliases) := r in
  promote_aliases aliases (dkeys aliases) ttrs members.

(** ** The inspection functions *)

(** An entry of [self.tape['file']]. *)
Record tfile : Type := {
  t_data : bytes;
  t_members : option members_dict }.

(** [self.tape] *)
Record tape_dict : Type := {
  t_file : option (dict value tfile);
  t_label : option (str * str) }.

(** The two attributes the inspection functions read. *)
Record archive : Type := {
  a_xmit : xmit_dict;
  a_tape : tape_dict }.

(** The truth value of [self.xmit] and of [self.tape]: a dictionary with
    a key. *)
Definition xmit_nonempty (x : xmit_dict) : bool :=
  match x_INMR01 x, x_INMR02 x, x_INMR03 x, x_message x, x_file x with
  | None, None, None, None, None => false
  | _, _, _, _, _ => true
  end.

Definition tape_nonempty (t : tape_dict) : bool :=
  match t_file t, t_label t with
  | None, None => false
  | _, _ => true
  end.

(** [check_parsed] *)
Definition check_parsed (a : archive) : res unit :=
  if negb (xmit_nonempty (a_xmit a)) && negb (tape_nonempty (a_tape a)) then
    Raise (Exception "No XMI or Virtual Tape loaded."%string)
  else if xmit_nonempty (a_xmit a)
          && match x_INMR01 (a_xmit a) with None => true | _ => false end
  then Raise (Exception "No INMR01 in XMI file, has it been parsed yet?"%string)
  else Ok tt.

(** [has_xmi] *)
Definition has_xmi (a : archive) : res bool :=
  let* _ := check_parsed a in
  Ok (xmit_nonempty (a_xmit a)).

(** [self.xmit['file'][pds]['members']] or
    [self.tape['file'][pds]['members']], as [has_xmi] says. *)
Definition members_of (a : archive) (pds : value) : res members_dict :=
  let* x := has_xmi a in
  if x then
    let* files := key (x_file (a_xmit a)) in
    let* f := dfind value_eqb files pds in
    key (x_members f)
  else
    let* files := key (t_file (a_tape a)) in
    let* f := dfind value_eqb files pds in
    key (t_members f).

(** [is_alias] *)
Definition is_alias (a : archive) (pds : value) (member : str) : res bool :=
  let* _ := check_parsed a in
  let* members := members_of a pds in
  let* m := dfind str_eqb members member in
  Ok (alias m).

(** The loop of [get_alias]: the first member that has a TTR, is not an
    alias and has the TTR looked for. *)
Fixpoint find_alias_target (members : members_dict) (names : list str)
  (alias_ttr : Z) : res (option str) :=
  match names with
  | [] => Ok None
  | m :: names' =>
      let* x := dfind str_eqb members m in
      match entry x with
      | Some e =>
          if negb (alias x) && (ttr e =? alias_ttr) then Ok (Some m)
          else find_alias_target members names' alias_ttr
      | None => find_alias_target members names' alias_ttr
      end
  end.

(** [get_alias] *)
Definition get_alias (a : archive) (pds : value) (member : str)
  : res (option str) :=
  let* _ := check_parsed a in
  let* members := members_of a pds in
  let* alias_ttr := member_ttr members member in
  find_alias_target members (dkeys members) alias_ttr.

(** [get_member_decoded]: the name [get_alias] gives replaces [member];
    when it is [None] the lookup of the member raises [KeyError]. *)
Definition get_member_decoded (a : archive) (pds : value) (member : str)
  : res value :=
  let* _ := check_parsed a in
  let* al := is_alias a pds member in
  let* member :=
    if al then get_alias a pds member else Ok (Some member) in
  let* members := members_of a pds in
  let* rfile :=
    match member with
    | Some m => dfind str_eqb members m
    | None => Raise KeyError
    end in
  match text rfile, data rfile with
  | Some t, _ => Ok (VStr t)
  | None, Some d => Ok (VBytes d)
  | None, None => Ok (VBytes [])
  end.

(** ** Variable-length records *)

(** The loop of [handle_vb]: [lrecl] is the length the turn before read. *)
Fixpoint handle_vb_loop (fuel : nat) (vbdata : bytes) (loc lrecl : Z)
  (data : list bytes) : res (list bytes) :=
  if (loc <? len vbdata) && (0 <? lrecl) then
    match fuel with
    | O => NoFuel
    | S fuel' =>
        let lrecl := get_int (slice vbdata loc (loc + 2)) in
        handle_vb_loop fuel' vbdata (loc + lrecl) lrecl
          (data ++ [slice vbdata (loc + 4) (loc + lrecl)])
    end
  else Ok data.

(** [handle_vb]: the first four bytes are the block descriptor. *)
Definition handle_vb (vbdata : bytes) : res (list bytes) :=
  handle_vb_loop (S (List.length vbdata)) vbdata 4 10 [].

(** [has_tape] *)
Definition has_tape (a : archive) : res bool :=
  let* _ := check_parsed a in
  Ok (tape_nonempty (a_tape a)).

(** [get_files]: the names of the files of the XMIT, then those of the
    tape. *)
Definition get_files (a : archive) : res (list value) :=
  let* _ := check_parsed a in
  let* x := has_xmi a in
  let* f1 :=
    if x then let* files := key (x_file (a_xmit a)) in Ok (dkeys files)
    else Ok [] in
  let* t := has_tape a in
  let* f2 :=
    if t then let* files := key (t_file (a_tape a)) in Ok (dkeys files)
    else Ok [] in
  Ok (f1 ++ f2).

(** [get_members] *)
Definition get_members (a : archive) (pds : value) : res (list str) :=
  let* _ := check_parsed a in
  let* x := has_xmi a in
  let* m1 :=
    if x then
      let* files := key (x_file (a_xmit a)) in
      let* f := dfind value_eqb files pds in
      Ok (match x_members f with Some ms => dkeys ms | None => [] end)
    else Ok [] in
  let* t := has_tape a in
  let* m2 :=
    if t then
      let* files := key (t_file (a_tape a)) in
      let* f := dfind value_eqb files pds in
      Ok (match t_members f with Some ms => dkeys ms | None => [] end)
    else Ok [] in
  Ok (m1 ++ m2).

(** [is_member] *)
Definition is_member (a : archive) (pds : value) (member : str) : res bool :=
  let* _ := check_parsed a in
  let* x := has_xmi a in
  if x then
    Ok match x_file (a_xmit a) with
       | Some files =>
           match dget value_eqb files pds with
           | Some f =>
               match x_members f with
               | Some ms => dmem str_eqb ms member
               | None => false
               end
           | None => false
           end
       | None => false
       end
  else
    Ok match t_file (a_tape a) with
       | Some files =>
           match dget value_eqb files pds with
           | Some f =>
               match t_members f with
               | Some ms => dmem str_eqb ms member
               | None => false
               end
           | None => false
           end
       | None => false
       end.

(** [is_sequential] *)
Definition is_sequential (a : archive) (pds : value) : res bool :=
  let* _ := check_parsed a in
  let* x := has_xmi a in
  if x then
    Ok match x_file (a_xmit a) with
       | Some files =>
           match dget value_eqb files pds with
           | Some f =>
               match x_members f with Some _ => false | None => true end
           | None => false
           end
       | None => false
       end
  else
    Ok match t_file (a_tape a) with
       | Some files =>
           match dget value_eqb files pds with
           | Some f =>
               match t_members f with Some _ => false | None => true end
           | None => false
           end
       | None => false
       end.

(** [is_pds] *)
Definition is_pds (a : archive) (pds : value) : res bool :=
  let* _ := check_parsed a in
  let* s := is_sequential a pds in
  Ok (negb s).

(** [make_int]: a number of a tape label, blank for zero. *)
Definition make_int (num : str) : res Z :=
  let num := strip num in
  match num with
  | [] => Ok 0
  | _ => int_of_str num
  end.

(** ** The end of the directory

    The inner loop of [all_members], over one directory block: whether the
    entry of eight [0xFF] was met. *)
Fixpoint all_members_block (fuel : nat) (directory_members_info : bytes)
  (directory_len : Z) (loc : Z) : res bool :=
  if loc <? directory_len then
    match fuel with
    | O => NoFuel
    | S fuel' =>
        if bytes_eqb (slice directory_members_info loc (loc + 8))
             (repeat_byte xff 8)
        then Ok true
        else
          let* f := index directory_members_info (loc + 11) in
          all_members_block fuel' directory_members_info directory_len
            (loc + 8 + 3 + 1 + Z.land (bv f) 0x1F * 2)
    end
  else Ok false.

(** The outer loop of [all_members], over the blocks of 276 bytes. *)
Fixpoint all_members_blocks (fuel : nat) (members : bytes) (block_loc : Z)
  : res bool :=
  if block_loc <? len members then
    match fuel with
    | O => NoFuel
    | S fuel' =>
        let directory_len :=
          get_int (slice members (block_loc + 20) (block_loc + 22)) - 2 in
        let directory_members_info :=
          slice members (block_loc + 22) (block_loc + 22 + directory_len) in
        let* found :=
          all_members_block (Z.to_nat directory_len) directory_members_info
            directory_len 0 in
        if found then Ok true
        else all_members_blocks fuel' members (block_loc + 276)
    end
  else Ok false.

(** [all_members] *)
Definition all_members (members : bytes) : res bool :=
  all_members_blocks (List.length members) members 0.

(** * Directory order

    Notions the properties of the TTR table are stated with. *)

(** [n] names a member whose TTR is [t]. *)
Definition has_ttr (members : members_dict) (t : Z) (n : str) : bool :=
  match dget str_eqb members n with
  | Some x => match entry x with Some e => ttr e =? t | None => false end
  | None => false
  end.

Definition alias_of (members : members_dict) (n : str) : bool :=
  match dget str_eqb members n with
  | Some x => alias x
  | None => false
  end.

(** The last name of the list that satisfies [P]. *)
Fixpoint last_such (P : str -> bool) (names : list str) : option str :=
  match names with
  | [] => None
  | n :: names' =>
      match last_such P names' with
      | Some x => Some x
      | None => if P n then Some n else None
      end
  end.

(** The last and the first member, in directory order, with TTR [t]. *)
Definition last_with_ttr (members : members_dict) (t : Z) : option str :=
  last_such (has_ttr members t) (dkeys members).

Definition first_with_ttr (members : members_dict) (t : Z) : option str :=
  find (has_ttr members t) (dkeys members).

(** * Stored dates *)

(** What the parser stores for an ISPF date: a complete date and time, or
    the empty string. *)
Definition iso_or_empty (s : str) : Prop :=
  s = [] \/ is_iso_micro s = true.

(** * Members of a directory *)

(** [m] is the entry [get_members_info] makes of some member area at some
    position. *)
Definition from_directory (cfg : config) (m : member) : Prop :=
  exists info loc, member_entry cfg info loc = Ok m.

(** The bytes in use in the member area of the block at [block_loc], and
    the member area itself: [directory_len] and [directory_members_info]
    in the outer loop of [get_members_info]. *)
Definition used_len (directory : bytes) (block_loc : Z) : Z :=
  get_int (slice directory (block_loc + 20) (block_loc + 22)) - 2.

Definition member_area (directory : bytes) (block_loc : Z) : bytes :=
  slice directory (block_loc + 22)
    (block_loc + 22 + used_len directory block_loc).

(** [m] is the entry made at a position [loc] of the member area of a
    block of [directory], and [n] is the name read there. *)
Definition placed (cfg : config) (directory : bytes) (n : str) (m : member)
  : Prop :=
  exists block_loc loc,
    0 <= block_loc < len directory
    /\ 0 <= loc < used_len directory block_loc
    /\ n = rstrip (decode (ebcdic cfg)
                     (slice (member_area directory block_loc) loc (loc + 8)))
    /\ member_entry cfg (member_area directory block_loc) loc = Ok m.

(** The line counts of ISPF statistics [st] are the three 16-bit fields of
    the user data [p], or its three 32-bit fields. *)
Definition short_counts (p : bytes) (st : ispf_stats) : Prop :=
  lines st = get_int (slice p 14 16)
  /\ newlines st = get_int (slice p 16 18)
  /\ modlines st = get_int (slice p 18 20).

Definition long_counts (p : bytes) (st : ispf_stats) : Prop :=
  lines st = get_int (slice p 28 32)
  /\ newlines st = get_int (slice p 32 36)
  /\ modlines st = get_int (slice p 36 40).

(** * COPYR1 records *)

(** The eye-catcher is at bytes 1..4, or at bytes 9..12. *)
Definition eyecatcher_at_1 (r : bytes) : Prop :=
  get_int (slice r 1 4) = eyecatcher.

Definition eyecatcher_at_9 (r : bytes) : Prop :=
  get_int (slice r 9 12) = eyecatcher.

(** The structure of a COPYR1 record: the record itself when the
    eye-catcher is at bytes 1..4, what follows the 8-byte prefix
    otherwise. *)
Definition copyr1_structure (r : bytes) : bytes :=
  if get_int (slice r 1 4) =? eyecatcher then r else slice_from r 8.

(** [r] is not one of the exceptions the method raises itself. *)
Definition not_own_exception {A} (r : res A) : Prop :=
  forall msg, r <> Raise (Exception msg).

(** * Text conversion, line by line *)

(** The chunks of [r] characters of a string; the last one may be
    shorter. *)
Fixpoint chunks_fuel (fuel r : nat) (s : str) : list str :=
  match fuel with
  | O => []
  | S f =>
      match s with
      | [] => []
      | _ => firstn r s :: chunks_fuel f r (skipn r s)
      end
  end.

Definition chunks (r : nat) (s : str) : list str :=
  chunks_fuel (List.length s) r s.

(** What [convert_text_file] makes of one chunk, for a record length
    [r >= 8]: the sequence number columns are those from [r - 8] on. *)
Definition convert_line (unnum : bool) (r : Z) (chunk : str) : str :=
  if isnumeric (slice chunk (r - 8) r) && unnum
  then rstrip (slice chunk 0 (r - 8))
  else rstrip chunk.

(** The conversion in the words of the specification: a line whose last 8
    characters are ASCII digits loses them when [unnum] is on, then its
    trailing blanks. *)
Fixpoint rstrip_blanks (s : str) : str :=
  match s with
  | [] => []
  | c :: s' =>
      match rstrip_blanks s' with
      | [] => if c =? 32 then [] else [c]
      | t => c :: t
      end
  end.

Definition spec_line (unnum : bool) (line : str) : str :=
  let n := List.length line in
  rstrip_blanks
    (if unnum && (8 <=? n)%nat && forallb is_ascii_digit (skipn (n - 8) line)
     then firstn (n - 8) line
     else line).

Definition convert_text_spec (unnum : bool) (r : nat) (s : str) : str :=
  join [10] (map (spec_line unnum) (chunks r s)) ++ [10].

(** * Text-unit streams

    The layout [text_units] reads, written out: a unit is its key, the
    number of its items, and each item behind its length, all lengths and
    the key on two bytes. *)

Definition byte_of (z : Z) : byte :=
  match Byte.of_N (Z.to_N z) with
  | Some b => b
  | None => x00
  end.

Definition be16 (n : Z) : bytes := [byte_of (n / 256); byte_of (n mod 256)].

Definition encode_items (items : list bytes) : bytes :=
  List.concat (map (fun it => be16 (len it) ++ it) items).

Definition encode_unit (u : Z * list bytes) : bytes :=
  be16 (fst u) ++ be16 (len (snd u)) ++ encode_items (snd u).

Definition encode_units (us : list (Z * list bytes)) : bytes :=
  List.concat (map encode_unit us).

(** A unit [text_units] has a name for, with at least one item, whose
    sizes fit their two bytes. *)
Definition known_unit (u : Z * list bytes) : Prop :=
  0 <= fst u < 65536
  /\ text_keys (fst u) <> None
  /\ snd u <> []
  /\ len (snd u) < 65536
  /\ Forall (fun it => len it < 65536) (snd u).

(** What the items of one unit make of the dictionary and of the dataset
    name. *)
Definition items_fold (cfg : config) (key : Z) (items : list bytes)
  (acc : tudict * str) : tudict * str :=
  fold_left
    (fun a item =>
       match text_keys key with
       | Some (name, ty) =>
           let '(v, d) := item_value cfg name ty item (snd a) in
           (dset String.eqb (fst a) name v, d)
       | None => a
       end)
    items acc.

Definition units_fold (cfg : config) (us : list (Z * list bytes))
  (acc : tudict * str) : tudict * str :=
  fold_left (fun a u => items_fold cfg (fst u) (snd u) a) us acc.

(** The variables of [text_units] at position [loc] with dictionary and
    dataset name [acc]. *)
Definition tu_at (loc : Z) (acc : tudict * str) (m : bool) : tu_state :=
  {| tu_loc := loc; tu := fst acc; INMDSNAM := snd acc; tu_msg := m |}.

(** The parts of a dataset name, each followed by a dot. *)
Definition dotted (cfg : config) (parts : list bytes) : str :=
  List.concat (map (fun p => decode (ebcdic cfg) p ++ lit ".") parts).

(** * The end of the INMR06 record *)

(** Where the record of the segment at [loc] ends: behind the bytes of its
    segment, and behind the two header bytes and the six bytes of its
    name, which the parser reads to know the record. *)
Definition record_end (xmit_object : bytes) (loc : Z) : Z :=
  loc + Z.max 8 (get_int (slice xmit_object loc (loc + 1))).

(** * Enough turns

    The loops of the model are given a number of turns; [r] is a result
    that did not ask for more. *)
Definition fuelled {A} (r : res A) : Prop := r <> NoFuel.

(** * Blocks of variable-length records

    A record behind its descriptor word: the length of both on two bytes,
    two more bytes, then the record. *)
Definition vb_record (r : bytes * bytes) : bytes :=
  be16 (len (snd r) + 4) ++ fst r ++ snd r.

Definition vb_records (recs : list (bytes * bytes)) : bytes :=
  List.concat (map vb_record recs).

(** A descriptor word with two bytes behind its length, and a record that
    fits the length. *)
Definition vb_sized (r : bytes * bytes) : Prop :=
  len (fst r) = 2 /\ len (snd r) + 4 < 65536.

(** * COPYR1 behind its prefix *)

(** The COPYR1 [c] with the two lengths of an 8-byte prefix. *)
Definition with_prefix (c : COPYR1) (bl sl : Z) : COPYR1 :=
  {| c_type := c_type c; block_length := Some bl; seg_length := Some sl;
     DS1DSORG := DS1DSORG c; DS1BLKL := DS1BLKL c; DS1LRECL := DS1LRECL c;
     DS1RECFM := DS1RECFM c; DS1KEYL := DS1KEYL c; DS1OPTCD := DS1OPTCD c;
     DS1SMSFG := DS1SMSFG c; file_tape_blocksize := file_tape_blocksize c;
     DVAOPTS := DVAOPTS c; DVACLASS := DVACLASS c; DVAUNIT := DVAUNIT c;
     DVAMAXRC := DVAMAXRC c; DVACYL := DVACYL c; DVATRK := DVATRK c;
     DVATRKLN := DVATRKLN c; DVAOVHD := DVAOVHD c;
     num_header_records := num_header_records c;
     DS1REFD := DS1REFD c; DS1SCEXT := DS1SCEXT c; DS1SCALO := DS1SCALO c;
     DS1LSTAR := DS1LSTAR c; DS1TRBAL := DS1TRBAL c |}.

(** * Text units read back *)

(** A unit with at least one item, whose key and sizes fit their two
    bytes. *)
Definition sized_unit (u : Z * list bytes) : Prop :=
  0 <= fst u < 65536
  /\ snd u <> []
  /\ len (snd u) < 65536
  /\ Forall (fun it => len it < 65536) (snd u).

(** The value of an item by the type of its key: text, a number, or the
    bytes as they are. *)
Definition plain_value (cfg : config) (ty : ttype) (item : bytes) : value :=
  match ty with
  | character => VStr (decode (ebcdic cfg) item)
  | decimal => VInt (get_int item)
  | hex => VBytes item
  end.

(** The entry a unit leaves in the dictionary: the name of its key and the
    value of its last item. *)
Definition unit_entry (cfg : config) (u : Z * list bytes) : string * value :=
  match text_keys (fst u) with
  | Some (name, ty) => (name, plain_value cfg ty (last (snd u) []))
  | None => (EmptyString, VBytes [])
  end.

(** A unit without items. *)
Definition empty_unit (k : Z) : bytes := be16 k ++ be16 0.

(** The keys of the table [text_keys]. *)
Definition text_key_list : list Z :=
  [0x0001; 0x0002; 0x0003; 0x000B; 0x000C; 0x0022; 0x0028;
   0x0030; 0x003C; 0x0042; 0x0049; 0x1001; 0x1002; 0x1011;
   0x1012; 0x1020; 0x1021; 0x1022; 0x1023; 0x1024; 0x1025;
   0x1026; 0x1027; 0x1028; 0x1029; 0x102A; 0x102C; 0x102F;
   0x8012].

(** Two keys of the table with one name. *)
Definition same_name (k1 k2 : Z) : bool :=
  match text_keys k1, text_keys k2 with
  | Some (n1, _), Some (n2, _) => String.eqb n1 n2
  | _, _ => false
  end.

(** * XMIT files written out

    The layout [parse_xmi] reads: a segment is its length on one byte,
    the two header bytes included, its flags on one byte, and its bytes.
    A control record is one segment with the flags [0xE0] that starts with
    the six bytes of its name; a data record is cut into segments, the
    first with the flag [0x80] and the last with the flag [0x40]. *)

Definition xmi_segment (flag : Z) (payload : bytes) : bytes :=
  [byte_of (len payload + 2); byte_of flag] ++ payload.

Definition control_record (hd : bytes * bytes) : bytes :=
  xmi_segment 0xE0 (fst hd ++ snd hd).

Definition control_records (hdrs : list (bytes * bytes)) : bytes :=
  List.concat (map control_record hdrs).

Definition seg_flag (first last : bool) : Z :=
  (if first then 0x80 else 0) + (if last then 0x40 else 0).

Fixpoint record_segments (first : bool) (chunks : list bytes) : bytes :=
  match chunks with
  | [] => []
  | c :: cs =>
      xmi_segment (seg_flag first (match cs with [] => true | _ => false end))
        c
      ++ record_segments false cs
  end.

Definition file_segments (records : list (list bytes)) : bytes :=
  List.concat (map (record_segments true) records).

(** A control record that fits its length byte and is not the last
    one. *)
Definition sized_control (cfg : config) (hd : bytes * bytes) : Prop :=
  len (fst hd) = 6 /\ len (snd hd) <= 247
  /\ decode (ebcdic cfg) (fst hd) <> lit "INMR06".

(** A data record in at least one segment, each of at most 253 bytes. *)
Definition sized_record (chunks : list bytes) : Prop :=
  chunks <> [] /\ Forall (fun c => len c <= 253) chunks.

(** What [parse_xmi] does with a control record, by its name. *)
Definition control (cfg : config) (o : xmit_obj) (hd : bytes * bytes)
  : res xmit_obj :=
  let record_type := decode (ebcdic cfg) (fst hd) in
  if str_eqb record_type (lit "INMR01") then parse_INMR01 cfg o (snd hd)
  else if str_eqb record_type (lit "INMR02") then parse_INMR02 cfg o (snd hd)
  else if str_eqb record_type (lit "INMR03") then parse_INMR03 cfg o (snd hd)
  else Ok o.

Fixpoint controls (cfg : config) (o : xmit_obj) (hdrs : list (bytes * bytes))
  : res xmit_obj :=
  match hdrs with
  | [] => Ok o
  | hd :: hdrs' => let* o' := control cfg o hd in controls cfg o' hdrs'
  end.

(** The segments that are no control records go to the file named [dsn]:
    they are not taken for the message, and the INMR02 record of the
    current file names it. *)
Definition file_mode (o : xmit_obj) (dsn : value) : Prop :=
  exists inmr02 first t,
    x_INMR02 (xmit o) = Some inmr02
    /\ dget Z.eqb inmr02 1 = Some first
    /\ (dmem String.eqb first "INMDSNAM"%string = true \/ msg o = false)
    /\ dget Z.eqb inmr02 (filelocation o) = Some t
    /\ dget String.eqb t "INMDSNAM"%string = Some dsn.

(** The object [o] with the records [d] as the data of the file [dsn],
    its only file. *)
Definition with_file (o : xmit_obj) (dsn : value) (d : list bytes)
  : xmit_obj :=
  set_xmit o
    {| x_INMR01 := x_INMR01 (xmit o); x_INMR02 := x_INMR02 (xmit o);
       x_INMR03 := x_INMR03 (xmit o); x_message := x_message (xmit o);
       x_file := Some [(dsn, {| x_data := d; x_members := None |})] |}.

(** The object while the segments of the file are read: without the key
    ['file'] before the first one, with the records read so far
    afterwards. *)
Definition file_state (o : xmit_obj) (dsn : value) (fs : option (list bytes))
  : xmit_obj :=
  match fs with
  | None => o
  | Some d => with_file o dsn d
  end.

Definition records_so_far (fs : option (list bytes)) : list bytes :=
  match fs with
  | None => []
  | Some d => d
  end.

(** * Dates written out *)

(** The numbers from 0 to [n - 1]. *)
Definition upto (n : nat) : list Z := map Z.of_nat (seq 0 n).

(** The first alternative of the list that matches at the front of [s]
    takes all of [s], and those before it fail within [s]. *)
Fixpoint takes_all (alts : list alternative) (s : str) : bool :=
  match alts with
  | [] => false
  | a :: alts' =>
      match match_alt a s with
      | Some (_, r) => match r with [] => true | _ => false end
      | None => (List.length a <=? List.length s)%nat && takes_all alts' s
      end
  end.

(** The value of the byte that holds the two decimal digits of [n], one in
    each half, and the byte. *)
Definition bcd_value (n : Z) : Z := 16 * (n / 10) + n mod 10.

Definition bcd (n : Z) : byte := byte_of (bcd_value n).

(** The day a tape label is read as: a day number that ends in [0] is
    read with [1] in its place. *)
Definition tape_day (j : Z) : Z := if j mod 10 =? 0 then j + 1 else j.

(** Midnight and any time of a day. *)
Definition at_time (y mo d h mi s : Z) : datetime :=
  {| year := y; month := mo; day := d;
     hour := h; minute := mi; second := s; microsecond := 0 |}.

(** The century a tape label writes in its first character: a blank for
    19, a digit [k] for [20 + k]. *)
Definition tape_century (c : Z) : option Z :=
  if c =? 32 then Some 19
  else if (48 <=? c) && (c <=? 57) then Some (20 + (c - 48))
  else None.

(** ** Directory blocks as they are written

    A directory entry: eight bytes of name that are not the end mark, the
    TTR, the flag byte, and as many halfwords of user data as the flag byte
    tells. *)
Definition entry_sized (e : bytes) : Prop :=
  exists f,
    index e 11 = Ok f
    /\ len e = 12 + Z.land (bv f) 0x1F * 2
    /\ slice e 0 8 <> repeat_byte xff 8.

(** The members of a list of entries, each read on its own and stored in
    turn under its name. *)
Fixpoint read_entries (cfg : config) (es : list bytes)
  (members : members_dict) : res members_dict :=
  match es with
  | [] => Ok members
  | e :: es' =>
      let* m := member_entry cfg e 0 in
      read_entries cfg es'
        (dset str_eqb members (rstrip (decode (ebcdic cfg) (slice e 0 8))) m)
  end.

(** A directory block: 20 bytes of count, key and data lengths and key; the
    halfword of the bytes in use, itself included; the entries; the unused
    rest of the 254 bytes. *)
Definition dir_block (b : bytes * list bytes * bytes) : bytes :=
  let '(hdr, es, pad) := b in
  hdr ++ be16 (len (List.concat es) + 2) ++ List.concat es ++ pad.

Definition block_entries (b : bytes * list bytes * bytes) : list bytes :=
  snd (fst b).

Definition block_sized (b : bytes * list bytes * bytes) : Prop :=
  let '(hdr, es, pad) := b in
  len hdr = 20 /\ Forall entry_sized es
  /\ len pad = 254 - len (List.concat es).

(** The last block of a directory: after its entries comes the end mark;
    what follows the mark in the block is [tail]. *)
Definition end_block (hdr : bytes) (es : list bytes) (tail : bytes) : bytes :=
  let body := List.concat es ++ repeat_byte xff 8 ++ tail in
  hdr ++ be16 (len body + 2) ++ body.

(** * Sample inputs *)

(** A COPYR2 record of 276 bytes: a DEB head of sixteen [0xEE], sixteen
    extent descriptors, the [k]-th filled with the byte [k], and four
    zero bytes. *)
Definition copyr2_sample : bytes :=
  repeat xee 16
  ++ flat_map (fun b => repeat b 16)
       [x01; x02; x03; x04; x05; x06; x07; x08;
        x09; x0a; x0b; x0c; x0d; x0e; x0f; x10]
  ++ repeat x00 4.

(** A PDS with the member [MAIN] and its alias [ALT], both at TTR 7. *)
Definition pds_sample : members_dict :=
  [(lit "MAIN",
    {| entry := Some {| ttr := 7; halfwords := 0; notes := 0; parms := [];
                        ispf := None |};
       alias := false; mimetype := None; datatype := None;
       extension := None; text := Some (lit "HELLO"); data := Some [xc8] |});
   (lit "ALT",
    {| entry := Some {| ttr := 7; halfwords := 0; notes := 0; parms := [];
                        ispf := None |};
       alias := true; mimetype := None; datatype := None;
       extension := None; text := None; data := None |})].

Definition archive_sample : archive :=
  {| a_xmit :=
       {| x_INMR01 := Some []; x_INMR02 := None; x_INMR03 := None;
          x_message := None;
          x_file :=
            Some [(VStr (lit "MY.PDS"),
                   {| x_data := []; x_members := Some pds_sample |})] |};
     a_tape := {| t_file := None; t_label := None |} |}.

(** Two aliases of each other: [A] then [B] in the directory, both marked
    alias, both at TTR 1. *)
Definition alias_entry (t : Z) : member :=
  {| entry := Some {| ttr := t; halfwords := 0; notes := 0; parms := [];
                      ispf := None |};
     alias := true; mimetype := None; datatype := None;
     extension := None; text := None; data := None |}.

Definition alias_pair : members_dict :=
  [(lit "A", alias_entry 1); (lit "B", alias_entry 1)].

(** A directory block of 276 bytes with two members and the end mark.
    [MEMBER1] has 40 bytes of user data with ISPF flags [0x10]: 16-bit line
    counts 10, 11, 12 and 32-bit line counts 65536, 2, 3.  [BADDATE] has
    30 bytes of user data whose two dates are not dates. *)
Definition dir_sample : bytes :=
  repeat x00 8 ++ [x00; x08; x01; x00]
  ++ [xc2; xc1; xc4; xc4; xc1; xe3; xc5; x40]
  ++ [x00; x6c]
  ++ [xd4; xc5; xd4; xc2; xc5; xd9; xf1; x40; x00; x00; x07; x14]
  ++ [x01; x05; x10; x30; x01; x21; x12; x3f;
      x01; x22; x00; x1f; x10; x59;
      x00; x0a; x00; x0b; x00; x0c;
      xc9; xc2; xd4; xe4; xe2; xc5; xd9; x40;
      x00; x01; x00; x00; x00; x00; x00; x02; x00; x00; x00; x03]
  ++ [xc2; xc1; xc4; xc4; xc1; xe3; xc5; x40; x00; x00; x09; x0f]
  ++ [x01; x00; x00; x00; x00; x00; x40; x0f;
      xff; xff; xff; xff; xff; xff;
      x00; x05; x00; x00; x00; x00;
      xc9; xc2; xd4; xe4; xe2; xc5; xd9; x40; x00; x00]
  ++ repeat xff 8 ++ repeat x00 4
  ++ repeat x00 148.

(** A COPYR1 structure of 64 bytes (eye-catcher, DSORG PO, block length
    3120, LRECL 80, RECFM FB, device fields, zero tail), and the tape
    record made of the 8-byte prefix and that structure: 72 bytes. *)
Definition copyr1_structure64 : bytes :=
  [x00; xca; x6d; x0f; x02; x00; x0c; x30; x00; x50; x90; x00; x00; x00;
   x0c; x30; x30; x50; x20; x0b; x00; x00; xe5; xa2; x0d; x0b; x00; x0f;
   xe0; x00; x00; x00; x00; x00; x00; x00; x00; x02]
  ++ repeat x00 26.

Definition copyr1_tape72 : bytes :=
  [x00; x48; x00; x00; x00; x48; x00; x00] ++ copyr1_structure64.

(** The EBCDIC bytes of [abcdefghijxy1234] and of [12345678]. *)
Definition text16 : bytes :=
  [x81; x82; x83; x84; x85; x86; x87; x88; x89; x91;
   xa7; xa8; xf1; xf2; xf3; xf4].

Definition digits8 : bytes := [xf1; xf2; xf3; xf4; xf5; xf6; xf7; xf8].

(** A text-unit stream: [INMDSORG] with the bytes [02 00], the dataset
    name [A.BC] in two parts, then [INMLRECL] with the value 80 and
    [INMRECFM] with the bytes [90 00]. *)
Definition units_sample : list (Z * list bytes) :=
  [(0x003C, [[x02; x00]]);
   (0x0002, [[xc1]; [xc2; xc3]]);
   (0x0042, [[x00; x50]]);
   (0x0049, [[x90; x00]])].

(** An XMIT stream: [INMR01] (origin user and time), [INMR02] and [INMR03]
    for one sequential file named [A.BC], one record of data, [INMR06];
    and the same stream followed by other bytes. *)
Definition segment (flag : byte) (payload : bytes) : bytes :=
  byte_of (2 + len payload) :: flag :: payload.

Definition xmi_records : bytes :=
  segment xe0
    ([xc9; xd5; xd4; xd9; xf0; xf1]
     ++ encode_units
          [(0x1012, [[xc1; xc2]]);
           (0x1024, [[xf2; xf0; xf2; xf1; xf0; xf1; xf0; xf2;
                      xf0; xf3; xf0; xf4; xf0; xf5]])])
  ++ segment xe0
       ([xc9; xd5; xd4; xd9; xf0; xf2] ++ [x00; x00; x00; x01]
        ++ encode_units
             [(0x003C, [[x40; x00]]); (0x0049, [[x90; x00]]);
              (0x0042, [[x00; x50]]); (0x0002, [[xc1]; [xc2; xc3]])])
  ++ segment xe0
       ([xc9; xd5; xd4; xd9; xf0; xf3]
        ++ encode_units
             [(0x003C, [[x40; x00]]); (0x0049, [[x90; x00]]);
              (0x0042, [[x00; x50]])])
  ++ segment xc0 [xc8; xc5; xd3; xd3; xd6]
  ++ segment xe0 [xc9; xd5; xd4; xd9; xf0; xf6].

Definition xmi_sample : bytes := xmi_records ++ [x01; x02].

Definition xmi_sample_other : bytes :=
  xmi_records ++ [x10; xe0; xc9; xd5; xd4; xd9; xf0; xf2; xff].

(** The prefix of a tape COPYR1: block length 64, segment length 60. *)
Definition copyr1_prefix : bytes := [x00; x40; x00; x00; x00; x3c; x00; x00].

(** Three text units: [INMLRECL] with the value 80, [INMFUID] with the
    text [AB], and [INMBLKSZ] with two items, the last one 3120. *)
Definition units_plain : list (Z * list bytes) :=
  [(0x0042, [[x00; x50]]);
   (0x1012, [[xc1; xc2]]);
   (0x0030, [[x00]; [x0c; x30]])].

(** The text units of an INMR01 record that holds [INMFTIME] with the EBCDIC
    digits of [20230115123045]. *)
Definition inmr01_units : bytes :=
  encode_units
    [(0x1024, [[xf2; xf0; xf2; xf3; xf0; xf1; xf1; xf5;
                xf1; xf2; xf3; xf0; xf4; xf5]])].

(** The EBCDIC bytes of a record name [INMR0n]. *)
Definition inmr_name (n : byte) : bytes := [xc9; xd5; xd4; xd9; xf0; n].

(** The control records of a small file: INMR01 without text units,
    INMR02 for one file with [INMDSORG], [INMRECFM] and the dataset name
    [A], and INMR03 with [INMDSORG] and [INMRECFM]. *)
Definition headers_sample : list (bytes * bytes) :=
  [(inmr_name xf1, []);
   (inmr_name xf2,
    [x00; x00; x00; x01]
    ++ encode_units [(0x003C, [[x40; x00]]); (0x0049, [[x80; x00]]);
                     (0x0002, [[xc1]])]);
   (inmr_name xf3,
    encode_units [(0x003C, [[x40; x00]]); (0x0049, [[x80; x00]])])].

(** Two records, the first one in two segments. *)
Definition records_sample : list (list bytes) :=
  [[[xc1; xc2]; [xc3]]; [[xc4]]].

(** A directory entry with no user data, and one with [h] halfwords of
    zeros. *)
Definition entry_plain (name : bytes) : bytes :=
  name ++ [x00; x00; x01; x00].

Definition entry_zeros (name : bytes) (h : byte) : bytes :=
  name ++ [x00; x00; x02; h] ++ repeat_byte x00 (2 * Z.to_nat (bv h)).

Definition name_A : bytes := [xc1; x40; x40; x40; x40; x40; x40; x40].
Definition name_B : bytes := [xc2; x40; x40; x40; x40; x40; x40; x40].
Definition name_C : bytes := [xc3; x40; x40; x40; x40; x40; x40; x40].
Definition name_D : bytes := [xc4; x40; x40; x40; x40; x40; x40; x40].
Definition name_E : bytes := [xc5; x40; x40; x40; x40; x40; x40; x40].

(** Entries that fill the 254 bytes of a block: 74 + 74 + 74 + 32. *)
Definition entries_full : list bytes :=
  [entry_zeros name_A x1f; entry_zeros name_B x1f; entry_zeros name_C x1f;
   entry_zeros name_D x0a].

Definition block_header : bytes :=
  repeat_byte x00 8 ++ [x00; x08; x01; x00] ++ name_B.

(** A block with the members A and B, then the block with the member C and
    the end mark. *)
Definition block_AB : bytes * list bytes * bytes :=
  (block_header, [entry_plain name_A; entry_zeros name_B x02],
   repeat_byte x00 226).

Definition block_full : bytes * list bytes * bytes :=
  (block_header, entries_full, []).

(** Units in which the dataset name comes before the organisation and the
    record format. *)
Definition units_name_first : list (Z * list bytes) :=
  [(0x0042, [[x00; x50]]); (0x0002, [[xc1]; [xc2; xc3]]);
   (0x003C, [[x02; x00]]); (0x0049, [[x90; x00]])].

(** * Properties *)

Unset Implicit Arguments.

(** ** Results *)

Lemma bind_Ok {A B} (r : res A) (k : A -> res B) (b : B) :
  bind r k = Ok b -> exists a, r = Ok a /\ k a = Ok b.
Proof.
  destruct r; simpl; intros H; try discriminate.
  eexists; split; [reflexivity | exact H].
Qed.

Ltac inv_bind H :=
  let x := fresh "x" in
  let E := fresh "E" in
  apply bind_Ok in H; destruct H as [x [E H]].

(** ** Dictionaries *)

Lemma str_eqb_eq (x y : str) : str_eqb x y = true <-> x = y.
Proof.
  unfold str_eqb. destruct (list_eq_dec Z.eq_dec x y); split; intros;
    congruence.
Qed.

Lemma str_eqb_refl (x : str) : str_eqb x x = true.
Proof. apply str_eqb_eq. reflexivity. Qed.

Lemma str_eqb_neq (x y : str) : x <> y -> str_eqb x y = false.
Proof.
  intros H. destruct (str_eqb x y) eqn:E; [|reflexivity].
  apply str_eqb_eq in E. contradiction.
Qed.

Lemma bytes_eqb_eq (x y : bytes) : bytes_eqb x y = true <-> x = y.
Proof.
  unfold bytes_eqb. destruct (list_eq_dec Byte.byte_eq_dec x y); split;
    intros; congruence.
Qed.

Section DictFacts.
Variables K V : Type.
Variable eqb : K -> K -> bool.
Hypothesis eqb_eq : forall x y, eqb x y = true <-> x = y.

Lemma eqb_refl' (x : K) : eqb x x = true.
Proof. apply eqb_eq. reflexivity. Qed.

Lemma eqb_neq' (x y : K) : x <> y -> eqb x y = false.
Proof.
  intros H. destruct (eqb x y) eqn:E; [|reflexivity].
  apply eqb_eq in E. contradiction.
Qed.

Lemma dget_dset_same (d : dict K V) (k : K) (v : V) :
  dget eqb (dset eqb d k v) k = Some v.
Proof.
  induction d as [|[k' v'] d IH]; simpl.
  - rewrite eqb_refl'. reflexivity.
  - destruct (eqb k k') eqn:E; simpl; rewrite E; auto.
Qed.

Lemma dget_dset_other (d : dict K V) (k k0 : K) (v : V) :
  k0 <> k -> dget eqb (dset eqb d k v) k0 = dget eqb d k0.
Proof.
  intros N. induction d as [|[k' v'] d IH]; simpl.
  - rewrite (eqb_neq' _ _ N). reflexivity.
  - destruct (eqb k k') eqn:E; simpl.
    + apply eqb_eq in E. subst k'. rewrite (eqb_neq' _ _ N). reflexivity.
    + destruct (eqb k0 k'); auto.
Qed.

Lemma dget_In (d : dict K V) (k : K) (v : V) :
  dget eqb d k = Some v -> In k (dkeys d).
Proof.
  induction d as [|[k' v'] d IH]; simpl; [discriminate|].
  destruct (eqb k k') eqn:E.
  - apply eqb_eq in E. auto.
  - auto.
Qed.
Lemma dkeys_dget (d : dict K V) (k : K) :
  In k (dkeys d) -> exists v, dget eqb d k = Some v.
Proof.
  induction d as [|[k' v'] d IH]; simpl; [contradiction|].
  intros [H|H].
  - subst. rewrite eqb_refl'. eauto.
  - destruct (eqb k k'); eauto.
Qed.
End DictFacts.

Lemma sget_same {V} (d : dict str V) (k : str) (v : V) :
  dget str_eqb (dset str_eqb d k v) k = Some v.
Proof. apply dget_dset_same. exact str_eqb_eq. Qed.

Lemma sget_other {V} (d : dict str V) (k k0 : str) (v : V) :
  k0 <> k -> dget str_eqb (dset str_eqb d k v) k0 = dget str_eqb d k0.
Proof. apply dget_dset_other. exact str_eqb_eq. Qed.

Lemma zget_same {V} (d : dict Z V) (k : Z) (v : V) :
  dget Z.eqb (dset Z.eqb d k v) k = Some v.
Proof. apply dget_dset_same. exact Z.eqb_eq. Qed.

Lemma zget_other {V} (d : dict Z V) (k k0 : Z) (v : V) :
  k0 <> k -> dget Z.eqb (dset Z.eqb d k v) k0 = dget Z.eqb d k0.
Proof. apply dget_dset_other. exact Z.eqb_eq. Qed.

(** ** Record formats and dataset organisations *)

(** C9: the RECFM decoder maps a first byte [0x90] to "FB", [0x50] to "VB"
    and [0xC0] to "U", whatever follows it; the DSORG decoder maps [0x4001]
    to "PSU" and [0x0200] to "PO", given as the integer or as its two
    bytes. *)
Theorem recfm_dsorg_decoders :
  (forall rest, get_recfm (VBytes (x90 :: rest)) = Ok (lit "FB"))
  /\ (forall rest, get_recfm (VBytes (x50 :: rest)) = Ok (lit "VB"))
  /\ (forall rest, get_recfm (VBytes (xc0 :: rest)) = Ok (lit "U"))
  /\ get_dsorg (VInt 0x4001) = Ok (lit "PSU")
  /\ get_dsorg (VBytes [x40; x01]) = Ok (lit "PSU")
  /\ get_dsorg (VInt 0x0200) = Ok (lit "PO")
  /\ get_dsorg (VBytes [x02; x00]) = Ok (lit "PO").
Proof.
  repeat split; intros; reflexivity.
Qed.

(** ** COPYR2 *)

(** C3, on [copyr2_sample]: the first extent the decoder returns is the DEB
    head itself (record bytes 0..16), the last one is the fifteenth
    descriptor, and the sixteenth descriptor (record bytes 256..272) is not
    among the extents. *)
Theorem copyr2_extents_start_at_zero :
  exists r,
    iebcopy_record_2 copyr2_sample = Ok r
    /\ deb r = repeat xee 16
    /\ nth_error (extents r) 0 = Some (deb r)
    /\ nth_error (extents r) 15 = Some (repeat x0f 16)
    /\ List.length (extents r) = 16%nat
    /\ slice copyr2_sample 256 272 = repeat x10 16
    /\ ~ In (slice copyr2_sample 256 272) (extents r).
Proof.
  eexists. split; [vm_compute; reflexivity|].
  repeat split; try (vm_compute; reflexivity).
  vm_compute. intros H.
  repeat (destruct H as [H|H]; [discriminate H|]). exact H.
Qed.

(** ** Aliases in the inspection functions *)

Lemma find_alias_target_found (members : members_dict) (names : list str)
  (t : Z) (T : str) :
  find_alias_target members names t = Ok (Some T) ->
  exists x e, dget str_eqb members T = Some x /\ entry x = Some e
              /\ alias x = false /\ ttr e = t.
Proof.
  induction names as [|m names IH]; simpl; [discriminate|].
  intros H. inv_bind H.
  unfold dfind in E. destruct (dget str_eqb members m) as [y|] eqn:G;
    [|discriminate]. injection E as <-.
  destruct (entry y) as [e|] eqn:En; [|auto].
  destruct (negb (alias y) && (ttr e =? t)) eqn:C; [|auto].
  injection H as <-. apply andb_prop in C. destruct C as [C1 C2].
  exists y, e. repeat split; auto.
  - destruct (alias y); [discriminate | reflexivity].
  - apply Z.eqb_eq. exact C2.
Qed.

(** C1: when [member] is an alias and [get_alias] resolves it to [target],
    the target is a member that is not an alias and has the TTR of the
    alias, and reading the alias returns what reading the target returns,
    which is a value. *)
Theorem alias_reads_target (a : archive) (pds : value) (member target : str) :
  is_alias a pds member = Ok true ->
  get_alias a pds member = Ok (Some target) ->
  is_alias a pds target = Ok false
  /\ (exists members t,
        members_of a pds = Ok members
        /\ member_ttr members member = Ok t
        /\ member_ttr members target = Ok t)
  /\ get_member_decoded a pds member = get_member_decoded a pds target
  /\ exists v, get_member_decoded a pds target = Ok v.
Proof.
  intros Ha Hg.
  assert (Hg' := Hg). unfold get_alias in Hg'.
  inv_bind Hg'. destruct x. inv_bind Hg'. rename x into members.
  inv_bind Hg'. rename x into t.
  destruct (find_alias_target_found _ _ _ _ Hg') as [y [e [G [En [Al Tt]]]]].
  assert (Hit : is_alias a pds target = Ok false).
  { unfold is_alias. rewrite E, E0. simpl. unfold dfind. rewrite G. simpl.
    rewrite Al. reflexivity. }
  split; [exact Hit|]. split.
  { exists members, t. repeat split; auto.
    unfold member_ttr, dfind. rewrite G. simpl. rewrite En. congruence. }
  assert (Ht : exists v, get_member_decoded a pds target = Ok v).
  { unfold get_member_decoded. rewrite E, Hit. simpl. rewrite E0. simpl.
    unfold dfind. rewrite G. simpl.
    destruct (text y); [eauto|]. destruct (data y); eauto. }
  split; [|exact Ht].
  unfold get_member_decoded. rewrite E, Ha, Hit. simpl. rewrite Hg.
  reflexivity.
Qed.

Lemma alias_reads_target_witness :
  get_member_decoded archive_sample (VStr (lit "MY.PDS")) (lit "ALT")
  = Ok (VStr (lit "HELLO")).
Proof.
  destruct (@alias_reads_target archive_sample (VStr (lit "MY.PDS"))
              (lit "ALT") (lit "MAIN") eq_refl eq_refl)
    as [_ [_ [H _]]].
  rewrite H. reflexivity.
Defined.

(** ** The TTR table of [process_blocks] *)

Lemma In_dget (members : members_dict) (n : str) :
  In n (dkeys members) -> exists x, dget str_eqb members n = Some x.
Proof.
  induction members as [|[k v] d IH]; simpl; [contradiction|].
  intros [H|H].
  - subst. rewrite str_eqb_refl. eauto.
  - destruct (str_eqb n k); eauto.
Qed.

Lemma last_such_sound (P : str -> bool) (names : list str) (n : str) :
  last_such P names = Some n -> P n = true /\ In n names.
Proof.
  induction names as [|m names IH]; simpl; [discriminate|].
  destruct (last_such P names) as [x|].
  - intros H. injection H as ->. destruct IH; auto.
  - destruct (P m) eqn:E; [|discriminate].
    intros H. injection H as <-. auto.
Qed.

Lemma last_such_ext (P Q : str -> bool) (names : list str) :
  (forall n, In n names -> P n = Q n) ->
  last_such P names = last_such Q names.
Proof.
  induction names as [|m names IH]; simpl; intros H; [reflexivity|].
  rewrite IH by auto. rewrite (H m) by auto. reflexivity.
Qed.

Lemma last_such_none (P : str -> bool) (names : list str) :
  (forall n, In n names -> P n = false) -> last_such P names = None.
Proof.
  induction names as [|m names IH]; simpl; intros H; [reflexivity|].
  rewrite IH by auto. rewrite (H m) by auto. reflexivity.
Qed.

Lemma has_ttr_member_ttr (members : members_dict) (t : Z) (n : str) :
  has_ttr members t n = true -> member_ttr members n = Ok t.
Proof.
  unfold has_ttr, member_ttr, dfind.
  destruct (dget str_eqb members n) as [x|]; [|discriminate]. simpl.
  destruct (entry x) as [e|]; [|discriminate].
  intros H. apply Z.eqb_eq in H. congruence.
Qed.

Lemma has_ttr_unique (members : members_dict) (t t' : Z) (n : str) :
  has_ttr members t n = true -> has_ttr members t' n = true -> t = t'.
Proof.
  intros H H'. apply has_ttr_member_ttr in H, H'. congruence.
Qed.

Lemma has_ttr_with_alias (members : members_dict) (name : str) (x : member)
  (b : bool) (t : Z) (n : str) :
  dget str_eqb members name = Some x ->
  has_ttr (dset str_eqb members name (with_alias x b)) t n
  = has_ttr members t n.
Proof.
  intros G. unfold has_ttr.
  destruct (list_eq_dec Z.eq_dec n name) as [->|N].
  - rewrite sget_same. rewrite G. reflexivity.
  - rewrite sget_other by exact N. reflexivity.
Qed.

(** What the first loop leaves in the two tables: under each TTR, the last
    alias and the last other member of the names walked. *)
Lemma ttr_tables_spec (members : members_dict) (names : list str) :
  (forall n, In n names ->
     exists x e, dget str_eqb members n = Some x /\ entry x = Some e) ->
  forall ttrs aliases,
  exists ttrs' aliases',
    ttr_tables members names ttrs aliases = Ok (ttrs', aliases')
    /\ (forall t,
          dget Z.eqb aliases' t =
          match last_such (fun n => has_ttr members t n && alias_of members n)
                  names with
          | Some n => Some n
          | None => dget Z.eqb aliases t
          end)
    /\ (forall t,
          dget Z.eqb ttrs' t =
          match last_such
                  (fun n => has_ttr members t n && negb (alias_of members n))
                  names with
          | Some n => Some n
          | None => dget Z.eqb ttrs t
          end).
Proof.
  induction names as [|m names IH]; intros Hall ttrs aliases.
  - exists ttrs, aliases. simpl. auto.
  - destruct (Hall m (or_introl eq_refl)) as [x [e [G En]]].
    assert (Hall' : forall n, In n names ->
              exists x e, dget str_eqb members n = Some x /\ entry x = Some e)
      by (intros; apply Hall; right; assumption).
    simpl. unfold member_ttr, dfind. rewrite G. simpl. rewrite En. simpl.
    assert (Hm : forall t, has_ttr members t m = (ttr e =? t)).
    { intros t. unfold has_ttr. rewrite G, En. reflexivity. }
    assert (Ha : alias_of members m = alias x)
      by (unfold alias_of; rewrite G; reflexivity).
    destruct (alias x) eqn:Al.
    + destruct (IH Hall' ttrs (dset Z.eqb aliases (ttr e) m))
        as [ttrs' [aliases' [R [A T]]]].
      exists ttrs', aliases'. split; [exact R|]. split; intros t.
      * rewrite A. destruct (last_such _ names); [reflexivity|].
        rewrite Hm, Ha. simpl. destruct (ttr e =? t) eqn:C; simpl.
        -- apply Z.eqb_eq in C. subst t.
           apply zget_same.
        -- apply zget_other. intros ->.
           rewrite Z.eqb_refl in C. discriminate.
      * rewrite T. destruct (last_such _ names); [reflexivity|].
        rewrite Hm, Ha. simpl. rewrite andb_false_r. reflexivity.
    + destruct (IH Hall' (dset Z.eqb ttrs (ttr e) m) aliases)
        as [ttrs' [aliases' [R [A T]]]].
      exists ttrs', aliases'. split; [exact R|]. split; intros t.
      * rewrite A. destruct (last_such _ names); [reflexivity|].
        rewrite Hm, Ha. simpl. rewrite andb_false_r. reflexivity.
      * rewrite T. destruct (last_such _ names); [reflexivity|].
        rewrite Hm, Ha. simpl. rewrite andb_true_r.
        destruct (ttr e =? t) eqn:C; simpl.
        -- apply Z.eqb_eq in C. subst t.
           apply zget_same.
        -- apply zget_other. intros ->.
           rewrite Z.eqb_refl in C. discriminate.
Qed.

Lemma with_alias_idem (x : member) (b : bool) :
  with_alias (with_alias x b) b = with_alias x b.
Proof. reflexivity. Qed.

(** What the second loop does: a TTR of the alias table that no member owns
    gets the alias of the table as owner, whose flag is cleared; owners
    already there and members that the alias table does not name are left
    as they are. *)
Lemma promote_aliases_spec (aliases : dict Z str) (keys : list Z) :
  forall ttrs cur,
  (forall a n, dget Z.eqb aliases a = Some n -> has_ttr cur a n = true) ->
  (forall a, In a keys -> exists n, dget Z.eqb aliases a = Some n) ->
  exists ttrs' cur',
    promote_aliases aliases keys ttrs cur = Ok (ttrs', cur')
    /\ (forall t v, dget Z.eqb ttrs t = Some v -> dget Z.eqb ttrs' t = Some v)
    /\ (forall t l, In t keys -> dget Z.eqb ttrs t = None ->
                    dget Z.eqb aliases t = Some l ->
                    dget Z.eqb ttrs' t = Some l
                    /\ exists x, dget str_eqb cur l = Some x
                                 /\ dget str_eqb cur' l
                                    = Some (with_alias x false))
    /\ (forall n, (forall a, dget Z.eqb aliases a <> Some n) ->
                  dget str_eqb cur' n = dget str_eqb cur n)
    /\ (forall n x, dget str_eqb cur n = Some x ->
                    dget str_eqb cur' n = Some x
                    \/ dget str_eqb cur' n = Some (with_alias x false)).
Proof.
  induction keys as [|a keys IH]; intros ttrs cur I1 I0.
  - exists ttrs, cur. simpl. repeat split; auto; try contradiction.
  - assert (I0' : forall a', In a' keys ->
                    exists n, dget Z.eqb aliases a' = Some n)
      by (intros; apply I0; right; assumption).
    simpl. unfold dmem. destruct (dget Z.eqb ttrs a) as [owner|] eqn:Ta; simpl.
    + destruct (IH ttrs cur I1 I0') as [ttrs' [cur' [R [P1 [P2 [P3 P5]]]]]].
      exists ttrs', cur'. split; [exact R|]. repeat split; auto.
      * destruct H as [->|H]; [congruence|].
        destruct (P2 t l H H0 H1); assumption.
      * destruct H as [->|H]; [congruence|].
        destruct (P2 t l H H0 H1); assumption.
    + destruct (I0 a (or_introl eq_refl)) as [name Hn].
      unfold dfind at 1. rewrite Hn. simpl.
      rewrite (has_ttr_member_ttr _ _ _ (I1 _ _ Hn)). simpl.
      assert (Hx : exists x, dget str_eqb cur name = Some x).
      { specialize (I1 _ _ Hn). unfold has_ttr in I1.
        destruct (dget str_eqb cur name); [eauto|discriminate]. }
      destruct Hx as [x Gx]. unfold dfind. rewrite Gx. simpl.
      set (cur1 := dset str_eqb cur name (with_alias x false)).
      set (ttrs1 := dset Z.eqb ttrs a name).
      assert (I1' : forall a' n, dget Z.eqb aliases a' = Some n ->
                      has_ttr cur1 a' n = true).
      { intros a' n Hd. unfold cur1. rewrite has_ttr_with_alias by exact Gx.
        auto. }
      destruct (IH ttrs1 cur1 I1' I0') as [ttrs' [cur' [R [P1 [P2 [P3 P5]]]]]].
      exists ttrs', cur'. split; [exact R|].
      assert (Q1 : forall t v, dget Z.eqb ttrs t = Some v ->
                     dget Z.eqb ttrs' t = Some v).
      { intros t v Hv. apply P1. unfold ttrs1.
        rewrite zget_other; [exact Hv|congruence]. }
      assert (Q5 : forall n y, dget str_eqb cur n = Some y ->
                     dget str_eqb cur' n = Some y
                     \/ dget str_eqb cur' n = Some (with_alias y false)).
      { intros n y Gy. destruct (list_eq_dec Z.eq_dec n name) as [->|N].
        - assert (y = x) by congruence. subst y. right.
          destruct (P5 name (with_alias x false)) as [H|H];
            [unfold cur1; apply sget_same | exact H | exact H].
        - apply P5. unfold cur1.
          rewrite sget_other by exact N. exact Gy. }
      split; [exact Q1|]. split; [|split; [|exact Q5]].
      * intros t l Hin Tt Hl.
        destruct (Z.eq_dec t a) as [->|N].
        -- assert (l = name) by congruence. subst l. split.
           ++ apply P1. unfold ttrs1. apply zget_same.
           ++ exists x. split; [exact Gx|].
              destruct (P5 name (with_alias x false)) as [H|H];
                [unfold cur1; apply sget_same
                | exact H | exact H].
        -- destruct Hin as [->|Hin]; [congruence|].
           assert (Tt1 : dget Z.eqb ttrs1 t = None).
           { unfold ttrs1. rewrite zget_other by exact N.
             exact Tt. }
           destruct (P2 t l Hin Tt1 Hl) as [S1 [y [Gy Gy']]].
           split; [exact S1|].
           assert (l <> name).
           { intros ->. apply N. apply (@has_ttr_unique cur t a name); auto. }
           exists y. split; [|exact Gy'].
           unfold cur1 in Gy.
           rewrite sget_other in Gy by assumption.
           exact Gy.
      * intros n Hno. rewrite P3 by exact Hno. unfold cur1.
        apply sget_other. intros ->. apply (Hno a). exact Hn.
Qed.

(** C2, as the code has it: when every member sharing the TTR [t] is marked
    alias, the last of them in directory order, [l], has its alias flag
    cleared and owns [t] in the TTR table, and every other member sharing
    [t] is left as it was, alias flag included. *)
Theorem last_alias_promoted (members : members_dict) (t : Z) (l : str) :
  (forall n x, dget str_eqb members n = Some x -> entry x <> None) ->
  (forall n, has_ttr members t n = true -> alias_of members n = true) ->
  last_with_ttr members t = Some l ->
  exists ttrs members',
    process_blocks_ttrs members = Ok (ttrs, members')
    /\ dget Z.eqb ttrs t = Some l
    /\ (exists x, dget str_eqb members l = Some x
                  /\ alias x = true
                  /\ dget str_eqb members' l = Some (with_alias x false))
    /\ (forall n, n <> l -> has_ttr members t n = true ->
                  dget str_eqb members' n = dget str_eqb members n).
Proof.
  intros H1 H2 H3.
  assert (Hall : forall n, In n (dkeys members) ->
            exists x e, dget str_eqb members n = Some x /\ entry x = Some e).
  { intros n Hin. destruct (In_dget _ _ Hin) as [x G].
    specialize (H1 n x G). destruct (entry x) as [e|] eqn:En; [eauto|].
    contradiction. }
  destruct (ttr_tables_spec members (dkeys members) Hall [] [])
    as [ttrs0 [aliases0 [R [A T]]]].
  unfold process_blocks_ttrs. rewrite R. simpl.
  assert (Al : dget Z.eqb aliases0 t = Some l).
  { rewrite A.
    rewrite (last_such_ext _ (has_ttr members t)).
    - unfold last_with_ttr in H3. rewrite H3. reflexivity.
    - intros n _. destruct (has_ttr members t n) eqn:E; [|reflexivity].
      rewrite (H2 n E). reflexivity. }
  assert (Tl : dget Z.eqb ttrs0 t = None).
  { rewrite T. rewrite last_such_none; [reflexivity|].
    intros n _. destruct (has_ttr members t n) eqn:E; [|reflexivity].
    rewrite (H2 n E). reflexivity. }
  assert (I1 : forall a n, dget Z.eqb aliases0 a = Some n ->
                 has_ttr members a n = true).
  { intros a n Hd. rewrite A in Hd.
    destruct (last_such _ (dkeys members)) as [m|] eqn:E; [|discriminate].
    injection Hd as ->. apply last_such_sound in E. destruct E as [E _].
    apply andb_prop in E. tauto. }
  assert (I0 : forall a, In a (dkeys aliases0) ->
                 exists n, dget Z.eqb aliases0 a = Some n)
    by (intros a; apply dkeys_dget; exact Z.eqb_eq).
  destruct (promote_aliases_spec aliases0 (dkeys aliases0) ttrs0 members I1 I0)
    as [ttrs' [members' [R' [_ [P2 [P3 _]]]]]].
  exists ttrs', members'. split; [exact R'|].
  assert (Hin : In t (dkeys aliases0))
    by (apply (dget_In Z str Z.eqb Z.eqb_eq aliases0 t l); exact Al).
  destruct (P2 t l Hin Tl Al) as [S1 [x [Gx Gx']]].
  split; [exact S1|]. split.
  - exists x. repeat split; auto.
    specialize (I1 _ _ Al). specialize (H2 _ I1).
    unfold alias_of in H2. rewrite Gx in H2. exact H2.
  - intros n N Hn. apply P3. intros a Ha.
    assert (a = t) by (apply (@has_ttr_unique members a t n); auto).
    subst a. congruence.
Qed.

Lemma last_alias_promoted_witness :
  exists ttrs members',
    process_blocks_ttrs alias_pair = Ok (ttrs, members')
    /\ dget Z.eqb ttrs 1 = Some (lit "B").
Proof.
  assert (H1 : forall n x, dget str_eqb alias_pair n = Some x ->
                 entry x <> None).
  { intros n x H. unfold alias_pair in H. simpl in H.
    destruct (str_eqb n (lit "A")); [injection H as <-; discriminate|].
    destruct (str_eqb n (lit "B")); [injection H as <-; discriminate|].
    discriminate. }
  assert (H2 : forall n, has_ttr alias_pair 1 n = true ->
                 alias_of alias_pair n = true).
  { intros n. unfold has_ttr, alias_of, alias_pair. simpl.
    destruct (str_eqb n (lit "A")); [reflexivity|].
    destruct (str_eqb n (lit "B")); [reflexivity|]. discriminate. }
  destruct (@last_alias_promoted alias_pair 1 (lit "B") H1 H2 eq_refl)
    as [ttrs [members' [R [S _]]]].
  exists ttrs, members'. split; assumption.
Defined.

(** C2 as stated fails on [alias_pair]: both members share TTR 1 and both
    are marked alias; the first one in directory order, [A], keeps its
    alias flag, and the second one, [B], has it cleared and owns the
    TTR. *)
Lemma first_alias_not_promoted :
  first_with_ttr alias_pair 1 = Some (lit "A")
  /\ forallb (fun nx => alias (snd nx)) alias_pair = true
  /\ exists ttrs members',
       process_blocks_ttrs alias_pair = Ok (ttrs, members')
       /\ alias_of members' (lit "A") = true
       /\ alias_of members' (lit "B") = false
       /\ dget Z.eqb ttrs 1 = Some (lit "B").
Proof.
  split; [reflexivity|]. split; [reflexivity|].
  eexists. eexists. split; [vm_compute; reflexivity|].
  repeat split.
Qed.

(** ** Slices *)

Lemma len_nonneg {A} (l : list A) : 0 <= len l.
Proof. unfold len. lia. Qed.

Lemma slice_len {A} (l : list A) (a b : Z) :
  0 <= a -> a <= b -> b <= (len l) -> len (slice l a b) = b - a.
Proof.
  intros Ha Hab Hb. unfold slice, norm_idx. cbv zeta.
  assert ((a <? 0) = false) as -> by lia.
  assert ((b <? 0) = false) as -> by lia.
  unfold len in *. rewrite length_firstn, length_skipn. lia.
Qed.

Lemma index_Ok {A} (l : list A) (i : Z) :
  0 <= i < (len l) -> exists x, index l i = Ok x.
Proof.
  intros H. assert (Hneg : (i <? 0) = false) by lia.
  unfold index. cbv zeta. rewrite Hneg. cbv iota. rewrite Hneg.
  destruct (nth_error l (Z.to_nat i)) as [x|] eqn:E; [eauto|].
  apply nth_error_None in E. unfold len in H. lia.
Qed.

Lemma index_Ok_inv {A} (l : list A) (i : Z) (x : A) :
  0 <= i -> index l i = Ok x -> i < (len l).
Proof.
  intros Hi. assert (Hneg : (i <? 0) = false) by lia.
  unfold index. cbv zeta. rewrite Hneg. cbv iota. rewrite Hneg.
  destruct (nth_error l (Z.to_nat i)) as [y|] eqn:E; [|discriminate].
  intros _. assert (nth_error l (Z.to_nat i) <> None) as N by congruence.
  apply nth_error_Some in N. unfold len. lia.
Qed.

(** ** The shape of a formatted date *)

Lemma digits_fuel_shape (fuel : nat) :
  forall (k : nat) (n : Z),
    (1 <= k)%nat -> 0 <= n < 10 ^ Z.of_nat k ->
    (List.length (digits_fuel fuel 10 n) <= k)%nat
    /\ Forall (fun d => 0 <= d < 10) (digits_fuel fuel 10 n).
Proof.
  induction fuel as [|fuel IH]; intros k n Hk Hn; simpl.
  - split; [lia | constructor].
  - destruct (n <? 10) eqn:C.
    + apply Z.ltb_lt in C. split; [simpl; lia|].
      constructor; [lia | constructor].
    + apply Z.ltb_ge in C.
      destruct k as [|[|k]]; [lia | simpl in Hn; lia |].
      assert (Hd : 0 <= n / 10 < 10 ^ Z.of_nat (S k)).
      { split; [apply Z.div_pos; lia|].
        apply Z.div_lt_upper_bound; [lia|].
        replace (Z.of_nat (S (S k))) with (Z.succ (Z.of_nat (S k))) in Hn
          by lia.
        rewrite Z.pow_succ_r in Hn by lia. lia. }
      destruct (IH (S k) (n / 10) ltac:(lia) Hd) as [L F].
      split.
      * rewrite length_app. simpl. lia.
      * apply Forall_app. split; [exact F|].
        constructor; [|constructor].
        apply Z.mod_pos_bound. lia.
Qed.

Lemma shape_digits (w : nat) (s : str) :
  List.length s = w -> Forall (fun c => is_ascii_digit c = true) s ->
  shape_match (repeat None w) s = true.
Proof.
  revert w. induction s as [|c s IH]; intros w L F.
  - simpl in L. subst w. reflexivity.
  - destruct w as [|w]; [discriminate|]. simpl.
    inversion F; subst. rewrite H1. simpl. apply IH; auto.
Qed.

Lemma shape_match_app (p1 p2 : list (option Z)) (s1 s2 : str) :
  shape_match p1 s1 = true -> shape_match p2 s2 = true ->
  shape_match (p1 ++ p2) (s1 ++ s2) = true.
Proof.
  revert s1. induction p1 as [|[k|] p1 IH]; intros [|c s1] H1 H2; simpl in *;
    try discriminate; auto.
  - apply andb_prop in H1. destruct H1 as [-> H1]. simpl. auto.
  - apply andb_prop in H1. destruct H1 as [-> H1]. simpl. auto.
Qed.

Lemma fmt_d_shape (w : nat) (n : Z) :
  (1 <= w)%nat -> 0 <= n < 10 ^ Z.of_nat w ->
  shape_match (repeat None w) (fmt_d w n) = true.
Proof.
  intros Hw Hn. unfold fmt_d, zfill, digits.
  destruct (digits_fuel_shape (S (Z.to_nat (Z.log2 n))) w n Hw Hn) as [L F].
  set (ds := digits_fuel _ 10 n) in *.
  apply shape_digits.
  - rewrite length_app, repeat_length, length_map. lia.
  - apply Forall_app. split.
    + apply Forall_forall. intros c Hc. apply repeat_spec in Hc. subst c.
      reflexivity.
    + apply Forall_map. eapply Forall_impl; [|exact F].
      intros d Hd. cbv beta in Hd. unfold digit_char, is_ascii_digit.
      assert ((d <? 10) = true) as -> by lia.
      apply andb_true_intro. split; apply Z.leb_le; lia.
Qed.

Lemma days_in_month_le (y m : Z) : days_in_month y m <= 31.
Proof.
  unfold days_in_month.
  destruct (m =? 2); [destruct (is_leap y); lia|].
  destruct ((m =? 4) || (m =? 6) || (m =? 9) || (m =? 11)); lia.
Qed.

Lemma isoformat_shape (y mo d h mi s us : Z) (dt : datetime) :
  mk_datetime y mo d h mi s us = Ok dt -> is_iso_micro (isoformat dt) = true.
Proof.
  unfold mk_datetime.
  destruct (_ && _) eqn:C; [|discriminate]. intros H. injection H as <-.
  repeat (apply andb_prop in C; destruct C as [C ?]).
  pose proof (days_in_month_le y mo).
  unfold is_iso_micro, isoformat. simpl year. simpl month. simpl day.
  simpl hour. simpl minute. simpl second. simpl microsecond.
  change iso_pattern with
    (repeat None 4 ++ [Some 45] ++ repeat None 2 ++ [Some 45]
     ++ repeat None 2 ++ [Some 84] ++ repeat None 2 ++ [Some 58]
     ++ repeat None 2 ++ [Some 58] ++ repeat None 2 ++ [Some 46]
     ++ repeat None 6).
  repeat (apply shape_match_app;
          [first [ apply fmt_d_shape; simpl; lia | reflexivity ] |]).
  apply fmt_d_shape; simpl; lia.
Qed.

Lemma strptime_shape (s : str) (format : list directive) (dt : datetime) :
  strptime s format = Ok dt -> is_iso_micro (isoformat dt) = true.
Proof.
  unfold strptime.
  destruct (match_groups _ s) as [[ts r]|]; [|discriminate].
  destruct r; [|discriminate].
  intros H. inv_bind H. destruct x as [[y mo] d].
  eapply isoformat_shape. exact H.
Qed.

(** ** ISPF dates and tape dates *)

Lemma ispf_date_shape (ispfdate : bytes) (seconds : Z) (r : str) :
  ispf_date ispfdate seconds = Ok r -> iso_or_empty r.
Proof.
  unfold ispf_date. intros H.
  repeat (inv_bind H). destruct x4 as [hours minutes].
  destruct (strptime _ _) as [d| | |] eqn:S; injection H as <-.
  - right. eapply strptime_shape. exact S.
  - left. reflexivity.
  - left. reflexivity.
  - left. reflexivity.
Qed.

Lemma fmt_02x_len (n : Z) : 2 <= len (fmt_02x n).
Proof.
  unfold fmt_02x, zfill, len. rewrite length_app, repeat_length. lia.
Qed.

(** On the four or six bytes a directory entry gives it, [ispf_date]
    returns. *)
Lemma ispf_date_total (ispfdate : bytes) (seconds : Z) :
  len ispfdate = 4 \/ 6 <= len ispfdate ->
  exists r, ispf_date ispfdate seconds = Ok r.
Proof.
  intros L. unfold ispf_date.
  destruct (index_Ok ispfdate 0) as [b0 ->]; [lia|].
  destruct (index_Ok ispfdate 1) as [b1 ->]; [lia|].
  destruct (index_Ok ispfdate 2) as [b2 ->]; [lia|].
  destruct (index_Ok ispfdate 3) as [b3 ->]; [lia|].
  cbn [bind].
  destruct (index_Ok (fmt_02x (bv b3)) 0) as [d3 ->];
    [pose proof (fmt_02x_len (bv b3)); lia|].
  cbn [bind].
  destruct (4 <? len ispfdate) eqn:C.
  - apply Z.ltb_lt in C.
    destruct (index_Ok ispfdate 4) as [b4 ->]; [lia|].
    destruct (index_Ok ispfdate 5) as [b5 ->]; [lia|].
    cbn [bind]. destruct (strptime _ _); eauto.
  - cbn [bind]. destruct (strptime _ _); eauto.
Qed.

Lemma get_tape_date_shape (tape_date r : str) :
  get_tape_date tape_date = Ok r -> is_iso_micro r = true.
Proof.
  unfold get_tape_date. intros H. repeat (inv_bind H).
  injection H as <-. eapply strptime_shape. exact E2.
Qed.

(** ** Directory entries *)

Lemma member_entry_stats (cfg : config) (info : bytes) (loc : Z) (m : member) :
  member_entry cfg info loc = Ok m ->
  exists e,
    entry m = Some e
    /\ (ispf e <> None <-> notes e = 0 /\ 30 <= len (parms e))
    /\ forall st, ispf e = Some st ->
         (exists p2, index (parms e) 2 = Ok p2 /\ flags st = bv p2)
         /\ (has_bits 0x10 (flags st) = true -> long_counts (parms e) st)
         /\ (has_bits 0x10 (flags st) = false -> short_counts (parms e) st)
         /\ iso_or_empty (createdate st)
         /\ iso_or_empty (modifydate st).
Proof.
  unfold member_entry. intros H. inv_bind H. rename x into f.
  inv_bind H. rename x into stats. injection H as <-.
  eexists. split; [reflexivity|]. cbn [notes parms ispf].
  set (parms := slice info (loc + 12) (loc + 12 + Z.land (bv f) 31 * 2)) in *.
  set (notes := Z.shiftr (Z.land (bv f) 96) 5) in *.
  destruct ((30 <=? len parms) && (notes =? 0)) eqn:C.
  - apply andb_prop in C. destruct C as [C1 C2].
    apply Z.leb_le in C1. apply Z.eqb_eq in C2.
    inv_bind E0. rename x into p0. inv_bind E0. rename x into p1.
    inv_bind E0. rename x into p2. inv_bind E0. rename x into created.
    inv_bind E0. rename x into p3. inv_bind E0. rename x into modified.
    apply ispf_date_shape in E4, E6.
    cbn [flags version createdate modifydate user] in E0.
    destruct (has_bits 16 (bv p2)) eqn:B; injection E0 as <-.
    + split; [split; [auto | discriminate]|].
      intros st H. injection H as <-. cbn [flags createdate modifydate].
      split; [eauto|]. split; [intros _; repeat split|].
      split; [rewrite B; discriminate|]. auto.
    + split; [split; [auto | discriminate]|].
      intros st H. injection H as <-. cbn [flags createdate modifydate].
      split; [eauto|]. split; [rewrite B; discriminate|].
      split; [intros _; repeat split|]. auto.
  - injection E0 as <-. split.
    + split; [congruence|]. intros [N L].
      rewrite N in C. apply Z.leb_le in L. rewrite L in C. discriminate.
    + intros st H. discriminate.
Qed.

(** An entry whose flag byte is there is decoded: the dates of its ISPF
    statistics do not stop the parser. *)
Lemma member_entry_total (cfg : config) (info : bytes) (loc : Z) (f : byte) :
  index info (loc + 11) = Ok f -> exists m, member_entry cfg info loc = Ok m.
Proof.
  intros Hf. unfold member_entry. rewrite Hf. cbn [bind].
  set (parms := slice info (loc + 12) (loc + 12 + Z.land (bv f) 31 * 2)).
  destruct ((30 <=? len parms) && (Z.shiftr (Z.land (bv f) 96) 5 =? 0)) eqn:C;
    [|cbn [bind]; eauto].
  apply andb_prop in C. destruct C as [C1 _]. apply Z.leb_le in C1.
  destruct (index_Ok parms 0) as [p0 ->]; [lia|].
  destruct (index_Ok parms 1) as [p1 ->]; [lia|].
  destruct (index_Ok parms 2) as [p2 ->]; [lia|].
  destruct (index_Ok parms 3) as [p3 ->]; [lia|].
  cbn [bind].
  destruct (ispf_date_total (slice parms 4 8) 0) as [c ->];
    [left; apply slice_len; lia|].
  cbn [bind].
  destruct (ispf_date_total (slice parms 8 14) (bv p3)) as [d ->];
    [right; rewrite slice_len; lia|].
  cbn [bind flags]. destruct (has_bits 16 (bv p2)); cbn [bind]; eauto.
Qed.

Lemma directory_block_from (cfg : config) (directory info : bytes) (dl : Z)
  (fuel : nat) :
  forall loc members members' loc',
    (forall n m, dget str_eqb members n = Some m -> from_directory cfg m) ->
    directory_block fuel cfg directory info dl loc members
    = Ok (members', loc') ->
    forall n m, dget str_eqb members' n = Some m -> from_directory cfg m.
Proof.
  induction fuel as [|fuel IH]; intros loc members members' loc' Hall; simpl.
  - destruct (loc <? dl); [discriminate|].
    intros H. injection H as <- <-. exact Hall.
  - destruct (loc <? dl).
    + destruct (bytes_eqb _ _).
      * intros H. injection H as <- <-. exact Hall.
      * intros H. inv_bind H. rename x into m0.
        eapply IH; [|exact H].
        intros n m G.
        destruct (list_eq_dec Z.eq_dec n
                    (rstrip (decode (ebcdic cfg) (slice info loc (loc + 8)))))
          as [->|N].
        -- rewrite sget_same in G. injection G as <-.
           exists info, loc. exact E.
        -- rewrite sget_other in G by exact N. eauto.
    + intros H. injection H as <- <-. exact Hall.
Qed.

Lemma directory_blocks_from (cfg : config) (directory : bytes) (fuel : nat) :
  forall block_loc members members',
    (forall n m, dget str_eqb members n = Some m -> from_directory cfg m) ->
    directory_blocks fuel cfg directory block_loc members = Ok members' ->
    forall n m, dget str_eqb members' n = Some m -> from_directory cfg m.
Proof.
  induction fuel as [|fuel IH]; intros block_loc members members' Hall; simpl.
  - destruct (block_loc <? len directory); [discriminate|].
    intros H. injection H as <-. exact Hall.
  - destruct (block_loc <? len directory).
    + intros H. inv_bind H. destruct x as [members1 loc1].
      eapply IH; [|exact H].
      eapply directory_block_from; [exact Hall | exact E].
    + intros H. injection H as <-. exact Hall.
Qed.

(** Every member [get_members_info] returns is the entry made of some
    member area. *)
Lemma get_members_info_from (cfg : config) (directory : bytes)
  (members : members_dict) :
  get_members_info cfg directory = Ok members ->
  forall n m, dget str_eqb members n = Some m -> from_directory cfg m.
Proof.
  unfold get_members_info. intros H.
  eapply directory_blocks_from; [|exact H].
  intros n m G. discriminate.
Qed.

(** The fields of an entry are read off the flag byte at offset 11 and the
    bytes around it. *)
Lemma member_entry_fields (cfg : config) (info : bytes) (loc : Z)
  (m : member) :
  member_entry cfg info loc = Ok m ->
  exists f e,
    index info (loc + 11) = Ok f
    /\ entry m = Some e
    /\ ttr e = get_int (slice info (loc + 8) (loc + 11))
    /\ alias m = (Z.land (bv f) 0x80 =? 0x80)
    /\ halfwords e = Z.land (bv f) 0x1F * 2
    /\ notes e = Z.shiftr (Z.land (bv f) 0x60) 5
    /\ parms e = slice info (loc + 12) (loc + 12 + Z.land (bv f) 0x1F * 2).
Proof.
  unfold member_entry. intros H. inv_bind H. rename x into f.
  inv_bind H. injection H as <-.
  exists f. eexists. split; [exact E|]. repeat split.
Qed.

Lemma directory_block_places (cfg : config) (directory info : bytes)
  (block_loc dl : Z) (fuel : nat) :
  info = member_area directory block_loc ->
  dl = used_len directory block_loc ->
  0 <= block_loc < len directory ->
  forall loc members members' loc',
    0 <= loc ->
    (forall n m, dget str_eqb members n = Some m -> placed cfg directory n m) ->
    directory_block fuel cfg directory info dl loc members
    = Ok (members', loc') ->
    (forall n m, dget str_eqb members' n = Some m -> placed cfg directory n m)
    /\ 0 <= loc'.
Proof.
  intros Hi Hd Hb.
  induction fuel as [|fuel IH]; intros loc members members' loc' Hloc Hall;
    simpl.
  - destruct (loc <? dl); [discriminate|].
    intros H. injection H as <- <-. auto.
  - destruct (Z.ltb_spec loc dl) as [L|L].
    + destruct (bytes_eqb _ _).
      * intros H. injection H as <- <-. split; [exact Hall|].
        apply len_nonneg.
      * intros H. inv_bind H. rename x into m0.
        destruct (member_entry_fields cfg info loc m0 E)
          as [f [e [Hf [En [_ [_ [Hh _]]]]]]].
        rewrite En, Hh in H.
        assert (H0 : 0 <= Z.land (bv f) 31)
          by (apply Z.land_nonneg; right; lia).
        eapply IH; [| |exact H]; [lia|].
        intros n m G.
        destruct (list_eq_dec Z.eq_dec n
                    (rstrip (decode (ebcdic cfg) (slice info loc (loc + 8)))))
          as [->|N].
        -- rewrite sget_same in G. injection G as <-.
           exists block_loc, loc. subst info dl. auto.
        -- rewrite sget_other in G by exact N. eauto.
    + intros H. injection H as <- <-. auto.
Qed.

Lemma directory_blocks_places (cfg : config) (directory : bytes)
  (fuel : nat) :
  forall block_loc members members',
    0 <= block_loc ->
    (forall n m, dget str_eqb members n = Some m -> placed cfg directory n m) ->
    directory_blocks fuel cfg directory block_loc members = Ok members' ->
    forall n m, dget str_eqb members' n = Some m -> placed cfg directory n m.
Proof.
  induction fuel as [|fuel IH]; intros block_loc members members' Hb Hall;
    cbn [directory_blocks].
  - destruct (block_loc <? len directory); [discriminate|].
    intros H. injection H as <-. exact Hall.
  - destruct (Z.ltb_spec block_loc (len directory)) as [L|L].
    + cbv zeta. intros H. inv_bind H. destruct x as [members1 loc1].
      destruct (directory_block_places cfg directory
                  (member_area directory block_loc) block_loc
                  (used_len directory block_loc)
                  (Z.to_nat (used_len directory block_loc))
                  eq_refl eq_refl (conj Hb L) 0 members members1 loc1
                  (Z.le_refl 0) Hall E) as [Hall1 Hloc1].
      eapply IH; [|exact Hall1|exact H].
      pose proof (Z.div_mod (block_loc + loc1 + 24) 276 ltac:(lia)).
      pose proof (Z.mod_pos_bound (block_loc + loc1 + 24) 276 ltac:(lia)).
      destruct (0 <? (block_loc + loc1 + 24) mod 276); lia.
    + intros H. injection H as <-. exact Hall.
Qed.

(** Every member [get_members_info] returns is the entry made at some
    position of the member area of some block of the directory, under the
    name read there. *)
Lemma get_members_info_places (cfg : config) (directory : bytes)
  (members : members_dict) :
  get_members_info cfg directory = Ok members ->
  forall n m, dget str_eqb members n = Some m -> placed cfg directory n m.
Proof.
  unfold get_members_info. intros H.
  eapply directory_blocks_places; [| |exact H]; [lia|].
  intros n m G. discriminate.
Qed.

(** C8: a member of the directory is stored for an entry of the directory:
    at some position of the member area of a block its name is read, the
    flag byte [f] is at offset 11, its notes field is bits [0x60] of [f]
    and its user data are the [f & 0x1F] halfwords from offset 12.  It has
    ISPF statistics exactly when this notes field is 0 and these user data
    are at least 30 bytes; the flags of the statistics are byte 2 of the
    user data, and when bit [0x10] of the flags is set the three line
    counts are the 32-bit fields at offsets 28 to 40 of the user data,
    otherwise the 16-bit fields at offsets 14 to 20. *)
Theorem ispf_stats_when_and_counts (cfg : config) (directory : bytes)
  (members : members_dict) (n : str) (m : member) :
  get_members_info cfg directory = Ok members ->
  dget str_eqb members n = Some m ->
  exists block_loc loc f e,
    0 <= block_loc < len directory
    /\ 0 <= loc < used_len directory block_loc
    /\ n = rstrip (decode (ebcdic cfg)
                     (slice (member_area directory block_loc) loc (loc + 8)))
    /\ index (member_area directory block_loc) (loc + 11) = Ok f
    /\ entry m = Some e
    /\ notes e = Z.shiftr (Z.land (bv f) 0x60) 5
    /\ parms e
       = slice (member_area directory block_loc) (loc + 12)
           (loc + 12 + Z.land (bv f) 0x1F * 2)
    /\ (ispf e <> None <-> notes e = 0 /\ 30 <= len (parms e))
    /\ forall st, ispf e = Some st ->
         (exists p2, index (parms e) 2 = Ok p2 /\ flags st = bv p2)
         /\ (has_bits 0x10 (flags st) = true -> long_counts (parms e) st)
         /\ (has_bits 0x10 (flags st) = false -> short_counts (parms e) st).
Proof.
  intros H G.
  destruct (get_members_info_places cfg directory members H n m G)
    as [block_loc [loc [Hb [Hl [Hn Hm]]]]].
  destruct (member_entry_fields cfg _ loc m Hm)
    as [f [e [Hf [En [_ [_ [_ [No Pa]]]]]]]].
  destruct (member_entry_stats cfg _ loc m Hm) as [e' [En' [Iff St]]].
  rewrite En in En'. injection En' as <-.
  exists block_loc, loc, f, e.
  repeat (split; [assumption|]).
  intros st Hst. destruct (St st Hst) as [F [L [S _]]]. auto.
Qed.

Lemma ispf_stats_when_and_counts_witness :
  exists members m e st m' e' st',
    get_members_info default_config dir_sample = Ok members
    /\ dget str_eqb members (lit "MEMBER1") = Some m
    /\ entry m = Some e
    /\ notes e = 0 /\ len (parms e) = 40
    /\ ispf e = Some st
    /\ flags st = 0x10
    /\ lines st = 65536 /\ newlines st = 2 /\ modlines st = 3
    /\ dget str_eqb members (lit "BADDATE") = Some m'
    /\ entry m' = Some e'
    /\ notes e' = 0 /\ len (parms e') = 30
    /\ ispf e' = Some st'
    /\ flags st' = 0
    /\ lines st' = 5 /\ newlines st' = 0 /\ modlines st' = 0.
Proof.
  destruct (get_members_info default_config dir_sample) as [members| | |] eqn:H;
    try (vm_compute in H; discriminate H).
  destruct (dget str_eqb members (lit "MEMBER1")) as [m|] eqn:G;
    [|vm_compute in H; injection H as <-; vm_compute in G; discriminate G].
  destruct (dget str_eqb members (lit "BADDATE")) as [m'|] eqn:G';
    [|vm_compute in H; injection H as <-; vm_compute in G'; discriminate G'].
  destruct (ispf_stats_when_and_counts default_config dir_sample members
              (lit "MEMBER1") m H G)
    as [_ [_ [_ [e [_ [_ [_ [_ [En [_ [_ [_ St]]]]]]]]]]]].
  destruct (ispf_stats_when_and_counts default_config dir_sample members
              (lit "BADDATE") m' H G')
    as [_ [_ [_ [e' [_ [_ [_ [_ [En' [_ [_ [_ St']]]]]]]]]]]].
  vm_compute in H. injection H as <-.
  vm_compute in G. injection G as <-.
  vm_compute in G'. injection G' as <-.
  cbn [entry] in En, En'. injection En as <-. injection En' as <-.
  destruct (St _ eq_refl) as [_ [[L1 [L2 L3]] _]]; [reflexivity|].
  destruct (St' _ eq_refl) as [_ [_ [S1 [S2 S3]]]]; [reflexivity|].
  do 7 eexists.
  split; [reflexivity|]. split; [reflexivity|]. split; [reflexivity|].
  split; [reflexivity|]. split; [reflexivity|]. split; [reflexivity|].
  split; [reflexivity|].
  split; [rewrite L1; reflexivity|]. split; [rewrite L2; reflexivity|].
  split; [rewrite L3; reflexivity|].
  split; [reflexivity|]. split; [reflexivity|].
  split; [reflexivity|]. split; [reflexivity|]. split; [reflexivity|].
  split; [reflexivity|].
  split; [rewrite S1; reflexivity|]. split; [rewrite S2; reflexivity|].
  rewrite S3. reflexivity.
Defined.

(** C5, as the code has it: the create and modify dates of the ISPF
    statistics of every member of a directory are a complete date and time
    with microseconds or the empty string; the entry of a member is made
    whenever its flag byte is there, whatever its date bytes are; and a
    tape date, when [get_tape_date] returns one, is a complete date and
    time with microseconds. *)
Theorem stored_dates_iso_or_empty :
  (forall cfg directory members n m e st,
     get_members_info cfg directory = Ok members ->
     dget str_eqb members n = Some m ->
     entry m = Some e -> ispf e = Some st ->
     iso_or_empty (createdate st) /\ iso_or_empty (modifydate st))
  /\ (forall cfg info loc f,
        index info (loc + 11) = Ok f ->
        exists m, member_entry cfg info loc = Ok m)
  /\ (forall tape_date r,
        get_tape_date tape_date = Ok r -> is_iso_micro r = true).
Proof.
  split; [|split].
  - intros cfg directory members n m e st H G En Hst.
    destruct (get_members_info_from cfg directory members H n m G)
      as [info [loc Hm]].
    destruct (member_entry_stats cfg info loc m Hm) as [e' [En' [_ St]]].
    assert (e' = e) by congruence. subst e'.
    destruct (St st Hst) as [_ [_ [_ [C M]]]]. auto.
  - intros cfg info loc f. apply member_entry_total.
  - apply get_tape_date_shape.
Qed.

Lemma stored_dates_iso_or_empty_witness :
  is_iso_micro (lit "1987-05-03T00:00:00.000000") = true
  /\ exists m, member_entry default_config dir_sample 22 = Ok m.
Proof.
  destruct stored_dates_iso_or_empty as [_ [T D]].
  split.
  - apply (D (lit " 87123")). reflexivity.
  - apply (T default_config dir_sample 22 x14). reflexivity.
Defined.

(** C5 as stated fails: the date bytes [00 00 40 0F] (day 400) make
    [ispf_date] return the empty string, which is a string and not a date,
    where the claim has [None]; this is what the directory [dir_sample]
    holds for its member [BADDATE]; and on the tape date [" 87400"]
    [get_tape_date] raises [ValueError], which nothing catches. *)
Lemma unparseable_dates :
  ispf_date [x00; x00; x40; x0f] 0 = Ok []
  /\ is_iso_micro [] = false
  /\ (exists members m e st,
        get_members_info default_config dir_sample = Ok members
        /\ dget str_eqb members (lit "BADDATE") = Some m
        /\ entry m = Some e /\ ispf e = Some st
        /\ createdate st = [] /\ modifydate st = [])
  /\ get_tape_date (lit " 87400") = Raise ValueError.
Proof.
  split; [vm_compute; reflexivity|]. split; [reflexivity|].
  split; [|vm_compute; reflexivity].
  eexists. eexists. eexists. eexists.
  split; [vm_compute; reflexivity|].
  split; [vm_compute; reflexivity|].
  split; [reflexivity|]. split; [reflexivity|]. split; reflexivity.
Qed.

(** ** COPYR1 *)

Lemma not_own_bind {A B} (r : res A) (k : A -> res B) :
  not_own_exception r -> (forall a, not_own_exception (k a)) ->
  not_own_exception (bind r k).
Proof.
  intros Hr Hk msg. destruct r; simpl; try discriminate.
  - apply Hk.
  - intros H. injection H as ->. exact (Hr msg eq_refl).
Qed.

Lemma not_own_index {A} (l : list A) (i : Z) : not_own_exception (index l i).
Proof.
  intros msg. unfold index. cbv zeta.
  destruct (_ <? 0); [discriminate|].
  destruct (nth_error _ _); discriminate.
Qed.

Lemma not_own_get_recfm (v : value) : not_own_exception (get_recfm v).
Proof.
  unfold get_recfm. apply not_own_bind.
  - destruct v; try (intros msg; discriminate).
    + apply not_own_bind; [apply not_own_index | intros; discriminate].
    + apply not_own_bind; [apply not_own_index | intros; discriminate].
  - intros a msg. discriminate.
Qed.

Lemma not_own_copyr1_tail (r : bytes) : not_own_exception (copyr1_tail r).
Proof.
  unfold copyr1_tail. destruct (negb _); [|intros msg; discriminate].
  apply not_own_bind; [apply not_own_index|]. intros _.
  apply not_own_bind; [apply not_own_index|]. intros r0 msg. discriminate.
Qed.

Lemma slice_nonempty {A} (l : list A) (a b : Z) :
  0 <= a -> a < b -> a < (len l) -> 0 < len (slice l a b).
Proof.
  intros Ha Hab Hl. unfold slice, norm_idx. cbv zeta.
  assert ((a <? 0) = false) as -> by lia.
  assert ((b <? 0) = false) as -> by lia.
  unfold len in *. rewrite length_firstn, length_skipn. lia.
Qed.

Lemma slice_from_len {A} (l : list A) (a : Z) :
  0 <= a -> a <= (len l) -> len (slice_from l a) = len l - a.
Proof.
  intros Ha Hl. unfold slice_from, norm_idx.
  assert ((a <? 0) = false) as -> by lia.
  unfold len in *. rewrite length_skipn. lia.
Qed.

Lemma copyr1_fields_accepted (bl sl : option Z) (r : bytes) :
  40 <= len r ->
  exists c,
    (let* b0 := index r 0 in
     let ty :=
       if negb (Z.land (bv b0) 0x01 =? 0) then lit "PDSE" else lit "PDS" in
     let* recfm := get_recfm (VBytes (slice r 10 12)) in
     let* keyl := index r 11 in
     let* optcd := index r 12 in
     let* smsfg := index r 13 in
     let* dvaclass := index r 18 in
     let* dvaunit := index r 19 in
     let* t := copyr1_tail r in
     let '(refd, scext, scalo, lstar, trbal) := t in
     Ok {| c_type := ty; block_length := bl; seg_length := sl;
           DS1DSORG := get_int (slice r 4 6);
           DS1BLKL := get_int (slice r 6 8);
           DS1LRECL := get_int (slice r 8 10);
           DS1RECFM := recfm;
           DS1KEYL := bv keyl; DS1OPTCD := bv optcd; DS1SMSFG := bv smsfg;
           file_tape_blocksize := get_int (slice r 14 16);
           DVAOPTS := get_int (slice r 16 18);
           DVACLASS := bv dvaclass; DVAUNIT := bv dvaunit;
           DVAMAXRC := get_int (slice r 20 24);
           DVACYL := get_int (slice r 24 26);
           DVATRK := get_int (slice r 26 28);
           DVATRKLN := get_int (slice r 28 30);
           DVAOVHD := get_int (slice r 30 32);
           num_header_records := get_int (slice r 36 38);
           DS1REFD := refd; DS1SCEXT := scext; DS1SCALO := scalo;
           DS1LSTAR := lstar; DS1TRBAL := trbal |}) = Ok c.
Proof.
  intros L.
  destruct (index_Ok r 0) as [b0 ->]; [lia|]. cbn [bind].
  unfold get_recfm.
  destruct (index_Ok (slice r 10 12) 0) as [f ->];
    [pose proof (slice_nonempty r 10 12); lia|].
  cbn [bind].
  destruct (index_Ok r 11) as [b11 ->]; [lia|].
  destruct (index_Ok r 12) as [b12 ->]; [lia|].
  destruct (index_Ok r 13) as [b13 ->]; [lia|].
  destruct (index_Ok r 18) as [b18 ->]; [lia|].
  destruct (index_Ok r 19) as [b19 ->]; [lia|].
  cbn [bind]. unfold copyr1_tail.
  destruct (negb _); cbn [bind]; [|eauto].
  destruct (index_Ok r 38) as [b38 ->]; [lia|]. cbn [bind].
  destruct (index_Ok (slice r 39 42) 0) as [r0 ->];
    [pose proof (slice_nonempty r 39 42); lia|].
  cbn [bind]. eauto.
Qed.

(** C4, as the code has it: [iebcopy_record_1] raises its own exception
    exactly when the eye-catcher is at neither offset or the record it is
    given, the 8-byte prefix included, is longer than 64 bytes; and it
    accepts every other record whose structure has at least 40 bytes. *)
Theorem copyr1_rejected_iff (first_record : bytes) :
  ((exists msg, iebcopy_record_1 first_record = Raise (Exception msg))
   <-> (~ eyecatcher_at_1 first_record /\ ~ eyecatcher_at_9 first_record)
       \/ 64 < len first_record)
  /\ (eyecatcher_at_1 first_record \/ eyecatcher_at_9 first_record ->
      len first_record <= 64 ->
      40 <= len (copyr1_structure first_record) ->
      exists c, iebcopy_record_1 first_record = Ok c).
Proof.
  unfold eyecatcher_at_1, eyecatcher_at_9, copyr1_structure,
    iebcopy_record_1.
  destruct (Z.eqb_spec (get_int (slice first_record 1 4)) eyecatcher)
    as [E1|E1];
    destruct (Z.eqb_spec (get_int (slice first_record 9 12)) eyecatcher)
      as [E9|E9];
    destruct (Z.ltb_spec 64 (len first_record)) as [L|L]; cbn [negb andb].
  all: split; [split|].
  all: try (intros _; solve [eauto | right; lia | left; split; assumption]).
  all: try (intros [? ?] ?; lia).
  all: try (intros ? ? ?; lia).
  all: try (intros [[? ?]|?]; [contradiction|lia]).
  all: try (intros [[? ?]|?]; lia).
  all: try (intros [?|?]; contradiction).
  all: try (intros _ _ H40; apply copyr1_fields_accepted; exact H40).
  all: intros [msg H]; exfalso; revert H.
  all: repeat first
         [ apply not_own_bind;
           [ first [ apply not_own_index | apply not_own_get_recfm
                   | apply not_own_copyr1_tail ] | intros ]
         | progress (destruct a as [[[[? ?] ?] ?] ?]) ].
  all: match goal with
       | x : (_ * _ * _ * _ * _)%type |- _ =>
           destruct x as [[[[? ?] ?] ?] ?]
       end.
  all: intros ?; discriminate.
Qed.

Lemma copyr1_rejected_iff_witness :
  (exists c, iebcopy_record_1 copyr1_structure64 = Ok c)
  /\ exists msg, iebcopy_record_1 copyr1_tape72 = Raise (Exception msg).
Proof.
  split.
  - apply (proj2 (copyr1_rejected_iff copyr1_structure64)).
    + left. reflexivity.
    + vm_compute. discriminate.
    + vm_compute. discriminate.
  - apply (proj1 (copyr1_rejected_iff copyr1_tape72)).
    right. reflexivity.
Defined.

(** C4 as stated fails on [copyr1_tape72]: the eye-catcher is at bytes
    9..12 and the structure after the 8-byte prefix has exactly 64 bytes,
    yet the record is rejected as too long, the test being on the 72 bytes
    of the whole record; the same structure without the prefix is
    accepted. *)
Lemma copyr1_tape72_rejected :
  eyecatcher_at_9 copyr1_tape72
  /\ len (copyr1_structure copyr1_tape72) = 64
  /\ iebcopy_record_1 copyr1_tape72 = Raise (Exception too_long)
  /\ exists c, iebcopy_record_1 copyr1_structure64 = Ok c.
Proof.
  split; [reflexivity|]. split; [reflexivity|].
  split; [reflexivity|]. eexists. vm_compute. reflexivity.
Qed.

(** ** Text conversion *)

Lemma firstn_all_ge {A} (n : nat) (l : list A) :
  (List.length l <= n)%nat -> firstn n l = l.
Proof. intros H. apply firstn_all2. exact H. Qed.

(** A slice between two positions that are not negative, without the
    clipping. *)
Lemma slice_nat {A} (l : list A) (a b : Z) :
  0 <= a -> 0 <= b ->
  slice l a b = firstn (Z.to_nat b - Z.to_nat a) (skipn (Z.to_nat a) l).
Proof.
  intros Ha Hb. unfold slice, norm_idx. cbv zeta.
  assert ((a <? 0) = false) as -> by lia.
  assert ((b <? 0) = false) as -> by lia.
  unfold len.
  destruct (Z_le_gt_dec (Z.of_nat (List.length l)) a) as [G|G].
  - rewrite (skipn_all2 (n := Z.to_nat a) l) by lia.
    rewrite (skipn_all2 (n := Z.to_nat (Z.min a (Z.of_nat (List.length l))))
               l) by lia.
    rewrite !firstn_nil. reflexivity.
  - replace (Z.to_nat (Z.min a (Z.of_nat (List.length l))))
      with (Z.to_nat a) by lia.
    destruct (Z_le_gt_dec (Z.of_nat (List.length l)) b) as [G'|G'].
    + rewrite !firstn_all_ge; [reflexivity| |];
        rewrite length_skipn; lia.
    + f_equal. lia.
Qed.

Lemma slice_of_chunk (s : str) (i r a b : Z) :
  0 <= i -> 0 <= a -> a <= b -> b <= r ->
  slice (slice s i (i + r)) a b = slice s (i + a) (i + b).
Proof.
  intros Hi Ha Hab Hb.
  rewrite !slice_nat by lia.
  rewrite skipn_firstn_comm, skipn_skipn, firstn_firstn.
  replace (Z.to_nat a + Z.to_nat i)%nat with (Z.to_nat (i + a)) by lia.
  f_equal. lia.
Qed.

Lemma range_chunks (g : str -> str) (s : str) (r : Z) (fuel : nat) :
  1 <= r ->
  forall i : nat,
    map (fun j => g (slice s j (j + r)))
        (range_fuel fuel (Z.of_nat i) (len s) r)
    = map g (chunks_fuel fuel (Z.to_nat r) (skipn i s)).
Proof.
  intros Hr. induction fuel as [|fuel IH]; intros i; [reflexivity|].
  simpl. unfold len.
  destruct (Z.ltb_spec (Z.of_nat i) (Z.of_nat (List.length s))) as [L|L].
  - destruct (skipn i s) as [|c t] eqn:Sk.
    + assert (List.length (skipn i s) = 0%nat) by (rewrite Sk; reflexivity).
      rewrite length_skipn in H. lia.
    + rewrite <- Sk. simpl. f_equal.
      * f_equal. rewrite slice_nat by lia. rewrite Nat2Z.id. f_equal. lia.
      * replace (Z.of_nat i + r) with (Z.of_nat (i + Z.to_nat r)) by lia.
        fold (len s). rewrite IH. rewrite skipn_skipn. f_equal. f_equal.
        f_equal. lia.
  - rewrite skipn_all2 by lia. reflexivity.
Qed.

(** C7, as the code has it: for a record length of 8 or more, the text is
    the lines made of the chunks of [r] characters of the decoded string,
    joined by a line feed and ended by one; a line is its chunk without
    its characters from column [r - 8] on when [unnum] is on and these are
    there and are all numeric, and in either case without its trailing
    white space. *)
Theorem convert_text_file_lines (cfg : config) (ebcdic_text : bytes) (r : Z) :
  8 <= r ->
  convert_text_file cfg ebcdic_text r
  = join [10]
      (map (convert_line (unnum cfg) r)
           (chunks (Z.to_nat r) (decode (ebcdic cfg) ebcdic_text)))
    ++ [10].
Proof.
  intros Hr. unfold convert_text_file.
  assert ((r <? 1) = false) as -> by lia.
  set (s := decode (ebcdic cfg) ebcdic_text).
  f_equal. f_equal.
  unfold chunks, range.
  replace (Z.to_nat (len s - 0)) with (List.length s) by (unfold len; lia).
  pose proof (range_chunks (convert_line (unnum cfg) r) s r (List.length s)
                ltac:(lia) 0%nat) as RC.
  change (skipn 0 s) with s in RC. change (Z.of_nat 0) with 0 in RC.
  rewrite <- RC. clear RC.
  assert (Hpos : forall fuel i, 0 <= i ->
            Forall (fun j => 0 <= j) (range_fuel fuel i (len s) r)).
  { induction fuel as [|fuel IH]; intros i Hi; simpl; [constructor|].
    destruct (i <? len s); constructor; [exact Hi | apply IH; lia]. }
  apply map_ext_Forall.
  eapply Forall_impl; [|apply (Hpos (List.length s) 0); lia].
  intros i Hi. cbv beta in *. unfold convert_line.
  rewrite !slice_of_chunk by lia.
  replace (i + (r - 8)) with (i + r - 8) by lia.
  replace (i + 0) with i by lia. reflexivity.
Qed.

Lemma convert_text_file_lines_witness :
  convert_text_file default_config text16 10
  = lit "abcdefghij" ++ [10] ++ lit "xy" ++ [10].
Proof.
  rewrite (convert_text_file_lines default_config text16 10); [|lia].
  reflexivity.
Defined.

(** C7 as stated fails.  With record length 10 and [unnum] on, the text
    [abcdefghijxy1234] has a last line of 6 characters, [xy1234], which has
    no 8 last characters to be digits: the claim keeps it, the code tests
    its columns 2 to 10, finds [1234] there and keeps [xy].  With record
    length 4, below the width of the sequence number, the text [12345678]
    gives the lines [1234] and an empty one, where the claim gives [1234]
    and [5678]. *)
Lemma short_line_loses_its_digits :
  decode cp1140 text16 = lit "abcdefghijxy1234"
  /\ convert_text_file default_config text16 10
     = lit "abcdefghij" ++ [10] ++ lit "xy" ++ [10]
  /\ convert_text_spec true 10 (decode cp1140 text16)
     = lit "abcdefghij" ++ [10] ++ lit "xy1234" ++ [10]
  /\ convert_text_file default_config digits8 4 = lit "1234" ++ [10; 10]
  /\ convert_text_spec true 4 (decode cp1140 digits8)
     = lit "1234" ++ [10] ++ lit "5678" ++ [10].
Proof.
  repeat split; vm_compute; reflexivity.
Qed.

(** ** Text units *)

Lemma len_app {A} (a b : list A) : len (a ++ b) = len a + len b.
Proof. unfold len. rewrite length_app. lia. Qed.

Lemma slice_at {A} (tr a x b : list A) (o1 o2 : Z) :
  tr = a ++ x ++ b -> o1 = len a -> o2 = o1 + len x -> slice tr o1 o2 = x.
Proof.
  intros -> -> ->. pose proof (len_nonneg a). pose proof (len_nonneg x).
  rewrite slice_nat by lia. unfold len.
  rewrite Nat2Z.id.
  rewrite skipn_app, skipn_all, Nat.sub_diag. simpl.
  replace (Z.to_nat (Z.of_nat (List.length a) + Z.of_nat (List.length x))
           - List.length a)%nat with (List.length x) by lia.
  rewrite firstn_app, firstn_all, Nat.sub_diag. simpl.
  apply app_nil_r.
Qed.

Lemma bv_byte_of (z : Z) : 0 <= z < 256 -> bv (byte_of z) = z.
Proof.
  intros H. unfold bv, byte_of.
  destruct (Byte.of_N (Z.to_N z)) as [b|] eqn:E.
  - apply Byte.to_of_N in E. rewrite E. lia.
  - pose proof (Byte.to_of_N_option_map (Z.to_N z)) as M. rewrite E in M.
    simpl in M. destruct (N.leb_spec (Z.to_N z) 255); [discriminate|lia].
Qed.

Lemma get_int_be16 (n : Z) : 0 <= n < 65536 -> get_int (be16 n) = n.
Proof.
  intros H. unfold get_int, be16. simpl.
  rewrite !bv_byte_of.
  - pose proof (Z.div_mod n 256). lia.
  - apply Z.mod_pos_bound. lia.
  - split; [apply Z.div_pos; lia | apply Z.div_lt_upper_bound; lia].
Qed.

Lemma len_be16 (n : Z) : len (be16 n) = 2.
Proof. reflexivity. Qed.

Lemma unpack_H_be16 (n : Z) : 0 <= n < 65536 -> unpack_H (be16 n) = Ok n.
Proof. intros H. unfold unpack_H. simpl. rewrite get_int_be16; auto. Qed.

Lemma tu_at_eta (st : tu_state) :
  st = tu_at (tu_loc st) (tu st, INMDSNAM st) (tu_msg st).
Proof. destruct st. reflexivity. Qed.

Lemma encode_items_cons (it : bytes) (items : list bytes) :
  encode_items (it :: items) = be16 (len it) ++ it ++ encode_items items.
Proof.
  unfold encode_items. cbn [map List.concat]. rewrite <- app_assoc.
  reflexivity.
Qed.

Lemma len_encode_items_cons (it : bytes) (items : list bytes) :
  len (encode_items (it :: items)) = 2 + len it + len (encode_items items).
Proof. rewrite encode_items_cons, !len_app, len_be16. lia. Qed.

(** One item that is not the first of its unit, read where it starts. *)
Lemma item_read (cfg : config) (tr pre it post : bytes) (key loc : Z)
  (acc : tudict * str) (m : bool) :
  tr = pre ++ (be16 (len it) ++ it) ++ post ->
  loc = len pre -> len it < 65536 ->
  text_unit_item cfg tr key false (tu_at loc acc m)
  = tu_at (loc + 2 + len it) (items_fold cfg key [it] acc) m.
Proof.
  intros Htr Hloc Hlen. pose proof (len_nonneg it).
  unfold text_unit_item. cbn [tu_at tu_loc tu INMDSNAM tu_msg].
  assert (S1 : slice tr loc (loc + 2) = be16 (len it)).
  { apply (slice_at tr pre (be16 (len it)) (it ++ post));
      [subst tr; rewrite <- !app_assoc; reflexivity | exact Hloc | reflexivity]. }
  rewrite S1, get_int_be16 by lia.
  assert (S2 : slice tr (loc + 2) (loc + 2 + len it) = it).
  { apply (slice_at tr (pre ++ be16 (len it)) it post);
      [subst tr; rewrite <- !app_assoc; reflexivity
      | rewrite len_app, len_be16; lia | reflexivity]. }
  rewrite S2. unfold items_fold. simpl.
  destruct (text_keys key) as [[name ty]|].
  - destruct acc as [t0 d0]. cbn [fst snd].
    destruct (item_value cfg name ty it d0) as [v d]. reflexivity.
  - destruct acc. reflexivity.
Qed.

Lemma items_fold_cons (cfg : config) (key : Z) (it : bytes)
  (items : list bytes) (acc : tudict * str) :
  items_fold cfg key (it :: items) acc
  = items_fold cfg key items (items_fold cfg key [it] acc).
Proof. reflexivity. Qed.

(** The items of a unit after the first one. *)
Lemma items_read (cfg : config) (tr : bytes) (key : Z) (m : bool)
  (items : list bytes) :
  forall pre post loc acc,
    tr = pre ++ encode_items items ++ post ->
    loc = len pre ->
    Forall (fun it => len it < 65536) items ->
    text_unit_items cfg tr key false (List.length items) (tu_at loc acc m)
    = tu_at (loc + len (encode_items items)) (items_fold cfg key items acc) m.
Proof.
  induction items as [|it items IH]; intros pre post loc acc Htr Hloc Hall.
  - simpl. unfold encode_items. simpl. unfold len. simpl.
    rewrite Z.add_0_r. reflexivity.
  - inversion Hall as [|? ? Hit Hrest]; subst x l.
    simpl text_unit_items.
    rewrite (item_read cfg tr pre it (encode_items items ++ post) key loc acc m);
      [| subst tr; unfold encode_items; simpl; rewrite <- !app_assoc;
         reflexivity | exact Hloc | exact Hit].
    rewrite (IH (pre ++ be16 (len it) ++ it) post (loc + 2 + len it));
      [| subst tr; unfold encode_items; simpl; rewrite <- !app_assoc;
         reflexivity
       | rewrite !len_app, len_be16; lia | exact Hrest].
    rewrite len_encode_items_cons, items_fold_cons. f_equal. lia.
Qed.

(** A whole unit with at least one item, read where its key starts. *)
Lemma unit_read (cfg : config) (tr pre post : bytes) (k loc : Z)
  (it : bytes) (items : list bytes) (acc : tudict * str) (m : bool) :
  tr = pre ++ encode_unit (k, it :: items) ++ post ->
  loc = len pre ->
  0 <= k < 65536 -> len (it :: items) < 65536 ->
  Forall (fun it => len it < 65536) (it :: items) ->
  text_units_step cfg tr (tu_at loc acc m)
  = Ok (tu_at (loc + len (encode_unit (k, it :: items)))
          (items_fold cfg k (it :: items) acc) m).
Proof.
  intros Htr Hloc Hk Hn Hall.
  inversion Hall as [|? ? Hit Hrest]; subst x l.
  pose proof (len_nonneg it). pose proof (len_nonneg items).
  assert (Hn' : len (it :: items) = 1 + len items)
    by (unfold len; simpl List.length; lia).
  unfold encode_unit in Htr. cbn [fst snd] in Htr.
  unfold text_units_step. cbn [tu_at tu_loc tu INMDSNAM tu_msg].
  rewrite (slice_at tr pre (be16 k)
             (be16 (len (it :: items)) ++ encode_items (it :: items) ++ post)
             loc (loc + 2));
    [| subst tr; rewrite <- !app_assoc; reflexivity | exact Hloc
     | reflexivity].
  rewrite unpack_H_be16 by lia. cbn [bind].
  rewrite (slice_at tr (pre ++ be16 k) (be16 (len (it :: items)))
             (encode_items (it :: items) ++ post) (loc + 2) (loc + 4));
    [| subst tr; rewrite <- !app_assoc; reflexivity
     | rewrite len_app, len_be16; lia | rewrite len_be16; lia].
  rewrite unpack_H_be16 by lia. cbn [bind].
  assert ((len (it :: items) =? 0) = false) as -> by lia.
  rewrite !andb_false_r.
  replace (Z.to_nat (len (it :: items))) with (S (List.length items))
    by (unfold len; simpl List.length; lia).
  f_equal. cbn [text_unit_items].
  (* the first item, behind the key and the count *)
  assert (F : text_unit_item cfg tr k true
                {| tu_loc := loc; tu := fst acc; INMDSNAM := snd acc;
                   tu_msg := m |}
              = tu_at (loc + 6 + len it) (items_fold cfg k [it] acc) m).
  { unfold text_unit_item. cbn [tu_loc tu INMDSNAM tu_msg].
    assert (S1 : slice tr (loc + 4) (loc + 6) = be16 (len it)).
    { apply (slice_at tr (pre ++ be16 k ++ be16 (len (it :: items)))
               (be16 (len it)) (it ++ encode_items items ++ post));
        [ subst tr; unfold encode_items; simpl; rewrite <- !app_assoc;
          reflexivity
        | rewrite !len_app, !len_be16; lia | rewrite len_be16; lia ]. }
    rewrite S1, get_int_be16 by lia.
    assert (S2 : slice tr (loc + 6) (loc + 6 + len it) = it).
    { apply (slice_at tr
               (pre ++ be16 k ++ be16 (len (it :: items)) ++ be16 (len it))
               it (encode_items items ++ post));
        [ subst tr; unfold encode_items; simpl; rewrite <- !app_assoc;
          reflexivity
        | rewrite !len_app, !len_be16; lia | reflexivity ]. }
    rewrite S2. unfold items_fold. simpl.
    destruct (text_keys k) as [[name ty]|].
    - destruct acc as [t0 d0]. cbn [fst snd].
      destruct (item_value cfg name ty it d0) as [v d]. reflexivity.
    - destruct acc. reflexivity. }
  rewrite F.
  rewrite (items_read cfg tr k m items
             (pre ++ be16 k ++ be16 (len (it :: items)) ++ be16 (len it) ++ it)
             post (loc + 6 + len it));
    [| subst tr; unfold encode_items; simpl; rewrite <- !app_assoc;
       reflexivity
     | rewrite !len_app, !len_be16; lia | exact Hrest].
  rewrite items_fold_cons. f_equal.
  unfold encode_unit. cbn [fst snd].
  rewrite !len_app, !len_be16, len_encode_items_cons. lia.
Qed.

Lemma len_encode_unit_pos (u : Z * list bytes) : 4 <= len (encode_unit u).
Proof.
  unfold encode_unit. rewrite !len_app, !len_be16.
  pose proof (len_nonneg (encode_items (snd u))). lia.
Qed.

Lemma encode_units_cons (u : Z * list bytes) (us : list (Z * list bytes)) :
  encode_units (u :: us) = encode_unit u ++ encode_units us.
Proof. reflexivity. Qed.

Lemma length_encode_units (us : list (Z * list bytes)) :
  (List.length us <= List.length (encode_units us))%nat.
Proof.
  induction us as [|u us IH]; [simpl; lia|].
  rewrite encode_units_cons, length_app. simpl List.length.
  pose proof (len_encode_unit_pos u). unfold len in H. lia.
Qed.

(** A stream of known units is read to its end, unit by unit. *)
Lemma units_read (cfg : config) (tr : bytes) (m : bool)
  (us : list (Z * list bytes)) :
  forall pre fuel acc loc,
    tr = pre ++ encode_units us ->
    loc = len pre ->
    Forall known_unit us ->
    (List.length us <= fuel)%nat ->
    text_units_loop fuel cfg tr (tu_at loc acc m)
    = Ok (tu_at (len tr) (units_fold cfg us acc) m).
Proof.
  induction us as [|u us IH]; intros pre fuel acc loc Htr Hloc Hall Hf.
  - assert (loc = len tr).
    { subst tr loc. unfold encode_units. simpl. rewrite app_nil_r.
      reflexivity. }
    subst loc. rewrite H.
    destruct fuel; simpl; rewrite Z.ltb_irrefl; reflexivity.
  - inversion Hall as [|? ? Hu Hus]; subst x l.
    destruct u as [k items]. destruct Hu as [Hk [_ [Hne [Hn Hit]]]].
    cbn [fst snd] in *. destruct items as [|it items]; [contradiction|].
    destruct fuel as [|fuel]; [simpl in Hf; lia|].
    pose proof (len_encode_unit_pos (k, it :: items)) as Hpos.
    rewrite encode_units_cons in Htr.
    simpl text_units_loop. cbn [tu_at tu_loc].
    assert ((loc <? len tr) = true) as ->.
    { subst tr loc. rewrite !len_app.
      pose proof (len_nonneg (encode_units us)). lia. }
    fold (tu_at loc acc m).
    rewrite (unit_read cfg tr pre (encode_units us) k loc it items acc m
               Htr Hloc Hk Hn Hit).
    cbn [bind tu_at tu_loc].
    assert ((loc + len (encode_unit (k, it :: items)) =? loc) = false)
      as -> by lia.
    fold (tu_at (loc + len (encode_unit (k, it :: items)))
            (items_fold cfg k (it :: items) acc) m).
    rewrite (IH (pre ++ encode_unit (k, it :: items)) fuel
               (items_fold cfg k (it :: items) acc)
               (loc + len (encode_unit (k, it :: items))));
      [reflexivity
      | subst tr; rewrite <- app_assoc; reflexivity
      | rewrite len_app; lia | exact Hus | simpl in Hf; lia].
Qed.

(** *** What the items make of the dictionary *)

Lemma streqb_refl (s : string) : String.eqb s s = true.
Proof. apply String.eqb_refl. Qed.

Lemma nget_same (d : tudict) (k : string) (v : value) :
  dget String.eqb (dset String.eqb d k v) k = Some v.
Proof. apply dget_dset_same. exact String.eqb_eq. Qed.

Lemma nget_other (d : tudict) (k k0 : string) (v : value) :
  k0 <> k -> dget String.eqb (dset String.eqb d k v) k0 = dget String.eqb d k0.
Proof. apply dget_dset_other. exact String.eqb_eq. Qed.

Lemma slice_to_snoc (s : str) (c : Z) : slice_to (s ++ [c]) (-1) = s.
Proof.
  unfold slice_to, norm_idx. change (-1 <? 0) with true. cbv iota.
  unfold len. rewrite length_app. simpl List.length.
  replace (Z.to_nat (Z.max (-1 + Z.of_nat (List.length s + 1)) 0))
    with (List.length s) by lia.
  rewrite firstn_app, firstn_all, Nat.sub_diag. simpl. apply app_nil_r.
Qed.

(** The name without its last dot is its parts joined by dots. *)
Lemma slice_to_dotted (cfg : config) (parts : list bytes) :
  parts <> [] ->
  slice_to (dotted cfg parts) (-1)
  = join [46] (map (decode (ebcdic cfg)) parts).
Proof.
  intros Hne.
  assert (D : dotted cfg parts
              = join [46] (map (decode (ebcdic cfg)) parts) ++ [46]).
  { induction parts as [|p parts IH]; [contradiction|].
    unfold dotted in *. cbn [map List.concat].
    destruct parts as [|q parts].
    - simpl. rewrite app_nil_r. reflexivity.
    - rewrite IH by discriminate. cbn [map join].
      change (lit ".") with [46]. rewrite <- !app_assoc. reflexivity. }
  rewrite D. apply slice_to_snoc.
Qed.

Lemma dotted_nonempty (cfg : config) (parts : list bytes) :
  parts <> [] -> dotted cfg parts <> [].
Proof.
  intros Hne. destruct parts as [|p parts]; [contradiction|].
  unfold dotted. cbn [map List.concat]. change (lit ".") with [46].
  intros H. apply app_eq_nil in H. destruct H as [H _].
  apply app_eq_nil in H. destruct H as [_ H]. discriminate.
Qed.

(** An item read once the dataset name has a part is stored as the name,
    whatever its key and its bytes. *)
Lemma item_value_named (cfg : config) (name : string) (ty : ttype)
  (item : bytes) (nm : str) :
  nm <> [] -> name <> "INMDSNAM"%string ->
  item_value cfg name ty item nm = (VStr (slice_to nm (-1)), nm).
Proof.
  intros Hnm Hname. unfold item_value.
  assert (String.eqb name "INMDSNAM" = false) as E
    by (apply String.eqb_neq; exact Hname).
  destruct ty; rewrite ?E; destruct nm; try contradiction; reflexivity.
Qed.

Lemma items_fold_named (cfg : config) (k : Z) (name : string) (ty : ttype)
  (items : list bytes) :
  text_keys k = Some (name, ty) -> name <> "INMDSNAM"%string ->
  forall acc,
    snd acc <> [] ->
    snd (items_fold cfg k items acc) = snd acc
    /\ (items <> [] ->
        dget String.eqb (fst (items_fold cfg k items acc)) name
        = Some (VStr (slice_to (snd acc) (-1))))
    /\ (forall n, n <> name ->
          dget String.eqb (fst (items_fold cfg k items acc)) n
          = dget String.eqb (fst acc) n)
    /\ (forall n,
          dget String.eqb (fst (items_fold cfg k items acc)) n
          = dget String.eqb (fst acc) n
          \/ dget String.eqb (fst (items_fold cfg k items acc)) n
             = Some (VStr (slice_to (snd acc) (-1)))).
Proof.
  intros Hk Hname. induction items as [|it items IH]; intros acc Hnm.
  - simpl. repeat split; auto. contradiction.
  - rewrite items_fold_cons.
    assert (S1 : items_fold cfg k [it] acc
                 = (dset String.eqb (fst acc) name
                      (VStr (slice_to (snd acc) (-1))), snd acc)).
    { unfold items_fold. simpl. rewrite Hk.
      rewrite item_value_named by assumption. reflexivity. }
    rewrite S1.
    destruct (IH (dset String.eqb (fst acc) name
                    (VStr (slice_to (snd acc) (-1))), snd acc) Hnm)
      as [I1 [I2 [I3 I4]]].
    cbn [fst snd] in *.
    split; [exact I1|]. split; [|split].
    + intros _. destruct (I4 name) as [H|H]; [|exact H].
      rewrite H. apply nget_same.
    + intros n Hn. rewrite I3 by exact Hn. apply nget_other. exact Hn.
    + intros n. destruct (I4 n) as [H|H]; [|right; exact H].
      destruct (string_dec n name) as [->|Hn].
      * right. rewrite H. apply nget_same.
      * left. rewrite H. apply nget_other. exact Hn.
Qed.

(** The items of the dataset name: each adds its part, and the entry is
    the name so far. *)
Lemma items_fold_dsname (cfg : config) (parts : list bytes) :
  forall t nm,
    snd (items_fold cfg 2 parts (t, nm)) = nm ++ dotted cfg parts
    /\ (parts <> [] ->
        dget String.eqb (fst (items_fold cfg 2 parts (t, nm))) "INMDSNAM"%string
        = Some (VStr (slice_to (nm ++ dotted cfg parts) (-1)))).
Proof.
  induction parts as [|p parts IH]; intros t nm.
  - simpl. unfold dotted. simpl. rewrite app_nil_r. split; auto.
    contradiction.
  - rewrite items_fold_cons.
    assert (S1 : items_fold cfg 2 [p] (t, nm)
                 = (dset String.eqb t "INMDSNAM"%string
                      (VStr (slice_to (nm ++ decode (ebcdic cfg) p ++ lit ".")
                               (-1))),
                    nm ++ decode (ebcdic cfg) p ++ lit ".")).
    { unfold items_fold. simpl. unfold item_value. simpl.
      destruct (nm ++ decode (ebcdic cfg) p ++ lit ".") eqn:E; [|reflexivity].
      change (lit ".") with [46] in E. apply app_eq_nil in E. destruct E as [_ E].
      apply app_eq_nil in E. destruct E as [_ E]. discriminate. }
    rewrite S1.
    destruct (IH (dset String.eqb t "INMDSNAM"%string
                    (VStr (slice_to (nm ++ decode (ebcdic cfg) p ++ lit ".")
                             (-1))))
                 (nm ++ decode (ebcdic cfg) p ++ lit ".")) as [I1 I2].
    assert (D : (nm ++ decode (ebcdic cfg) p ++ lit ".") ++ dotted cfg parts
                = nm ++ dotted cfg (p :: parts)).
    { unfold dotted. cbn [map List.concat]. rewrite <- !app_assoc.
      reflexivity. }
    rewrite D in *. split; [exact I1|]. intros _.
    destruct parts as [|q parts]; [|apply I2; discriminate].
    simpl. rewrite nget_same. unfold dotted. simpl. rewrite app_nil_r.
    reflexivity.
Qed.

Lemma text_keys_dsname (k : Z) (ty : ttype) :
  text_keys k = Some ("INMDSNAM"%string, ty) -> k = 2.
Proof.
  unfold text_keys. destruct k as [|p|p]; try discriminate.
  repeat (destruct p as [p|p|]; try discriminate); reflexivity.
Qed.

(** The units after the dataset name: the name stays as it is, and every
    entry they write is the name. *)
Lemma units_fold_named (cfg : config) (us : list (Z * list bytes)) :
  Forall known_unit us -> Forall (fun u => fst u <> 2) us ->
  forall acc,
    snd acc <> [] ->
    snd (units_fold cfg us acc) = snd acc
    /\ (forall n,
          dget String.eqb (fst (units_fold cfg us acc)) n
          = dget String.eqb (fst acc) n
          \/ dget String.eqb (fst (units_fold cfg us acc)) n
             = Some (VStr (slice_to (snd acc) (-1))))
    /\ (forall u name ty,
          In u us -> text_keys (fst u) = Some (name, ty) ->
          dget String.eqb (fst (units_fold cfg us acc)) name
          = Some (VStr (slice_to (snd acc) (-1)))).
Proof.
  induction us as [|u us IH]; intros Hall Hne acc Hnm.
  - simpl. repeat split; auto. intros u name ty [].
  - inversion Hall as [|? ? Hu Hus]; subst x l.
    inversion Hne as [|? ? Hu2 Hus2]; subst x l.
    destruct Hu as [_ [Hkey [Hitems _]]].
    destruct (text_keys (fst u)) as [[name ty]|] eqn:Hk; [|contradiction].
    assert (Hname : name <> "INMDSNAM"%string).
    { intros ->. apply Hu2. eapply text_keys_dsname. exact Hk. }
    destruct (items_fold_named cfg (fst u) name ty (snd u) Hk Hname acc Hnm)
      as [J1 [J2 [J3 J4]]].
    change (units_fold cfg (u :: us) acc)
      with (units_fold cfg us (items_fold cfg (fst u) (snd u) acc)).
    assert (Hnm' : snd (items_fold cfg (fst u) (snd u) acc) <> [])
      by (rewrite J1; exact Hnm).
    destruct (IH Hus Hus2 (items_fold cfg (fst u) (snd u) acc) Hnm')
      as [I1 [I2 I3]].
    unfold tudict, str, dict, bytes in *.
    rewrite J1 in I1, I2, I3.
    split; [exact I1|]. split.
    + intros n. destruct (I2 n) as [H|H]; [|right; exact H].
      rewrite H. apply J4.
    + intros u' name' ty' [<-|Hin] Hk'.
      * rewrite Hk in Hk'. injection Hk' as <- <-.
        destruct (I2 name) as [H|H]; [|exact H].
        rewrite H. apply J2. exact Hitems.
      * eapply I3; eassumption.
Qed.

(** An item read while the dataset name has no part yet leaves it so,
    unless it is a part of the name. *)
Lemma items_fold_unnamed (cfg : config) (k : Z) (items : list bytes) :
  k <> 2 ->
  forall t, snd (items_fold cfg k items (t, [])) = [].
Proof.
  intros Hk. induction items as [|it items IH]; intros t; [reflexivity|].
  rewrite items_fold_cons.
  assert (S1 : exists t', items_fold cfg k [it] (t, []) = (t', [])).
  { unfold items_fold. simpl.
    destruct (text_keys k) as [[name ty]|] eqn:E; [|eauto].
    assert (N : String.eqb name "INMDSNAM" = false).
    { apply String.eqb_neq. intros ->. apply Hk.
      eapply text_keys_dsname. exact E. }
    unfold item_value. destruct ty; rewrite ?N; eauto. }
  destruct S1 as [t' ->]. apply IH.
Qed.

Lemma units_fold_unnamed (cfg : config) (us : list (Z * list bytes)) :
  Forall (fun u => fst u <> 2) us ->
  forall t, snd (units_fold cfg us (t, [])) = [].
Proof.
  induction us as [|u us IH]; intros Hne t; [reflexivity|].
  inversion Hne as [|? ? Hu Hus]; subst x l.
  change (units_fold cfg (u :: us) (t, []))
    with (units_fold cfg us (items_fold cfg (fst u) (snd u) (t, []))).
  pose proof (items_fold_unnamed cfg (fst u) (snd u) Hu t) as E.
  destruct (items_fold cfg (fst u) (snd u) (t, [])) as [t' nm].
  cbn [snd] in E. subst nm. apply IH. exact Hus.
Qed.

Lemma units_fold_app (cfg : config) (us vs : list (Z * list bytes))
  (acc : tudict * str) :
  units_fold cfg (us ++ vs) acc = units_fold cfg vs (units_fold cfg us acc).
Proof. unfold units_fold. apply fold_left_app. Qed.

(** C10: in a stream of known units, each with an item, in which the
    dataset name comes once, [text_units] returns a dictionary in which
    the entry of every unit after the dataset name is the dataset name,
    its parts joined by dots, as the entry of the dataset name itself. *)
Theorem dsname_replaces_later_values (cfg : config) (m : bool)
  (before : list (Z * list bytes)) (parts : list bytes)
  (later : list (Z * list bytes)) :
  Forall known_unit before ->
  Forall (fun u => fst u <> 2) before ->
  known_unit (2, parts) ->
  Forall known_unit later ->
  Forall (fun u => fst u <> 2) later ->
  exists t,
    text_units cfg m (encode_units (before ++ (2, parts) :: later))
    = Ok (t, m)
    /\ dget String.eqb t "INMDSNAM"%string
       = Some (VStr (join [46] (map (decode (ebcdic cfg)) parts)))
    /\ forall u name ty,
         In u later -> text_keys (fst u) = Some (name, ty) ->
         dget String.eqb t name
         = Some (VStr (join [46] (map (decode (ebcdic cfg)) parts))).
Proof.
  intros Hb Hbne Hds Hall Hne.
  assert (Hparts : parts <> []) by (destruct Hds as [_ [_ [H _]]]; exact H).
  set (us := before ++ (2, parts) :: later).
  set (tr := encode_units us).
  assert (R : text_units_loop (List.length tr) cfg tr (tu_at 0 ([], []) m)
              = Ok (tu_at (len tr) (units_fold cfg us ([], [])) m)).
  { apply (units_read cfg tr m us []);
      [reflexivity | reflexivity
      | apply Forall_app; split; [exact Hb | constructor; assumption]
      | apply length_encode_units]. }
  unfold text_units. fold tr.
  change {| tu_loc := 0; tu := []; INMDSNAM := []; tu_msg := m |}
    with (tu_at 0 ([], []) m).
  rewrite R. cbn [bind tu_at tu tu_msg].
  unfold us. rewrite units_fold_app.
  pose proof (units_fold_unnamed cfg before Hbne []) as B.
  unfold tudict, str, dict, bytes in *.
  destruct (units_fold cfg before ([], [])) as [t0 nm0].
  cbn [snd] in B. subst nm0.
  change (units_fold cfg ((2, parts) :: later) (t0, []))
    with (units_fold cfg later (items_fold cfg 2 parts (t0, []))).
  destruct (items_fold_dsname cfg parts t0 []) as [D1 D2].
  specialize (D2 Hparts). simpl app in D1, D2.
  rewrite slice_to_dotted in D2 by exact Hparts.
  assert (Hnm : snd (items_fold cfg 2 parts (t0, [])) <> [])
    by (intros H; apply (dotted_nonempty cfg parts Hparts);
        exact (eq_trans (eq_sym D1) H)).
  destruct (units_fold_named cfg later Hall Hne
              (items_fold cfg 2 parts (t0, [])) Hnm) as [I1 [I2 I3]].
  unfold tudict, str, dict, bytes in *.
  rewrite D1 in I2, I3.
  pose proof (slice_to_dotted cfg parts Hparts) as SD.
  unfold tudict, str, dict, bytes in *.
  rewrite SD in I2, I3.
  eexists. split; [reflexivity|]. split.
  - destruct (I2 "INMDSNAM"%string) as [H|H]; [|exact H].
    rewrite H. exact D2.
  - exact I3.
Qed.

Lemma dsname_replaces_later_values_witness :
  exists t,
    text_units default_config false (encode_units units_sample) = Ok (t, false)
    /\ dget String.eqb t "INMDSORG"%string = Some (VBytes [x02; x00])
    /\ dget String.eqb t "INMLRECL"%string = Some (VStr (lit "A.BC"))
    /\ dget String.eqb t "INMRECFM"%string = Some (VStr (lit "A.BC")).
Proof.
  assert (K : forall k items,
            0 <= k < 65536 -> text_keys k <> None -> items <> [] ->
            len items < 65536 ->
            Forall (fun it : bytes => len it < 65536) items ->
            known_unit (k, items)).
  { intros k items H1 H2 H3 H4 H5. repeat split; auto; apply H1. }
  destruct (dsname_replaces_later_values default_config false
              [(0x003C, [[x02; x00]])]
              [[xc1]; [xc2; xc3]]
              [(0x0042, [[x00; x50]]); (0x0049, [[x90; x00]])])
    as [t [R [_ L]]].
  - repeat constructor; try discriminate; simpl; lia.
  - repeat constructor; discriminate.
  - apply K; [lia | discriminate | discriminate | reflexivity|].
    repeat constructor.
  - repeat constructor; try discriminate; simpl; lia.
  - repeat constructor; discriminate.
  - exists t. split; [exact R|]. split; [|split].
    + vm_compute in R. injection R as <-. reflexivity.
    + apply (L (0x0042, [[x00; x50]]) "INMLRECL"%string decimal);
        [left; reflexivity | reflexivity].
    + apply (L (0x0049, [[x90; x00]]) "INMRECFM"%string hex);
        [right; left; reflexivity | reflexivity].
Defined.

(** ** The walk over an XMIT file *)

Lemma get_int_nonneg (b : bytes) : 0 <= get_int b.
Proof.
  unfold get_int.
  assert (H : forall acc, 0 <= acc ->
            0 <= fold_left (fun a x => a * 256 + bv x) b acc).
  { induction b as [|x b IH]; intros acc Hacc; simpl; [exact Hacc|].
    apply IH. unfold bv. lia. }
  apply H. lia.
Qed.

Lemma slice_to_nat {A} (l : list A) (e : Z) :
  0 <= e -> slice_to l e = firstn (Z.to_nat e) l.
Proof.
  intros He. unfold slice_to, norm_idx.
  assert ((e <? 0) = false) as -> by lia. unfold len.
  destruct (Z_le_gt_dec e (Z.of_nat (List.length l))) as [G|G].
  - f_equal. lia.
  - rewrite !firstn_all2 by lia. reflexivity.
Qed.

(** A slice that ends within the first [n] elements is the same in two
    sequences with the same first [n] elements. *)
Lemma slice_agree {A} (l1 l2 : list A) (n : nat) (a c : Z) :
  firstn n l1 = firstn n l2 ->
  0 <= a -> 0 <= c -> c <= Z.of_nat n ->
  slice l1 a c = slice l2 a c.
Proof.
  intros Hag Ha Hc Hn. rewrite !slice_nat by lia.
  assert (P : forall l : list A,
            firstn (Z.to_nat c - Z.to_nat a) (skipn (Z.to_nat a) l)
            = skipn (Z.to_nat a) (firstn (Z.to_nat c) (firstn n l))).
  { intros l. rewrite firstn_firstn.
    replace (Nat.min (Z.to_nat c) n) with (Z.to_nat c) by lia.
    rewrite skipn_firstn_comm. reflexivity. }
  rewrite (P l1), (P l2), Hag. reflexivity.
Qed.

Lemma below_len_agree {A} (l1 l2 : list A) (n : nat) (loc : Z) :
  firstn n l1 = firstn n l2 -> loc < Z.of_nat n ->
  (loc <? len l1) = (loc <? len l2).
Proof.
  intros Hag Hn.
  assert (L : List.length (firstn n l1) = List.length (firstn n l2))
    by (rewrite Hag; reflexivity).
  rewrite !length_firstn in L. unfold len.
  destruct (Z.ltb_spec loc (Z.of_nat (List.length l1)));
    destruct (Z.ltb_spec loc (Z.of_nat (List.length l2))); try reflexivity;
    lia.
Qed.

(** One turn of the walk reads nothing behind the end of the record it is
    at. *)
Lemma parse_xmi_step_agree (cfg : config) (b1 b2 : bytes) (n : nat) (loc : Z)
  (o : xmit_obj) (rd : bytes) :
  firstn n b1 = firstn n b2 ->
  0 <= loc -> record_end b1 loc <= Z.of_nat n ->
  parse_xmi_step cfg b2 loc o rd = parse_xmi_step cfg b1 loc o rd
  /\ get_int (slice b2 loc (loc + 1)) = get_int (slice b1 loc (loc + 1)).
Proof.
  intros Hag Hloc He. unfold record_end in He.
  pose proof (get_int_nonneg (slice b1 loc (loc + 1))) as Hsl.
  assert (S0 : slice b2 loc (loc + 1) = slice b1 loc (loc + 1))
    by (symmetry; apply (slice_agree b1 b2 n); auto; lia).
  assert (S1 : slice b2 (loc + 1) (loc + 2) = slice b1 (loc + 1) (loc + 2))
    by (symmetry; apply (slice_agree b1 b2 n); auto; lia).
  split; [|rewrite S0; reflexivity].
  unfold parse_xmi_step. rewrite S0, S1.
  set (sl := get_int (slice b1 loc (loc + 1))) in *.
  assert (S2 : slice b2 (loc + 2) (loc + sl) = slice b1 (loc + 2) (loc + sl))
    by (symmetry; apply (slice_agree b1 b2 n); auto; lia).
  assert (S3 : slice b2 (loc + 2) (loc + 8) = slice b1 (loc + 2) (loc + 8))
    by (symmetry; apply (slice_agree b1 b2 n); auto; lia).
  assert (S4 : slice b2 (loc + 8) (loc + sl) = slice b1 (loc + 8) (loc + sl))
    by (symmetry; apply (slice_agree b1 b2 n); auto; lia).
  rewrite S2, S3, S4. reflexivity.
Qed.

(** The positions of the walk do not go back. *)
Lemma parse_xmi_loop_forward (cfg : config) (b : bytes) (fuel : nat) :
  forall loc o rd o' loc6,
    parse_xmi_loop fuel cfg b loc o rd = Ok (o', Some loc6) ->
    loc <= loc6 /\ loc6 < len b.
Proof.
  induction fuel as [|fuel IH]; intros loc o rd o' loc6; simpl.
  - destruct (loc <? len b); discriminate.
  - destruct (Z.ltb_spec loc (len b)) as [L|L]; [|discriminate].
    intros H. inv_bind H. destruct x as [o1 rd1|o1].
    + destruct (Z.eqb_spec (get_int (slice b loc (loc + 1))) 0) as [Z0|Z0];
        [discriminate|].
      apply IH in H.
      pose proof (get_int_nonneg (slice b loc (loc + 1))). lia.
    + injection H as <- <-. lia.
Qed.

(** The walk that ends at an [INMR06] record ends there, with the same
    object, on any input with the same bytes up to the end of that
    record, if it is given as many turns as there are bytes before the
    record, and one. *)
Lemma parse_xmi_loop_agree (cfg : config) (b1 b2 : bytes) (n : nat)
  (o' : xmit_obj) (loc6 : Z) :
  firstn n b1 = firstn n b2 ->
  record_end b1 loc6 <= Z.of_nat n ->
  forall fuel1 fuel2 loc o rd,
    0 <= loc ->
    parse_xmi_loop fuel1 cfg b1 loc o rd = Ok (o', Some loc6) ->
    loc6 - loc < Z.of_nat fuel2 ->
    parse_xmi_loop fuel2 cfg b2 loc o rd = Ok (o', Some loc6).
Proof.
  intros Hag He.
  assert (He8 : loc6 + 8 <= Z.of_nat n) by (unfold record_end in He; lia).
  induction fuel1 as [|fuel1 IH]; intros fuel2 loc o rd Hloc H Hf; simpl in H.
  - destruct (loc <? len b1); discriminate.
  - destruct (Z.ltb_spec loc (len b1)) as [L|L]; [|discriminate].
    pose proof (get_int_nonneg (slice b1 loc (loc + 1))) as Hsl.
    inv_bind H. destruct x as [o1 rd1|o1].
    + destruct (Z.eqb_spec (get_int (slice b1 loc (loc + 1))) 0) as [Z0|Z0];
        [discriminate|].
      destruct (parse_xmi_loop_forward cfg b1 fuel1 _ _ _ _ _ H) as [F1 F2].
      assert (Hend : record_end b1 loc <= Z.of_nat n)
        by (unfold record_end; lia).
      destruct (parse_xmi_step_agree cfg b1 b2 n loc o rd Hag Hloc Hend)
        as [St Sl].
      destruct fuel2 as [|fuel2]; [lia|]. simpl.
      rewrite <- (below_len_agree b1 b2 n loc Hag) by lia.
      assert ((loc <? len b1) = true) as -> by lia.
      rewrite St, E, Sl. cbn [bind].
      destruct (Z.eqb_spec (get_int (slice b1 loc (loc + 1))) 0);
        [contradiction|].
      apply IH; [lia | exact H | lia].
    + injection H as <- <-.
      destruct (parse_xmi_step_agree cfg b1 b2 n loc o rd Hag Hloc He)
        as [St Sl].
      destruct fuel2 as [|fuel2]; [lia|]. simpl.
      rewrite <- (below_len_agree b1 b2 n loc Hag) by lia.
      assert ((loc <? len b1) = true) as -> by lia.
      rewrite St, E. reflexivity.
Qed.

(** C6: when the walk of [parse_xmi] over an input ends at an [INMR06]
    record, [parse_xmi] returns the same object on every input that has
    the same bytes up to the end of that record. *)
Theorem bytes_after_INMR06_ignored (cfg : config) (o o' : xmit_obj)
  (b1 b2 : bytes) (loc6 : Z) :
  parse_xmi_walk cfg o b1 = Ok (o', Some loc6) ->
  slice_to b1 (record_end b1 loc6) = slice_to b2 (record_end b1 loc6) ->
  parse_xmi cfg o b1 = Ok o' /\ parse_xmi cfg o b2 = Ok o'.
Proof.
  intros Hw Hag.
  split; [unfold parse_xmi; rewrite Hw; reflexivity|].
  assert (He : 0 <= record_end b1 loc6).
  { unfold parse_xmi_walk in Hw.
    destruct (negb _); [discriminate|].
    apply parse_xmi_loop_forward in Hw. unfold record_end. lia. }
  rewrite !slice_to_nat in Hag by exact He.
  set (n := Z.to_nat (record_end b1 loc6)) in *.
  assert (Hn : record_end b1 loc6 <= Z.of_nat n) by lia.
  assert (He8 : 8 <= Z.of_nat n).
  { unfold parse_xmi_walk in Hw.
    destruct (negb _); [discriminate|].
    apply parse_xmi_loop_forward in Hw. unfold record_end in Hn. lia. }
  unfold parse_xmi, parse_xmi_walk in *.
  rewrite <- (slice_agree b1 b2 n 2 8 Hag) by lia.
  destruct (negb _); [discriminate|].
  destruct (parse_xmi_loop_forward cfg b1 _ _ _ _ _ _ Hw) as [F1 F2].
  rewrite (parse_xmi_loop_agree cfg b1 b2 n o' loc6 Hag Hn
             (List.length b1) (List.length b2) 0 _ _ ltac:(lia) Hw).
  - reflexivity.
  - assert (B : (loc6 <? len b1) = (loc6 <? len b2))
      by (apply (below_len_agree b1 b2 n); [exact Hag | unfold record_end in Hn; lia]).
    assert ((loc6 <? len b1) = true) as E1 by lia.
    rewrite E1 in B. symmetry in B. apply Z.ltb_lt in B. unfold len in B. lia.
Qed.

Lemma bytes_after_INMR06_ignored_witness :
  parse_xmi default_config new_XMIT xmi_sample_other
  = parse_xmi default_config new_XMIT xmi_sample.
Proof.
  destruct (parse_xmi_walk default_config new_XMIT xmi_sample)
    as [[o' [l|]]| | |] eqn:W; try (vm_compute in W; discriminate W).
  assert (L : l = 122).
  { assert (W' := W). vm_compute in W'. injection W' as _ W'.
    symmetry. exact W'. }
  subst l.
  destruct (bytes_after_INMR06_ignored default_config new_XMIT o'
              xmi_sample xmi_sample_other 122 W) as [H1 H2].
  - vm_compute. reflexivity.
  - rewrite H1, H2. reflexivity.
Defined.

(** ** The loops have the turns they need *)

Lemma fuelled_bind {A B} (r : res A) (k : A -> res B) :
  fuelled r -> (forall a, fuelled (k a)) -> fuelled (bind r k).
Proof.
  unfold fuelled. intros Hr Hk. destruct r; simpl; try discriminate; auto.
Qed.

Lemma fuelled_index {A} (l : list A) (i : Z) : fuelled (index l i).
Proof.
  unfold fuelled, index. cbv zeta.
  destruct (_ <? 0); [discriminate|].
  destruct (nth_error _ _); discriminate.
Qed.

Lemma fuelled_dfind {K V} (eqb : K -> K -> bool) (d : dict K V) (k : K) :
  fuelled (dfind eqb d k).
Proof. unfold fuelled, dfind. destruct (dget eqb d k); discriminate. Qed.

Lemma fuelled_key {A} (o : option A) : fuelled (key o).
Proof. unfold fuelled. destruct o; discriminate. Qed.

Lemma fuelled_unpack_H (b : bytes) : fuelled (unpack_H b).
Proof. unfold fuelled, unpack_H. destruct (_ =? _); discriminate. Qed.

Lemma fuelled_strptime (s : str) (format : list directive) :
  fuelled (strptime s format).
Proof.
  unfold strptime.
  destruct (match_groups _ s) as [[ts r]|]; [|discriminate].
  destruct r; [|discriminate].
  apply fuelled_bind.
  - destruct (f_julian _).
    + unfold date_of_julian.
      repeat match goal with |- context [if ?c then _ else _] =>
                               destruct c end; discriminate.
    + destruct (_ && _); discriminate.
  - intros [[y mo] d]. unfold mk_datetime. destruct (_ && _); discriminate.
Qed.

Lemma fuelled_ispf_date (b : bytes) (seconds : Z) :
  fuelled (ispf_date b seconds).
Proof.
  unfold ispf_date.
  repeat (apply fuelled_bind; [apply fuelled_index|intros ?]).
  apply fuelled_bind.
  - destruct (_ <? _); [|discriminate].
    repeat (apply fuelled_bind; [apply fuelled_index|intros ?]).
    discriminate.
  - intros [hours minutes]. destruct (strptime _ _); discriminate.
Qed.

Lemma fuelled_get_recfm (v : value) : fuelled (get_recfm v).
Proof.
  unfold get_recfm. apply fuelled_bind; [|discriminate].
  destruct v; try discriminate;
    (apply fuelled_bind; [apply fuelled_index | discriminate]).
Qed.

Lemma fuelled_get_dsorg (v : value) : fuelled (get_dsorg v).
Proof.
  unfold get_dsorg. apply fuelled_bind; [|discriminate].
  destruct v; discriminate.
Qed.

(** *** [text_units] *)

Lemma text_unit_items_forward (cfg : config) (tr : bytes) (key : Z)
  (num : nat) :
  forall first st,
    tu_loc st <= tu_loc (text_unit_items cfg tr key first num st).
Proof.
  induction num as [|num IH]; intros first st; simpl; [lia|].
  eapply Z.le_trans; [|apply IH].
  unfold text_unit_item.
  destruct (text_keys key) as [[name ty]|];
    [destruct (item_value _ _ _ _ _)|]; cbn [tu_loc];
    destruct first;
    match goal with |- context [get_int ?b] =>
                      pose proof (get_int_nonneg b) end; lia.
Qed.

Lemma text_units_step_forward (cfg : config) (tr : bytes) (st st' : tu_state) :
  text_units_step cfg tr st = Ok st' -> tu_loc st <= tu_loc st'.
Proof.
  unfold text_units_step. intros H. inv_bind H. inv_bind H.
  destruct ((x =? 40) && (x0 =? 0)); injection H as <-;
    (eapply Z.le_trans; [|apply text_unit_items_forward]); cbn [tu_loc];
    destruct ((x =? 4134) && (x0 =? 0)); lia.
Qed.

Lemma fuelled_text_units_step (cfg : config) (tr : bytes) (st : tu_state) :
  fuelled (text_units_step cfg tr st).
Proof.
  unfold text_units_step.
  apply fuelled_bind; [apply fuelled_unpack_H|]. intros k.
  apply fuelled_bind; [apply fuelled_unpack_H|]. intros n.
  destruct ((k =? 40) && (n =? 0)); discriminate.
Qed.

Lemma fuelled_text_units_loop (cfg : config) (tr : bytes) (fuel : nat) :
  forall st,
    len tr - tu_loc st <= Z.of_nat fuel ->
    fuelled (text_units_loop fuel cfg tr st).
Proof.
  induction fuel as [|fuel IH]; intros st Hf; simpl.
  - destruct (Z.ltb_spec (tu_loc st) (len tr)); [lia | discriminate].
  - destruct (Z.ltb_spec (tu_loc st) (len tr)); [|discriminate].
    destruct (text_units_step cfg tr st) as [st'| | |] eqn:E;
      try discriminate.
    + cbn [bind].
      destruct (Z.eqb_spec (tu_loc st') (tu_loc st)); [discriminate|].
      apply IH. apply text_units_step_forward in E. lia.
    + exfalso. exact (fuelled_text_units_step cfg tr st E).
Qed.

(** [text_units] returns, raises, or loops for ever: the turns it is given
    are all it can use. *)
Lemma fuelled_text_units (cfg : config) (m : bool) (tr : bytes) :
  fuelled (text_units cfg m tr).
Proof.
  unfold text_units. apply fuelled_bind; [|discriminate].
  apply fuelled_text_units_loop. cbn [tu_loc]. unfold len. lia.
Qed.

(** *** [parse_xmi] *)

Lemma fuelled_translate (t : tudict) : fuelled (translate_dsorg_recfm t).
Proof.
  unfold translate_dsorg_recfm.
  apply fuelled_bind; [apply fuelled_dfind|intros ?].
  apply fuelled_bind; [apply fuelled_get_dsorg|intros ?].
  apply fuelled_bind; [apply fuelled_dfind|intros ?].
  apply fuelled_bind; [apply fuelled_get_recfm|intros ?]. discriminate.
Qed.

Lemma fuelled_parse_INMR01 (cfg : config) (o : xmit_obj) (r : bytes) :
  fuelled (parse_INMR01 cfg o r).
Proof.
  unfold parse_INMR01.
  apply fuelled_bind; [apply fuelled_text_units|intros [t m]].
  apply fuelled_bind; [|discriminate].
  destruct (dget _ t _) as [v|]; [|discriminate].
  apply fuelled_bind; [destruct v; discriminate|intros ?].
  apply fuelled_bind; [apply fuelled_strptime|discriminate].
Qed.

Lemma fuelled_parse_INMR02 (cfg : config) (o : xmit_obj) (r : bytes) :
  fuelled (parse_INMR02 cfg o r).
Proof.
  unfold parse_INMR02.
  apply fuelled_bind;
    [unfold fuelled, unpack_L; destruct (_ =? _); discriminate|intros ?].
  apply fuelled_bind; [apply fuelled_text_units|intros [t m]].
  apply fuelled_bind; [apply fuelled_translate|discriminate].
Qed.

Lemma fuelled_parse_INMR03 (cfg : config) (o : xmit_obj) (r : bytes) :
  fuelled (parse_INMR03 cfg o r).
Proof.
  unfold parse_INMR03.
  apply fuelled_bind; [apply fuelled_text_units|intros [t m]].
  apply fuelled_bind; [apply fuelled_translate|discriminate].
Qed.

Lemma fuelled_data_segment (o : xmit_obj) (rd : bytes) (flag : Z)
  (payload : bytes) :
  fuelled (data_segment o rd flag payload).
Proof.
  unfold data_segment.
  apply fuelled_bind; [apply fuelled_key|intros inmr02].
  apply fuelled_bind; [apply fuelled_dfind|intros first].
  apply fuelled_bind.
  - destruct (_ && _); [|discriminate].
    apply fuelled_bind; [apply fuelled_key|discriminate].
  - intros [|].
    + apply fuelled_bind; [|discriminate].
      destruct (x_message _); [discriminate|].
      apply fuelled_bind; [apply fuelled_key|intros ?].
      apply fuelled_bind; [apply fuelled_dfind|intros ?].
      apply fuelled_bind; [apply fuelled_dfind|discriminate].
    + apply fuelled_bind; [apply fuelled_dfind|intros ?].
      apply fuelled_bind; [apply fuelled_dfind|intros ?].
      apply fuelled_bind; [|intros [? ?]; discriminate].
      destruct (has_bits _ _); [|discriminate].
      apply fuelled_bind; [apply fuelled_dfind|discriminate].
Qed.

Lemma fuelled_parse_xmi_step (cfg : config) (b : bytes) (loc : Z)
  (o : xmit_obj) (rd : bytes) :
  fuelled (parse_xmi_step cfg b loc o rd).
Proof.
  unfold parse_xmi_step.
  apply fuelled_bind.
  - destruct (negb _); [apply fuelled_data_segment|discriminate].
  - intros [o1 rd1]. destruct (has_bits _ _); [|discriminate].
    repeat match goal with |- context [if ?c then _ else _] =>
                             destruct c end;
      try discriminate;
      (apply fuelled_bind;
       [first [apply fuelled_parse_INMR01 | apply fuelled_parse_INMR02
              | apply fuelled_parse_INMR03]|discriminate]).
Qed.

Lemma fuelled_parse_xmi_loop (cfg : config) (b : bytes) (fuel : nat) :
  forall loc o rd,
    len b - loc <= Z.of_nat fuel ->
    fuelled (parse_xmi_loop fuel cfg b loc o rd).
Proof.
  induction fuel as [|fuel IH]; intros loc o rd Hf; simpl.
  - destruct (Z.ltb_spec loc (len b)); [lia | discriminate].
  - destruct (Z.ltb_spec loc (len b)); [|discriminate].
    apply fuelled_bind; [apply fuelled_parse_xmi_step|].
    intros [o1 rd1|o1]; [|discriminate].
    destruct (Z.eqb_spec (get_int (slice b loc (loc + 1))) 0);
      [discriminate|].
    apply IH. pose proof (get_int_nonneg (slice b loc (loc + 1))). lia.
Qed.

(** [parse_xmi] returns, raises, or loops for ever. *)
Lemma fuelled_parse_xmi (cfg : config) (o : xmit_obj) (b : bytes) :
  fuelled (parse_xmi cfg o b).
Proof.
  unfold parse_xmi, parse_xmi_walk. apply fuelled_bind.
  - destruct (negb _); [discriminate|].
    apply fuelled_parse_xmi_loop. unfold len. lia.
  - intros [o1 [l|]]; [discriminate|].
    unfold convert_message. destruct (negb _); [discriminate|].
    apply fuelled_bind; [apply fuelled_key|intros ?].
    apply fuelled_bind; [destruct (m_lrecl _); discriminate|discriminate].
Qed.

(** *** [get_members_info] *)

Lemma fuelled_member_entry (cfg : config) (info : bytes) (loc : Z) :
  fuelled (member_entry cfg info loc).
Proof.
  unfold member_entry.
  apply fuelled_bind; [apply fuelled_index|intros f].
  apply fuelled_bind; [|discriminate].
  destruct (_ && _); [|discriminate].
  repeat (apply fuelled_bind;
          [first [apply fuelled_index | apply fuelled_ispf_date]|intros ?]).
  cbn [flags]. destruct (has_bits _ _); discriminate.
Qed.

Lemma halfwords_nonneg (cfg : config) (info : bytes) (loc : Z) (m : member) :
  member_entry cfg info loc = Ok m ->
  0 <= match entry m with Some e => halfwords e | None => 0 end.
Proof.
  unfold member_entry. intros H. inv_bind H. inv_bind H.
  injection H as <-. cbn [entry halfwords].
  pose proof (Z.land_nonneg (bv x) 31). unfold bv in *. lia.
Qed.

Lemma directory_block_turns (cfg : config) (directory info : bytes) (dl : Z)
  (fuel : nat) :
  forall loc members,
    0 <= loc -> dl - loc <= Z.of_nat fuel ->
    fuelled (directory_block fuel cfg directory info dl loc members)
    /\ forall members' loc',
         directory_block fuel cfg directory info dl loc members
         = Ok (members', loc') -> 0 <= loc'.
Proof.
  induction fuel as [|fuel IH]; intros loc members Hloc Hf; simpl.
  - destruct (Z.ltb_spec loc dl) as [L|L]; [lia|].
    split; [discriminate|]. intros ? ? E. injection E as <- <-. exact Hloc.
  - destruct (Z.ltb_spec loc dl) as [L|L].
    + destruct (bytes_eqb _ _).
      * split; [discriminate|]. intros ? ? E. injection E as <- <-.
        apply len_nonneg.
      * destruct (member_entry cfg info loc) as [m| | |] eqn:E;
          cbn [bind]; try (split; discriminate).
        -- pose proof (halfwords_nonneg cfg info loc m E).
           apply IH; lia.
        -- exfalso. exact (fuelled_member_entry cfg info loc E).
    + split; [discriminate|]. intros ? ? E. injection E as <- <-. exact Hloc.
Qed.

Lemma fuelled_directory_blocks (cfg : config) (directory : bytes)
  (fuel : nat) :
  forall block_loc members,
    0 <= block_loc -> len directory - block_loc <= Z.of_nat fuel ->
    fuelled (directory_blocks fuel cfg directory block_loc members).
Proof.
  induction fuel as [|fuel IH]; intros block_loc members Hb Hf;
    cbn [directory_blocks].
  - destruct (Z.ltb_spec block_loc (len directory)); [lia | discriminate].
  - destruct (Z.ltb_spec block_loc (len directory)); [|discriminate].
    set (dl := get_int (slice directory (block_loc + 20) (block_loc + 22)) - 2).
    clearbody dl.
    assert (H0 : 0 <= 0) by lia.
    assert (Hd : dl - 0 <= Z.of_nat (Z.to_nat dl)) by lia.
    destruct (directory_block_turns cfg directory
                (slice directory (block_loc + 22) (block_loc + 22 + dl)) dl
                (Z.to_nat dl) 0 members H0 Hd) as [F P].
    destruct (directory_block (Z.to_nat dl) cfg directory _ dl 0 members)
      as [[m1 l1]| | |] eqn:E; cbn [bind]; try discriminate.
    + specialize (P m1 l1 eq_refl).
      set (b' := block_loc + l1 + 24).
      pose proof (Z.div_mod b' 276 ltac:(lia)).
      pose proof (Z.mod_pos_bound b' 276 ltac:(lia)).
      apply IH; destruct (0 <? b' mod 276); unfold b' in *; lia.
    + exfalso. exact (F eq_refl).
Qed.

(** [get_members_info] returns or raises. *)
Lemma get_members_info_returns (cfg : config) (directory : bytes) :
  fuelled (get_members_info cfg directory).
Proof.
  unfold get_members_info. apply fuelled_directory_blocks; unfold len; lia.
Qed.

(** ** Variable-length records *)

Lemma slice_empty {A} (l : list A) (a b : Z) :
  0 <= a -> 0 <= b -> b <= a -> slice l a b = [].
Proof.
  intros Ha Hb Hab. rewrite slice_nat by assumption.
  replace (Z.to_nat b - Z.to_nat a)%nat with 0%nat by lia. reflexivity.
Qed.

Lemma len_vb_record (r : bytes * bytes) :
  vb_sized r -> len (vb_record r) = len (snd r) + 4.
Proof.
  intros [H2 _]. unfold vb_record. rewrite !len_app, len_be16. lia.
Qed.

Lemma vb_records_cons (r : bytes * bytes) (recs : list (bytes * bytes)) :
  vb_records (r :: recs) = vb_record r ++ vb_records recs.
Proof. reflexivity. Qed.

Lemma handle_vb_read (vbdata post : bytes) (recs : list (bytes * bytes)) :
  Forall vb_sized recs ->
  forall pre fuel loc lrecl data,
    vbdata = pre ++ vb_records recs ++ post ->
    loc = len pre -> 0 < lrecl ->
    exists lrecl',
      0 < lrecl'
      /\ handle_vb_loop (List.length recs + fuel) vbdata loc lrecl data
         = handle_vb_loop fuel vbdata (loc + len (vb_records recs)) lrecl'
             (data ++ map snd recs).
Proof.
  induction 1 as [|r recs Hr Hrs IH]; intros pre fuel loc lrecl data Htr Hloc Hl.
  - exists lrecl. split; [exact Hl|].
    simpl. rewrite app_nil_r. unfold len. simpl. rewrite Z.add_0_r.
    reflexivity.
  - pose proof Hr as [H2 H3].
    pose proof (len_nonneg (snd r)) as Hn.
    pose proof (len_nonneg pre) as Hp.
    rewrite vb_records_cons in Htr. rewrite <- app_assoc in Htr.
    assert (L : (loc <? len vbdata) = true).
    { apply Z.ltb_lt. rewrite Htr, !len_app, len_vb_record by exact Hr.
      pose proof (len_nonneg (vb_records recs)).
      pose proof (len_nonneg post). lia. }
    assert (G : get_int (slice vbdata loc (loc + 2)) = len (snd r) + 4).
    { rewrite (slice_at vbdata pre (be16 (len (snd r) + 4))
                 (fst r ++ snd r ++ vb_records recs ++ post)).
      - apply get_int_be16. lia.
      - rewrite Htr. unfold vb_record. rewrite <- !app_assoc. reflexivity.
      - exact Hloc.
      - rewrite len_be16. reflexivity. }
    assert (S4 : slice vbdata (loc + 4) (loc + (len (snd r) + 4)) = snd r).
    { apply (slice_at vbdata (pre ++ be16 (len (snd r) + 4) ++ fst r) (snd r)
               (vb_records recs ++ post)).
      - rewrite Htr. unfold vb_record. rewrite <- !app_assoc. reflexivity.
      - rewrite !len_app, len_be16. lia.
      - lia. }
    destruct (IH (pre ++ vb_record r) fuel (loc + (len (snd r) + 4))
                (len (snd r) + 4) (data ++ [snd r])) as [l' [Hl' E]].
    + rewrite Htr, <- app_assoc. reflexivity.
    + rewrite len_app, len_vb_record by exact Hr. lia.
    + lia.
    + exists l'. split; [exact Hl'|].
      change (List.length (r :: recs) + fuel)%nat
        with (S (List.length recs + fuel)).
      cbn [handle_vb_loop]. rewrite L.
      replace (0 <? lrecl) with true by (symmetry; apply Z.ltb_lt; exact Hl).
      cbn [andb]. rewrite G, S4.
      etransitivity; [exact E|].
      rewrite vb_records_cons, len_app, len_vb_record by exact Hr.
      cbn [map]. rewrite <- app_assoc. cbn [app].
      f_equal. lia.
Qed.

Lemma vb_records_count (recs : list (bytes * bytes)) :
  Forall vb_sized recs ->
  (List.length recs <= List.length (vb_records recs))%nat.
Proof.
  induction 1 as [|r recs Hr _ IH]; [apply Nat.le_refl|].
  rewrite vb_records_cons, length_app. cbn [List.length].
  pose proof (len_vb_record r Hr) as L. pose proof (len_nonneg (snd r)).
  unfold len in L. lia.
Qed.

(** X1: a block descriptor of four bytes followed by records, each behind
    a descriptor word that holds its length plus four, is split by
    [handle_vb] into these records, in their order. *)
Theorem handle_vb_round_trip (bdw : bytes) (recs : list (bytes * bytes)) :
  len bdw = 4 -> Forall vb_sized recs ->
  handle_vb (bdw ++ vb_records recs) = Ok (map snd recs).
Proof.
  intros Hb Hrs. unfold handle_vb.
  pose proof (vb_records_count recs Hrs) as C.
  set (tr := bdw ++ vb_records recs).
  assert (F : exists f, S (List.length tr) = (List.length recs + f)%nat).
  { exists (S (List.length tr) - List.length recs)%nat.
    unfold tr. rewrite length_app. lia. }
  destruct F as [f ->].
  destruct (handle_vb_read tr [] recs Hrs bdw f 4 10 [])
    as [l' [_ E]]; [unfold tr; rewrite app_nil_r; reflexivity | lia | lia |].
  rewrite E.
  assert (L : (4 + len (vb_records recs) <? len tr) = false).
  { apply Z.ltb_ge. unfold tr. rewrite len_app. lia. }
  destruct f; cbn [handle_vb_loop]; rewrite L; reflexivity.
Qed.

Lemma handle_vb_round_trip_witness :
  handle_vb ([x00; x10; x00; x00]
             ++ vb_records [([x00; x00], [xc1; xc2]); ([x00; x00], []);
                            ([x00; x00], [xc3])])
  = Ok [[xc1; xc2]; []; [xc3]].
Proof.
  apply (handle_vb_round_trip [x00; x10; x00; x00]
           [([x00; x00], [xc1; xc2]); ([x00; x00], []); ([x00; x00], [xc3])]).
  - reflexivity.
  - repeat constructor; simpl; lia.
Defined.

(** X2: a descriptor word whose length is zero ends the walk of
    [handle_vb]: the records before it are returned, then one empty
    record, and what follows the word is not read. *)
Theorem handle_vb_stops_at_zero (bdw : bytes) (recs : list (bytes * bytes))
  (rest : bytes) :
  len bdw = 4 -> Forall vb_sized recs ->
  handle_vb (bdw ++ vb_records recs ++ [x00; x00] ++ rest)
  = Ok (map snd recs ++ [[]]).
Proof.
  intros Hb Hrs. unfold handle_vb.
  pose proof (vb_records_count recs Hrs) as C.
  set (tr := bdw ++ vb_records recs ++ [x00; x00] ++ rest).
  assert (F : exists f, S (List.length tr) = (List.length recs + S (S f))%nat).
  { exists (List.length tr - List.length recs - 1)%nat.
    unfold tr. rewrite !length_app. cbn [List.length]. lia. }
  destruct F as [f ->].
  destruct (handle_vb_read tr ([x00; x00] ++ rest) recs Hrs bdw (S (S f))
              4 10 [])
    as [l' [Hl' E]]; [reflexivity | lia | lia |].
  rewrite E. set (loc := 4 + len (vb_records recs)).
  pose proof (len_nonneg (vb_records recs)) as Hn.
  pose proof (len_nonneg rest) as Hr.
  assert (L : (loc <? len tr) = true).
  { apply Z.ltb_lt. unfold tr, loc. rewrite !len_app.
    change (len [x00; x00]) with 2. lia. }
  assert (G : get_int (slice tr loc (loc + 2)) = 0).
  { rewrite (slice_at tr (bdw ++ vb_records recs) [x00; x00] rest);
      [reflexivity | unfold tr; rewrite <- app_assoc; reflexivity
      | unfold loc; rewrite len_app; lia | reflexivity]. }
  cbn [handle_vb_loop]. rewrite L.
  replace (0 <? l') with true by (symmetry; apply Z.ltb_lt; exact Hl').
  cbn [andb]. rewrite G.
  rewrite (slice_empty tr (loc + 4) (loc + 0)) by (unfold loc; lia).
  change (0 <? 0) with false. rewrite andb_false_r. reflexivity.
Qed.

Lemma handle_vb_stops_at_zero_witness :
  handle_vb ([x00; x10; x00; x00]
             ++ vb_records [([x00; x00], [xc1; xc2])]
             ++ [x00; x00] ++ [xff; xff; xff])
  = Ok [[xc1; xc2]; []].
Proof.
  apply (handle_vb_stops_at_zero [x00; x10; x00; x00]
           [([x00; x00], [xc1; xc2])] [xff; xff; xff]).
  - reflexivity.
  - repeat constructor; simpl; lia.
Defined.

(** ** Aliases after the TTR table is built *)

Lemma last_such_some (P : str -> bool) (names : list str) (n : str) :
  In n names -> P n = true -> exists l, last_such P names = Some l.
Proof.
  induction names as [|m names IH]; [contradiction|].
  intros [->|Hin] Hp; cbn [last_such].
  - destruct (last_such P names); [eauto|]. rewrite Hp. eauto.
  - destruct (IH Hin Hp) as [l ->]. eauto.
Qed.

Lemma find_alias_target_some (members : members_dict) (t : Z) (w : str)
  (xw : member) (ew : dir_entry) :
  dget str_eqb members w = Some xw -> entry xw = Some ew ->
  alias xw = false -> ttr ew = t ->
  forall names,
    (forall n, In n names -> exists x, dget str_eqb members n = Some x) ->
    In w names ->
    exists target, find_alias_target members names t = Ok (Some target).
Proof.
  intros Gw Ew Aw Tw. induction names as [|m names IH]; [contradiction|].
  intros Hall Hin. cbn [find_alias_target].
  destruct (Hall m (or_introl eq_refl)) as [x Gx].
  unfold dfind. rewrite Gx. cbn [bind].
  assert (Next : m <> w ->
            exists target,
              find_alias_target members names t = Ok (Some target)).
  { intros N. apply IH.
    - intros n Hn. apply Hall. right. exact Hn.
    - destruct Hin as [Hin|Hin]; [contradiction | exact Hin]. }
  destruct (list_eq_dec Z.eq_dec m w) as [->|N].
  - rewrite Gw in Gx. injection Gx as <-. rewrite Ew, Aw.
    rewrite <- Tw, Z.eqb_refl. cbn [negb andb]. eauto.
  - destruct (entry x) as [e|]; [|auto].
    destruct (negb (alias x) && (ttr e =? t)); [eauto | auto].
Qed.

(** X3: when every member of the directory has a TTR, [process_blocks]
    builds its TTR table without raising, and afterwards every member that
    is still an alias has a TTR with an owner in the table, and the loop of
    [get_alias] finds it a target among the members. *)
Theorem no_alias_without_target (members : members_dict) :
  (forall n x, dget str_eqb members n = Some x -> entry x <> None) ->
  exists ttrs members',
    process_blocks_ttrs members = Ok (ttrs, members')
    /\ forall n x e,
         dget str_eqb members' n = Some x ->
         alias x = true -> entry x = Some e ->
         (exists owner, dget Z.eqb ttrs (ttr e) = Some owner)
         /\ exists target,
              find_alias_target members' (dkeys members') (ttr e)
              = Ok (Some target).
Proof.
  intros H1.
  assert (Hall : forall n, In n (dkeys members) ->
            exists x e, dget str_eqb members n = Some x /\ entry x = Some e).
  { intros n Hin. destruct (In_dget _ _ Hin) as [x G].
    specialize (H1 n x G). destruct (entry x) as [e|] eqn:En; [eauto|].
    contradiction. }
  destruct (ttr_tables_spec members (dkeys members) Hall [] [])
    as [ttrs0 [aliases0 [R [A T]]]].
  unfold process_blocks_ttrs. rewrite R. cbn [bind].
  assert (I1 : forall a n, dget Z.eqb aliases0 a = Some n ->
                 has_ttr members a n = true).
  { intros a n Hd. rewrite A in Hd.
    destruct (last_such _ (dkeys members)) as [m|] eqn:E; [|discriminate].
    injection Hd as ->. apply last_such_sound in E. destruct E as [E _].
    apply andb_prop in E. tauto. }
  assert (I0 : forall a, In a (dkeys aliases0) ->
                 exists n, dget Z.eqb aliases0 a = Some n)
    by (intros a; apply dkeys_dget; exact Z.eqb_eq).
  destruct (promote_aliases_spec aliases0 (dkeys aliases0) ttrs0 members I1 I0)
    as [ttrs' [members' [R' [P1 [P2 [P3 P5]]]]]].
  exists ttrs', members'. split; [exact R'|].
  intros n x' e Gn' Al' En'.
  (* the member as the directory has it *)
  assert (Gn : dget str_eqb members n = Some x').
  { destruct (dget str_eqb members n) as [x|] eqn:G.
    - destruct (P5 n x G) as [G'|G']; rewrite G' in Gn'.
      + exact Gn'.
      + injection Gn' as <-. discriminate.
    - exfalso. rewrite P3 in Gn'; [congruence|].
      intros a Ha. apply I1 in Ha. unfold has_ttr in Ha.
      rewrite G in Ha. discriminate. }
  set (t := ttr e).
  assert (Ht : has_ttr members t n = true)
    by (unfold has_ttr; rewrite Gn, En'; apply Z.eqb_refl).
  assert (Ha : alias_of members n = true)
    by (unfold alias_of; rewrite Gn; exact Al').
  assert (Hin : In n (dkeys members))
    by (apply (dget_In str member str_eqb str_eqb_eq members n x'); exact Gn).
  destruct (last_such_some
              (fun n => has_ttr members t n && alias_of members n)
              (dkeys members) n Hin) as [l Hl];
    [rewrite Ht, Ha; reflexivity|].
  assert (Al : dget Z.eqb aliases0 t = Some l) by (rewrite A, Hl; reflexivity).
  assert (Hk : In t (dkeys aliases0))
    by (apply (dget_In Z str Z.eqb Z.eqb_eq aliases0 t l); exact Al).
  (* a member that owns the TTR *)
  assert (W : exists w xw ew,
            dget Z.eqb ttrs' t = Some w
            /\ dget str_eqb members' w = Some xw /\ entry xw = Some ew
            /\ alias xw = false /\ ttr ew = t).
  { destruct (dget Z.eqb ttrs0 t) as [v|] eqn:Tv.
    - pose proof Tv as Tv'. rewrite T in Tv'.
      destruct (last_such
                  (fun n => has_ttr members t n && negb (alias_of members n))
                  (dkeys members)) as [v'|] eqn:E;
        [|discriminate]. injection Tv' as ->.
      apply last_such_sound in E. destruct E as [E _].
      apply andb_prop in E. destruct E as [E1 E2].
      unfold has_ttr in E1. unfold alias_of in E2.
      destruct (dget str_eqb members v) as [xv|] eqn:Gv; [|discriminate].
      destruct (entry xv) as [ev|] eqn:Ev; [|discriminate].
      apply Z.eqb_eq in E1.
      assert (Av : alias xv = false)
        by (destruct (alias xv); [discriminate | reflexivity]).
      destruct (P5 v xv Gv) as [G'|G'].
      + exists v, xv, ev. auto using P1.
      + exists v, (with_alias xv false), ev. auto using P1.
    - destruct (P2 t l Hk Tv Al) as [S1 [xl [Gl Gl']]].
      pose proof (I1 t l Al) as Hl'. unfold has_ttr in Hl'.
      rewrite Gl in Hl'.
      destruct (entry xl) as [el|] eqn:El; [|discriminate].
      apply Z.eqb_eq in Hl'.
      exists l, (with_alias xl false), el. auto. }
  destruct W as [w [xw [ew [Tw [Gw [Ew [Aw Tt]]]]]]].
  split; [exists w; exact Tw|].
  apply (find_alias_target_some members' t w xw ew Gw Ew Aw Tt).
  - intros m Hm. apply In_dget. exact Hm.
  - apply (dget_In str member str_eqb str_eqb_eq members' w xw). exact Gw.
Qed.

Lemma dget_Forall (P : member -> Prop) (members : members_dict) :
  Forall (fun nx => P (snd nx)) members ->
  forall n x, dget str_eqb members n = Some x -> P x.
Proof.
  induction 1 as [|[k v] d Hv _ IH]; intros n x; cbn [dget];
    [discriminate|].
  destruct (str_eqb n k); [|apply IH].
  intros E. injection E as <-. exact Hv.
Qed.

Lemma no_alias_without_target_witness :
  exists ttrs members',
    process_blocks_ttrs alias_pair = Ok (ttrs, members')
    /\ find_alias_target members' (dkeys members') 1 = Ok (Some (lit "B")).
Proof.
  destruct (no_alias_without_target alias_pair) as [ttrs [members' [R H]]].
  - apply (dget_Forall (fun x => entry x <> None)).
    repeat constructor; discriminate.
  - exists ttrs, members'. split; [exact R|].
    vm_compute in R. injection R as <- <-. reflexivity.
Defined.

(** ** COPYR1 with and without its prefix *)

Lemma slice_app_l {A} (l1 l2 : list A) (a b : Z) :
  0 <= a -> 0 <= b -> b <= len l1 -> slice (l1 ++ l2) a b = slice l1 a b.
Proof.
  intros Ha Hb Hl. apply (slice_agree _ _ (List.length l1)); try assumption.
  rewrite firstn_app, Nat.sub_diag, firstn_O, app_nil_r. reflexivity.
Qed.

Lemma slice_app_r {A} (l1 l2 : list A) (a b : Z) :
  0 <= a -> 0 <= b ->
  slice (l1 ++ l2) (len l1 + a) (len l1 + b) = slice l2 a b.
Proof.
  intros Ha Hb. pose proof (len_nonneg l1) as Hn.
  rewrite !slice_nat by lia. unfold len.
  rewrite !Z2Nat.inj_add, !Nat2Z.id by lia.
  rewrite skipn_app.
  rewrite (skipn_all2 (n := (List.length l1 + Z.to_nat a)%nat)) by lia.
  replace (List.length l1 + Z.to_nat a - List.length l1)%nat
    with (Z.to_nat a) by lia.
  replace (List.length l1 + Z.to_nat b - (List.length l1 + Z.to_nat a))%nat
    with (Z.to_nat b - Z.to_nat a)%nat by lia.
  reflexivity.
Qed.

Lemma slice_from_app {A} (l1 l2 : list A) :
  slice_from (l1 ++ l2) (len l1) = l2.
Proof.
  unfold slice_from, norm_idx. pose proof (len_nonneg l1) as Hn.
  pose proof (len_nonneg l2) as Hm.
  replace (len l1 <? 0) with false by (symmetry; apply Z.ltb_ge; exact Hn).
  rewrite len_app, Z.min_l by lia. unfold len. rewrite Nat2Z.id.
  rewrite skipn_app, skipn_all, Nat.sub_diag. reflexivity.
Qed.

(** X4: a COPYR1 of at most 56 bytes is read the same when an 8-byte
    prefix comes before it (the eye-catcher is then at bytes 9..12): the
    fields are those read without the prefix, and the block and segment
    lengths are the two halfwords of the prefix; what the record raises
    without the prefix it raises with it. *)
Theorem copyr1_same_behind_prefix (prefix r : bytes) :
  len prefix = 8 ->
  get_int (slice prefix 1 4) <> eyecatcher ->
  eyecatcher_at_1 r ->
  len r <= 56 ->
  iebcopy_record_1 (prefix ++ r)
  = let* c := iebcopy_record_1 r in
    Ok (with_prefix c (get_int (slice prefix 0 2))
          (get_int (slice prefix 4 6))).
Proof.
  intros Hp Hne He Hr. unfold eyecatcher_at_1 in He.
  unfold iebcopy_record_1.
  rewrite (slice_app_l prefix r 1 4) by lia.
  rewrite (slice_app_l prefix r 0 2) by lia.
  rewrite (slice_app_l prefix r 4 6) by lia.
  replace (slice (prefix ++ r) 9 12) with (slice r 1 4)
    by (rewrite <- (slice_app_r prefix r 1 4) by lia; rewrite Hp;
        reflexivity).
  replace (slice_from (prefix ++ r) 8) with r
    by (rewrite <- Hp; symmetry; apply slice_from_app).
  rewrite He, Z.eqb_refl.
  replace (get_int (slice prefix 1 4) =? eyecatcher) with false
    by (symmetry; apply Z.eqb_neq; exact Hne).
  rewrite len_app.
  replace (64 <? len prefix + len r) with false
    by (symmetry; apply Z.ltb_ge; lia).
  replace (64 <? len r) with false by (symmetry; apply Z.ltb_ge; lia).
  cbn [negb andb].
  destruct (index r 0); cbn [bind]; try reflexivity.
  destruct (get_recfm (VBytes (slice r 10 12))); cbn [bind]; try reflexivity.
  destruct (index r 11); cbn [bind]; try reflexivity.
  destruct (index r 12); cbn [bind]; try reflexivity.
  destruct (index r 13); cbn [bind]; try reflexivity.
  destruct (index r 18); cbn [bind]; try reflexivity.
  destruct (index r 19); cbn [bind]; try reflexivity.
  destruct (copyr1_tail r) as [[[[[refd scext] scalo] lstar] trbal]| | |];
    cbn [bind]; reflexivity.
Qed.

Lemma copyr1_same_behind_prefix_witness :
  exists c,
    iebcopy_record_1 (copyr1_prefix ++ slice_to copyr1_structure64 56)
    = Ok c
    /\ block_length c = Some 64 /\ seg_length c = Some 60.
Proof.
  pose proof (copyr1_same_behind_prefix copyr1_prefix
                (slice_to copyr1_structure64 56)) as H.
  destruct (iebcopy_record_1 (slice_to copyr1_structure64 56)) as [c| | |]
    eqn:E; try (vm_compute in E; discriminate).
  exists (with_prefix c 64 60). split; [|split; reflexivity].
  apply H; [reflexivity | vm_compute; discriminate | reflexivity
           | vm_compute; discriminate].
Defined.

(** ** The lines of a converted text *)

Lemma rstrip_idem (s : str) : rstrip (rstrip s) = rstrip s.
Proof.
  induction s as [|c s IH]; [reflexivity|]. cbn [rstrip].
  destruct (rstrip s) as [|d r] eqn:E.
  - destruct (isspace_char c) eqn:Sc; [reflexivity|].
    cbn [rstrip]. rewrite Sc. reflexivity.
  - cbn [rstrip]. cbn [rstrip] in IH. rewrite IH. reflexivity.
Qed.

Lemma rstrip_len (s : str) : len (rstrip s) <= len s.
Proof.
  unfold len. induction s as [|c s IH]; [cbn; lia|]. cbn [rstrip].
  destruct (rstrip s) as [|d r].
  - destruct (isspace_char c); cbn [List.length] in *; lia.
  - cbn [List.length] in *. lia.
Qed.

Lemma slice_len_le {A} (l : list A) (a b : Z) :
  0 <= a -> a <= b -> len (slice l a b) <= b - a.
Proof.
  intros Ha Hb. rewrite slice_nat by lia. unfold len.
  rewrite length_firstn. lia.
Qed.

Lemma range_fuel_count (stop step : Z) (fuel : nat) :
  1 <= step ->
  forall start,
    stop - start <= Z.of_nat fuel ->
    len (range_fuel fuel start stop step)
    = if start <? stop then (stop - start + step - 1) / step else 0.
Proof.
  intros Hs. induction fuel as [|fuel IH]; intros start Hf.
  - cbn [range_fuel]. destruct (Z.ltb_spec start stop); [lia | reflexivity].
  - cbn [range_fuel]. destruct (Z.ltb_spec start stop) as [L|L];
      [|reflexivity].
    change (len (start :: range_fuel fuel (start + step) stop step))
      with (Z.of_nat (S (List.length
                           (range_fuel fuel (start + step) stop step)))).
    rewrite Nat2Z.inj_succ. fold (len (range_fuel fuel (start + step) stop step)).
    rewrite IH by lia.
    replace (stop - start + step - 1) with (stop - start - 1 + 1 * step)
      by lia.
    rewrite Z.div_add by lia.
    destruct (Z.ltb_spec (start + step) stop) as [L'|L'].
    + replace (stop - (start + step) + step - 1) with (stop - start - 1)
        by lia. lia.
    + rewrite Z.div_small by lia. lia.
Qed.

Lemma range_fuel_from (stop step : Z) (fuel : nat) :
  0 <= step ->
  forall start, Forall (fun i => start <= i) (range_fuel fuel start stop step).
Proof.
  intros Hs. induction fuel as [|fuel IH]; intros start; cbn [range_fuel];
    [constructor|].
  destruct (start <? stop); constructor; [lia|].
  eapply Forall_impl; [|apply IH]. cbv beta. intros; lia.
Qed.

(** X5: for a record length of at least 1, the text [convert_text_file]
    returns is its lines joined by line feeds and closed by one: there is
    one line for each [recl] characters of the input, the last ones
    included when they are fewer, no line ends in white space, and no line
    is longer than [recl] when [unnum] is off or [recl] is at least 8. *)
Theorem convert_text_file_shape (cfg : config) (ebcdic_text : bytes)
  (recl : Z) :
  1 <= recl ->
  exists seq_file,
    convert_text_file cfg ebcdic_text recl = join [10] seq_file ++ [10]
    /\ len seq_file = (len ebcdic_text + recl - 1) / recl
    /\ Forall (fun l => rstrip l = l) seq_file
    /\ (unnum cfg = false \/ 8 <= recl ->
        Forall (fun l => len l <= recl) seq_file).
Proof.
  intros Hr. unfold convert_text_file.
  replace (recl <? 1) with false by (symmetry; apply Z.ltb_ge; exact Hr).
  set (asciifile := decode (ebcdic cfg) ebcdic_text).
  assert (La : len asciifile = len ebcdic_text)
    by (unfold asciifile, decode, len; rewrite length_map; reflexivity).
  eexists. split; [reflexivity|]. split; [|split].
  - unfold len at 1. rewrite length_map. fold (len (range 0 (len asciifile) recl)).
    unfold range. rewrite range_fuel_count; [|exact Hr|].
    + rewrite La, Z.sub_0_r.
      destruct (Z.ltb_spec 0 (len ebcdic_text)) as [L|L]; [reflexivity|].
      pose proof (len_nonneg ebcdic_text).
      replace (len ebcdic_text) with 0 by lia.
      rewrite Z.div_small by lia. reflexivity.
    + pose proof (len_nonneg asciifile). lia.
  - apply Forall_forall. intros l Hin. apply in_map_iff in Hin.
    destruct Hin as [i [<- _]].
    destruct (isnumeric _ && unnum cfg); apply rstrip_idem.
  - intros Hu. apply Forall_forall. intros l Hin. apply in_map_iff in Hin.
    destruct Hin as [i [<- Hi]].
    assert (H0 : 0 <= i).
    { pose proof (range_fuel_from (len asciifile) recl
                    (Z.to_nat (len asciifile - 0)) ltac:(lia) 0) as F.
      rewrite Forall_forall in F. apply F. exact Hi. }
    destruct (isnumeric _ && unnum cfg) eqn:C.
    + destruct Hu as [Hu|Hu].
      * rewrite Hu, andb_false_r in C. discriminate.
      * etransitivity; [apply rstrip_len|].
        etransitivity; [apply slice_len_le; lia|]. lia.
    + etransitivity; [apply rstrip_len|].
      etransitivity; [apply slice_len_le; lia|]. lia.
Qed.

Lemma convert_text_file_shape_witness :
  exists seq_file,
    convert_text_file default_config text16 10 = join [10] seq_file ++ [10]
    /\ len seq_file = 2.
Proof.
  destruct (convert_text_file_shape default_config text16 10) as [l [E [L _]]];
    [lia|].
  exists l. split; [exact E | exact L].
Defined.

(** ** Text units read back *)

Lemma known_sized (u : Z * list bytes) : known_unit u -> sized_unit u.
Proof. intros [H1 [_ [H2 [H3 H4]]]]. repeat split; auto; apply H1. Qed.

Lemma units_read_then (cfg : config) (tr post : bytes) (m : bool)
  (us : list (Z * list bytes)) :
  Forall sized_unit us ->
  forall pre fuel acc loc,
    tr = pre ++ encode_units us ++ post ->
    loc = len pre ->
    text_units_loop (List.length us + fuel) cfg tr (tu_at loc acc m)
    = text_units_loop fuel cfg tr
        (tu_at (loc + len (encode_units us)) (units_fold cfg us acc) m).
Proof.
  induction 1 as [|u us Hu Hus IH]; intros pre fuel acc loc Htr Hloc.
  - cbn. rewrite Z.add_0_r. reflexivity.
  - destruct u as [k items]. destruct Hu as [Hk [Hne [Hn Hit]]].
    cbn [fst snd] in *. destruct items as [|it items]; [contradiction|].
    pose proof (len_encode_unit_pos (k, it :: items)) as Hpos.
    rewrite encode_units_cons, <- app_assoc in Htr.
    change (List.length ((k, it :: items) :: us) + fuel)%nat
      with (S (List.length us + fuel)).
    cbn [text_units_loop]. cbn [tu_at tu_loc].
    assert ((loc <? len tr) = true) as ->.
    { subst tr loc. rewrite !len_app.
      pose proof (len_nonneg (encode_units us)).
      pose proof (len_nonneg post). lia. }
    fold (tu_at loc acc m).
    rewrite (unit_read cfg tr pre (encode_units us ++ post) k loc it items
               acc m Htr Hloc Hk Hn Hit).
    cbn [bind tu_at tu_loc].
    assert ((loc + len (encode_unit (k, it :: items)) =? loc) = false)
      as -> by lia.
    fold (tu_at (loc + len (encode_unit (k, it :: items)))
            (items_fold cfg k (it :: items) acc) m).
    etransitivity.
    { apply (IH (pre ++ encode_unit (k, it :: items)) fuel
               (items_fold cfg k (it :: items) acc)
               (loc + len (encode_unit (k, it :: items)))).
      - subst tr. rewrite <- app_assoc. reflexivity.
      - rewrite len_app. lia. }
    rewrite encode_units_cons, len_app, Z.add_assoc. reflexivity.
Qed.

Lemma sized_units_count (us : list (Z * list bytes)) :
  (List.length us <= List.length (encode_units us))%nat.
Proof. apply length_encode_units. Qed.

(** The loop of [text_units] over sized units up to [post], from the
    start. *)
Lemma text_units_then (cfg : config) (m : bool) (us : list (Z * list bytes))
  (post : bytes) :
  Forall sized_unit us ->
  exists fuel,
    (List.length post <= fuel)%nat
    /\ text_units cfg m (encode_units us ++ post)
       = let* st :=
           text_units_loop fuel cfg (encode_units us ++ post)
             (tu_at (len (encode_units us)) (units_fold cfg us ([], [])) m) in
         Ok (tu st, tu_msg st).
Proof.
  intros Hus. pose proof (sized_units_count us) as C.
  exists (List.length (encode_units us ++ post) - List.length us)%nat.
  split; [rewrite length_app; lia|].
  unfold text_units.
  replace (List.length (encode_units us ++ post))
    with (List.length us
          + (List.length (encode_units us ++ post) - List.length us))%nat
    at 1 by (rewrite length_app; lia).
  change {| tu_loc := 0; tu := []; INMDSNAM := []; tu_msg := m |}
    with (tu_at 0 ([], []) m).
  rewrite (units_read_then cfg (encode_units us ++ post) post m us Hus []
             _ ([], []) 0); reflexivity.
Qed.

Lemma text_units_loop_end (cfg : config) (tr : bytes) (fuel : nat)
  (st : tu_state) :
  len tr <= tu_loc st -> text_units_loop fuel cfg tr st = Ok st.
Proof.
  intros H. destruct fuel; cbn [text_units_loop];
    replace (tu_loc st <? len tr) with false
      by (symmetry; apply Z.ltb_ge; exact H); reflexivity.
Qed.

Lemma len_empty_unit (k : Z) : len (empty_unit k) = 4.
Proof. reflexivity. Qed.

(** The turn of the loop at a unit without items. *)
Lemma empty_unit_step (cfg : config) (tr pre post : bytes) (k loc : Z)
  (acc : tudict * str) (m : bool) :
  tr = pre ++ empty_unit k ++ post -> loc = len pre -> 0 <= k < 65536 ->
  text_units_step cfg tr (tu_at loc acc m)
  = Ok (tu_at (if (k =? 0x1026) || (k =? 0x0028) then loc + 4 else loc) acc
          (if k =? 0x0028 then true else m)).
Proof.
  intros Htr Hloc Hk. unfold empty_unit in Htr.
  unfold text_units_step. cbn [tu_at tu_loc tu INMDSNAM tu_msg].
  rewrite (slice_at tr pre (be16 k) (be16 0 ++ post) loc (loc + 2));
    [| subst tr; rewrite <- !app_assoc; reflexivity | exact Hloc
     | reflexivity].
  rewrite unpack_H_be16 by lia. cbn [bind].
  rewrite (slice_at tr (pre ++ be16 k) (be16 0) post (loc + 2) (loc + 4));
    [| subst tr; rewrite <- !app_assoc; reflexivity
     | rewrite len_app, len_be16; lia | rewrite len_be16; lia].
  rewrite unpack_H_be16 by lia. cbn [bind].
  change (0 =? 0) with true. rewrite !andb_true_r.
  change (Z.to_nat 0) with 0%nat. cbn [text_unit_items].
  destruct (Z.eqb_spec k 0x1026) as [E1|E1];
    destruct (Z.eqb_spec k 0x0028) as [E2|E2]; try lia; reflexivity.
Qed.

(** X6: a text unit without items whose key is neither [0x1026] nor
    [0x0028] stops [text_units] for ever, wherever it comes after units
    with items: the position is not moved past it. *)
Theorem text_units_empty_unit_never_ends (cfg : config) (m : bool)
  (us : list (Z * list bytes)) (k : Z) (rest : bytes) :
  Forall sized_unit us ->
  0 <= k < 65536 -> k <> 0x1026 -> k <> 0x0028 ->
  text_units cfg m (encode_units us ++ empty_unit k ++ rest) = Loops.
Proof.
  intros Hus Hk N1 N2.
  destruct (text_units_then cfg m us (empty_unit k ++ rest) Hus)
    as [fuel [Hf E]].
  rewrite E. clear E.
  rewrite length_app in Hf. cbn [List.length empty_unit be16 app] in Hf.
  destruct fuel as [|fuel]; [lia|].
  cbn [text_units_loop]. cbn [tu_at tu_loc].
  assert ((len (encode_units us)
           <? len (encode_units us ++ empty_unit k ++ rest)) = true) as ->.
  { apply Z.ltb_lt. rewrite !len_app, len_empty_unit.
    pose proof (len_nonneg rest). lia. }
  fold (tu_at (len (encode_units us)) (units_fold cfg us ([], [])) m).
  rewrite (empty_unit_step cfg _ (encode_units us) rest k
             (len (encode_units us)) _ m eq_refl eq_refl Hk).
  replace (k =? 0x1026) with false by (symmetry; apply Z.eqb_neq; exact N1).
  replace (k =? 0x0028) with false by (symmetry; apply Z.eqb_neq; exact N2).
  cbn [orb bind tu_at tu_loc]. rewrite Z.eqb_refl. reflexivity.
Qed.

Lemma text_units_empty_unit_never_ends_witness :
  text_units default_config false
    (encode_units units_plain ++ empty_unit 0x0042 ++ [])
  = Loops.
Proof.
  apply (text_units_empty_unit_never_ends default_config false units_plain
           0x0042 []).
  - repeat constructor; try discriminate; simpl; lia.
  - lia.
  - discriminate.
  - discriminate.
Defined.

Lemma text_units_mark (cfg : config) (m : bool)
  (us vs : list (Z * list bytes)) (k : Z) :
  Forall sized_unit us -> Forall sized_unit vs ->
  k = 0x1026 \/ k = 0x0028 ->
  text_units cfg m (encode_units us ++ empty_unit k ++ encode_units vs)
  = Ok (fst (units_fold cfg (us ++ vs) ([], [])),
        if k =? 0x0028 then true else m).
Proof.
  intros Hus Hvs Hk.
  destruct (text_units_then cfg m us (empty_unit k ++ encode_units vs) Hus)
    as [fuel [Hf E]].
  rewrite E. clear E.
  set (tr := encode_units us ++ empty_unit k ++ encode_units vs).
  pose proof (sized_units_count vs) as C.
  rewrite length_app in Hf. cbn [List.length empty_unit be16 app] in Hf.
  assert (F : exists f, fuel = S (List.length vs + f))
    by (exists (fuel - 1 - List.length vs)%nat; lia).
  destruct F as [f ->].
  cbn [text_units_loop]. cbn [tu_at tu_loc].
  assert ((len (encode_units us) <? len tr) = true) as ->.
  { apply Z.ltb_lt. unfold tr. rewrite !len_app, len_empty_unit.
    pose proof (len_nonneg (encode_units vs)). lia. }
  fold (tu_at (len (encode_units us)) (units_fold cfg us ([], [])) m).
  rewrite (empty_unit_step cfg tr (encode_units us) (encode_units vs) k
             (len (encode_units us)) _ m eq_refl eq_refl)
    by (destruct Hk; subst k; lia).
  replace ((k =? 0x1026) || (k =? 0x0028)) with true
    by (destruct Hk; subst k; reflexivity).
  cbn [bind tu_at tu_loc].
  replace (len (encode_units us) + 4 =? len (encode_units us)) with false
    by (symmetry; apply Z.eqb_neq; lia).
  fold (tu_at (len (encode_units us) + 4) (units_fold cfg us ([], []))
          (if k =? 0x0028 then true else m)).
  rewrite (units_read_then cfg tr [] _ vs Hvs
             (encode_units us ++ empty_unit k) f _
             (len (encode_units us) + 4));
    [| unfold tr; rewrite app_nil_r, <- app_assoc; reflexivity
     | rewrite len_app, len_empty_unit; reflexivity].
  rewrite text_units_loop_end.
  - cbn [bind tu_at tu tu_msg]. rewrite units_fold_app. reflexivity.
  - cbn [tu_at tu_loc]. unfold tr. rewrite !len_app, len_empty_unit. lia.
Qed.

(** X7: the units without items that [text_units] knows, [0x1026] and
    [0x0028], are passed over wherever they come between units with
    items: the dictionary is the one of the stream without them, and
    [0x0028] sets the message flag, which [0x1026] leaves as it was. *)
Theorem text_units_passes_empty_marks (cfg : config) (m : bool)
  (us vs : list (Z * list bytes)) :
  Forall sized_unit us -> Forall sized_unit vs ->
  exists t,
    text_units cfg m (encode_units (us ++ vs)) = Ok (t, m)
    /\ text_units cfg m
         (encode_units us ++ empty_unit 0x1026 ++ encode_units vs)
       = Ok (t, m)
    /\ text_units cfg m
         (encode_units us ++ empty_unit 0x0028 ++ encode_units vs)
       = Ok (t, true).
Proof.
  intros Hus Hvs. exists (fst (units_fold cfg (us ++ vs) ([], []))).
  split; [|split].
  - destruct (text_units_then cfg m (us ++ vs) []) as [fuel [_ E]];
      [apply Forall_app; split; assumption|].
    rewrite app_nil_r in E. rewrite E.
    rewrite text_units_loop_end; [reflexivity|].
    cbn [tu_at tu_loc]. lia.
  - apply (text_units_mark cfg m us vs 0x1026 Hus Hvs). left. reflexivity.
  - apply (text_units_mark cfg m us vs 0x0028 Hus Hvs). right. reflexivity.
Qed.

Lemma text_units_passes_empty_marks_witness :
  exists t,
    text_units default_config false
      (encode_units [(0x0042, [[x00; x50]])] ++ empty_unit 0x0028
       ++ encode_units [(0x1012, [[xc1; xc2]])])
    = Ok (t, true).
Proof.
  destruct (text_units_passes_empty_marks default_config false
              [(0x0042, [[x00; x50]])] [(0x1012, [[xc1; xc2]])])
    as [t [_ [_ H]]].
  - repeat constructor; try discriminate; simpl; lia.
  - repeat constructor; try discriminate; simpl; lia.
  - exists t. exact H.
Defined.

(** X8: one, two or three bytes left behind the last unit are not a unit:
    [text_units] raises the error of [struct.unpack] on them. *)
Theorem text_units_stray_bytes (cfg : config) (m : bool)
  (us : list (Z * list bytes)) (stray : bytes) :
  Forall sized_unit us -> 1 <= len stray <= 3 ->
  text_units cfg m (encode_units us ++ stray) = Raise StructError.
Proof.
  intros Hus Hs.
  destruct (text_units_then cfg m us stray Hus) as [fuel [Hf E]].
  rewrite E. clear E.
  assert (Hl : (1 <= List.length stray)%nat) by (unfold len in Hs; lia).
  destruct fuel as [|fuel]; [lia|].
  cbn [text_units_loop]. cbn [tu_at tu_loc].
  assert ((len (encode_units us) <? len (encode_units us ++ stray)) = true)
    as ->.
  { apply Z.ltb_lt. rewrite len_app. lia. }
  unfold text_units_step. cbn [tu_at tu_loc].
  pose proof (slice_app_r (encode_units us) stray 0 2) as S1.
  rewrite Z.add_0_r in S1. rewrite S1 by lia.
  rewrite (slice_app_r (encode_units us) stray 2 4) by lia.
  destruct stray as [|a [|b [|c [|d s]]]]; unfold len in Hs;
    cbn [List.length] in Hs; try lia; reflexivity.
Qed.

Lemma text_units_stray_bytes_witness :
  text_units default_config false (encode_units units_plain ++ [x00; x42])
  = Raise StructError.
Proof.
  apply (text_units_stray_bytes default_config false units_plain [x00; x42]).
  - repeat constructor; try discriminate; simpl; lia.
  - unfold len. simpl. lia.
Defined.

(** ** A dictionary written as text units and read back *)

Ltac key_cases k :=
  unfold text_keys; destruct k as [|k|k]; try discriminate;
  repeat (destruct k as [k|k|]; try discriminate).

Lemma text_keys_listed (P : Z -> Prop) :
  (forall k, In k text_key_list -> P k) ->
  forall k n t, text_keys k = Some (n, t) -> P k.
Proof.
  intros HF k n t. key_cases k.
  all: intros _; apply HF; unfold text_key_list;
    repeat (first [left; reflexivity | right]).
Qed.

Lemma text_keys_inj (k1 k2 : Z) (n : string) (t1 t2 : ttype) :
  text_keys k1 = Some (n, t1) -> text_keys k2 = Some (n, t2) -> k1 = k2.
Proof.
  intros H1 H2.
  assert (T : forallb (fun a => forallb (fun b => implb (same_name a b) (a =? b))
                                 text_key_list) text_key_list = true)
    by (vm_compute; reflexivity).
  assert (L1 : In k1 text_key_list)
    by (apply (text_keys_listed (fun k => In k text_key_list)
                 (fun k H => H) k1 n t1 H1)).
  assert (L2 : In k2 text_key_list)
    by (apply (text_keys_listed (fun k => In k text_key_list)
                 (fun k H => H) k2 n t2 H2)).
  rewrite forallb_forall in T. specialize (T k1 L1).
  rewrite forallb_forall in T. specialize (T k2 L2).
  unfold same_name in T. rewrite H1, H2, String.eqb_refl in T.
  apply Z.eqb_eq. exact T.
Qed.

Lemma text_keys_type (k : Z) (ty : ttype) :
  text_keys k = Some ("INMTYPE"%string, ty) -> k = 0x8012.
Proof. key_cases k; reflexivity. Qed.

Lemma dset_fresh (t : tudict) (k : string) (v : value) :
  dget String.eqb t k = None -> dset String.eqb t k v = t ++ [(k, v)].
Proof.
  induction t as [|[k' v'] t IH]; cbn [dget dset app]; [reflexivity|].
  destruct (String.eqb k k'); [discriminate|].
  intros H. rewrite (IH H). reflexivity.
Qed.

Lemma dset_last (t : tudict) (k : string) (v v' : value) :
  dget String.eqb t k = None ->
  dset String.eqb (t ++ [(k, v)]) k v' = t ++ [(k, v')].
Proof.
  induction t as [|[k0 v0] t IH]; cbn [dget dset app].
  - rewrite String.eqb_refl. reflexivity.
  - destruct (String.eqb k k0); [discriminate|].
    intros H. rewrite (IH H). reflexivity.
Qed.

Lemma dget_snoc_other (t : tudict) (k k' : string) (v : value) :
  k' <> k -> dget String.eqb (t ++ [(k, v)]) k' = dget String.eqb t k'.
Proof.
  intros N. induction t as [|[k0 v0] t IH]; cbn [dget app].
  - replace (String.eqb k' k) with false
      by (symmetry; apply String.eqb_neq; exact N). reflexivity.
  - rewrite IH. reflexivity.
Qed.

Lemma item_value_plain (cfg : config) (name : string) (ty : ttype)
  (item : bytes) :
  name <> "INMDSNAM"%string -> name <> "INMTYPE"%string ->
  item_value cfg name ty item [] = (plain_value cfg ty item, []).
Proof.
  intros N1 N2. unfold item_value, plain_value.
  apply String.eqb_neq in N1. apply String.eqb_neq in N2.
  destruct ty; rewrite ?N1, ?N2; reflexivity.
Qed.

Lemma last_default {A} (l : list A) (a d : A) :
  last (a :: l) d = last l a.
Proof.
  revert a d. induction l as [|b l IH]; intros a d; [reflexivity|].
  change (last (a :: b :: l) d) with (last (b :: l) d).
  rewrite (IH b d), (IH b a). reflexivity.
Qed.

Lemma last_map {A B} (f : A -> B) (l : list A) (a d : A) :
  last (map f l) (f a) = f (last (a :: l) d).
Proof.
  rewrite last_default. induction l as [|b l IH]; [reflexivity|].
  cbn [map]. rewrite !last_default.
  clear IH. revert b. induction l as [|c l IH]; intros b; [reflexivity|].
  cbn [map]. rewrite !last_default. apply IH.
Qed.

Lemma items_fold_over (cfg : config) (k : Z) (name : string) (ty : ttype)
  (t : tudict) :
  text_keys k = Some (name, ty) ->
  name <> "INMDSNAM"%string -> name <> "INMTYPE"%string ->
  dget String.eqb t name = None ->
  forall items v,
    items_fold cfg k items (t ++ [(name, v)], [])
    = (t ++ [(name, last (map (plain_value cfg ty) items) v)], []).
Proof.
  intros Hk N1 N2 Hf. induction items as [|it items IH]; intros v;
    [reflexivity|].
  rewrite items_fold_cons.
  assert (S1 : items_fold cfg k [it] (t ++ [(name, v)], [])
               = (t ++ [(name, plain_value cfg ty it)], [])).
  { unfold items_fold. cbn [fold_left]. rewrite Hk. cbn [fst snd].
    rewrite item_value_plain by assumption.
    rewrite dset_last by exact Hf. reflexivity. }
  etransitivity; [apply f_equal; exact S1|].
  rewrite IH. cbn [map]. rewrite last_default. reflexivity.
Qed.

Lemma items_fold_entry (cfg : config) (k : Z) (name : string) (ty : ttype)
  (t : tudict) (items : list bytes) :
  text_keys k = Some (name, ty) ->
  name <> "INMDSNAM"%string -> name <> "INMTYPE"%string ->
  dget String.eqb t name = None ->
  items <> [] ->
  items_fold cfg k items (t, []) = (t ++ [unit_entry cfg (k, items)], []).
Proof.
  intros Hk N1 N2 Hf Hne. destruct items as [|it items]; [contradiction|].
  rewrite items_fold_cons.
  assert (S1 : items_fold cfg k [it] (t, [])
               = (t ++ [(name, plain_value cfg ty it)], [])).
  { unfold items_fold. cbn [fold_left]. rewrite Hk. cbn [fst snd].
    rewrite item_value_plain by assumption.
    rewrite dset_fresh by exact Hf. reflexivity. }
  etransitivity; [apply f_equal; exact S1|].
  rewrite (items_fold_over cfg k name ty t Hk N1 N2 Hf).
  unfold unit_entry. cbn [fst snd]. rewrite Hk.
  rewrite (last_map (plain_value cfg ty) items it []). reflexivity.
Qed.

Lemma units_fold_entries (cfg : config) (us : list (Z * list bytes)) :
  Forall known_unit us ->
  Forall (fun u => fst u <> 0x0002 /\ fst u <> 0x8012) us ->
  NoDup (map fst us) ->
  forall t,
    (forall u name ty, In u us -> text_keys (fst u) = Some (name, ty) ->
                       dget String.eqb t name = None) ->
    units_fold cfg us (t, []) = (t ++ map (unit_entry cfg) us, []).
Proof.
  induction us as [|u us IH]; intros Hk Hn Hd t Hf.
  - cbn. rewrite app_nil_r. reflexivity.
  - inversion Hk as [|? ? Hu Hus]; subst.
    inversion Hn as [|? ? [N2 N8] Hns]; subst.
    inversion Hd as [|? ? Hnin Hds]; subst.
    destruct u as [k items]. cbn [fst snd] in *.
    destruct Hu as [_ [Hknown [Hne _]]]. cbn [fst snd] in *.
    destruct (text_keys k) as [[name ty]|] eqn:Ek; [|contradiction].
    assert (N1 : name <> "INMDSNAM"%string)
      by (intros ->; apply N2; eapply text_keys_dsname; exact Ek).
    assert (N3 : name <> "INMTYPE"%string)
      by (intros ->; apply N8; eapply text_keys_type; exact Ek).
    change (units_fold cfg ((k, items) :: us) (t, []))
      with (units_fold cfg us (items_fold cfg k items (t, []))).
    assert (S1 : items_fold cfg k items (t, [])
                 = (t ++ [unit_entry cfg (k, items)], [])).
    { apply (items_fold_entry cfg k name ty t items Ek N1 N3);
        [apply (Hf (k, items) name ty (or_introl eq_refl) Ek) | exact Hne]. }
    etransitivity; [apply (f_equal (units_fold cfg us)); exact S1|].
    etransitivity.
    { apply (IH Hus Hns Hds).
      intros u' name' ty' Hin Ek'.
      unfold unit_entry. cbn [fst snd]. rewrite Ek.
      rewrite dget_snoc_other.
      - apply (Hf u' name' ty' (or_intror Hin) Ek').
      - intros ->. apply Hnin.
        rewrite (text_keys_inj k (fst u') name ty ty' Ek Ek').
        apply in_map. exact Hin. }
    rewrite <- app_assoc. reflexivity.
Qed.

(** The dictionary of a stream of units with known, different keys. *)
Lemma text_units_entries (cfg : config) (m : bool)
  (us : list (Z * list bytes)) :
  Forall known_unit us ->
  Forall (fun u => fst u <> 0x0002 /\ fst u <> 0x8012) us ->
  NoDup (map fst us) ->
  text_units cfg m (encode_units us) = Ok (map (unit_entry cfg) us, m).
Proof.
  intros Hk Hn Hd.
  destruct (text_units_then cfg m us []) as [fuel [_ E]].
  { eapply Forall_impl; [|exact Hk]. apply known_sized. }
  rewrite app_nil_r in E. rewrite E.
  rewrite text_units_loop_end by (cbn [tu_at tu_loc]; lia).
  cbn [bind tu_at tu tu_msg].
  pose proof (units_fold_entries cfg us Hk Hn Hd [] (fun _ _ _ _ _ => eq_refl))
    as F.
  apply (f_equal (fun a : tudict * str => Ok (fst a, m))) in F. exact F.
Qed.

(** X9: a dictionary written as text units and read back: when the keys
    of the units are known and differ, and none is the dataset name
    [0x0002] or [INMTYPE], [text_units] returns, in the order of the
    stream, the name of each unit with the value of its last item, decoded
    by the type of its key, and leaves the message flag as it was. *)
Theorem text_units_round_trip (cfg : config) (m : bool)
  (us : list (Z * list bytes)) :
  Forall known_unit us ->
  Forall (fun u => fst u <> 0x0002 /\ fst u <> 0x8012) us ->
  NoDup (map fst us) ->
  text_units cfg m (encode_units us) = Ok (map (unit_entry cfg) us, m).
Proof. apply text_units_entries. Qed.

Lemma text_units_round_trip_witness :
  text_units default_config false (encode_units units_plain)
  = Ok ([("INMLRECL"%string, VInt 80);
         ("INMFUID"%string, VStr (lit "AB"));
         ("INMBLKSZ"%string, VInt 3120)], false).
Proof.
  apply (text_units_round_trip default_config false units_plain).
  - repeat constructor; try discriminate; simpl; lia.
  - repeat constructor; discriminate.
  - repeat constructor; simpl; intuition discriminate.
Defined.

(** ** The time stamp of INMR01 *)

(** X10: when [parse_INMR01] returns, the object has its [INMR01]
    dictionary, and an [INMFTIME] in it is a complete ISO date and time
    with microseconds; the other keys of [self.xmit] and the record
    counters are as they were. *)
Theorem INMR01_time_is_iso (cfg : config) (o o' : xmit_obj)
  (inmr01_record : bytes) :
  parse_INMR01 cfg o inmr01_record = Ok o' ->
  (exists t,
     x_INMR01 (xmit o') = Some t
     /\ forall v, dget String.eqb t "INMFTIME"%string = Some v ->
                  exists s, v = VStr s /\ is_iso_micro s = true)
  /\ x_INMR02 (xmit o') = x_INMR02 (xmit o)
  /\ x_INMR03 (xmit o') = x_INMR03 (xmit o)
  /\ x_message (xmit o') = x_message (xmit o)
  /\ x_file (xmit o') = x_file (xmit o)
  /\ INMR02_count o' = INMR02_count o
  /\ INMR03_count o' = INMR03_count o.
Proof.
  unfold parse_INMR01. intros H. inv_bind H. destruct x as [t m].
  inv_bind H. injection H as <-. cbn [xmit x_INMR01 x_INMR02 x_INMR03
    x_message x_file INMR02_count INMR03_count].
  split; [|repeat split; reflexivity].
  exists x. split; [reflexivity|]. intros v Hv.
  destruct (dget String.eqb t "INMFTIME"%string) as [v0|] eqn:G.
  - inv_bind E0. inv_bind E0. injection E0 as <-.
    rewrite nget_same in Hv. injection Hv as <-.
    eexists. split; [reflexivity|]. eapply strptime_shape. exact E2.
  - injection E0 as <-. rewrite G in Hv. discriminate.
Qed.

Lemma INMR01_time_is_iso_witness :
  exists o' t,
    parse_INMR01 default_config new_XMIT inmr01_units = Ok o'
    /\ x_INMR01 (xmit o') = Some t
    /\ dget String.eqb t "INMFTIME"%string
       = Some (VStr (lit "2023-01-15T12:30:45.000000")).
Proof.
  destruct (parse_INMR01 default_config new_XMIT inmr01_units) as [o'| | |]
    eqn:E; try (vm_compute in E; discriminate).
  destruct (INMR01_time_is_iso default_config new_XMIT o' inmr01_units E)
    as [[t [Ht _]] _].
  exists o', t. split; [reflexivity|]. split; [exact Ht|].
  vm_compute in E. injection E as <-. cbn in Ht. injection Ht as <-.
  reflexivity.
Defined.

(** ** Names the archive has and names it does not have *)

Lemma value_eqb_eq (x y : value) : value_eqb x y = true <-> x = y.
Proof.
  destruct x, y; cbn [value_eqb]; split; intros H; try discriminate.
  - apply str_eqb_eq in H. congruence.
  - injection H as <-. apply str_eqb_refl.
  - apply Z.eqb_eq in H. congruence.
  - injection H as <-. apply Z.eqb_refl.
  - apply bytes_eqb_eq in H. congruence.
  - injection H as <-. apply bytes_eqb_eq. reflexivity.
Qed.

Lemma dget_not_In {V} (d : dict value V) (k : value) :
  ~ In k (dkeys d) -> dget value_eqb d k = None.
Proof.
  intros N. destruct (dget value_eqb d k) as [v|] eqn:G; [|reflexivity].
  exfalso. apply N.
  apply (dget_In value V value_eqb value_eqb_eq d k v G).
Qed.

Lemma get_files_inv (a : archive) (names : list value) :
  get_files a = Ok names ->
  check_parsed a = Ok tt
  /\ exists hx,
       has_xmi a = Ok hx
       /\ (hx = true ->
           exists files, x_file (a_xmit a) = Some files
                         /\ forall k, In k (dkeys files) -> In k names)
       /\ (hx = false ->
           exists files, t_file (a_tape a) = Some files
                         /\ forall k, In k (dkeys files) -> In k names).
Proof.
  unfold get_files, has_xmi, has_tape. intros H.
  destruct (check_parsed a) as [[]| | |] eqn:C; try discriminate.
  cbn [bind] in H. split; [reflexivity|].
  exists (xmit_nonempty (a_xmit a)). split; [reflexivity|].
  destruct (xmit_nonempty (a_xmit a)) eqn:X.
  - split; [|discriminate]. intros _.
    destruct (x_file (a_xmit a)) as [files|]; [|discriminate].
    exists files. split; [reflexivity|]. cbn [key bind] in H.
    destruct (tape_nonempty (a_tape a)).
    + destruct (t_file (a_tape a)) as [tf|]; [|discriminate].
      cbn [key bind] in H. injection H as <-.
      intros k Hk. apply in_or_app. left. exact Hk.
    + cbn [bind] in H. injection H as <-.
      intros k Hk. apply in_or_app. left. exact Hk.
  - split; [discriminate|]. intros _. cbn [bind] in H.
    assert (T : tape_nonempty (a_tape a) = true).
    { unfold check_parsed in C. rewrite X in C. cbn [negb andb] in C.
      destruct (tape_nonempty (a_tape a)); [reflexivity | discriminate]. }
    rewrite T in H.
    destruct (t_file (a_tape a)) as [tf|]; [|discriminate].
    cbn [key bind] in H. injection H as <-.
    exists tf. split; [reflexivity|]. intros k Hk. exact Hk.
Qed.

(** X11: of a name that [get_files] does not list, [is_sequential] says
    [False] and [is_member] says [False] for every member, but [is_pds]
    says [True]. *)
Theorem unlisted_name_is_pds (a : archive) (names : list value)
  (pds : value) :
  get_files a = Ok names -> ~ In pds names ->
  is_sequential a pds = Ok false
  /\ is_pds a pds = Ok true
  /\ forall member, is_member a pds member = Ok false.
Proof.
  intros H N.
  destruct (get_files_inv a names H) as [C [hx [Hx [H1 H2]]]].
  assert (S1 : is_sequential a pds = Ok false).
  { unfold is_sequential. rewrite C, Hx. cbn [bind].
    destruct hx.
    - destruct (H1 eq_refl) as [files [F L]]. rewrite F.
      rewrite dget_not_In; [reflexivity|]. intros I. apply N, L, I.
    - destruct (H2 eq_refl) as [files [F L]]. rewrite F.
      rewrite dget_not_In; [reflexivity|]. intros I. apply N, L, I. }
  split; [exact S1|]. split.
  - unfold is_pds. rewrite C, S1. reflexivity.
  - intros member. unfold is_member. rewrite C, Hx. cbn [bind].
    destruct hx.
    + destruct (H1 eq_refl) as [files [F L]]. rewrite F.
      rewrite dget_not_In; [reflexivity|]. intros I. apply N, L, I.
    + destruct (H2 eq_refl) as [files [F L]]. rewrite F.
      rewrite dget_not_In; [reflexivity|]. intros I. apply N, L, I.
Qed.

Lemma unlisted_name_is_pds_witness :
  is_pds archive_sample (VStr (lit "NOT.THERE")) = Ok true.
Proof.
  destruct (get_files archive_sample) as [names| | |] eqn:E;
    try (vm_compute in E; discriminate).
  apply (unlisted_name_is_pds archive_sample names
           (VStr (lit "NOT.THERE")) E).
  vm_compute in E. injection E as <-.
  intros [I|[]]. discriminate.
Defined.

(** X12: a member that [is_member] accepts can be looked at: [is_alias]
    returns for it, [get_members] lists it when it returns, and when the
    member is no alias [get_member_decoded] returns its text or its
    bytes. *)
Theorem member_can_be_read (a : archive) (pds : value) (member : str) :
  is_member a pds member = Ok true ->
  (exists b, is_alias a pds member = Ok b)
  /\ (forall l, get_members a pds = Ok l -> In member l)
  /\ (is_alias a pds member = Ok false ->
      exists v, get_member_decoded a pds member = Ok v).
Proof.
  unfold is_member. intros H.
  destruct (check_parsed a) as [[]| | |] eqn:C; try discriminate.
  cbn [bind] in H.
  destruct (has_xmi a) as [hx| | |] eqn:Hx; try discriminate.
  cbn [bind] in H.
  assert (M : exists ms x,
            members_of a pds = Ok ms /\ dget str_eqb ms member = Some x
            /\ (forall l, get_members a pds = Ok l -> In member l)).
  { unfold members_of, get_members. rewrite C, Hx. cbn [bind].
    destruct hx.
    - destruct (x_file (a_xmit a)) as [files|]; [|discriminate].
      destruct (dget value_eqb files pds) as [f|] eqn:G; [|discriminate].
      destruct (x_members f) as [ms|] eqn:Ms; [|discriminate].
      injection H as H. unfold dmem in H.
      destruct (dget str_eqb ms member) as [x|] eqn:Gm; [|discriminate].
      exists ms, x. cbn [key bind]. unfold dfind. rewrite G. cbn [bind].
      rewrite Ms. split; [reflexivity|]. split; [exact Gm|].
      intros l Hl. inv_bind Hl. inv_bind Hl. injection Hl as <-.
      apply in_or_app. left.
      apply (dget_In str _ str_eqb str_eqb_eq ms member x Gm).
    - destruct (t_file (a_tape a)) as [files|] eqn:F; [|discriminate].
      destruct (dget value_eqb files pds) as [f|] eqn:G; [|discriminate].
      destruct (t_members f) as [ms|] eqn:Ms; [|discriminate].
      injection H as H. unfold dmem in H.
      destruct (dget str_eqb ms member) as [x|] eqn:Gm; [|discriminate].
      exists ms, x. cbn [key bind]. unfold dfind. rewrite G. cbn [bind].
      rewrite Ms. split; [reflexivity|]. split; [exact Gm|].
      unfold has_tape. rewrite C. cbn [bind].
      assert (T : tape_nonempty (a_tape a) = true)
        by (unfold tape_nonempty; rewrite F; reflexivity).
      rewrite T. cbn [key bind].
      intros l Hl. injection Hl as <-.
      apply (dget_In str _ str_eqb str_eqb_eq ms member x Gm). }
  destruct M as [ms [x [Mo [Gm L]]]].
  assert (A : is_alias a pds member = Ok (alias x)).
  { unfold is_alias. rewrite C, Mo. cbn [bind]. unfold dfind. rewrite Gm.
    reflexivity. }
  split; [eauto|]. split; [exact L|].
  intros Af. unfold get_member_decoded. rewrite C, Af. cbn [bind].
  rewrite Mo. cbn [bind]. unfold dfind. rewrite Gm. cbn [bind].
  destruct (text x); [eauto|]. destruct (data x); eauto.
Qed.

Lemma member_can_be_read_witness :
  exists v, get_member_decoded archive_sample (VStr (lit "MY.PDS"))
              (lit "MAIN") = Ok v.
Proof.
  apply (member_can_be_read archive_sample (VStr (lit "MY.PDS"))
           (lit "MAIN")); reflexivity.
Defined.

(** ** An XMIT file written out and read back *)

Lemma get_int_byte (n : Z) : 0 <= n < 256 -> get_int [byte_of n] = n.
Proof. intros H. unfold get_int. cbn [fold_left]. rewrite bv_byte_of; lia. Qed.

Lemma len_xmi_segment (flag : Z) (payload : bytes) :
  len (xmi_segment flag payload) = len payload + 2.
Proof.
  unfold xmi_segment. rewrite len_app. change (len [_; _]) with 2. lia.
Qed.

(** The three things a turn of the loop reads of a segment. *)
Lemma segment_read (tr pre post payload : bytes) (flag loc : Z) :
  tr = pre ++ xmi_segment flag payload ++ post ->
  loc = len pre -> 0 <= flag < 256 -> len payload <= 253 ->
  get_int (slice tr loc (loc + 1)) = len payload + 2
  /\ get_int (slice tr (loc + 1) (loc + 2)) = flag
  /\ slice tr (loc + 2) (loc + (len payload + 2)) = payload.
Proof.
  intros Htr Hloc Hf Hp. pose proof (len_nonneg payload) as Hn.
  unfold xmi_segment in Htr. split; [|split].
  - rewrite (slice_at tr pre [byte_of (len payload + 2)]
               (byte_of flag :: payload ++ post));
      [apply get_int_byte; lia | subst tr; reflexivity | exact Hloc
      | reflexivity].
  - rewrite (slice_at tr (pre ++ [byte_of (len payload + 2)]) [byte_of flag]
               (payload ++ post));
      [apply get_int_byte; lia
      | subst tr; rewrite <- !app_assoc; reflexivity
      | rewrite len_app; change (len [_]) with 1; lia
      | change (len [_]) with 1; lia].
  - apply (slice_at tr (pre ++ [byte_of (len payload + 2); byte_of flag])
             payload post);
      [subst tr; rewrite <- !app_assoc; reflexivity
      | rewrite len_app; change (len [_; _]) with 2; lia | lia].
Qed.

(** A turn that goes on to the next segment. *)
Lemma parse_xmi_loop_next (cfg : config) (tr : bytes) (loc sl : Z)
  (o o' : xmit_obj) (rd rd' : bytes) (fuel : nat) :
  loc < len tr ->
  parse_xmi_step cfg tr loc o rd = Ok (Next o' rd') ->
  get_int (slice tr loc (loc + 1)) = sl -> sl <> 0 ->
  parse_xmi_loop (S fuel) cfg tr loc o rd
  = parse_xmi_loop fuel cfg tr (loc + sl) o' rd'.
Proof.
  intros Hl Hs Hg Hz. cbn [parse_xmi_loop].
  replace (loc <? len tr) with true by (symmetry; apply Z.ltb_lt; exact Hl).
  rewrite Hs. cbn [bind]. rewrite Hg.
  replace (sl =? 0) with false by (symmetry; apply Z.eqb_neq; exact Hz).
  reflexivity.
Qed.

(** The turn at a control record. *)
Lemma control_step (cfg : config) (tr pre post : bytes) (hd : bytes * bytes)
  (loc : Z) (o : xmit_obj) (rd : bytes) :
  tr = pre ++ control_record hd ++ post ->
  loc = len pre -> len (fst hd) = 6 -> len (snd hd) <= 247 ->
  get_int (slice tr loc (loc + 1)) = len (snd hd) + 8
  /\ parse_xmi_step cfg tr loc o rd
     = if str_eqb (decode (ebcdic cfg) (fst hd)) (lit "INMR06")
       then if str_eqb (decode (ebcdic cfg) (fst hd)) (lit "INMR01")
               || str_eqb (decode (ebcdic cfg) (fst hd)) (lit "INMR02")
               || str_eqb (decode (ebcdic cfg) (fst hd)) (lit "INMR03")
            then let* o' := control cfg o hd in Ok (Next o' rd)
            else Ok (Return o)
       else let* o' := control cfg o hd in Ok (Next o' rd).
Proof.
  intros Htr Hloc H6 Hb. destruct hd as [nm body]. cbn [fst snd] in *.
  pose proof (len_nonneg body) as Hn.
  unfold control_record in Htr. cbn [fst snd] in Htr.
  assert (Lp : len (nm ++ body) = len body + 6)
    by (rewrite len_app; lia).
  destruct (segment_read tr pre post (nm ++ body) 0xE0 loc Htr Hloc)
    as [R1 [R2 _]]; [lia | lia |].
  rewrite Lp in R1. replace (len body + 6 + 2) with (len body + 8) in R1
    by lia.
  split; [exact R1|].
  unfold parse_xmi_step. rewrite R1, R2.
  change (has_bits 32 224) with true. cbn [negb bind].
  assert (N : slice tr (loc + 2) (loc + 8) = nm).
  { apply (slice_at tr (pre ++ [byte_of (len (nm ++ body) + 2); byte_of 224])
             nm (body ++ post)).
    - subst tr. unfold xmi_segment. rewrite <- !app_assoc. reflexivity.
    - rewrite len_app. change (len [_; _]) with 2. lia.
    - lia. }
  assert (B : slice tr (loc + 8) (loc + (len body + 8)) = body).
  { apply (slice_at tr
             (pre ++ [byte_of (len (nm ++ body) + 2); byte_of 224] ++ nm)
             body post).
    - subst tr. unfold xmi_segment. rewrite <- !app_assoc. reflexivity.
    - rewrite !len_app. change (len [_; _]) with 2. lia.
    - lia. }
  rewrite N, B. unfold control. cbn [fst snd].
  destruct (str_eqb (decode (ebcdic cfg) nm) (lit "INMR01")) eqn:E1.
  { cbn [orb]. destruct (str_eqb _ (lit "INMR06")); reflexivity. }
  destruct (str_eqb (decode (ebcdic cfg) nm) (lit "INMR02")) eqn:E2.
  { cbn [orb]. destruct (str_eqb _ (lit "INMR06")); reflexivity. }
  destruct (str_eqb (decode (ebcdic cfg) nm) (lit "INMR03")) eqn:E3.
  { cbn [orb]. destruct (str_eqb _ (lit "INMR06")); reflexivity. }
  cbn [orb]. destruct (str_eqb _ (lit "INMR06")); reflexivity.
Qed.

Lemma control_records_cons (hd : bytes * bytes)
  (hdrs : list (bytes * bytes)) :
  control_records (hd :: hdrs) = control_record hd ++ control_records hdrs.
Proof. reflexivity. Qed.

Lemma len_control_record (hd : bytes * bytes) :
  len (fst hd) = 6 -> len (control_record hd) = len (snd hd) + 8.
Proof.
  intros H. unfold control_record. rewrite len_xmi_segment, len_app. lia.
Qed.

(** The walk over control records. *)
Lemma controls_walk (cfg : config) (tr post : bytes)
  (hdrs : list (bytes * bytes)) :
  Forall (sized_control cfg) hdrs ->
  forall pre loc o o' rd fuel,
    tr = pre ++ control_records hdrs ++ post ->
    loc = len pre ->
    controls cfg o hdrs = Ok o' ->
    parse_xmi_loop (List.length hdrs + fuel) cfg tr loc o rd
    = parse_xmi_loop fuel cfg tr (loc + len (control_records hdrs)) o' rd.
Proof.
  induction 1 as [|hd hdrs Hhd Hhs IH]; intros pre loc o o' rd fuel Htr Hloc Hc.
  - cbn in Hc. injection Hc as <-. cbn. rewrite Z.add_0_r. reflexivity.
  - destruct Hhd as [H6 [Hb N6]].
    cbn [controls] in Hc. apply bind_Ok in Hc. destruct Hc as [o1 [C1 Hc]].
    rewrite control_records_cons, <- app_assoc in Htr.
    destruct (control_step cfg tr pre (control_records hdrs ++ post) hd loc
                o rd Htr Hloc H6 Hb) as [G S1].
    replace (str_eqb (decode (ebcdic cfg) (fst hd)) (lit "INMR06"))
      with false in S1 by (symmetry; apply str_eqb_neq; exact N6).
    rewrite C1 in S1. cbn [bind] in S1.
    pose proof (len_nonneg (snd hd)) as Hn.
    change (List.length (hd :: hdrs) + fuel)%nat
      with (S (List.length hdrs + fuel)).
    rewrite (parse_xmi_loop_next cfg tr loc (len (snd hd) + 8) o o1 rd rd
               _ ) ; [| | exact S1 | exact G | lia].
    + rewrite (IH (pre ++ control_record hd) (loc + (len (snd hd) + 8))
                 o1 o' rd fuel);
        [| subst tr; rewrite <- !app_assoc; reflexivity
         | rewrite len_app, len_control_record by exact H6; lia
         | exact Hc].
      rewrite control_records_cons, len_app, len_control_record by exact H6.
      f_equal. lia.
    + subst tr loc. rewrite !len_app, len_control_record by exact H6.
      pose proof (len_nonneg (control_records hdrs)).
      pose proof (len_nonneg post). lia.
Qed.

Lemma parse_INMR_keep_file (cfg : config) (o o' : xmit_obj) (body : bytes) :
  parse_INMR01 cfg o body = Ok o' \/ parse_INMR02 cfg o body = Ok o'
  \/ parse_INMR03 cfg o body = Ok o' ->
  x_file (xmit o') = x_file (xmit o).
Proof.
  unfold parse_INMR01, parse_INMR02, parse_INMR03.
  intros [H|[H|H]].
  - inv_bind H. destruct x as [t m]. inv_bind H. injection H as <-.
    reflexivity.
  - inv_bind H. inv_bind H. destruct x0 as [t m]. inv_bind H.
    injection H as <-. reflexivity.
  - inv_bind H. destruct x as [t m]. inv_bind H. injection H as <-.
    reflexivity.
Qed.

Lemma controls_keep_file (cfg : config) (hdrs : list (bytes * bytes)) :
  forall o o',
    controls cfg o hdrs = Ok o' -> x_file (xmit o') = x_file (xmit o).
Proof.
  induction hdrs as [|hd hdrs IH]; intros o o' H; cbn [controls] in H.
  - injection H as <-. reflexivity.
  - apply bind_Ok in H. destruct H as [o1 [C H]].
    rewrite (IH o1 o' H). unfold control in C.
    destruct (str_eqb _ (lit "INMR01"));
      [apply (parse_INMR_keep_file cfg o o1 (snd hd)); auto|].
    destruct (str_eqb _ (lit "INMR02"));
      [apply (parse_INMR_keep_file cfg o o1 (snd hd)); auto|].
    destruct (str_eqb _ (lit "INMR03"));
      [apply (parse_INMR_keep_file cfg o o1 (snd hd)); auto|].
    injection C as <-. reflexivity.
Qed.

Lemma value_eqb_refl (v : value) : value_eqb v v = true.
Proof. apply value_eqb_eq. reflexivity. Qed.

Lemma seg_flag_bits (first last : bool) :
  has_bits 0x40 (seg_flag first last) = last
  /\ has_bits 0x20 (seg_flag first last) = false
  /\ 0 <= seg_flag first last < 256.
Proof. destruct first, last; repeat split; cbn; try reflexivity; lia. Qed.

(** A segment of the file: its bytes are added to the record in hand,
    which the last segment closes. *)
Lemma data_segment_file (o : xmit_obj) (dsn : value)
  (fs : option (list bytes)) (rd payload : bytes) (first last : bool) :
  file_mode o dsn -> x_file (xmit o) = None ->
  data_segment (file_state o dsn fs) rd (seg_flag first last) payload
  = Ok (file_state o dsn
          (Some (records_so_far fs
                 ++ if last then [rd ++ payload] else [])),
        if last then [] else rd ++ payload).
Proof.
  intros [inmr02 [fst1 [t [H2 [H1 [Hm [Hl Hd]]]]]]] Hf.
  assert (M : (negb (dmem String.eqb fst1 "INMDSNAM"%string) && msg o)
              = false)
    by (destruct Hm as [-> | ->]; [reflexivity | apply andb_false_r]).
  destruct (seg_flag_bits first last) as [B40 _].
  unfold data_segment. rewrite B40.
  destruct fs as [d|];
    unfold file_state, records_so_far, with_file, set_xmit, key, dfind, dmem;
    cbn [xmit x_INMR01 x_INMR02 x_INMR03 x_message x_file msg filelocation
         INMR02_count INMR03_count];
    rewrite H2; cbn [bind]; rewrite H1; cbn [bind];
    unfold dmem in M; rewrite M; cbn [bind]; rewrite Hl; cbn [bind];
    rewrite Hd; cbn [bind]; rewrite ?Hf; cbn [dget dset];
    rewrite ?value_eqb_refl; cbn [dget dset];
    destruct last; cbn [bind dget dset with_data x_data x_members];
    rewrite ?value_eqb_refl; cbn [bind dget dset with_data x_data x_members];
    rewrite ?value_eqb_refl, ?app_nil_r; reflexivity.
Qed.

(** The turn at a segment of the file. *)
Lemma data_step (cfg : config) (tr pre post c : bytes) (first last : bool)
  (loc : Z) (o : xmit_obj) (dsn : value) (fs : option (list bytes))
  (rd : bytes) :
  tr = pre ++ xmi_segment (seg_flag first last) c ++ post ->
  loc = len pre -> len c <= 253 ->
  file_mode o dsn -> x_file (xmit o) = None ->
  get_int (slice tr loc (loc + 1)) = len c + 2
  /\ parse_xmi_step cfg tr loc (file_state o dsn fs) rd
     = Ok (Next (file_state o dsn
                   (Some (records_so_far fs
                          ++ if last then [rd ++ c] else [])))
             (if last then [] else rd ++ c)).
Proof.
  intros Htr Hloc Hc Hm Hf.
  destruct (seg_flag_bits first last) as [_ [B20 Bf]].
  destruct (segment_read tr pre post c (seg_flag first last) loc Htr Hloc Bf
              Hc) as [R1 [R2 R3]].
  split; [exact R1|].
  unfold parse_xmi_step. rewrite R1, R2, R3, B20. cbn [negb].
  rewrite (data_segment_file o dsn fs rd c first last Hm Hf).
  reflexivity.
Qed.

Lemma record_segments_cons (first : bool) (c : bytes) (cs : list bytes) :
  record_segments first (c :: cs)
  = xmi_segment (seg_flag first (match cs with [] => true | _ => false end)) c
    ++ record_segments false cs.
Proof. reflexivity. Qed.

(** The walk over the segments of one record. *)
Lemma record_walk (cfg : config) (tr post : bytes) (o : xmit_obj)
  (dsn : value) :
  file_mode o dsn -> x_file (xmit o) = None ->
  forall cks first pre loc fs rd fuel,
    cks <> [] -> Forall (fun c => len c <= 253) cks ->
    tr = pre ++ record_segments first cks ++ post ->
    loc = len pre ->
    parse_xmi_loop (List.length cks + fuel) cfg tr loc
      (file_state o dsn fs) rd
    = parse_xmi_loop fuel cfg tr (loc + len (record_segments first cks))
        (file_state o dsn
           (Some (records_so_far fs ++ [rd ++ List.concat cks])))
        [].
Proof.
  intros Hm Hf. induction cks as [|c cs IH];
    intros first pre loc fs rd fuel Hne Hall Htr Hloc; [contradiction|].
  inversion Hall as [|? ? Hc Hcs]; subst x l.
  pose proof (len_nonneg c) as Hn.
  rewrite record_segments_cons, <- app_assoc in Htr.
  destruct (data_step cfg tr pre (record_segments false cs ++ post) c first
              (match cs with [] => true | _ => false end) loc o dsn
              fs rd Htr Hloc Hc Hm Hf) as [G S1].
  change (List.length (c :: cs) + fuel)%nat
    with (S (List.length cs + fuel)).
  assert (Hlt : loc < len tr).
  { rewrite Htr, Hloc, !len_app, len_xmi_segment.
    pose proof (len_nonneg (record_segments false cs)).
    pose proof (len_nonneg post). lia. }
  rewrite (parse_xmi_loop_next cfg tr loc (len c + 2) _ _ rd _
             (List.length cs + fuel) Hlt S1 G) by lia.
  rewrite record_segments_cons, len_app, len_xmi_segment.
  destruct cs as [|c' cs'].
  - cbn [record_segments List.length Nat.add List.concat app].
    change (len (@nil byte)) with 0. rewrite app_nil_r.
    f_equal. lia.
  - etransitivity.
    { apply (IH false (pre ++ xmi_segment (seg_flag first false) c)
               (loc + (len c + 2))
               (Some (records_so_far fs ++ [])) (rd ++ c) fuel).
      - discriminate.
      - exact Hcs.
      - rewrite Htr, <- app_assoc. reflexivity.
      - rewrite len_app, len_xmi_segment, Hloc. reflexivity. }
    cbn [records_so_far]. rewrite app_nil_r.
    cbn [List.concat]. rewrite <- app_assoc.
    f_equal. lia.
Qed.

Lemma file_segments_cons (r : list bytes) (rs : list (list bytes)) :
  file_segments (r :: rs) = record_segments true r ++ file_segments rs.
Proof. reflexivity. Qed.

(** The walk over the records of the file. *)
Lemma records_walk (cfg : config) (tr post : bytes) (o : xmit_obj)
  (dsn : value) :
  file_mode o dsn -> x_file (xmit o) = None ->
  forall records pre loc fs fuel,
    Forall sized_record records ->
    tr = pre ++ file_segments records ++ post ->
    loc = len pre ->
    parse_xmi_loop (List.length (List.concat records) + fuel) cfg tr loc
      (file_state o dsn fs) []
    = parse_xmi_loop fuel cfg tr (loc + len (file_segments records))
        (file_state o dsn
           (match records with
            | [] => fs
            | _ => Some (records_so_far fs ++ map (@List.concat byte) records)
            end))
        [].
Proof.
  intros Hm Hf. induction records as [|r rs IH];
    intros pre loc fs fuel Hall Htr Hloc.
  - cbn. rewrite Z.add_0_r. reflexivity.
  - inversion Hall as [|? ? [Hne Hr] Hrs]; subst x l.
    rewrite file_segments_cons, <- app_assoc in Htr.
    cbn [List.concat]. rewrite length_app, <- Nat.add_assoc.
    rewrite (record_walk cfg tr (file_segments rs ++ post) o dsn Hm Hf r true
               pre loc fs [] _ Hne Hr Htr Hloc).
    etransitivity.
    { apply (IH (pre ++ record_segments true r)
               (loc + len (record_segments true r))
               (Some (records_so_far fs ++ [[] ++ List.concat r])) fuel Hrs).
      - rewrite Htr, <- app_assoc. reflexivity.
      - rewrite len_app, Hloc. reflexivity. }
    rewrite file_segments_cons, len_app, Z.add_assoc.
    cbn [records_so_far app map].
    destruct rs as [|r' rs']; [reflexivity|].
    rewrite <- app_assoc. reflexivity.
Qed.

Lemma control_records_count (cfg : config) (hdrs : list (bytes * bytes)) :
  Forall (sized_control cfg) hdrs ->
  (List.length hdrs <= List.length (control_records hdrs))%nat.
Proof.
  induction 1 as [|hd hdrs [H6 _] _ IH]; [apply Nat.le_refl|].
  rewrite control_records_cons, length_app. cbn [List.length].
  pose proof (len_control_record hd H6) as L.
  pose proof (len_nonneg (snd hd)). unfold len in L. lia.
Qed.

Lemma record_segments_count (chunks : list bytes) (first : bool) :
  (List.length chunks <= List.length (record_segments first chunks))%nat.
Proof.
  revert first. induction chunks as [|c cs IH]; intros first;
    [apply Nat.le_refl|].
  rewrite record_segments_cons, length_app. specialize (IH false).
  unfold xmi_segment. cbn [List.length app]. lia.
Qed.

Lemma file_segments_count (records : list (list bytes)) :
  (List.length (List.concat records)
   <= List.length (file_segments records))%nat.
Proof.
  induction records as [|r rs IH]; [apply Nat.le_refl|].
  rewrite file_segments_cons. cbn [List.concat]. rewrite !length_app.
  pose proof (record_segments_count r true). lia.
Qed.

(** X13: an XMIT file written out and read back.  The file is a list of
    control records, the first one INMR01, then the records of a file
    cut into segments, then INMR06 and anything.  When the control
    records leave the parser in the state in which data goes to the file
    [dsn], [parse_xmi] returns that state with [dsn] as its only file,
    whose data are the records, each put together from its segments, in
    their order. *)
Theorem xmi_file_round_trip (cfg : config) (o o3 : xmit_obj)
  (nm1 body1 : bytes) (hdrs : list (bytes * bytes)) (dsn : value)
  (records : list (list bytes)) (nm6 body6 rest : bytes) :
  decode (ebcdic cfg) nm1 = lit "INMR01" ->
  Forall (sized_control cfg) ((nm1, body1) :: hdrs) ->
  controls cfg (set_xmit o empty_xmit) ((nm1, body1) :: hdrs) = Ok o3 ->
  file_mode o3 dsn ->
  records <> [] -> Forall sized_record records ->
  len nm6 = 6 -> decode (ebcdic cfg) nm6 = lit "INMR06" ->
  len body6 <= 247 ->
  parse_xmi cfg o
    (control_records ((nm1, body1) :: hdrs) ++ file_segments records
     ++ control_record (nm6, body6) ++ rest)
  = Ok (with_file o3 dsn (map (@List.concat byte) records)).
Proof.
  intros D1 Hh Hc Hm Hne Hr H6 D6 Hb6.
  set (hs := (nm1, body1) :: hdrs) in *.
  set (tr := control_records hs ++ file_segments records
             ++ control_record (nm6, body6) ++ rest).
  assert (Hf : x_file (xmit o3) = None)
    by (rewrite (controls_keep_file cfg hs _ o3 Hc); reflexivity).
  unfold parse_xmi, parse_xmi_walk. fold tr.
  assert (N1 : slice tr 2 8 = nm1).
  { inversion Hh as [|? ? [L1 _] _]; subst. cbn [fst] in L1.
    apply (slice_at tr [byte_of (len (nm1 ++ body1) + 2); byte_of 224] nm1
             (body1 ++ control_records hdrs ++ file_segments records
              ++ control_record (nm6, body6) ++ rest)).
    - unfold tr, hs. rewrite control_records_cons.
      unfold control_record at 1, xmi_segment. cbn [fst snd].
      rewrite <- !app_assoc. reflexivity.
    - reflexivity.
    - lia. }
  rewrite N1, D1. change (str_eqb (lit "INMR01") (lit "INMR01")) with true.
  cbn [negb].
  pose proof (control_records_count cfg hs Hh) as C1.
  pose proof (file_segments_count records) as C2.
  assert (F : exists f,
            List.length tr
            = (List.length hs
               + (List.length (List.concat records) + S f))%nat).
  { exists (List.length tr - List.length hs
            - List.length (List.concat records) - 1)%nat.
    pose proof (len_control_record (nm6, body6) H6) as L6.
    pose proof (len_nonneg body6). unfold len in L6. cbn [snd] in L6.
    unfold tr. rewrite !length_app. lia. }
  destruct F as [f ->].
  rewrite (controls_walk cfg tr
             (file_segments records ++ control_record (nm6, body6) ++ rest)
             hs Hh [] 0 _ o3 [] _ eq_refl eq_refl Hc).
  change (parse_xmi_loop (List.length (List.concat records) + S f) cfg tr
            (0 + len (control_records hs)) o3 [])
    with (parse_xmi_loop (List.length (List.concat records) + S f) cfg tr
            (0 + len (control_records hs)) (file_state o3 dsn None) []).
  rewrite (records_walk cfg tr (control_record (nm6, body6) ++ rest) o3 dsn
             Hm Hf records (control_records hs)
             (0 + len (control_records hs)) None (S f) Hr eq_refl
             (Z.add_0_l _)).
  destruct records as [|r rs]; [contradiction|].
  cbn [records_so_far app file_state].
  set (loc := 0 + len (control_records hs) + len (file_segments (r :: rs))).
  destruct (control_step cfg tr
              (control_records hs ++ file_segments (r :: rs)) rest
              (nm6, body6) loc
              (with_file o3 dsn (map (@List.concat byte) (r :: rs))) [])
    as [G S1].
  { unfold tr. rewrite <- !app_assoc. reflexivity. }
  { unfold loc. rewrite len_app. lia. }
  { exact H6. }
  { exact Hb6. }
  cbn [fst snd] in S1, G. rewrite D6 in S1.
  change (str_eqb (lit "INMR06") (lit "INMR06")) with true in S1.
  change (str_eqb (lit "INMR06") (lit "INMR01")) with false in S1.
  change (str_eqb (lit "INMR06") (lit "INMR02")) with false in S1.
  change (str_eqb (lit "INMR06") (lit "INMR03")) with false in S1.
  cbn [orb] in S1.
  cbn [parse_xmi_loop].
  assert ((loc <? len tr) = true) as ->.
  { apply Z.ltb_lt. unfold loc, tr. rewrite !len_app.
    rewrite (len_control_record (nm6, body6) H6).
    pose proof (len_nonneg body6). pose proof (len_nonneg rest).
    cbn [snd]. lia. }
  rewrite S1. reflexivity.
Qed.

Lemma xmi_file_round_trip_witness :
  exists o',
    parse_xmi default_config new_XMIT
      (control_records headers_sample ++ file_segments records_sample
       ++ control_record (inmr_name xf6, []) ++ [x01])
    = Ok o'
    /\ x_file (xmit o')
       = Some [(VStr (lit "A"),
                {| x_data := [[xc1; xc2; xc3]; [xc4]];
                   x_members := None |})].
Proof.
  destruct (controls default_config (set_xmit new_XMIT empty_xmit)
              headers_sample) as [o3| | |] eqn:E;
    try (vm_compute in E; discriminate).
  exists (with_file o3 (VStr (lit "A"))
            (map (@List.concat byte) records_sample)).
  split; [|reflexivity].
  apply (xmi_file_round_trip default_config new_XMIT o3 (inmr_name xf1) []
           (tl headers_sample) (VStr (lit "A")) records_sample
           (inmr_name xf6) [] [x01]).
  - reflexivity.
  - repeat constructor; try (vm_compute; discriminate).
  - exact E.
  - vm_compute in E. injection E as <-.
    eexists. eexists. eexists.
    split; [reflexivity|]. split; [reflexivity|].
    split; [left; reflexivity|]. split; reflexivity.
  - discriminate.
  - repeat constructor; try discriminate; vm_compute; discriminate.
  - reflexivity.
  - reflexivity.
  - vm_compute. discriminate.
Defined.

(** ** Numbers written and read *)

Lemma ascii_digit_cases (c : Z) :
  48 <= c <= 57 ->
  c = 48 \/ c = 49 \/ c = 50 \/ c = 51 \/ c = 52 \/ c = 53 \/ c = 54
  \/ c = 55 \/ c = 56 \/ c = 57.
Proof. lia. Qed.

Ltac digit_cases H :=
  apply ascii_digit_cases in H;
  repeat (destruct H as [H|H]; [subst|]); [..|subst].

Lemma decimal_value_ascii (c : Z) :
  48 <= c <= 57 -> decimal_value c = Some (c - 48).
Proof. intros H. digit_cases H; reflexivity. Qed.

Lemma isspace_ascii_digit (c : Z) : 48 <= c <= 57 -> isspace_char c = false.
Proof. intros H. digit_cases H; reflexivity. Qed.

Lemma digit_char_ascii (d : Z) :
  0 <= d < 10 -> digit_char d = 48 + d /\ 48 <= digit_char d <= 57.
Proof.
  intros H. unfold digit_char.
  replace (d <? 10) with true by (symmetry; apply Z.ltb_lt; lia). lia.
Qed.

(** The number a list of decimal digits writes. *)
Lemma int_body_digits (ds : list Z) :
  Forall (fun d => 0 <= d < 10) ds -> ds <> [] ->
  forall acc b,
    int_body acc b (map digit_char ds)
    = Some (fold_left (fun a d => a * 10 + d) ds acc).
Proof.
  induction 1 as [|d ds Hd Hds IH]; intros Hne acc b; [contradiction|].
  destruct (digit_char_ascii d Hd) as [E R].
  cbn [map int_body fold_left].
  replace (digit_char d =? 95) with false by (symmetry; apply Z.eqb_neq; lia).
  rewrite (decimal_value_ascii _ R), E.
  replace (48 + d - 48) with d by lia.
  destruct ds as [|d' ds']; [reflexivity|].
  apply IH. discriminate.
Qed.

Lemma digits_fuel_value (fuel : nat) :
  forall n,
    0 <= n < 2 ^ Z.of_nat fuel -> (1 <= fuel)%nat ->
    fold_left (fun a d => a * 10 + d) (digits_fuel fuel 10 n) 0 = n
    /\ digits_fuel fuel 10 n <> []
    /\ Forall (fun d => 0 <= d < 10) (digits_fuel fuel 10 n).
Proof.
  induction fuel as [|fuel IH]; intros n Hn Hf; [lia|].
  cbn [digits_fuel]. destruct (Z.ltb_spec n 10) as [L|L].
  - split; [cbn [fold_left]; lia|]. split; [discriminate|].
    repeat constructor; lia.
  - rewrite Nat2Z.inj_succ, Z.pow_succ_r in Hn by lia.
    assert (H10 : 0 <= n / 10 < 2 ^ Z.of_nat fuel).
    { split; [apply Z.div_pos; lia|].
      apply Z.div_lt_upper_bound; lia. }
    assert (Hf' : (1 <= fuel)%nat).
    { destruct fuel; [|lia]. cbn in Hn. lia. }
    destruct (IH (n / 10) H10 Hf') as [V [N F]].
    rewrite fold_left_app. cbn [fold_left]. rewrite V.
    split; [|split].
    + pose proof (Z.div_mod n 10). lia.
    + intros E. apply app_eq_nil in E. destruct E as [_ E]. discriminate.
    + apply Forall_app. split; [exact F|].
      repeat constructor; apply Z.mod_pos_bound; lia.
Qed.

Lemma digits_value (n : Z) :
  0 <= n ->
  fold_left (fun a d => a * 10 + d) (digits 10 n) 0 = n
  /\ digits 10 n <> []
  /\ Forall (fun d => 0 <= d < 10) (digits 10 n).
Proof.
  intros Hn. unfold digits. apply digits_fuel_value; [|lia].
  split; [exact Hn|].
  destruct (Z.eq_dec n 0) as [->|N]; [cbn; lia|].
  rewrite Nat2Z.inj_succ, Z2Nat.id by apply Z.log2_nonneg.
  apply Z.log2_spec. lia.
Qed.

Lemma fold_zeros (k : nat) (ds : list Z) :
  fold_left (fun a d => a * 10 + d) (repeat 0 k ++ ds) 0
  = fold_left (fun a d => a * 10 + d) ds 0.
Proof. induction k as [|k IH]; [reflexivity|]. exact IH. Qed.

(** The characters of [fmt_d]: decimal digits, and at least one. *)
Lemma fmt_d_digits (w : nat) (n : Z) :
  0 <= n ->
  exists ds,
    fmt_d w n = map digit_char ds
    /\ ds <> []
    /\ Forall (fun d => 0 <= d < 10) ds
    /\ fold_left (fun a d => a * 10 + d) ds 0 = n.
Proof.
  intros Hn. destruct (digits_value n Hn) as [V [N F]].
  exists (repeat 0 (w - List.length (map digit_char (digits 10 n)))
          ++ digits 10 n).
  split; [|split; [|split]].
  - unfold fmt_d, zfill. rewrite map_app, map_repeat. reflexivity.
  - intros E. apply app_eq_nil in E. destruct E as [_ E]. contradiction.
  - apply Forall_app. split; [|exact F].
    apply Forall_forall. intros x Hx. apply repeat_spec in Hx. lia.
  - rewrite fold_zeros. exact V.
Qed.

Lemma digits_ascii (ds : list Z) :
  Forall (fun d => 0 <= d < 10) ds ->
  Forall (fun c => 48 <= c <= 57) (map digit_char ds).
Proof.
  induction 1 as [|d ds Hd _ IH]; [constructor|].
  cbn [map]. constructor; [apply digit_char_ascii; exact Hd | exact IH].
Qed.

Lemma rstrip_nospace (s : str) :
  Forall (fun c => isspace_char c = false) s -> rstrip s = s.
Proof.
  induction 1 as [|c s Hc _ IH]; [reflexivity|].
  cbn [rstrip]. rewrite IH, Hc. destruct s; reflexivity.
Qed.

Lemma strip_digits (s : str) :
  Forall (fun c => 48 <= c <= 57) s -> strip s = s.
Proof.
  intros H. assert (N : Forall (fun c => isspace_char c = false) s)
    by (eapply Forall_impl; [|exact H]; apply isspace_ascii_digit).
  unfold strip. destruct s as [|c s]; [reflexivity|].
  inversion N as [|? ? Hc _]; subst. cbn [lstrip]. rewrite Hc.
  apply rstrip_nospace. exact N.
Qed.

(** [int] reads a string of decimal digits as the number it writes. *)
Lemma int_of_digits (ds : list Z) :
  Forall (fun d => 0 <= d < 10) ds -> ds <> [] ->
  int_of_str (map digit_char ds)
  = Ok (fold_left (fun a d => a * 10 + d) ds 0).
Proof.
  intros F N. unfold int_of_str.
  rewrite (strip_digits _ (digits_ascii ds F)).
  pose proof (int_body_digits ds F N 0 false) as B.
  destruct ds as [|d ds]; [contradiction|].
  inversion F as [|? ? Hd _]; subst.
  destruct (digit_char_ascii d Hd) as [E R]. clear E.
  cbn [map] in *. remember (digit_char d) as c eqn:Ec. clear Ec.
  digit_cases R; cbv beta iota; rewrite B; reflexivity.
Qed.

Lemma int_of_fmt_d (w : nat) (n : Z) :
  0 <= n -> int_of_str (fmt_d w n) = Ok n.
Proof.
  intros Hn. destruct (fmt_d_digits w n Hn) as [ds [E [N [F V]]]].
  rewrite E, (int_of_digits ds F N), V. reflexivity.
Qed.

Lemma lstrip_blanks (j : nat) (s : str) :
  lstrip (repeat 32 j ++ s) = lstrip s.
Proof. induction j as [|j IH]; [reflexivity|]. exact IH. Qed.

Lemma rstrip_blanks_end (k : nat) (s : str) :
  rstrip (s ++ repeat 32 k) = rstrip s.
Proof.
  induction s as [|c s IH].
  - induction k as [|k IH]; [reflexivity|].
    cbn [app repeat rstrip] in *. rewrite IH. reflexivity.
  - cbn [app rstrip]. rewrite IH. reflexivity.
Qed.

(** X14: [make_int] reads back a number written in decimal, with any zeros
    before it and any blanks around it, and takes an empty or blank field
    for zero. *)
Theorem make_int_round_trip (w j k : nat) (n : Z) :
  0 <= n ->
  make_int (repeat 32 j ++ fmt_d w n ++ repeat 32 k) = Ok n
  /\ make_int (repeat 32 j) = Ok 0.
Proof.
  intros Hn. destruct (fmt_d_digits w n Hn) as [ds [E [N [F V]]]].
  pose proof (digits_ascii ds F) as A. rewrite <- E in A.
  assert (S1 : strip (repeat 32 j ++ fmt_d w n ++ repeat 32 k) = fmt_d w n).
  { unfold strip. rewrite lstrip_blanks.
    assert (L : lstrip (fmt_d w n ++ repeat 32 k) = fmt_d w n ++ repeat 32 k).
    { destruct (fmt_d w n) as [|c s] eqn:Ef.
      - exfalso. apply N. destruct ds; [reflexivity | discriminate].
      - inversion A as [|? ? Hc _]; subst. cbn [app lstrip].
        rewrite (isspace_ascii_digit c Hc). reflexivity. }
    rewrite L, rstrip_blanks_end. apply rstrip_nospace.
    eapply Forall_impl; [|exact A]. apply isspace_ascii_digit. }
  split.
  - unfold make_int. rewrite S1.
    destruct (fmt_d w n) as [|c s] eqn:Ef.
    + exfalso. apply N. destruct ds; [reflexivity | discriminate].
    + rewrite <- Ef. apply int_of_fmt_d. exact Hn.
  - unfold make_int, strip.
    replace (repeat 32 j) with (repeat 32 j ++ []) by apply app_nil_r.
    rewrite lstrip_blanks. reflexivity.
Qed.

Lemma make_int_round_trip_witness :
  make_int (lit " 0042 ") = Ok 42 /\ make_int (lit "  ") = Ok 0.
Proof.
  destruct (make_int_round_trip 4 1 1 42) as [H1 _]; [lia|].
  destruct (make_int_round_trip 0 2 0 0) as [_ H2]; [lia|].
  split; [exact H1 | exact H2].
Defined.

(** ** The regular expressions of [strptime] on dates written out *)

Lemma In_upto (n : nat) (v : Z) : 0 <= v < Z.of_nat n -> In v (upto n).
Proof.
  intros H. unfold upto. replace v with (Z.of_nat (Z.to_nat v)) by lia.
  apply in_map. apply in_seq. lia.
Qed.

Lemma forall_upto (P : Z -> bool) (n : Z) :
  forallb P (upto (Z.to_nat n)) = true ->
  forall v, 0 <= v < n -> P v = true.
Proof.
  intros H v Hv. rewrite forallb_forall in H. apply H. apply In_upto.
  lia.
Qed.

Lemma match_groups_cons (a : alternative) (alts : list alternative)
  (gs : list (list alternative)) (s : str) :
  match_groups ((a :: alts) :: gs) s
  = match match_alt a s with
    | Some (t, r) =>
        match match_groups gs r with
        | Some (ts, r') => Some (t :: ts, r')
        | None => match_groups (alts :: gs) s
        end
    | None => match_groups (alts :: gs) s
    end.
Proof. reflexivity. Qed.

Lemma match_alt_fails_within (a : alternative) :
  forall s rest,
    match_alt a s = None -> (List.length a <= List.length s)%nat ->
    match_alt a (s ++ rest) = None.
Proof.
  induction a as [|k a IH]; intros s rest H L; [discriminate|].
  destruct s as [|c s]; [cbn in L; lia|].
  cbn [match_alt app] in *. destruct (cclass_match k c); [|reflexivity].
  destruct (match_alt a s) as [[t r]|] eqn:E; [discriminate|].
  rewrite (IH s rest E); [reflexivity | cbn in L; lia].
Qed.

Lemma match_alt_takes_all (a : alternative) :
  forall s t rest,
    match_alt a s = Some (t, []) ->
    match_alt a (s ++ rest) = Some (s, rest).
Proof.
  induction a as [|k a IH]; intros s t rest H.
  - cbn in H. injection H as Ht Hs. subst. reflexivity.
  - destruct s as [|c s]; [discriminate|].
    cbn [match_alt app] in *. destruct (cclass_match k c); [|discriminate].
    destruct (match_alt a s) as [[t' r']|] eqn:E; [|discriminate].
    injection H as Ht Hr. subst. rewrite (IH s t' rest E). reflexivity.
Qed.

Lemma takes_all_sound (alts : list alternative) (s : str) :
  takes_all alts s = true ->
  forall gs rest ts r',
    match_groups gs rest = Some (ts, r') ->
    match_groups (alts :: gs) (s ++ rest) = Some (s :: ts, r').
Proof.
  induction alts as [|a alts IH]; intros H gs rest ts r' G; [discriminate|].
  cbn [takes_all] in H. rewrite match_groups_cons.
  destruct (match_alt a s) as [[t r]|] eqn:E.
  - destruct r; [|discriminate].
    rewrite (match_alt_takes_all a s t rest E), G. reflexivity.
  - apply andb_prop in H. destruct H as [L H].
    apply Nat.leb_le in L.
    rewrite (match_alt_fails_within a s rest E L).
    apply IH; assumption.
Qed.

(** The groups of a format on the pieces of a string, each taken whole by
    its directive. *)
Lemma match_groups_pieces (ds : list directive) (ss : list str) :
  Forall2 (fun d s => takes_all (directive_re d) s = true) ds ss ->
  match_groups (map directive_re ds) (List.concat ss) = Some (ss, []).
Proof.
  induction 1 as [|d s ds ss H _ IH]; [reflexivity|].
  cbn [map List.concat]. apply takes_all_sound; assumption.
Qed.

Lemma group_int_fmt_d (w : nat) (n : Z) : 0 <= n -> group_int (fmt_d w n) = n.
Proof. intros H. unfold group_int. rewrite int_of_fmt_d by exact H. reflexivity. Qed.

(** ** The directives on numbers written with [fmt_d] *)

Lemma fmt_d_length (w : nat) (n : Z) :
  (1 <= w)%nat -> 0 <= n < 10 ^ Z.of_nat w -> List.length (fmt_d w n) = w.
Proof.
  intros Hw Hn. unfold fmt_d, zfill.
  rewrite length_app, repeat_length, length_map.
  destruct (digits_fuel_shape (S (Z.to_nat (Z.log2 n))) w n Hw Hn) as [L _].
  unfold digits. lia.
Qed.

Lemma isdecimal_ascii_digit (c : Z) : 48 <= c <= 57 -> isdecimal_char c = true.
Proof. intros H. digit_cases H; reflexivity. Qed.

Lemma year_taken (y : Z) :
  0 <= y <= 9999 -> takes_all (directive_re DY) (fmt_d 4 y) = true.
Proof.
  intros H.
  destruct (fmt_d_digits 4 y) as [ds [E [_ [F _]]]]; [lia|].
  pose proof (digits_ascii ds F) as A. rewrite <- E in A.
  pose proof (fmt_d_length 4 y) as L.
  destruct (fmt_d 4 y) as [|c1 [|c2 [|c3 [|c4 [|c5 s]]]]];
    try (cbn in L; lia).
  inversion A as [|? ? A1 B1]; subst. inversion B1 as [|? ? A2 B2]; subst.
  inversion B2 as [|? ? A3 B3]; subst. inversion B3 as [|? ? A4 _]; subst.
  cbn [directive_re takes_all match_alt cclass_match].
  rewrite !isdecimal_ascii_digit by assumption. reflexivity.
Qed.

Lemma julian_taken (j : Z) :
  1 <= j <= 366 -> takes_all (directive_re Dj) (fmt_d 3 j) = true.
Proof.
  intros H.
  pose proof (forall_upto
                (fun j => (j =? 0) || takes_all (directive_re Dj) (fmt_d 3 j))
                367 ltac:(vm_compute; reflexivity) j ltac:(lia)) as E.
  cbv beta in E.
  replace (j =? 0) with false in E by (symmetry; apply Z.eqb_neq; lia).
  exact E.
Qed.

Lemma month_taken (m : Z) :
  1 <= m <= 12 -> takes_all (directive_re Dm) (fmt_d 2 m) = true.
Proof.
  intros H.
  pose proof (forall_upto
                (fun j => (j =? 0) || takes_all (directive_re Dm) (fmt_d 2 j))
                13 ltac:(vm_compute; reflexivity) m ltac:(lia)) as E.
  cbv beta in E.
  replace (m =? 0) with false in E by (symmetry; apply Z.eqb_neq; lia).
  exact E.
Qed.

Lemma day_taken (d : Z) :
  1 <= d <= 31 -> takes_all (directive_re Dd) (fmt_d 2 d) = true.
Proof.
  intros H.
  pose proof (forall_upto
                (fun j => (j =? 0) || takes_all (directive_re Dd) (fmt_d 2 j))
                32 ltac:(vm_compute; reflexivity) d ltac:(lia)) as E.
  cbv beta in E.
  replace (d =? 0) with false in E by (symmetry; apply Z.eqb_neq; lia).
  exact E.
Qed.

Lemma hour_taken (h : Z) :
  0 <= h <= 23 -> takes_all (directive_re DH) (fmt_d 2 h) = true.
Proof.
  intros H.
  apply (forall_upto (fun h => takes_all (directive_re DH) (fmt_d 2 h)) 24);
    [vm_compute; reflexivity | lia].
Qed.

Lemma minute_taken (m : Z) :
  0 <= m <= 59 -> takes_all (directive_re DM) (fmt_d 2 m) = true.
Proof.
  intros H.
  apply (forall_upto (fun h => takes_all (directive_re DM) (fmt_d 2 h)) 60);
    [vm_compute; reflexivity | lia].
Qed.

Lemma second_taken (s : Z) :
  0 <= s <= 59 -> takes_all (directive_re DS) (fmt_d 2 s) = true.
Proof.
  intros H.
  apply (forall_upto (fun h => takes_all (directive_re DS) (fmt_d 2 h)) 60);
    [vm_compute; reflexivity | lia].
Qed.

(** ** The calendar *)

Lemma month_day_valid (y j m d : Z) :
  1 <= j <= days_in_year y ->
  month_day 11 y 1 j = (m, d) ->
  1 <= m <= 12 /\ 1 <= d <= days_in_month y m.
Proof.
  unfold days_in_year, month_day, days_in_month.
  destruct (is_leap y); cbn [Z.eqb Pos.eqb orb Z.add Pos.add Pos.succ];
    intros Hj Hmd;
    repeat match type of Hmd with
           | (if ?a <=? ?b then _ else _) = _ =>
               destruct (Z.leb_spec a b) as [?L|?L]
           end;
    injection Hmd as <- <-; cbn; lia.
Qed.

Lemma date_of_julian_valid (y j y' mo d : Z) :
  1 <= j <= 366 ->
  date_of_julian y j = Ok (y', mo, d) ->
  1 <= y' <= 9999 /\ 1 <= mo <= 12 /\ 1 <= d <= days_in_month y' mo.
Proof.
  intros Hj. unfold date_of_julian.
  destruct (Z.ltb_spec y 1) as [Y1|Y1]; [discriminate|].
  destruct (Z.ltb_spec 9999 y) as [Y2|Y2]; [discriminate|]. cbn [orb].
  destruct (Z.leb_spec j (days_in_year y)) as [L|L].
  - intros E0. destruct (month_day 11 y 1 j) as [m' d'] eqn:E.
    cbv zeta in E0. cbn [fst snd] in E0. injection E0 as <- <- <-.
    split; [lia|]. apply (month_day_valid y j); [lia | exact E].
  - destruct (Z.ltb_spec 9999 (y + 1)) as [Y3|Y3]; [discriminate|].
    intros E0.
    destruct (month_day 11 (y + 1) 1 (j - days_in_year y)) as [m' d'] eqn:E.
    cbv zeta in E0. cbn [fst snd] in E0. injection E0 as <- <- <-.
    split; [lia|].
    apply (month_day_valid (y + 1) (j - days_in_year y)); [|exact E].
    unfold days_in_year in *. destruct (is_leap y), (is_leap (y + 1)); lia.
Qed.

Lemma mk_datetime_valid (y mo d h mi s : Z) :
  1 <= y <= 9999 -> 1 <= mo <= 12 -> 1 <= d <= days_in_month y mo ->
  0 <= h <= 23 -> 0 <= mi <= 59 -> 0 <= s <= 59 ->
  mk_datetime y mo d h mi s 0 = Ok (at_time y mo d h mi s).
Proof.
  intros. unfold mk_datetime.
  repeat match goal with
         | |- context [?a <=? ?b] =>
             replace (a <=? b) with true by (symmetry; apply Z.leb_le; lia)
         end.
  reflexivity.
Qed.

(** ** Tape dates *)

Lemma slice_from_cons {A} (c : A) (s : list A) : slice_from (c :: s) 1 = s.
Proof.
  unfold slice_from, norm_idx. change (1 <? 0) with false. cbv iota.
  pose proof (len_nonneg s) as H.
  replace (len (c :: s)) with (1 + len s)
    by (unfold len; cbn [List.length]; lia).
  rewrite Z.min_l by lia. reflexivity.
Qed.

Lemma index_last {A} (s : list A) (x : A) : index (s ++ [x]) (-1) = Ok x.
Proof.
  unfold index. change (-1 <? 0) with true. cbv iota.
  pose proof (len_nonneg s) as H.
  replace (len (s ++ [x])) with (len s + 1)
    by (rewrite len_app; reflexivity).
  replace (-1 + (len s + 1)) with (len s) by lia.
  replace (len s <? 0) with false by (symmetry; apply Z.ltb_ge; exact H).
  unfold len. rewrite Nat2Z.id, nth_error_app2, Nat.sub_diag by lia.
  reflexivity.
Qed.

Lemma strptime_year_day (y j : Z) :
  0 <= y <= 9999 -> 1 <= j <= 366 ->
  strptime (fmt_d 4 y ++ fmt_d 3 j) [DY; Dj]
  = let* ymd := date_of_julian y j in
    let '(y', mo, d) := ymd in
    mk_datetime y' mo d 0 0 0 0.
Proof.
  intros Hy Hj. unfold strptime.
  replace (fmt_d 4 y ++ fmt_d 3 j)
    with (List.concat [fmt_d 4 y; fmt_d 3 j])
    by (cbn [List.concat]; rewrite app_nil_r; reflexivity).
  rewrite (match_groups_pieces [DY; Dj] [fmt_d 4 y; fmt_d 3 j])
    by (repeat constructor; [apply year_taken | apply julian_taken];
        assumption).
  cbn [set_fields set_field fields0 f_year f_month f_day f_hour f_minute
       f_second f_fraction f_julian].
  rewrite !group_int_fmt_d by lia. reflexivity.
Qed.

Lemma tape_year (c cen yy : Z) (rest : str) :
  tape_century c = Some cen -> 0 <= yy <= 99 ->
  (if c =? 32 then Ok (lit "19" ++ fmt_d 2 yy ++ rest)
   else let* n := int_of_str [c] in
        Ok (str_of_int (20 + n) ++ fmt_d 2 yy ++ rest))
  = Ok (fmt_d 4 (cen * 100 + yy) ++ rest)
  /\ 1900 <= cen * 100 + yy <= 2999.
Proof.
  unfold tape_century. intros Hc Hy.
  destruct (Z.eqb_spec c 32) as [->|N].
  - injection Hc as <-. split; [|lia]. rewrite app_assoc. do 2 f_equal.
    pose proof (forall_upto
                  (fun yy => str_eqb (lit "19" ++ fmt_d 2 yy)
                               (fmt_d 4 (19 * 100 + yy)))
                  100 ltac:(vm_compute; reflexivity) yy ltac:(lia)) as E.
    apply str_eqb_eq in E. exact E.
  - destruct ((48 <=? c) && (c <=? 57)) eqn:D; [|discriminate].
    assert (Ec : cen = 20 + (c - 48)) by congruence. subst cen. clear Hc.
    apply andb_prop in D. destruct D as [D1 D2].
    apply Z.leb_le in D1, D2. split; [|lia].
    set (k := c - 48). replace c with (48 + k) by (unfold k; lia).
    assert (Hk : 0 <= k < 10) by (unfold k; lia). clearbody k.
    pose proof (forall_upto
                  (fun k =>
                     match int_of_str [48 + k] with
                     | Ok n => n =? k
                     | _ => false
                     end)
                  10 ltac:(vm_compute; reflexivity) k Hk) as E1.
    cbv beta in E1. destruct (int_of_str [48 + k]) as [n| | |];
      try discriminate. apply Z.eqb_eq in E1. subst n. cbn [bind].
    rewrite app_assoc. do 2 f_equal.
    pose proof (forall_upto
                  (fun k =>
                     forallb
                       (fun yy => str_eqb (str_of_int (20 + k) ++ fmt_d 2 yy)
                                    (fmt_d 4 ((20 + k) * 100 + yy)))
                       (upto 100))
                  10 ltac:(vm_compute; reflexivity) k Hk) as E2.
    cbv beta in E2.
    pose proof (forall_upto _ 100 E2 yy ltac:(lia)) as E3.
    apply str_eqb_eq in E3. exact E3.
Qed.

Lemma tape_day_read (s : str) (j : Z) :
  0 <= j <= 366 ->
  (let td := s ++ fmt_d 3 j in
   let* l := index td (-1) in
   Ok (if l =? 48 then slice_to td (-1) ++ lit "1" else td))
  = Ok (s ++ fmt_d 3 (tape_day j))
  /\ 1 <= tape_day j <= 366.
Proof.
  intros Hj. cbv zeta.
  pose proof (forall_upto
                (fun j => str_eqb (fmt_d 3 j)
                            (fmt_d 2 (j / 10) ++ [48 + j mod 10])
                          && ((negb (j mod 10 =? 0))
                              || str_eqb (fmt_d 2 (j / 10) ++ lit "1")
                                   (fmt_d 3 (j + 1))))
                367 ltac:(vm_compute; reflexivity) j ltac:(lia)) as E.
  cbv beta in E. apply andb_prop in E. destruct E as [E4 E5].
  apply str_eqb_eq in E4. unfold tape_day.
  pose proof (Z.mod_pos_bound j 10 ltac:(lia)) as Hm.
  rewrite E4. rewrite app_assoc, index_last. cbn [bind].
  destruct (Z.eqb_spec (j mod 10) 0) as [Z0|Z0].
  - rewrite Z0. change (48 + 0 =? 48) with true. cbv iota.
    rewrite slice_to_snoc. cbn [negb orb] in E5. apply str_eqb_eq in E5.
    rewrite <- app_assoc, E5. split; [reflexivity|].
    pose proof (Z.div_mod j 10 ltac:(lia)). lia.
  - replace (48 + j mod 10 =? 48) with false
      by (symmetry; apply Z.eqb_neq; lia).
    rewrite <- app_assoc, <- E4. split; [reflexivity|].
    destruct (Z.eq_dec j 0) as [->|]; [cbn in Z0; lia | lia].
Qed.

(** X15: [get_tape_date] reads the six characters [cyyddd] of a tape
    label as the day [ddd] of the year [yy] of the century [c] (a blank
    for 19, a digit [k] for [20 + k]) and returns the ISO date of that
    day at midnight; a day number that ends in [0] is read with [1] in the
    place of the [0]. *)
Theorem get_tape_date_decodes (c cen yy j y mo d : Z) :
  tape_century c = Some cen -> 0 <= yy <= 99 -> 0 <= j <= 366 ->
  date_of_julian (cen * 100 + yy) (tape_day j) = Ok (y, mo, d) ->
  get_tape_date (c :: fmt_d 2 yy ++ fmt_d 3 j)
  = Ok (isoformat (at_time y mo d 0 0 0)).
Proof.
  intros Hc Hy Hj Hd. unfold get_tape_date.
  change (index (c :: fmt_d 2 yy ++ fmt_d 3 j) 0) with (@Ok Z c).
  cbn [bind]. rewrite slice_from_cons.
  destruct (tape_year c cen yy (fmt_d 3 j) Hc Hy) as [E R].
  rewrite E. cbn [bind].
  destruct (tape_day_read (fmt_d 4 (cen * 100 + yy)) j Hj) as [T Rj].
  cbv zeta in T.
  destruct (index (fmt_d 4 (cen * 100 + yy) ++ fmt_d 3 j) (-1)) as [l| | |];
    try discriminate.
  cbn [bind] in *. injection T as ->.
  rewrite strptime_year_day by lia. rewrite Hd. cbn [bind].
  destruct (date_of_julian_valid _ _ _ _ _ Rj Hd) as [V1 [V2 V3]].
  rewrite mk_datetime_valid by lia. reflexivity.
Qed.

Lemma get_tape_date_decodes_witness :
  get_tape_date (lit " 85032") = Ok (lit "1985-02-01T00:00:00.000000")
  /\ get_tape_date (lit "021010") = Ok (lit "2021-01-11T00:00:00.000000").
Proof.
  split.
  - apply (get_tape_date_decodes 32 19 85 32 1985 2 1);
      [reflexivity | lia | lia | reflexivity].
  - apply (get_tape_date_decodes 48 20 21 10 2021 1 11);
      [reflexivity | lia | lia | reflexivity].
Defined.

(** ** ISPF dates *)

Lemma bcd_read (n : Z) :
  0 <= n <= 99 -> fmt_02x (bv (bcd n)) = fmt_d 2 n.
Proof.
  intros H. unfold bcd, bcd_value.
  pose proof (Z.mod_pos_bound n 10 ltac:(lia)).
  assert (0 <= n / 10) by (apply Z.div_pos; lia).
  assert (n / 10 < 10) by (apply Z.div_lt_upper_bound; lia).
  rewrite bv_byte_of by lia.
  pose proof (forall_upto
                (fun n => str_eqb (fmt_02x (16 * (n / 10) + n mod 10))
                            (fmt_d 2 n))
                100 ltac:(vm_compute; reflexivity) n ltac:(lia)) as E.
  apply str_eqb_eq in E. exact E.
Qed.

Lemma bcd_seconds (s : Z) :
  0 <= s <= 59 ->
  (if negb (bcd_value s =? 0) then fmt_02x (bcd_value s) else lit "00")
  = fmt_d 2 s.
Proof.
  intros H.
  pose proof (forall_upto
                (fun s =>
                   str_eqb
                     (if negb (bcd_value s =? 0) then fmt_02x (bcd_value s)
                      else lit "00")
                     (fmt_d 2 s))
                60 ltac:(vm_compute; reflexivity) s ltac:(lia)) as E.
  apply str_eqb_eq in E. exact E.
Qed.

(** The third digit of the day is the first half of its byte. *)
Lemma half_byte_read (u sg : Z) :
  0 <= u <= 9 -> 0 <= sg <= 15 ->
  index (fmt_02x (bv (byte_of (16 * u + sg)))) 0 = Ok (48 + u).
Proof.
  intros Hu Hs. rewrite bv_byte_of by lia.
  pose proof (forall_upto
                (fun u =>
                   forallb
                     (fun sg =>
                        match index (fmt_02x (16 * u + sg)) 0 with
                        | Ok x => x =? 48 + u
                        | _ => false
                        end)
                     (upto 16))
                10 ltac:(vm_compute; reflexivity) u ltac:(lia)) as E.
  cbv beta in E.
  pose proof (forall_upto _ 16 E sg ltac:(lia)) as E'. cbv beta in E'.
  destruct (index (fmt_02x (16 * u + sg)) 0) as [x| | |]; try discriminate.
  apply Z.eqb_eq in E'. subst x. reflexivity.
Qed.

Lemma ispf_day (j : Z) :
  0 <= j <= 366 ->
  (if str_eqb (fmt_d 2 (j / 10) ++ [48 + j mod 10]) (lit "000")
   then lit "001"
   else fmt_d 2 (j / 10) ++ [48 + j mod 10])
  = fmt_d 3 (Z.max 1 j).
Proof.
  intros H.
  pose proof (forall_upto
                (fun j =>
                   str_eqb
                     (if str_eqb (fmt_d 2 (j / 10) ++ [48 + j mod 10])
                           (lit "000")
                      then lit "001"
                      else fmt_d 2 (j / 10) ++ [48 + j mod 10])
                     (fmt_d 3 (Z.max 1 j)))
                367 ltac:(vm_compute; reflexivity) j ltac:(lia)) as E.
  apply str_eqb_eq in E. exact E.
Qed.

Lemma ispf_year (c yy : Z) :
  0 <= c <= 80 -> 0 <= yy <= 99 ->
  str_of_int (19 + c) ++ fmt_d 2 yy = fmt_d 4 ((19 + c) * 100 + yy).
Proof.
  intros Hc Hy.
  pose proof (forall_upto
                (fun c =>
                   forallb
                     (fun yy => str_eqb (str_of_int (19 + c) ++ fmt_d 2 yy)
                                  (fmt_d 4 ((19 + c) * 100 + yy)))
                     (upto 100))
                81 ltac:(vm_compute; reflexivity) c ltac:(lia)) as E.
  cbv beta in E.
  pose proof (forall_upto _ 100 E yy ltac:(lia)) as E'.
  apply str_eqb_eq in E'. exact E'.
Qed.

Lemma strptime_stamp (y j h mi s : Z) :
  0 <= y <= 9999 -> 1 <= j <= 366 ->
  0 <= h <= 23 -> 0 <= mi <= 59 -> 0 <= s <= 59 ->
  strptime (fmt_d 4 y ++ fmt_d 3 j ++ fmt_d 2 h ++ fmt_d 2 mi ++ fmt_d 2 s)
    [DY; Dj; DH; DM; DS]
  = let* ymd := date_of_julian y j in
    let '(y', mo, d) := ymd in
    mk_datetime y' mo d h mi s 0.
Proof.
  intros Hy Hj Hh Hm Hs. unfold strptime.
  replace (fmt_d 4 y ++ fmt_d 3 j ++ fmt_d 2 h ++ fmt_d 2 mi ++ fmt_d 2 s)
    with (List.concat [fmt_d 4 y; fmt_d 3 j; fmt_d 2 h; fmt_d 2 mi;
                       fmt_d 2 s])
    by (cbn [List.concat]; rewrite app_nil_r; reflexivity).
  rewrite (match_groups_pieces [DY; Dj; DH; DM; DS]
             [fmt_d 4 y; fmt_d 3 j; fmt_d 2 h; fmt_d 2 mi; fmt_d 2 s])
    by (repeat constructor;
        [apply year_taken | apply julian_taken | apply hour_taken
        | apply minute_taken | apply second_taken]; assumption).
  cbn [set_fields set_field fields0 f_year f_month f_day f_hour f_minute
       f_second f_fraction f_julian].
  rewrite !group_int_fmt_d by lia. reflexivity.
Qed.

(** X16: [ispf_date] reads a packed-decimal ISPF date: the century byte
    counts from 19, the year and the first two digits of the day are two
    decimal digits in a byte each, the third digit of the day is the first
    half of the fourth byte, hours, minutes and seconds are two decimal
    digits in a byte each.  It returns the ISO date and time of that day
    of the year, day [000] being read as day [001]; a field of four bytes
    is the date at midnight. *)
Theorem ispf_date_decodes (c yy j sg h mi s y mo d : Z) :
  0 <= c <= 80 -> 0 <= yy <= 99 -> 0 <= j <= 366 -> 0 <= sg <= 15 ->
  0 <= h <= 23 -> 0 <= mi <= 59 -> 0 <= s <= 59 ->
  date_of_julian ((19 + c) * 100 + yy) (Z.max 1 j) = Ok (y, mo, d) ->
  ispf_date [byte_of c; bcd yy; bcd (j / 10);
             byte_of (16 * (j mod 10) + sg); bcd h; bcd mi] (bcd_value s)
  = Ok (isoformat (at_time y mo d h mi s))
  /\ ispf_date [byte_of c; bcd yy; bcd (j / 10);
                byte_of (16 * (j mod 10) + sg)] 0
     = Ok (isoformat (at_time y mo d 0 0 0)).
Proof.
  intros Hc Hy Hj Hsg Hh Hm Hs Hd.
  pose proof (Z.mod_pos_bound j 10 ltac:(lia)) as Hj1.
  assert (Hj2 : 0 <= j / 10 <= 99).
  { split; [apply Z.div_pos; lia|]. apply Z.div_le_upper_bound; lia. }
  assert (Rj : 1 <= Z.max 1 j <= 366) by lia.
  destruct (date_of_julian_valid _ _ _ _ _ Rj Hd) as [V1 [V2 V3]].
  assert (D : forall hh mm ss,
            0 <= hh <= 23 -> 0 <= mm <= 59 -> 0 <= ss <= 59 ->
            match
              strptime
                (str_of_int (19 + bv (byte_of c)) ++ fmt_02x (bv (bcd yy))
                 ++ (let day := fmt_02x (bv (bcd (j / 10))) ++ [48 + j mod 10]
                     in if str_eqb day (lit "000") then lit "001" else day)
                 ++ fmt_d 2 hh ++ fmt_d 2 mm ++ fmt_d 2 ss)
                [DY; Dj; DH; DM; DS]
            with
            | Ok dt => Ok (isoformat dt)
            | _ => Ok []
            end = Ok (isoformat (at_time y mo d hh mm ss))).
  { intros hh mm ss Hhh Hmm Hss.
    cbv zeta. rewrite bv_byte_of by lia. rewrite !bcd_read by lia.
    pose proof (ispf_day j Hj) as Ed. unfold str in Ed |- *. rewrite Ed.
    rewrite app_assoc, ispf_year by lia.
    rewrite strptime_stamp by lia. rewrite Hd. cbn [bind].
    rewrite mk_datetime_valid by lia. reflexivity. }
  split.
  - unfold ispf_date.
    change (index [byte_of c; bcd yy; bcd (j / 10);
                   byte_of (16 * (j mod 10) + sg); bcd h; bcd mi] 0)
      with (Ok (byte_of c)).
    change (index [byte_of c; bcd yy; bcd (j / 10);
                   byte_of (16 * (j mod 10) + sg); bcd h; bcd mi] 1)
      with (Ok (bcd yy)).
    change (index [byte_of c; bcd yy; bcd (j / 10);
                   byte_of (16 * (j mod 10) + sg); bcd h; bcd mi] 2)
      with (Ok (bcd (j / 10))).
    change (index [byte_of c; bcd yy; bcd (j / 10);
                   byte_of (16 * (j mod 10) + sg); bcd h; bcd mi] 3)
      with (Ok (byte_of (16 * (j mod 10) + sg))).
    change (index [byte_of c; bcd yy; bcd (j / 10);
                   byte_of (16 * (j mod 10) + sg); bcd h; bcd mi] 4)
      with (Ok (bcd h)).
    change (index [byte_of c; bcd yy; bcd (j / 10);
                   byte_of (16 * (j mod 10) + sg); bcd h; bcd mi] 5)
      with (Ok (bcd mi)).
    change (4 <? len [byte_of c; bcd yy; bcd (j / 10);
                      byte_of (16 * (j mod 10) + sg); bcd h; bcd mi])
      with true.
    cbn [bind]. rewrite half_byte_read by lia. cbn [bind].
    rewrite (bcd_read h), (bcd_read mi) by lia.
    rewrite (bcd_seconds s Hs).
    apply (D h mi s); assumption.
  - unfold ispf_date.
    change (index [byte_of c; bcd yy; bcd (j / 10);
                   byte_of (16 * (j mod 10) + sg)] 0)
      with (Ok (byte_of c)).
    change (index [byte_of c; bcd yy; bcd (j / 10);
                   byte_of (16 * (j mod 10) + sg)] 1)
      with (Ok (bcd yy)).
    change (index [byte_of c; bcd yy; bcd (j / 10);
                   byte_of (16 * (j mod 10) + sg)] 2)
      with (Ok (bcd (j / 10))).
    change (index [byte_of c; bcd yy; bcd (j / 10);
                   byte_of (16 * (j mod 10) + sg)] 3)
      with (Ok (byte_of (16 * (j mod 10) + sg))).
    change (4 <? len [byte_of c; bcd yy; bcd (j / 10);
                      byte_of (16 * (j mod 10) + sg)])
      with false.
    cbn [bind]. rewrite half_byte_read by lia. cbn [bind].
    change (negb (0 =? 0)) with false. cbv iota.
    apply (D 0 0 0); lia.
Qed.

Lemma ispf_date_decodes_witness :
  ispf_date [x01; x23; x01; x5f; x14; x30] 0x45
  = Ok (lit "2023-01-15T14:30:45.000000")
  /\ ispf_date [x00; x87; x12; x3f] 0
     = Ok (lit "1987-05-03T00:00:00.000000").
Proof.
  split.
  - apply (ispf_date_decodes 1 23 15 15 14 30 45 2023 1 15);
      try lia; reflexivity.
  - apply (ispf_date_decodes 0 87 123 15 0 0 0 1987 5 3);
      try lia; reflexivity.
Defined.

(** ** The time stamp of INMR01, field by field *)

Lemma strptime_full (y mo d h mi s : Z) :
  1 <= y <= 9999 -> 1 <= mo <= 12 -> 1 <= d <= days_in_month y mo ->
  0 <= h <= 23 -> 0 <= mi <= 59 -> 0 <= s <= 59 ->
  strptime
    (fmt_d 4 y ++ fmt_d 2 mo ++ fmt_d 2 d ++ fmt_d 2 h ++ fmt_d 2 mi
     ++ fmt_d 2 s ++ repeat 48 6)
    [DY; Dm; Dd; DH; DM; DS; Df]
  = Ok (at_time y mo d h mi s).
Proof.
  intros Hy Hmo Hd Hh Hmi Hs. unfold strptime.
  pose proof (days_in_month_le y mo) as Hle.
  replace (fmt_d 4 y ++ fmt_d 2 mo ++ fmt_d 2 d ++ fmt_d 2 h ++ fmt_d 2 mi
           ++ fmt_d 2 s ++ repeat 48 6)
    with (List.concat [fmt_d 4 y; fmt_d 2 mo; fmt_d 2 d; fmt_d 2 h;
                       fmt_d 2 mi; fmt_d 2 s; repeat 48 6])
    by (cbn [List.concat]; rewrite app_nil_r; reflexivity).
  rewrite (match_groups_pieces [DY; Dm; Dd; DH; DM; DS; Df]
             [fmt_d 4 y; fmt_d 2 mo; fmt_d 2 d; fmt_d 2 h; fmt_d 2 mi;
              fmt_d 2 s; repeat 48 6])
    by (repeat constructor;
        [apply year_taken | apply month_taken | apply day_taken
        | apply hour_taken | apply minute_taken | apply second_taken];
        lia).
  cbn [set_fields set_field fields0 f_year f_month f_day f_hour f_minute
       f_second f_fraction f_julian].
  rewrite !group_int_fmt_d by lia.
  change (group_int (repeat 48 6 ++ repeat 48 (6 - List.length (repeat 48 6))))
    with 0.
  replace ((1 <=? y) && (y <=? 9999) && (1 <=? d)
           && (d <=? days_in_month y mo)) with true
    by (symmetry; repeat (apply andb_true_intro; split); apply Z.leb_le; lia).
  cbn [bind]. apply mk_datetime_valid; lia.
Qed.

(** X17: an [INMFTIME] of fourteen digits, year, month, day, hours,
    minutes and seconds, is stored by [parse_INMR01] as the ISO date and
    time of these very fields, with no microseconds; the rest of the
    dictionary is what [text_units] made of the record. *)
Theorem INMR01_time_decodes (cfg : config) (o : xmit_obj)
  (inmr01_record : bytes) (t : tudict) (m : bool) (y mo d h mi s : Z) :
  text_units cfg (msg o) inmr01_record = Ok (t, m) ->
  dget String.eqb t "INMFTIME"%string
  = Some (VStr (fmt_d 4 y ++ fmt_d 2 mo ++ fmt_d 2 d ++ fmt_d 2 h
                ++ fmt_d 2 mi ++ fmt_d 2 s)) ->
  1 <= y <= 9999 -> 1 <= mo <= 12 -> 1 <= d <= days_in_month y mo ->
  0 <= h <= 23 -> 0 <= mi <= 59 -> 0 <= s <= 59 ->
  exists o',
    parse_INMR01 cfg o inmr01_record = Ok o'
    /\ x_INMR01 (xmit o')
       = Some (dset String.eqb t "INMFTIME"%string
                 (VStr (isoformat (at_time y mo d h mi s))))
    /\ msg o' = m.
Proof.
  intros Ht Hg Hy Hmo Hd Hh Hmi Hs.
  pose proof (days_in_month_le y mo) as Hle.
  unfold parse_INMR01. rewrite Ht. cbn [bind]. rewrite Hg. cbn [bind].
  assert (L : List.length (fmt_d 4 y ++ fmt_d 2 mo ++ fmt_d 2 d ++ fmt_d 2 h
                           ++ fmt_d 2 mi ++ fmt_d 2 s) = 14%nat).
  { rewrite !length_app.
    rewrite (fmt_d_length 4 y), (fmt_d_length 2 mo), (fmt_d_length 2 d),
      (fmt_d_length 2 h), (fmt_d_length 2 mi), (fmt_d_length 2 s);
      try reflexivity; try (cbn; lia). }
  rewrite L. change (20 - 14)%nat with 6%nat.
  rewrite <- !app_assoc.
  rewrite strptime_full by assumption. cbn [bind].
  eexists. split; [reflexivity|]. split; reflexivity.
Qed.

Lemma INMR01_time_decodes_witness :
  exists o' t,
    parse_INMR01 default_config new_XMIT inmr01_units = Ok o'
    /\ x_INMR01 (xmit o') = Some t
    /\ dget String.eqb t "INMFTIME"%string
       = Some (VStr (lit "2023-01-15T12:30:45.000000")).
Proof.
  destruct (INMR01_time_decodes default_config new_XMIT inmr01_units
              [("INMFTIME"%string, VStr (lit "20230115123045"))] false
              2023 1 15 12 30 45)
    as [o' [P [X _]]]; try lia; try reflexivity.
  - change (days_in_month 2023 1) with 31. lia.
  - exists o'. eexists. split; [exact P|]. split; [exact X|]. reflexivity.
Defined.

(** * The directory, written and read back *)

Lemma slice_mid {A} (pre e post : list A) (a b : Z) :
  0 <= a -> 0 <= b -> b <= len e ->
  slice (pre ++ e ++ post) (len pre + a) (len pre + b) = slice e a b.
Proof.
  intros Ha Hb Hl. rewrite slice_app_r by lia. apply slice_app_l; lia.
Qed.

Lemma index_mid {A} (pre e post : list A) (i : Z) :
  0 <= i < len e -> index (pre ++ e ++ post) (len pre + i) = index e i.
Proof.
  intros H. pose proof (len_nonneg pre) as Hp.
  assert (N1 : (len pre + i <? 0) = false) by lia.
  assert (N2 : (i <? 0) = false) by lia.
  unfold index. cbv zeta. rewrite N1, N2. cbv iota. rewrite N1, N2.
  unfold len in *.
  rewrite nth_error_app2 by lia. rewrite nth_error_app1 by lia.
  replace (Z.to_nat (Z.of_nat (List.length pre) + i) - List.length pre)%nat
    with (Z.to_nat i) by lia.
  reflexivity.
Qed.

(** An entry is read from its own bytes, wherever it lies in the member
    area. *)
Lemma member_entry_local (cfg : config) (pre e post : bytes) (f : byte) :
  index e 11 = Ok f -> len e = 12 + Z.land (bv f) 0x1F * 2 ->
  member_entry cfg (pre ++ e ++ post) (len pre) = member_entry cfg e 0.
Proof.
  intros Hf Hl.
  assert (H0 : 0 <= Z.land (bv f) 31)
    by (apply Z.land_nonneg; right; lia).
  unfold member_entry.
  rewrite (index_mid pre e post 11) by lia.
  rewrite !Z.add_0_l. rewrite Hf. cbn [bind].
  rewrite (slice_mid pre e post 8 11) by lia.
  replace (len pre + 12 + Z.land (bv f) 31 * 2)
    with (len pre + (12 + Z.land (bv f) 31 * 2)) by lia.
  rewrite (slice_mid pre e post 12 (12 + Z.land (bv f) 31 * 2)) by lia.
  reflexivity.
Qed.

Lemma member_entry_halfwords (cfg : config) (info : bytes) (loc : Z)
  (f : byte) (m : member) :
  index info (loc + 11) = Ok f -> member_entry cfg info loc = Ok m ->
  match entry m with Some e => halfwords e | None => 0 end
  = Z.land (bv f) 0x1F * 2.
Proof.
  unfold member_entry. intros Hf H. rewrite Hf in H. cbn [bind] in H.
  inv_bind H. injection H as <-. reflexivity.
Qed.

Lemma entry_len (e : bytes) : entry_sized e -> 12 <= len e.
Proof.
  intros [f [_ [Hl _]]].
  assert (H0 : 0 <= Z.land (bv f) 31)
    by (apply Z.land_nonneg; right; lia).
  lia.
Qed.

Lemma entries_count (es : list bytes) :
  Forall entry_sized es -> 12 * Z.of_nat (List.length es) <= len (List.concat es).
Proof.
  induction 1 as [|e es He _ IH]; [cbn; unfold len; simpl; lia|].
  cbn [List.concat List.length]. rewrite len_app.
  pose proof (entry_len e He). lia.
Qed.

Lemma read_entries_app (cfg : config) (es1 es2 : list bytes) :
  forall members,
    read_entries cfg (es1 ++ es2) members
    = let* ms := read_entries cfg es1 members in read_entries cfg es2 ms.
Proof.
  induction es1 as [|e es1 IH]; intros members; [reflexivity|].
  cbn [app read_entries].
  destruct (member_entry cfg e 0); cbn [bind]; auto.
Qed.

Lemma read_entries_total (cfg : config) (es : list bytes) :
  Forall entry_sized es ->
  forall members, exists ms, read_entries cfg es members = Ok ms.
Proof.
  induction 1 as [|e es [f [Hf _]] _ IH]; intros members; [simpl; eauto|].
  cbn [read_entries].
  destruct (member_entry_total cfg e 0 f Hf) as [m ->]. cbn [bind].
  apply IH.
Qed.

(** The inner loop over the entries of a member area. *)
Lemma entries_walk (cfg : config) (directory info : bytes) (dl : Z)
  (es : list bytes) :
  forall pre post fuel members,
    info = pre ++ List.concat es ++ post ->
    Forall entry_sized es ->
    len pre + len (List.concat es) <= dl ->
    directory_block (List.length es + fuel) cfg directory info dl (len pre)
      members
    = let* ms := read_entries cfg es members in
      directory_block fuel cfg directory info dl
        (len pre + len (List.concat es)) ms.
Proof.
  induction es as [|e es IH]; intros pre post fuel members Hi Hs Hd.
  - cbn [List.concat read_entries bind List.length plus].
    change (len (@nil byte)) with 0. rewrite Z.add_0_r. reflexivity.
  - apply Forall_cons_iff in Hs. destruct Hs as [He Hs].
    pose proof (entry_len e He) as H12.
    destruct He as [f [Hf [Hl Hn]]].
    cbn [List.concat] in Hi, Hd |- *. rewrite len_app in Hd.
    rewrite <- app_assoc in Hi.
    assert (Hname : slice info (len pre) (len pre + 8) = slice e 0 8).
    { rewrite Hi. rewrite <- (slice_mid pre e (List.concat es ++ post) 0 8) by lia.
      rewrite Z.add_0_r. reflexivity. }
    assert (Hent : member_entry cfg info (len pre) = member_entry cfg e 0).
    { rewrite Hi. apply (member_entry_local cfg pre e _ f Hf Hl). }
    cbn [List.length plus directory_block read_entries].
    pose proof (len_nonneg (List.concat es)) as Hc.
    assert (L : (len pre <? dl) = true) by lia. rewrite L.
    rewrite Hname, Hent.
    assert (B : bytes_eqb (slice e 0 8) (repeat_byte xff 8) = false).
    { unfold bytes_eqb. destruct (list_eq_dec _ _ _); [contradiction|].
      reflexivity. }
    rewrite B.
    destruct (member_entry cfg e 0) as [m| | |] eqn:E; cbn [bind];
      try reflexivity.
    rewrite (member_entry_halfwords cfg e 0 f m Hf E).
    replace (len pre + 8 + 3 + 1 + Z.land (bv f) 31 * 2)
      with (len (pre ++ e)) by (rewrite len_app; lia).
    rewrite (IH (pre ++ e) post fuel); [| | exact Hs |].
    + rewrite !len_app, Z.add_assoc. reflexivity.
    + rewrite Hi, <- !app_assoc. reflexivity.
    + rewrite len_app. lia.
Qed.

Lemma directory_block_done (cfg : config) (directory info : bytes)
  (dl loc : Z) (fuel : nat) (members : members_dict) :
  dl <= loc ->
  directory_block fuel cfg directory info dl loc members = Ok (members, loc).
Proof.
  intros H. assert (L : (loc <? dl) = false) by lia.
  destruct fuel; cbn [directory_block]; rewrite L; reflexivity.
Qed.

Lemma directory_blocks_done (cfg : config) (directory : bytes)
  (block_loc : Z) (fuel : nat) (members : members_dict) :
  len directory <= block_loc ->
  directory_blocks fuel cfg directory block_loc members = Ok members.
Proof.
  intros H. assert (L : (block_loc <? len directory) = false) by lia.
  destruct fuel; cbn [directory_blocks]; rewrite L; reflexivity.
Qed.

Lemma end_mark_stops (cfg : config) (directory info pre post : bytes)
  (dl : Z) (fuel : nat) (members : members_dict) :
  info = pre ++ repeat_byte xff 8 ++ post -> len pre < dl ->
  directory_block (S fuel) cfg directory info dl (len pre) members
  = Ok (members, len directory).
Proof.
  intros Hi Hd. cbn [directory_block].
  assert (L : (len pre <? dl) = true) by lia. rewrite L.
  replace (slice info (len pre) (len pre + 8)) with (repeat_byte xff 8)
    by (symmetry; eapply slice_at; [exact Hi | reflexivity | reflexivity]).
  unfold bytes_eqb. destruct (list_eq_dec _ _ _); [reflexivity|].
  contradiction.
Qed.

(** The halfword of the bytes in use and the member area of a block. *)
Lemma block_area (tr pre hdr body post : bytes) :
  tr = pre ++ (hdr ++ be16 (len body + 2) ++ body) ++ post ->
  len hdr = 20 -> len body + 2 < 65536 ->
  get_int (slice tr (len pre + 20) (len pre + 22)) - 2 = len body
  /\ slice tr (len pre + 22) (len pre + 22 + len body) = body.
Proof.
  intros Ht Hh Hb. pose proof (len_nonneg body) as Hn. split.
  - rewrite (slice_at tr (pre ++ hdr) (be16 (len body + 2)) (body ++ post)).
    + rewrite get_int_be16 by lia. lia.
    + rewrite Ht, <- !app_assoc. reflexivity.
    + rewrite len_app. lia.
    + rewrite len_be16. lia.
  - apply (slice_at tr (pre ++ hdr ++ be16 (len body + 2)) body post).
    + rewrite Ht, <- !app_assoc. reflexivity.
    + rewrite !len_app, len_be16. lia.
    + reflexivity.
Qed.

Lemma len_dir_block (b : bytes * list bytes * bytes) :
  block_sized b -> len (dir_block b) = 276.
Proof.
  destruct b as [[hdr es] pad]. intros [Hh [_ Hp]].
  unfold dir_block. rewrite !len_app, len_be16. lia.
Qed.

Lemma len_dir_blocks (bs : list (bytes * list bytes * bytes)) :
  Forall block_sized bs ->
  len (List.concat (map dir_block bs)) = 276 * Z.of_nat (List.length bs).
Proof.
  induction 1 as [|b bs Hb _ IH]; [reflexivity|].
  cbn [map List.concat List.length]. rewrite len_app, (len_dir_block b Hb). lia.
Qed.

Lemma block_fits (hdr : bytes) (es : list bytes) (pad : bytes) :
  block_sized (hdr, es, pad) -> 0 <= len (List.concat es) <= 254.
Proof.
  intros [_ [_ Hp]]. pose proof (len_nonneg pad).
  pose proof (len_nonneg (List.concat es)). lia.
Qed.

(** The place of the next block after one whose entries take [dl] bytes. *)
Lemma next_block (k dl : Z) :
  0 <= dl <= 252 ->
  (if 0 <? (276 * k + dl + 24) mod 276
   then 276 * ((276 * k + dl + 24) / 276) + 276
   else 276 * k + dl + 24) = 276 * k + 276.
Proof.
  intros H.
  replace (276 * k + dl + 24) with ((dl + 24) + k * 276) by lia.
  rewrite Z_mod_plus_full, Z_div_plus_full by lia.
  destruct (Z.eq_dec dl 252) as [->|N].
  - change ((252 + 24) mod 276) with 0. cbn [Z.ltb Z.compare]. lia.
  - rewrite Z.mod_small, Z.div_small by lia.
    assert (L : (0 <? dl + 24) = true) by lia. rewrite L. lia.
Qed.

Lemma round_up_ge (b : Z) :
  b <= (if 0 <? b mod 276 then 276 * (b / 276) + 276 else b).
Proof.
  pose proof (Z.div_mod b 276 ltac:(lia)).
  pose proof (Z.mod_pos_bound b 276 ltac:(lia)).
  destruct (0 <? b mod 276); lia.
Qed.

(** One block that is not the last. *)
Lemma block_read (cfg : config) (directory pre : bytes)
  (b : bytes * list bytes * bytes) (post : bytes) (k : Z) (fuel : nat)
  (members : members_dict) :
  directory = pre ++ dir_block b ++ post ->
  block_sized b -> len (List.concat (block_entries b)) <= 252 ->
  len pre = 276 * k ->
  directory_blocks (S fuel) cfg directory (len pre) members
  = let* ms := read_entries cfg (block_entries b) members in
    directory_blocks fuel cfg directory (len pre + 276) ms.
Proof.
  intros Hd Hb H252 Hk.
  pose proof (len_dir_block b Hb) as H276.
  destruct b as [[hdr es] pad]. cbn [block_entries fst snd] in *.
  pose proof (block_fits hdr es pad Hb) as Hfit.
  destruct Hb as [Hh [Hs Hp]].
  destruct (block_area directory pre hdr (List.concat es) (pad ++ post))
    as [A1 A2]; [|exact Hh|lia|].
  { rewrite Hd. unfold dir_block. rewrite <- !app_assoc. reflexivity. }
  cbn [directory_blocks]. cbv zeta.
  assert (L : (len pre <? len directory) = true).
  { rewrite Hd, !len_app, H276. pose proof (len_nonneg post). lia. }
  rewrite L, A1, A2.
  pose proof (entries_count es Hs) as Hc.
  replace (Z.to_nat (len (List.concat es)))
    with (List.length es + (Z.to_nat (len (List.concat es)) - List.length es))%nat
    by lia.
  pose proof (entries_walk cfg directory (List.concat es) (len (List.concat es)) es
                [] [] (Z.to_nat (len (List.concat es)) - List.length es) members)
    as W.
  change (len (@nil byte)) with 0 in W. rewrite Z.add_0_l in W.
  rewrite W; [|rewrite app_nil_r; reflexivity|exact Hs|lia].
  destruct (read_entries cfg es members) as [ms| | |]; cbn [bind];
    try reflexivity.
  rewrite directory_block_done by lia. cbn [bind].
  rewrite Hk, next_block by lia. reflexivity.
Qed.

(** The blocks before the last one. *)
Lemma blocks_walk (cfg : config) (directory : bytes)
  (bs : list (bytes * list bytes * bytes)) :
  forall pre post k fuel members,
    directory = pre ++ List.concat (map dir_block bs) ++ post ->
    Forall block_sized bs ->
    Forall (fun b => len (List.concat (block_entries b)) <= 252) bs ->
    len pre = 276 * k ->
    directory_blocks (List.length bs + fuel) cfg directory (len pre) members
    = let* ms := read_entries cfg (List.concat (map block_entries bs)) members in
      directory_blocks fuel cfg directory
        (len pre + len (List.concat (map dir_block bs))) ms.
Proof.
  induction bs as [|b bs IH]; intros pre post k fuel members Hd Hs H252 Hk.
  - cbn [map List.concat read_entries bind List.length plus].
    change (len (@nil byte)) with 0. rewrite Z.add_0_r. reflexivity.
  - apply Forall_cons_iff in Hs. destruct Hs as [Hb Hs].
    apply Forall_cons_iff in H252. destruct H252 as [Hb2 H252].
    cbn [map List.concat List.length plus] in Hd |- *.
    rewrite <- app_assoc in Hd.
    rewrite (block_read cfg directory pre b _ k _ members Hd Hb Hb2 Hk).
    rewrite read_entries_app.
    destruct (read_entries cfg (block_entries b) members) as [ms| | |];
      cbn [bind]; try reflexivity.
    pose proof (len_dir_block b Hb) as H276.
    replace (len pre + 276) with (len (pre ++ dir_block b))
      by (rewrite len_app; lia).
    rewrite (IH (pre ++ dir_block b) post (k + 1) fuel ms);
      [| |exact Hs|exact H252|].
    + rewrite !len_app, Z.add_assoc. reflexivity.
    + rewrite Hd, <- !app_assoc. reflexivity.
    + rewrite len_app. lia.
Qed.

(** The block with the end mark. *)
Lemma end_block_read (cfg : config) (directory pre hdr : bytes)
  (es : list bytes) (tail rest : bytes) (fuel : nat)
  (members : members_dict) :
  directory = pre ++ end_block hdr es tail ++ rest ->
  len hdr = 20 -> Forall entry_sized es ->
  len (List.concat es) + len tail <= 65525 ->
  directory_blocks (S fuel) cfg directory (len pre) members
  = read_entries cfg es members.
Proof.
  intros Hd Hh Hs Hb.
  set (body := List.concat es ++ repeat_byte xff 8 ++ tail).
  assert (Hlb : len body = len (List.concat es) + 8 + len tail).
  { unfold body. rewrite !len_app. change (len (repeat_byte xff 8)) with 8.
    lia. }
  pose proof (len_nonneg tail) as Ht. pose proof (len_nonneg rest) as Hr.
  pose proof (len_nonneg pre) as Hpre.
  pose proof (entries_count es Hs) as Hc.
  destruct (block_area directory pre hdr body rest) as [A1 A2];
    [exact Hd|exact Hh|lia|].
  cbn [directory_blocks]. cbv zeta.
  assert (L : (len pre <? len directory) = true).
  { rewrite Hd. unfold end_block. cbv zeta. fold body.
    rewrite !len_app, len_be16. lia. }
  rewrite L, A1, A2.
  replace (Z.to_nat (len body))
    with (List.length es + S (Z.to_nat (len body) - List.length es - 1))%nat
    by lia.
  pose proof (entries_walk cfg directory body (len body) es
                [] (repeat_byte xff 8 ++ tail)
                (S (Z.to_nat (len body) - List.length es - 1)) members)
    as W.
  change (len (@nil byte)) with 0 in W. rewrite Z.add_0_l in W.
  rewrite W; [|reflexivity|exact Hs|lia].
  destruct (read_entries cfg es members) as [ms| | |]; cbn [bind];
    try reflexivity.
  rewrite (end_mark_stops cfg directory body (List.concat es) tail);
    [|reflexivity|lia].
  cbn [bind].
  apply directory_blocks_done.
  pose proof (round_up_ge (len pre + len directory + 24)). lia.
Qed.

(** X18: a directory written as blocks of 276 bytes, each with at most 252
    bytes of entries, then a block whose entries are followed by the end
    mark, is read back as its entries: [get_members_info] returns the
    members that reading the entries one by one, each from its own bytes,
    stores in turn; what follows the end mark is not read. *)
Theorem directory_read_back (cfg : config)
  (bs : list (bytes * list bytes * bytes)) (hdr : bytes) (es : list bytes)
  (tail rest : bytes) :
  Forall block_sized bs ->
  Forall (fun b => len (List.concat (block_entries b)) <= 252) bs ->
  len hdr = 20 -> Forall entry_sized es ->
  len (List.concat es) + len tail <= 65525 ->
  exists members,
    get_members_info cfg
      (List.concat (map dir_block bs) ++ end_block hdr es tail ++ rest)
    = Ok members
    /\ read_entries cfg (List.concat (map block_entries bs) ++ es) [] = Ok members.
Proof.
  intros Hbs H252 Hh Hs Hb.
  assert (Hall : Forall entry_sized (List.concat (map block_entries bs) ++ es)).
  { apply Forall_app. split; [|exact Hs].
    apply Forall_concat. apply Forall_map.
    eapply Forall_impl; [|exact Hbs].
    intros [[h e] p] [_ [He _]]. exact He. }
  destruct (read_entries_total cfg _ Hall []) as [members Hm].
  exists members. split; [|exact Hm].
  rewrite <- Hm. unfold get_members_info.
  set (directory := List.concat (map dir_block bs) ++ end_block hdr es tail ++ rest).
  pose proof (len_dir_blocks bs Hbs) as Hlen.
  assert (Hdl : len directory
                = 276 * Z.of_nat (List.length bs)
                  + len (end_block hdr es tail) + len rest).
  { unfold directory. rewrite !len_app. lia. }
  assert (He : 22 <= len (end_block hdr es tail)).
  { unfold end_block. cbv zeta. rewrite !len_app, len_be16.
    pose proof (len_nonneg (List.concat es)). pose proof (len_nonneg tail).
    change (len (repeat_byte xff 8)) with 8. lia. }
  pose proof (len_nonneg rest) as Hr.
  replace (List.length directory)
    with (List.length bs + S (List.length directory - List.length bs - 1))%nat
    by (unfold len in Hdl, He, Hr; lia).
  pose proof (blocks_walk cfg directory bs [] (end_block hdr es tail ++ rest)
                0 (S (List.length directory - List.length bs - 1)) [])
    as W.
  change (len (@nil byte)) with 0 in W. rewrite Z.add_0_l in W.
  rewrite W; [|reflexivity|exact Hbs|exact H252|reflexivity].
  rewrite read_entries_app.
  destruct (read_entries cfg (List.concat (map block_entries bs)) [])
    as [ms| | |]; cbn [bind]; try reflexivity.
  apply (end_block_read cfg directory (List.concat (map dir_block bs)) hdr es
           tail rest); auto.
Qed.

Lemma directory_read_back_witness :
  exists members,
    get_members_info default_config
      (List.concat (map dir_block [block_AB])
       ++ end_block block_header [entry_plain name_C] [x00; x00; x00; x00]
       ++ [x01; x02])
    = Ok members
    /\ read_entries default_config
         (List.concat (map block_entries [block_AB]) ++ [entry_plain name_C])
         []
       = Ok members.
Proof.
  apply (directory_read_back default_config [block_AB] block_header
           [entry_plain name_C] [x00; x00; x00; x00] [x01; x02]).
  - repeat constructor;
      try (eexists; split; [reflexivity|split; [reflexivity|discriminate]]).
  - repeat constructor. vm_compute. discriminate.
  - reflexivity.
  - repeat constructor.
    eexists; split; [reflexivity|split; [reflexivity|discriminate]].
  - vm_compute. discriminate.
Defined.

(** * The search for the end mark *)

Lemma all_members_walk (info : bytes) (dl : Z) (es : list bytes) :
  forall pre post fuel,
    info = pre ++ List.concat es ++ post ->
    Forall entry_sized es ->
    len pre + len (List.concat es) <= dl ->
    all_members_block (List.length es + fuel) info dl (len pre)
    = all_members_block fuel info dl (len pre + len (List.concat es)).
Proof.
  induction es as [|e es IH]; intros pre post fuel Hi Hs Hd.
  - cbn [List.concat List.length plus].
    change (len (@nil byte)) with 0. rewrite Z.add_0_r. reflexivity.
  - apply Forall_cons_iff in Hs. destruct Hs as [He Hs].
    pose proof (entry_len e He) as H12.
    destruct He as [f [Hf [Hl Hn]]].
    cbn [List.concat] in Hi, Hd |- *. rewrite len_app in Hd.
    rewrite <- app_assoc in Hi.
    assert (Hname : slice info (len pre) (len pre + 8) = slice e 0 8).
    { rewrite Hi. rewrite <- (slice_mid pre e (List.concat es ++ post) 0 8) by lia.
      rewrite Z.add_0_r. reflexivity. }
    assert (Hflag : index info (len pre + 11) = Ok f).
    { rewrite Hi, index_mid by lia. exact Hf. }
    cbn [List.length plus all_members_block].
    pose proof (len_nonneg (List.concat es)) as Hc.
    assert (L : (len pre <? dl) = true) by lia. rewrite L.
    rewrite Hname, Hflag.
    assert (B : bytes_eqb (slice e 0 8) (repeat_byte xff 8) = false).
    { unfold bytes_eqb. destruct (list_eq_dec _ _ _); [contradiction|].
      reflexivity. }
    rewrite B. cbn [bind].
    replace (len pre + 8 + 3 + 1 + Z.land (bv f) 31 * 2)
      with (len (pre ++ e)) by (rewrite len_app; lia).
    rewrite (IH (pre ++ e) post fuel); [| |exact Hs|].
    + rewrite !len_app, Z.add_assoc. reflexivity.
    + rewrite Hi, <- !app_assoc. reflexivity.
    + rewrite len_app. lia.
Qed.

Lemma all_members_block_done (info : bytes) (dl loc : Z) (fuel : nat) :
  dl <= loc -> all_members_block fuel info dl loc = Ok false.
Proof.
  intros H. assert (L : (loc <? dl) = false) by lia.
  destruct fuel; cbn [all_members_block]; rewrite L; reflexivity.
Qed.

Lemma all_members_blocks_done (members : bytes) (block_loc : Z)
  (fuel : nat) :
  len members <= block_loc ->
  all_members_blocks fuel members block_loc = Ok false.
Proof.
  intros H. assert (L : (block_loc <? len members) = false) by lia.
  destruct fuel; cbn [all_members_blocks]; rewrite L; reflexivity.
Qed.

Lemma all_members_mark (info pre post : bytes) (dl : Z) (fuel : nat) :
  info = pre ++ repeat_byte xff 8 ++ post -> len pre < dl ->
  all_members_block (S fuel) info dl (len pre) = Ok true.
Proof.
  intros Hi Hd. cbn [all_members_block].
  assert (L : (len pre <? dl) = true) by lia. rewrite L.
  replace (slice info (len pre) (len pre + 8)) with (repeat_byte xff 8)
    by (symmetry; eapply slice_at; [exact Hi | reflexivity | reflexivity]).
  unfold bytes_eqb. destruct (list_eq_dec _ _ _); [reflexivity|].
  contradiction.
Qed.

Lemma all_members_block_read (members pre : bytes)
  (b : bytes * list bytes * bytes) (post : bytes) (fuel : nat) :
  members = pre ++ dir_block b ++ post -> block_sized b ->
  all_members_blocks (S fuel) members (len pre)
  = all_members_blocks fuel members (len pre + 276).
Proof.
  intros Hd Hb.
  pose proof (len_dir_block b Hb) as H276.
  destruct b as [[hdr es] pad].
  pose proof (block_fits hdr es pad Hb) as Hfit.
  destruct Hb as [Hh [Hs Hp]].
  destruct (block_area members pre hdr (List.concat es) (pad ++ post))
    as [A1 A2]; [|exact Hh|lia|].
  { rewrite Hd. unfold dir_block. rewrite <- !app_assoc. reflexivity. }
  cbn [all_members_blocks]. cbv zeta.
  assert (L : (len pre <? len members) = true).
  { rewrite Hd, !len_app, H276. pose proof (len_nonneg post). lia. }
  rewrite L, A1, A2.
  pose proof (entries_count es Hs) as Hc.
  replace (Z.to_nat (len (List.concat es)))
    with (List.length es
          + (Z.to_nat (len (List.concat es)) - List.length es))%nat
    by lia.
  pose proof (all_members_walk (List.concat es) (len (List.concat es)) es
                [] [] (Z.to_nat (len (List.concat es)) - List.length es))
    as W.
  change (len (@nil byte)) with 0 in W. rewrite Z.add_0_l in W.
  rewrite W; [|rewrite app_nil_r; reflexivity|exact Hs|lia].
  rewrite all_members_block_done by lia. reflexivity.
Qed.

Lemma all_members_blocks_walk (members : bytes)
  (bs : list (bytes * list bytes * bytes)) :
  forall pre post fuel,
    members = pre ++ List.concat (map dir_block bs) ++ post ->
    Forall block_sized bs ->
    all_members_blocks (List.length bs + fuel) members (len pre)
    = all_members_blocks fuel members
        (len pre + len (List.concat (map dir_block bs))).
Proof.
  induction bs as [|b bs IH]; intros pre post fuel Hd Hs.
  - cbn [map List.concat List.length plus].
    change (len (@nil byte)) with 0. rewrite Z.add_0_r. reflexivity.
  - apply Forall_cons_iff in Hs. destruct Hs as [Hb Hs].
    cbn [map List.concat List.length plus] in Hd |- *.
    rewrite <- app_assoc in Hd.
    rewrite (all_members_block_read members pre b _ _ Hd Hb).
    pose proof (len_dir_block b Hb) as H276.
    replace (len pre + 276) with (len (pre ++ dir_block b))
      by (rewrite len_app; lia).
    rewrite (IH (pre ++ dir_block b) post fuel); [| |exact Hs].
    + rewrite !len_app, Z.add_assoc. reflexivity.
    + rewrite Hd, <- !app_assoc. reflexivity.
Qed.

Lemma all_members_end_block (members pre hdr : bytes) (es : list bytes)
  (tail rest : bytes) (fuel : nat) :
  members = pre ++ end_block hdr es tail ++ rest ->
  len hdr = 20 -> Forall entry_sized es ->
  len (List.concat es) + len tail <= 65525 ->
  all_members_blocks (S fuel) members (len pre) = Ok true.
Proof.
  intros Hd Hh Hs Hb.
  set (body := List.concat es ++ repeat_byte xff 8 ++ tail).
  assert (Hlb : len body = len (List.concat es) + 8 + len tail).
  { unfold body. rewrite !len_app. change (len (repeat_byte xff 8)) with 8.
    lia. }
  pose proof (len_nonneg tail) as Ht. pose proof (len_nonneg rest) as Hr.
  pose proof (entries_count es Hs) as Hc.
  destruct (block_area members pre hdr body rest) as [A1 A2];
    [exact Hd|exact Hh|lia|].
  cbn [all_members_blocks]. cbv zeta.
  assert (L : (len pre <? len members) = true).
  { rewrite Hd. unfold end_block. cbv zeta. fold body.
    rewrite !len_app, len_be16. lia. }
  rewrite L, A1, A2.
  replace (Z.to_nat (len body))
    with (List.length es + S (Z.to_nat (len body) - List.length es - 1))%nat
    by lia.
  pose proof (all_members_walk body (len body) es
                [] (repeat_byte xff 8 ++ tail)
                (S (Z.to_nat (len body) - List.length es - 1)))
    as W.
  change (len (@nil byte)) with 0 in W. rewrite Z.add_0_l in W.
  rewrite W; [|reflexivity|exact Hs|lia].
  rewrite (all_members_mark body (List.concat es) tail); [|reflexivity|lia].
  reflexivity.
Qed.

(** X19: [all_members] is false for directory blocks without the end mark
    and true as soon as a block follows whose entries end with the mark,
    whatever comes after the mark. *)
Theorem all_members_finds_end_mark
  (bs : list (bytes * list bytes * bytes)) (hdr : bytes) (es : list bytes)
  (tail rest : bytes) :
  Forall block_sized bs ->
  len hdr = 20 -> Forall entry_sized es ->
  len (List.concat es) + len tail <= 65525 ->
  all_members (List.concat (map dir_block bs)) = Ok false
  /\ all_members
       (List.concat (map dir_block bs) ++ end_block hdr es tail ++ rest)
     = Ok true.
Proof.
  intros Hbs Hh Hs Hb.
  pose proof (len_dir_blocks bs Hbs) as Hlen.
  split; unfold all_members.
  - set (members := List.concat (map dir_block bs)) in *.
    replace (List.length members)
      with (List.length bs + (List.length members - List.length bs))%nat
      by (unfold len in Hlen; lia).
    pose proof (all_members_blocks_walk members bs [] []
                  (List.length members - List.length bs)) as W.
    change (len (@nil byte)) with 0 in W. rewrite Z.add_0_l in W.
    rewrite W; [|unfold members; rewrite app_nil_r; reflexivity|exact Hbs].
    apply all_members_blocks_done. subst members. lia.
  - set (members :=
           List.concat (map dir_block bs) ++ end_block hdr es tail ++ rest).
    assert (Hdl : len members
                  = 276 * Z.of_nat (List.length bs)
                    + len (end_block hdr es tail) + len rest).
    { unfold members. rewrite !len_app. lia. }
    assert (He : 22 <= len (end_block hdr es tail)).
    { unfold end_block. cbv zeta. rewrite !len_app, len_be16.
      pose proof (len_nonneg (List.concat es)). pose proof (len_nonneg tail).
      change (len (repeat_byte xff 8)) with 8. lia. }
    pose proof (len_nonneg rest) as Hr.
    replace (List.length members)
      with (List.length bs + S (List.length members - List.length bs - 1))%nat
      by (unfold len in Hdl, He, Hr; lia).
    pose proof (all_members_blocks_walk members bs []
                  (end_block hdr es tail ++ rest)
                  (S (List.length members - List.length bs - 1))) as W.
    change (len (@nil byte)) with 0 in W. rewrite Z.add_0_l in W.
    rewrite W; [|reflexivity|exact Hbs].
    apply (all_members_end_block members (List.concat (map dir_block bs))
             hdr es tail rest); auto.
Qed.

Lemma all_members_finds_end_mark_witness :
  all_members (List.concat (map dir_block [block_AB; block_full]))
  = Ok false
  /\ all_members
       (List.concat (map dir_block [block_AB; block_full])
        ++ end_block block_header [entry_plain name_C] [x00; x00; x00; x00]
        ++ [x01; x02])
     = Ok true.
Proof.
  apply (all_members_finds_end_mark [block_AB; block_full] block_header
           [entry_plain name_C] [x00; x00; x00; x00] [x01; x02]).
  - repeat constructor;
      try (eexists; split; [reflexivity|split; [reflexivity|discriminate]]).
  - reflexivity.
  - repeat constructor.
    eexists; split; [reflexivity|split; [reflexivity|discriminate]].
  - vm_compute. discriminate.
Defined.

(** * A block without free bytes *)

Lemma full_block_read (cfg : config) (directory pre : bytes)
  (b : bytes * list bytes * bytes) (next : bytes) (k : Z) (fuel : nat)
  (members : members_dict) :
  directory = pre ++ dir_block b ++ next ->
  block_sized b -> len (List.concat (block_entries b)) = 254 ->
  len pre = 276 * k -> len next <= 276 ->
  directory_blocks (S fuel) cfg directory (len pre) members
  = read_entries cfg (block_entries b) members.
Proof.
  intros Hd Hb H254 Hk Hn.
  pose proof (len_dir_block b Hb) as H276.
  destruct b as [[hdr es] pad]. cbn [block_entries fst snd] in *.
  destruct Hb as [Hh [Hs Hp]].
  destruct (block_area directory pre hdr (List.concat es) (pad ++ next))
    as [A1 A2]; [|exact Hh|lia|].
  { rewrite Hd. unfold dir_block. rewrite <- !app_assoc. reflexivity. }
  cbn [directory_blocks]. cbv zeta.
  assert (L : (len pre <? len directory) = true).
  { rewrite Hd, !len_app, H276. pose proof (len_nonneg next). lia. }
  rewrite L, A1, A2.
  pose proof (entries_count es Hs) as Hc.
  replace (Z.to_nat (len (List.concat es)))
    with (List.length es
          + (Z.to_nat (len (List.concat es)) - List.length es))%nat
    by lia.
  pose proof (entries_walk cfg directory (List.concat es)
                (len (List.concat es)) es [] []
                (Z.to_nat (len (List.concat es)) - List.length es) members)
    as W.
  change (len (@nil byte)) with 0 in W. rewrite Z.add_0_l in W.
  rewrite W; [|rewrite app_nil_r; reflexivity|exact Hs|lia].
  destruct (read_entries cfg es members) as [ms| | |]; cbn [bind];
    try reflexivity.
  rewrite directory_block_done by lia. cbn [bind].
  apply directory_blocks_done.
  rewrite Hd, !len_app, H276, H254, Hk.
  replace (276 * k + 254 + 24) with (278 + k * 276) by lia.
  rewrite Z_mod_plus_full, Z_div_plus_full by lia.
  change (278 mod 276) with 2. change (278 / 276) with 1.
  cbn [Z.ltb Z.compare]. lia.
Qed.

(** X20: when the entries of a block take all its 254 bytes, the 276 bytes
    after the block are not read by [get_members_info]: the members are
    those of the blocks up to the full one, whatever follows it. *)
Theorem full_block_hides_next (cfg : config)
  (bs : list (bytes * list bytes * bytes)) (b : bytes * list bytes * bytes)
  (next : bytes) :
  Forall block_sized bs ->
  Forall (fun b => len (List.concat (block_entries b)) <= 252) bs ->
  block_sized b -> len (List.concat (block_entries b)) = 254 ->
  len next <= 276 ->
  exists members,
    get_members_info cfg
      (List.concat (map dir_block bs) ++ dir_block b ++ next)
    = Ok members
    /\ read_entries cfg
         (List.concat (map block_entries bs) ++ block_entries b) []
       = Ok members.
Proof.
  intros Hbs H252 Hb H254 Hn.
  assert (Hall : Forall entry_sized
                   (List.concat (map block_entries bs) ++ block_entries b)).
  { apply Forall_app. split.
    - apply Forall_concat. apply Forall_map.
      eapply Forall_impl; [|exact Hbs].
      intros [[h e] p] [_ [He _]]. exact He.
    - destruct b as [[h e] p]. destruct Hb as [_ [He _]]. exact He. }
  destruct (read_entries_total cfg _ Hall []) as [members Hm].
  exists members. split; [|exact Hm].
  rewrite <- Hm. unfold get_members_info.
  set (directory := List.concat (map dir_block bs) ++ dir_block b ++ next).
  pose proof (len_dir_blocks bs Hbs) as Hlen.
  pose proof (len_dir_block b Hb) as H276.
  assert (Hdl : len directory
                = 276 * Z.of_nat (List.length bs) + 276 + len next).
  { unfold directory. rewrite !len_app. lia. }
  pose proof (len_nonneg next) as Hr.
  replace (List.length directory)
    with (List.length bs + S (List.length directory - List.length bs - 1))%nat
    by (unfold len in Hdl, Hr; lia).
  pose proof (blocks_walk cfg directory bs [] (dir_block b ++ next)
                0 (S (List.length directory - List.length bs - 1)) [])
    as W.
  change (len (@nil byte)) with 0 in W. rewrite Z.add_0_l in W.
  rewrite W; [|reflexivity|exact Hbs|exact H252|reflexivity].
  rewrite read_entries_app.
  destruct (read_entries cfg (List.concat (map block_entries bs)) [])
    as [ms| | |]; cbn [bind]; try reflexivity.
  apply (full_block_read cfg directory (List.concat (map dir_block bs)) b
           next (Z.of_nat (List.length bs))); auto.
Qed.

Lemma full_block_hides_next_witness :
  exists members,
    get_members_info default_config
      (List.concat (map dir_block [block_AB]) ++ dir_block block_full
       ++ end_block block_header [entry_plain name_E] [])
    = Ok members
    /\ read_entries default_config
         (List.concat (map block_entries [block_AB])
          ++ block_entries block_full) []
       = Ok members.
Proof.
  apply (full_block_hides_next default_config [block_AB] block_full
           (end_block block_header [entry_plain name_E] [])).
  - repeat constructor;
      try (eexists; split; [reflexivity|split; [reflexivity|discriminate]]).
  - repeat constructor. vm_compute. discriminate.
  - repeat constructor;
      try (eexists; split; [reflexivity|split; [reflexivity|discriminate]]).
  - reflexivity.
  - vm_compute. discriminate.
Defined.

(** * What the control records need *)

Lemma unit_entry_known (cfg : config) (u : Z * list bytes) (n : string)
  (ty : ttype) :
  text_keys (fst u) = Some (n, ty) ->
  unit_entry cfg u = (n, plain_value cfg ty (last (snd u) [])).
Proof. intros E. unfold unit_entry. rewrite E. reflexivity. Qed.

Lemma entries_get_none (cfg : config) (us : list (Z * list bytes)) (k0 : Z)
  (n0 : string) (ty0 : ttype) :
  Forall known_unit us -> text_keys k0 = Some (n0, ty0) ->
  ~ In k0 (map fst us) ->
  dget String.eqb (map (unit_entry cfg) us) n0 = None.
Proof.
  intros Hk H0. induction us as [|u us IH]; intros Hn; [reflexivity|].
  apply Forall_cons_iff in Hk. destruct Hk as [Hu Hk].
  destruct Hu as [_ [Hkey _]].
  destruct (text_keys (fst u)) as [[n ty]|] eqn:E; [|contradiction].
  cbn [map]. rewrite (unit_entry_known cfg u n ty E). cbn [dget].
  destruct (String.eqb_spec n0 n) as [->|N].
  - exfalso. apply Hn. left. exact (text_keys_inj _ _ _ _ _ E H0).
  - apply IH; [exact Hk|]. intros I. apply Hn. right. exact I.
Qed.

Lemma entries_get_some (cfg : config) (us : list (Z * list bytes)) (k0 : Z)
  (items : list bytes) (n0 : string) (ty0 : ttype) :
  Forall known_unit us -> text_keys k0 = Some (n0, ty0) ->
  NoDup (map fst us) -> In (k0, items) us ->
  dget String.eqb (map (unit_entry cfg) us) n0
  = Some (plain_value cfg ty0 (last items [])).
Proof.
  intros Hk H0. induction us as [|u us IH]; intros Hd Hi; [contradiction|].
  apply Forall_cons_iff in Hk. destruct Hk as [Hu Hk].
  destruct Hu as [_ [Hkey _]].
  cbn [map] in Hd. apply NoDup_cons_iff in Hd. destruct Hd as [Hnin Hd].
  destruct (text_keys (fst u)) as [[n ty]|] eqn:E; [|contradiction].
  cbn [map]. rewrite (unit_entry_known cfg u n ty E). cbn [dget].
  destruct Hi as [->|Hi].
  - cbn [fst snd] in *. rewrite H0 in E. injection E as <- <-.
    rewrite String.eqb_refl. reflexivity.
  - destruct (String.eqb_spec n0 n) as [->|N].
    + exfalso. apply Hnin.
      rewrite (text_keys_inj _ _ _ _ _ E H0).
      apply (in_map fst us (k0, items) Hi).
    + apply IH; assumption.
Qed.

(** Without both the organisation and the record format among the units
    the translation of the two stops. *)
Lemma translate_needs_both (cfg : config) (us : list (Z * list bytes)) :
  Forall known_unit us -> NoDup (map fst us) ->
  ~ (In 0x003C (map fst us) /\ In 0x0049 (map fst us)) ->
  translate_dsorg_recfm (map (unit_entry cfg) us) = Raise KeyError.
Proof.
  intros Hk Hd Hn. unfold translate_dsorg_recfm, dfind.
  destruct (in_dec Z.eq_dec 0x003C (map fst us)) as [I|I].
  - apply in_map_iff in I. destruct I as [[k items] [Ek I]].
    cbn [fst] in Ek. subst k.
    rewrite (entries_get_some cfg us 0x003C items "INMDSORG"%string hex
               Hk eq_refl Hd I).
    cbn [bind plain_value]. unfold get_dsorg. cbn [bind].
    rewrite nget_other by discriminate.
    rewrite (entries_get_none cfg us 0x0049 "INMRECFM"%string hex Hk eq_refl).
    + reflexivity.
    + intros I9. apply Hn. split; [|exact I9].
      apply (in_map fst us (0x003C, items) I).
  - rewrite (entries_get_none cfg us 0x003C "INMDSORG"%string hex Hk eq_refl I).
    reflexivity.
Qed.

Lemma count_and_units (count units : bytes) :
  len count = 4 ->
  unpack_L (slice (count ++ units) 0 4) = Ok (get_int count)
  /\ slice_from (count ++ units) 4 = units.
Proof.
  intros H4. split.
  - rewrite (slice_at (count ++ units) [] count units 0 4);
      [|reflexivity|reflexivity|rewrite H4; reflexivity].
    unfold unpack_L. rewrite H4. reflexivity.
  - pose proof (slice_from_app count units) as SF. rewrite H4 in SF.
    exact SF.
Qed.

(** X21: a control record whose text units, with known and different keys,
    lack the organisation [INMDSORG] or the record format [INMRECFM] is
    refused with [KeyError], by [parse_INMR02] and by [parse_INMR03]. *)
Theorem control_record_needs_dsorg_and_recfm (cfg : config) (o : xmit_obj)
  (count : bytes) (us : list (Z * list bytes)) :
  len count = 4 ->
  Forall known_unit us ->
  Forall (fun u => fst u <> 0x0002 /\ fst u <> 0x8012) us ->
  NoDup (map fst us) ->
  ~ (In 0x003C (map fst us) /\ In 0x0049 (map fst us)) ->
  parse_INMR02 cfg o (count ++ encode_units us) = Raise KeyError
  /\ parse_INMR03 cfg o (encode_units us) = Raise KeyError.
Proof.
  intros H4 Hk Hn Hd Hm.
  pose proof (text_units_entries cfg (msg o) us Hk Hn Hd) as T.
  pose proof (translate_needs_both cfg us Hk Hd Hm) as R.
  destruct (count_and_units count (encode_units us) H4) as [C1 C2].
  split.
  - unfold parse_INMR02. rewrite C1, C2. cbn [bind].
    rewrite T. cbn [bind]. rewrite R. reflexivity.
  - unfold parse_INMR03. rewrite T. cbn [bind]. rewrite R. reflexivity.
Qed.

Lemma control_record_needs_dsorg_and_recfm_witness :
  parse_INMR02 default_config new_XMIT
    ([x00; x00; x00; x01] ++ encode_units units_plain) = Raise KeyError
  /\ parse_INMR03 default_config new_XMIT (encode_units units_plain)
     = Raise KeyError.
Proof.
  apply (control_record_needs_dsorg_and_recfm default_config new_XMIT
           [x00; x00; x00; x01] units_plain).
  - reflexivity.
  - repeat constructor; try discriminate; simpl; lia.
  - repeat constructor; discriminate.
  - repeat constructor; simpl; intuition discriminate.
  - simpl. intuition discriminate.
Defined.

(** The entries of the units that follow the dataset name. *)
Lemma units_after_dsname (cfg : config) (m : bool)
  (before : list (Z * list bytes)) (parts : list bytes)
  (later : list (Z * list bytes)) :
  Forall known_unit before ->
  Forall (fun u => fst u <> 2) before ->
  known_unit (2, parts) ->
  Forall known_unit later ->
  Forall (fun u => fst u <> 2) later ->
  exists t,
    text_units cfg m (encode_units (before ++ (2, parts) :: later))
    = Ok (t, m)
    /\ forall u name ty,
         In u later -> text_keys (fst u) = Some (name, ty) ->
         dget String.eqb t name
         = Some (VStr (join [46] (map (decode (ebcdic cfg)) parts))).
Proof.
  intros Hb Hbne Hds Hall Hne.
  assert (Hparts : parts <> []) by (destruct Hds as [_ [_ [H _]]]; exact H).
  set (us := before ++ (2, parts) :: later).
  set (tr := encode_units us).
  assert (R : text_units_loop (List.length tr) cfg tr (tu_at 0 ([], []) m)
              = Ok (tu_at (len tr) (units_fold cfg us ([], [])) m)).
  { apply (units_read cfg tr m us []);
      [reflexivity | reflexivity
      | apply Forall_app; split; [exact Hb | constructor; assumption]
      | apply length_encode_units]. }
  unfold text_units. fold tr.
  change {| tu_loc := 0; tu := []; INMDSNAM := []; tu_msg := m |}
    with (tu_at 0 ([], []) m).
  rewrite R. cbn [bind tu_at tu tu_msg].
  unfold us. rewrite units_fold_app.
  pose proof (units_fold_unnamed cfg before Hbne []) as B.
  unfold tudict, str, dict, bytes in *.
  destruct (units_fold cfg before ([], [])) as [t0 nm0].
  cbn [snd] in B. subst nm0.
  change (units_fold cfg ((2, parts) :: later) (t0, []))
    with (units_fold cfg later (items_fold cfg 2 parts (t0, []))).
  destruct (items_fold_dsname cfg parts t0 []) as [D1 _].
  simpl app in D1.
  assert (Hnm : snd (items_fold cfg 2 parts (t0, [])) <> [])
    by (intros H; apply (dotted_nonempty cfg parts Hparts);
        exact (eq_trans (eq_sym D1) H)).
  destruct (units_fold_named cfg later Hall Hne
              (items_fold cfg 2 parts (t0, [])) Hnm) as [_ [_ I3]].
  unfold tudict, str, dict, bytes in *.
  rewrite D1 in I3.
  pose proof (slice_to_dotted cfg parts Hparts) as SD.
  unfold tudict, str, dict, bytes in *.
  rewrite SD in I3.
  eexists. split; [reflexivity|]. exact I3.
Qed.

(** X22: a control record in which the dataset name comes before the
    organisation [INMDSORG] is refused with [TypeError], by [parse_INMR02]
    and by [parse_INMR03]: the entry of the organisation then holds the
    dataset name, a string, which [get_dsorg] cannot test for its bits. *)
Theorem dsname_before_dsorg_is_refused (cfg : config) (o : xmit_obj)
  (count : bytes) (before : list (Z * list bytes)) (parts : list bytes)
  (later : list (Z * list bytes)) :
  len count = 4 ->
  Forall known_unit before ->
  Forall (fun u => fst u <> 2) before ->
  known_unit (2, parts) ->
  Forall known_unit later ->
  Forall (fun u => fst u <> 2) later ->
  In 0x003C (map fst later) ->
  parse_INMR02 cfg o
    (count ++ encode_units (before ++ (2, parts) :: later))
  = Raise TypeError
  /\ parse_INMR03 cfg o (encode_units (before ++ (2, parts) :: later))
     = Raise TypeError.
Proof.
  intros H4 Hb Hbne Hds Hall Hne Hin.
  destruct (units_after_dsname cfg (msg o) before parts later
              Hb Hbne Hds Hall Hne) as [t [T G]].
  apply in_map_iff in Hin. destruct Hin as [u [Eu Iu]].
  assert (D : dget String.eqb t "INMDSORG"%string
              = Some (VStr (join [46] (map (decode (ebcdic cfg)) parts)))).
  { apply (G u "INMDSORG"%string hex Iu). rewrite Eu. reflexivity. }
  assert (R : translate_dsorg_recfm t = Raise TypeError).
  { unfold translate_dsorg_recfm, dfind. rewrite D. reflexivity. }
  destruct (count_and_units count
              (encode_units (before ++ (2, parts) :: later)) H4) as [C1 C2].
  split.
  - unfold parse_INMR02. rewrite C1, C2. cbn [bind].
    rewrite T. cbn [bind]. rewrite R. reflexivity.
  - unfold parse_INMR03. rewrite T. cbn [bind]. rewrite R. reflexivity.
Qed.

Lemma dsname_before_dsorg_is_refused_witness :
  parse_INMR02 default_config new_XMIT
    ([x00; x00; x00; x01] ++ encode_units units_name_first)
  = Raise TypeError
  /\ parse_INMR03 default_config new_XMIT (encode_units units_name_first)
     = Raise TypeError.
Proof.
  apply (dsname_before_dsorg_is_refused default_config new_XMIT
           [x00; x00; x00; x01] [(0x0042, [[x00; x50]])] [[xc1]; [xc2; xc3]]
           [(0x003C, [[x02; x00]]); (0x0049, [[x90; x00]])]).
  - reflexivity.
  - repeat constructor; try discriminate; simpl; lia.
  - repeat constructor; discriminate.
  - repeat constructor; try discriminate; simpl; lia.
  - repeat constructor; try discriminate; simpl; lia.
  - repeat constructor; discriminate.
  - simpl. auto.
Defined.
